(* ===== verification/_CoqProject ===== *)
-Q . S2P
Prelude.v
Identity.v
Counter.v
Taxonomy.v
Evidence.v
Types.v
State.v
Readiness.v
Domains.v
Indexes.v
Invariant.v
Queries.v
RackRef.v
EngineBase.v
EngineRack.v
EngineTopology.v
EngineCluster.v
Rollback.v
Explain.v
Durable.v
Commit.v
Scenario.v
Witnesses.v
CommitProofs.v
FenceProofs.v
Monotone.v
Reachable.v
Gates.v
Idempotent.v
Effects.v
RecoveryProofs.v
Keyed.v
Lifetime.v
Snapshot.v
SnapshotProofs.v
Divergences.v
Wire.v
Codec.v
WireStream.v
WireRecords.v
WireMessages.v
WireShared.v
Frame.v
FrameProofs.v
PersistFields.v
PersistValid.v
Persist.v
PersistCodec.v
PersistProofs.v
PersistSound.v
Stores.v
StoreProofs.v
Process.v
ProcessProofs.v
Transport.v
Session.v
SessionProofs.v
Agent.v
AgentProofs.v
EndToEnd.v
Facade.v
FacadeProofs.v
Synthetic.v
SyntheticProofs.v
Inspect.v
InspectProofs.v
Programs.v
ProgramProofs.v
