(* ===== verification/Prelude.v ===== *)
(** * Cluster Fabric: a verification development

    Cluster Fabric keeps the authoritative composition of one cluster: its
    racks, the links between them, the domains they belong to, the constraints
    declared for them, and the authority (epochs, generations, process
    incarnations) under which each record was accepted.  One coordinator
    process owns the canonical state.  Requests arrive in a queue; a single
    commit thread takes them one by one, runs the gates and the handler of the
    mutation, evaluates readiness, checks the invariants, hands the durable form
    of the candidate state to a store and publishes it; a refusal at any of
    these points is undone from a journal.  A lost process incarnation is fenced
    through the same queue.  A restart recovers the durable state under a new
    coordinator epoch.  Consumers bind to snapshots and validate them later.
    Peers reach the queue through sessions, one thread per connection, that
    speak a framed binary protocol; an agent runs beside each rack, connects,
    registers and publishes what it knows of its rack.

    ** Files and the sources they model (paths below [src/] of the repository)

    - [Prelude]: record update, sorting and searching ([std::sort],
      [std::unique], [std::binary_search]), ordered map iteration, strings.
    - [Identity], [Counter], [Taxonomy], [Evidence]: [identity], [generation],
      [taxonomy], [lifecycle], [evidence], and the enumerations of [mutation]
      and [error] ([.hpp] and [.cpp]).
    - [Types], [State], [Domains]: the structures of [domains.hpp],
      [topology.hpp], [rack_reference.hpp], [cluster_state.hpp], [mutation.hpp];
      [Domains.DomainTraits] is the traits template of the engine, the interface
      through which the eight domain maps are handled uniformly, and
      [Domains.DomainLaws] what the proofs need of it.
    - [Readiness], [Indexes], [Queries]: [cluster_state.cpp].
    - [Invariant]: [invariant.cpp].  [RackRef]: [rack_reference.cpp].
      [Explain]: [explanation.cpp] and [error.cpp].
    - [EngineBase], [EngineRack], [EngineTopology], [EngineCluster]: the gates,
      the undo journal and the handlers of [coordinator_engine.cpp].
    - [Durable]: the projection to durable state and recovery
      ([coordinator_engine.cpp], [load_durable_state] of [coordinator.cpp]).
    - [Commit]: [apply_and_commit], [apply_fence] and the commit loop.
    - [Snapshot]: [snapshot.cpp], [SnapshotView::from_snapshot] of
      [protocol.cpp] and [validate_view] of [coordinator_network.cpp].
    - [Wire], [WireStream], [WireRecords], [WireMessages], [WireShared], [Frame]:
      [protocol.cpp]: the byte writer and reader, the field readers and writers
      with the failure they report, the records, the sixteen messages, the
      standalone records, the checksum and the frames.  [Codec] is the interface
      all of them are proved against: a writer and a reader that are exact
      inverses on the values that fit.  [FrameProofs] holds the theorems.
    - [PersistFields], [PersistValid], [Persist]: the container of
      [persistence.cpp]: fields, structural validation, encoder and decoder.
      [PersistCodec], [PersistProofs], [PersistSound]: its theorems.
    - [Stores], [StoreProofs]: the memory store and the file store of
      [persistence.cpp]; [StoreProofs.DurableStore] and
      [StoreProofs.DurableStoreLaws] are what a store promises to recovery.
    - [Process], [ProcessProofs]: [start], [stop], [submit], [fence_boot] of
      [coordinator.cpp], [run_commit] and [stop] of the implementation: the
      queue, the completion slots and the commit thread as atomic steps that
      interleave.
    - [Transport]: [receive_exact], [send_all] and the reading of a frame.
      [Session], [SessionProofs]: the rest of [coordinator_network.cpp]: the
      handler of each message, the loop of a session, admission and detachment,
      and a server as a process with its sessions.
    - [Facade], [FacadeProofs]: [with_state] with its cache of indexes, the
      queries and the explanations of [coordinator.cpp].
    - [Synthetic], [SyntheticProofs]: the scenario generator of [synthetic.cpp].
    - [Agent], [AgentProofs]: [rack_agent.cpp].  [EndToEnd]: the agent and the
      session on the two ends of one connection.
    - [Inspect], [InspectProofs]: the inspection tool, [apps/inspect_main.cpp].
    - [Programs], [ProgramProofs]: [Programs.Coordinating] is
      [apps/coordinator_main.cpp], its main thread a sequence of steps among those
      of [Process]; [Programs.Publishing] is [apps/rack_agent_main.cpp];
      [Programs.Probe] is [src/cuda_probe.cpp].
    - [Scenario], [Witnesses]: a concrete run of the model on which the theorems
      with hypotheses are instantiated.
    - [Rollback], [CommitProofs], [FenceProofs], [Monotone], [Reachable],
      [Gates], [Idempotent], [Effects], [RecoveryProofs], [Keyed], [Lifetime],
      [SnapshotProofs], [Divergences]: the theorems about the above.

    ** How the code is represented

    Structures are records with the fields of the source; [r <| f := v |>] is a
    field assignment.  A 64-bit counter is an [N] with a checked successor;
    signed 64-bit values are [Z]; a [double] is its 64-bit pattern, compared and
    added as IEEE binary64.  A [std::map] is a [gmap], iterated through
    [entries], which lists it in key order; a [std::vector] is a list.  The
    engine's mutable context (canonical state, journal, changed flag) is passed
    explicitly; the journal is a list of undo functions, as in the source.
    Errors are values of [MutationResult].  The clock readings and the store's
    answers are arguments.  [Commit.run_commit] is the commit thread as a fold
    over a queue; [Process.perform] is the same thread among submitters, fences,
    starts and stops, a step for each critical section, and
    [ProcessProofs.process_linearizes] shows that every interleaving is a fold.
    [Session.serve] adds the session threads in the same way.
    [Lifetime.life_step] adds restarts as a step relation.  A socket is the list
    of what its reads will meet (bytes in some segmentation, interruptions,
    errors, the stop flag) and of whether its writes succeed; an agent is a state
    passed through a small exception monad ([Agent.Exchange]).

    ** What the theorems show

    - Safety of commits ([CommitProofs], [Reachable], [Lifetime]): a refusal
      restores canonical state; the invariants hold along every history, over
      restarts too; changes reach the store before they are visible; generations
      never go back.
    - Authority ([Gates], [Effects], [Lifetime]): stale epochs and fenced
      incarnations are refused; a fence takes effect and is permanent;
      retirement is permanent; a restart gives up live authority.
    - Functional correctness ([Readiness], [Queries], [Invariant], [RackRef],
      [Snapshot], [Idempotent]): evaluations and queries decide declarative
      specifications; admission is idempotent; snapshot validation decides
      currentness and its wire form agrees.
    - Queries ([FacadeProofs]): a query sees the indexes of the state it is given,
      and an explanation has exactly the factors that hold.
    - Scenarios ([SyntheticProofs]): what is generated is marked synthetic
      throughout, is bounded whatever the configuration, has the links its density
      asks for, and its capacity domains are a partition of its racks.
    - Encodings ([Identity], [Counter], [Taxonomy], [Evidence], [Explain]):
      round trips and bounds.
    - The wire ([WireMessages], [Frame], [FrameProofs]): for every message type
      decoding is the exact inverse of encoding; framing round trips; the table
      checksum is the bitwise CRC32, and a burst of damage of at most four bytes
      is detected.
    - Durability ([PersistProofs], [PersistSound], [StoreProofs]): what is saved
      is restored; a damaged container is refused; whatever is decoded is
      consistent; saves are atomic under interruption; both stores refine a
      register, and a restart recovers what was saved.
    - Concurrency ([ProcessProofs], [SessionProofs]): submissions are
      linearizable and answered; a stop ends and leaves nobody waiting; a serving
      process is a process, whatever its peers send; a peer acts only after a
      handshake and only under the incarnation it declared; exactly which message
      ends the process.
    - The network ([Transport], [AgentProofs], [EndToEnd]): frames are received
      in any segmentation; an agent keeps its identity, takes a new publication
      number for what it sends and is silent once stopped; the handshake leaves
      both ends in agreement; a mutation through the network is the mutation
      itself.
    - The programs ([InspectProofs], [ProgramProofs]): the inspection tool only
      reads, its report is the view of the state at the other end of the
      connection, and its JSON strings stand for the text they were made of; a
      coordinator program that has come to serve, and is not quiet, serves a
      declared cluster.
    - Divergences ([Divergences] and some theorems of [Lifetime] and
      [SnapshotProofs]): where the code does not do what its documentation says.

    ** Bounds and fuel

    Digit loops ([Identity.digits_loop], [Identity.count_loop]) run on 64 units
    of fuel: a 64-bit value has at most 20 decimal and 16 hexadecimal digits.
    [Prelude.lower_bound] runs on the length of the list, more than its halving
    needs.  [Synthetic.widen_groups] counts the 64 rounds of the source, of which
    one is enough.  No theorem assumes that fuel suffices.

    ** Not modelled

    The CUDA kernel probe ([src/cuda/cuda_probe.cu], calls of a vendor library and
    a device kernel), whose result is an argument of the rack agent program; the
    examples and the benchmarks.  The calls of the operating system
    (sockets, files, clock) are inputs; threads are steps, so that what lies
    outside the critical sections is taken as atomic with them.  [Commit] keeps
    the store as a parameter, its answer an argument of each operation;
    [StoreProofs] ties the two stores of the code to recovery. *)

From Stdlib Require Import NArith ZArith Lia.
From stdpp Require Export base gmap sets strings sorting numbers list.
Export (notations) Stdlib.Strings.Ascii.

Declare Scope fabric_scope.
Delimit Scope fabric_scope with fabric.
#[global] Open Scope fabric_scope.

(** ** Record update

    The C++ code mutates one field of a structure at a time.  A record field
    [p : R → A] of a structure that is mutated carries an instance of [Upd p],
    derived from the eta-expansion of the record; [r <| p := v |>] is the
    structure with that field assigned. *)

Class Eta (R : Type) := eta : R → R.
Class Upd {R A : Type} (p : R → A) := upd : (A → A) → R → R.
Arguments upd {R A} p {_} f r.

Ltac derive_upd :=
  match goal with
  | |- @Upd ?R ?A ?p =>
      let e := eval cbv [eta] in (fun r : R => (_ : Eta R) r) in
      let e' := constr:(fun (f : A → A) (r : R) =>
         ltac:(let b := eval cbv beta in (e r) in
               match eval hnf in b with
               | ?t => let t' := eval pattern (p r) in t in
                       match t' with
                       | ?g _ => let u := eval cbv beta in (g (f (p r))) in exact u
                       end
               end)) in
      exact e'
  end.

Notation "r <| p := v |>" := (upd p (fun _ => v) r)
  (at level 1, left associativity, p at level 9, v at level 200,
   format "r  <| p  :=  v |>") : fabric_scope.

(** ** Machine integers *)

(** [std::numeric_limits<std::uint64_t>::max()]. *)
Definition u64_max : N := 18446744073709551615.
Definition u32_max : N := 4294967295.
Definition u16_max : N := 65535.
Definition i64_max : Z := 9223372036854775807.
Definition i64_min : Z := -9223372036854775808.

Definition in_i64 (z : Z) : bool := (i64_min <=? z)%Z && (z <=? i64_max)%Z.

(** [v.size()] of a container: a [std::size_t]. *)
Definition size {A} (l : list A) : N := N.of_nat (length l).

(** ** Strict orders given by a C++ [operator<] *)

(** A total strict order: the shape of [operator<] on identities, strings and
    counters. *)
Class StrictTotal {A : Type} (lt : A → A → bool) : Prop := {
  st_irrefl x : lt x x = false;
  st_trans x y z : lt x y = true → lt y z = true → lt x z = true;
  st_total x y : lt x y = true ∨ x = y ∨ lt y x = true
}.

(** A weak order: the shape of a comparator that looks only at some fields. *)
Class WeakOrder {A : Type} (lt : A → A → bool) : Prop := {
  wo_asym x y : lt x y = true → lt y x = false;
  wo_ntrans x y z : lt x y = false → lt y z = false → lt x z = false
}.

Lemma st_asym {A} (lt : A → A → bool) `{!StrictTotal lt} x y :
  lt x y = true → lt y x = false.
Proof.
  intros H. destruct (lt y x) eqn:E; [|done].
  pose proof (st_trans x y x H E) as Hx. by rewrite st_irrefl in Hx.
Qed.

#[global] Instance strict_total_weak {A} (lt : A → A → bool) `{!StrictTotal lt} : WeakOrder lt.
Proof.
  split; [apply st_asym; done|].
  intros x y z Hxy Hyz. destruct (lt x z) eqn:E; [|done].
  destruct (st_total (lt:=lt) x y) as [?|[->|H]]; [congruence|congruence|].
  by rewrite (st_trans y x z) in Hyz.
Qed.

(** A comparator on a projection inherits the weak order. *)
#[global] Instance weak_order_on {A B} (f : A → B) (lt : B → B → bool) `{!WeakOrder lt} :
  WeakOrder (λ x y, lt (f x) (f y)).
Proof. split; intros; [by apply wo_asym | by eapply wo_ntrans]. Qed.

(** The comparator [a.first != b.first ? a.first < b.first : a.second < b.second]. *)
Definition lex_lt {A B C} `{EqDecision B} (f : A → B) (ltb : B → B → bool)
    (g : A → C) (ltc : C → C → bool) (x y : A) : bool :=
  if decide (f x = f y) then ltc (g x) (g y) else ltb (f x) (f y).

#[global] Instance lex_weak_order {A B C} `{EqDecision B} (f : A → B) ltb (g : A → C) ltc
  `{!StrictTotal ltb, !WeakOrder ltc} : WeakOrder (lex_lt f ltb g ltc).
Proof.
  split; unfold lex_lt; intros x y.
  - intros H. repeat case_decide; try congruence.
    + by apply wo_asym.
    + by apply st_asym.
  - intros z Hxy Hyz. repeat case_decide; try congruence.
    + by eapply wo_ntrans.
    + exfalso. destruct (st_total (lt:=ltb) (f x) (f y)) as [?|[?|?]]; [congruence|congruence|].
      match goal with H : f x = f z |- _ => rewrite H in * end. congruence.
    + by eapply (wo_ntrans (lt:=ltb)).
Qed.

(** ** [std::sort], [std::unique] and [std::binary_search]

    [std::sort] leaves the order of equivalent elements unspecified; the model
    keeps them in their original order. *)

Section sorting.
  Context {A : Type} (lt : A → A → bool).

Fixpoint insert_by (x : A) (l : list A) : list A :=
  match l with
  | [] => [x]
  | y :: l' => if lt y x then y :: insert_by x l' else x :: l
  end.

Definition sort_by (l : list A) : list A := foldr insert_by [] l.

Lemma insert_by_perm x l : insert_by x l ≡ₚ x :: l.
Proof.
  induction l as [|y l IH]; simpl; [done|].
  destruct (lt y x); [|done]. rewrite IH. apply Permutation_swap.
Qed.

Lemma sort_by_perm l : sort_by l ≡ₚ l.
Proof. induction l as [|x l IH]; simpl; [done|]. by rewrite insert_by_perm, IH. Qed.

Lemma elem_of_sort_by x l : x ∈ sort_by l ↔ x ∈ l.
Proof. by rewrite sort_by_perm. Qed.

Lemma length_sort_by l : length (sort_by l) = length l.
Proof. by rewrite sort_by_perm. Qed.

Lemma NoDup_sort_by l : NoDup (sort_by l) ↔ NoDup l.
Proof. by rewrite sort_by_perm. Qed.

(** Sortedness up to equivalence. *)
Definition le_by (x y : A) : Prop := lt y x = false.

Lemma insert_by_sorted `{!WeakOrder lt} x l :
  StronglySorted le_by l → StronglySorted le_by (insert_by x l).
Proof.
  unfold le_by.
  induction l as [|y l IH]; simpl; intros Hs; [by repeat constructor|].
  apply StronglySorted_inv in Hs as [Hs Hy].
  destruct (lt y x) eqn:E; constructor; [auto| |by constructor|].
  - rewrite Forall_forall. intros z Hz. rewrite insert_by_perm in Hz.
    apply elem_of_cons in Hz as [->|Hz]; [by apply wo_asym|].
    rewrite Forall_forall in Hy. auto.
  - constructor; [done|]. eapply Forall_impl; [exact Hy|].
    intros z Hz. by apply (wo_ntrans z y x).
Qed.

Lemma sort_by_sorted `{!WeakOrder lt} l : StronglySorted le_by (sort_by l).
Proof. induction l; simpl; [constructor|]. by apply insert_by_sorted. Qed.

(** Strict sortedness: what "sorted, deduplicated" means in the code. *)
Definition ssorted (l : list A) : Prop := StronglySorted (λ x y, lt x y = true) l.

Fixpoint strictly_sorted (l : list A) : bool :=
  match l with
  | x :: ((y :: _) as l') => lt x y && strictly_sorted l'
  | _ => true
  end.

Lemma ssorted_nil : ssorted [].
Proof. constructor. Qed.

Lemma strictly_sorted_spec `{!StrictTotal lt} l : strictly_sorted l = true ↔ ssorted l.
Proof.
  split.
  - intros H. apply Sorted_StronglySorted.
    { intros x y z. apply st_trans. }
    induction l as [|x [|y l] IH]; [constructor|by repeat constructor|].
    simpl in H. apply andb_prop in H as [? ?]. constructor; [by apply IH|by constructor].
  - induction 1 as [|x l Hs IH Hx]; [done|].
    destruct l as [|y l]; [done|]. simpl in *. inversion Hx; subst.
    by apply andb_true_intro.
Qed.

Lemma ssorted_NoDup `{!StrictTotal lt} l : ssorted l → NoDup l.
Proof.
  induction 1 as [|x l Hs IH Hx]; constructor; [|done].
  intros Hin. rewrite Forall_forall in Hx. specialize (Hx x Hin).
  by rewrite st_irrefl in Hx.
Qed.

Lemma sort_by_ssorted `{!StrictTotal lt} l : NoDup l → ssorted (sort_by l).
Proof.
  intros Hnd. apply NoDup_sort_by in Hnd. pose proof (sort_by_sorted l) as Hs.
  revert Hnd Hs. generalize (sort_by l). clear l. intros l Hnd Hs.
  induction Hs as [|x l Hs IH Hx]; [constructor|].
  apply NoDup_cons in Hnd as [Hni Hnd]. constructor; [by apply IH|].
  rewrite Forall_forall in Hx |- *. intros y Hy. specialize (Hx y Hy). unfold le_by in Hx.
  destruct (st_total (lt:=lt) x y) as [?|[->|?]]; [done|done|congruence].
Qed.

Lemma ssorted_unique `{!StrictTotal lt} l k : l ≡ₚ k → ssorted l → ssorted k → l = k.
Proof.
  revert k. induction l as [|x l IH]; intros k Hp Hl Hk.
  { by apply Permutation_nil in Hp. }
  destruct k as [|y k].
  { symmetry in Hp. by apply Permutation_nil in Hp. }
  apply StronglySorted_inv in Hl as [Hl Hx]. apply StronglySorted_inv in Hk as [Hk Hy].
  rewrite Forall_forall in Hx, Hy.
  assert (x = y) as ->.
  { assert (x ∈ y :: k) as Hxk by (rewrite <- Hp; set_solver).
    assert (y ∈ x :: l) as Hyl by (rewrite Hp; set_solver).
    apply elem_of_cons in Hxk as [?|Hxk]; [done|]. apply elem_of_cons in Hyl as [?|Hyl]; [done|].
    pose proof (st_asym lt x y (Hx _ Hyl)). pose proof (Hy _ Hxk). congruence. }
  f_equal. apply Permutation_cons_inv in Hp. auto.
Qed.

Lemma sort_by_id `{!StrictTotal lt} l : ssorted l → sort_by l = l.
Proof.
  intros Hl. apply ssorted_unique; [apply sort_by_perm| |done].
  apply sort_by_ssorted. by apply ssorted_NoDup.
Qed.

End sorting.

(** Sorting by a projection commutes with the projection. *)
Lemma fmap_sort_by {A B} (f : A → B) (lt : B → B → bool) (lt' : A → A → bool) l :
  (∀ x y, lt' x y = lt (f x) (f y)) → f <$> sort_by lt' l = sort_by lt (f <$> l).
Proof.
  intros Hlt. induction l as [|x l IH]; [done|].
  change (f <$> insert_by lt' x (sort_by lt' l) = insert_by lt (f x) (sort_by lt (f <$> l))).
  rewrite <- IH. generalize (sort_by lt' l). clear l IH. intros l.
  induction l as [|y l IH]; [done|]. rewrite fmap_cons. cbn [insert_by]. rewrite Hlt.
  destruct (lt (f y) (f x)); [|done]. by rewrite fmap_cons, IH.
Qed.

Section unique.
  Context {A : Type} (eqb : A → A → bool).

(** [l.erase(std::unique(l.begin(), l.end(), eqb), l.end())]: every run of
    consecutive equivalent elements is reduced to its first element. *)
Fixpoint unique_from (x : A) (l : list A) : list A :=
  match l with
  | [] => [x]
  | y :: l' => if eqb x y then unique_from x l' else x :: unique_from y l'
  end.

Definition unique (l : list A) : list A :=
  match l with [] => [] | x :: l' => unique_from x l' end.

Lemma unique_from_sublist x l : unique_from x l `sublist_of` x :: l.
Proof.
  revert x. induction l as [|y l IH]; intros x; simpl; [done|].
  destruct (eqb x y).
  - etrans; [apply IH|]. by do 2 constructor.
  - constructor. apply IH.
Qed.

Lemma unique_sublist l : unique l `sublist_of` l.
Proof. destruct l; [done|]. apply unique_from_sublist. Qed.

End unique.

Definition eqb_of {A} `{EqDecision A} (x y : A) : bool := bool_decide (x = y).

(** [sort] followed by [unique]: the canonical form of every identity list. *)
Definition sort_uniq {A} `{EqDecision A} (lt : A → A → bool) (l : list A) : list A :=
  unique eqb_of (sort_by lt l).

Section sort_uniq.
  Context {A : Type} `{EqDecision A} (lt : A → A → bool) `{!StrictTotal lt}.

Lemma elem_of_unique_from z x (l : list A) :
  z ∈ unique_from eqb_of x l ↔ z ∈ x :: l.
Proof.
  revert x. induction l as [|y l IH]; intros x; simpl; [done|].
  unfold eqb_of at 1. case_bool_decide; subst.
  - rewrite IH. set_solver.
  - rewrite !elem_of_cons, IH. set_solver.
Qed.

Lemma elem_of_sort_uniq z (l : list A) : z ∈ sort_uniq lt l ↔ z ∈ l.
Proof.
  unfold sort_uniq, unique. rewrite <- (elem_of_sort_by lt z l).
  destruct (sort_by lt l); [done|]. apply elem_of_unique_from.
Qed.

Lemma unique_from_ssorted x (l : list A) :
  StronglySorted (le_by lt) (x :: l) → ssorted lt (unique_from eqb_of x l).
Proof.
  revert x. induction l as [|y l IH]; intros x Hs; simpl.
  { repeat constructor. }
  apply StronglySorted_inv in Hs as [Hs Hx].
  unfold eqb_of at 1. case_bool_decide as Exy.
  - subst. auto.
  - constructor; [by apply IH|]. rewrite Forall_forall. intros z Hz.
    rewrite elem_of_unique_from in Hz.
    assert (lt x y = true) as Hxy.
    { apply Forall_cons in Hx as [Hx _]. unfold le_by in Hx.
      destruct (st_total (lt:=lt) x y) as [?|[?|?]]; congruence. }
    apply StronglySorted_inv in Hs as [_ Hy]. rewrite Forall_forall in Hy.
    apply elem_of_cons in Hz as [->|Hz]; [done|]. specialize (Hy z Hz). unfold le_by in Hy.
    destruct (st_total (lt:=lt) y z) as [Hyz|[->|?]]; [by eapply st_trans|done|congruence].
Qed.

Lemma sort_uniq_ssorted (l : list A) : ssorted lt (sort_uniq lt l).
Proof.
  unfold sort_uniq, unique. pose proof (sort_by_sorted lt l) as Hs.
  destruct (sort_by lt l); [constructor|]. by apply unique_from_ssorted.
Qed.

(** Canonicalisation of a canonical list is the identity. *)
Lemma sort_uniq_id (l : list A) : ssorted lt l → sort_uniq lt l = l.
Proof.
  intros Hl. pose proof (sort_uniq_ssorted l) as Hs.
  apply (ssorted_unique lt); [|done..].
  apply NoDup_Permutation; [by eapply ssorted_NoDup..|]. intros x. apply elem_of_sort_uniq.
Qed.

End sort_uniq.

(** [std::binary_search] on a random-access range: repeated halving, then one
    comparison.  [fuel] bounds the number of halvings; [length l] is enough. *)
Section binary_search.
  Context {A : Type} (lt : A → A → bool).

Fixpoint lower_bound (fuel : nat) (l : list A) (x : A) : list A :=
  match fuel, l with
  | S fuel', _ :: _ =>
      let half := Nat.div2 (length l) in
      match drop half l with
      | mid :: rest =>
          if lt mid x then lower_bound fuel' rest x else
          lower_bound fuel' (take half l) x ++ drop half l
      | [] => l
      end
  | _, _ => l
  end.

Definition binary_search (l : list A) (x : A) : bool :=
  match lower_bound (length l) l x with
  | y :: _ => negb (lt x y)
  | [] => false
  end.

End binary_search.

Section binary_search_spec.
  Context {A : Type} (lt : A → A → bool) `{!StrictTotal lt}.

(** [lower_bound] splits a strictly sorted list in the elements smaller than
    [x] and the others. *)
Lemma lower_bound_spec fuel l x :
  length l ≤ fuel → ssorted lt l →
  ∃ p, l = p ++ lower_bound lt fuel l x ∧ Forall (λ y, lt y x = true) p ∧
       Forall (λ y, lt y x = false) (lower_bound lt fuel l x).
Proof.
  revert l. induction fuel as [|fuel IH]; intros l Hlen Hs.
  { destruct l; simpl in *; [|lia]. exists []. by repeat constructor. }
  destruct l as [|y0 l0]; [exists []; by repeat constructor|].
  set (l := y0 :: l0) in *. set (half := Nat.div2 (length l)).
  assert (half < length l) as Hhalf by (apply Nat.lt_div2; simpl; lia).
  assert (l = take half l ++ drop half l) as Hsplit by (by rewrite take_drop).
  assert (lower_bound lt (S fuel) l x =
    match drop half l with
    | mid :: rest => if lt mid x then lower_bound lt fuel rest x
                     else lower_bound lt fuel (take half l) x ++ drop half l
    | [] => l end) as -> by done.
  destruct (drop half l) as [|mid rest] eqn:Ed.
  { apply (f_equal length) in Ed. rewrite length_drop in Ed. simpl in *. lia. }
  assert (ssorted lt (take half l) ∧ ssorted lt (mid :: rest) ∧
          ∀ a b, a ∈ take half l → b ∈ mid :: rest → lt a b = true) as (Ht&Hd&Hx).
  { rewrite Hsplit in Hs. by apply StronglySorted_app in Hs as (?&?&?). }
  apply StronglySorted_inv in Hd as [Hd Hm]. rewrite Forall_forall in Hm.
  destruct (lt mid x) eqn:Emid.
  - destruct (IH rest) as (p&Hp&Hlt&Hge); [|done|].
    { apply (f_equal length) in Ed. rewrite length_drop in Ed. simpl in *. lia. }
    exists (take half l ++ mid :: p). split_and!; [|apply Forall_app; split|done].
    + rewrite Hsplit at 1. rewrite <- app_assoc. simpl. by rewrite <- Hp.
    + rewrite Forall_forall. intros a Ha. apply (st_trans a mid x); [|done]. apply Hx; set_solver.
    + by constructor.
  - destruct (IH (take half l)) as (p&Hp&Hlt&Hge); [|done|].
    { rewrite length_take. simpl in *. lia. }
    exists p. split_and!; [|done|].
    + rewrite app_assoc, <- Hp. done.
    + apply Forall_app; split; [done|]. constructor; [done|]. rewrite Forall_forall.
      intros b Hb. apply (wo_ntrans b mid x); [|done]. apply st_asym; auto.
Qed.

(** On a strictly sorted range [std::binary_search] decides membership. *)
Lemma binary_search_spec l x : ssorted lt l → binary_search lt l x = true ↔ x ∈ l.
Proof.
  intros Hs. unfold binary_search.
  destruct (lower_bound_spec (length l) l x) as (p&Hl&Hp&Hg); [done|done|].
  remember (lower_bound lt (length l) l x) as r eqn:Er. clear Er.
  rewrite Forall_forall in Hp. rewrite Hl, elem_of_app.
  assert (x ∉ p) as Hxp. { intros Hx. specialize (Hp x Hx). by rewrite st_irrefl in Hp. }
  destruct r as [|y r]; [set_solver|].
  apply Forall_cons in Hg as [Hy _]. rewrite negb_true_iff. split.
  - intros Hxy. right. destruct (st_total (lt:=lt) x y) as [?|[->|?]]; [congruence|set_solver|congruence].
  - intros [?|Hx]; [done|].
    subst l. apply StronglySorted_app_1_r in Hs. apply StronglySorted_inv in Hs as [_ Hall].
    apply elem_of_cons in Hx as [->|Hx]; [by rewrite st_irrefl|].
    rewrite Forall_forall in Hall. apply st_asym; auto.
Qed.

End binary_search_spec.

(** ** Ordered maps

    [std::map] is a [gmap] together with the order in which it is traversed. *)

Class Less (A : Type) := less : A → A → bool.

#[global] Instance string_less : Less string := String.ltb.
#[global] Instance N_less : Less N := N.ltb.
#[global] Instance Z_less : Less Z := Z.ltb.

#[global] Instance N_less_total : StrictTotal (less (A:=N)).
Proof. split; unfold less, N_less; intros *; rewrite ?N.ltb_lt, ?N.ltb_ge; lia. Qed.

#[global] Instance Z_less_total : StrictTotal (less (A:=Z)).
Proof. split; unfold less, Z_less; intros *; rewrite ?Z.ltb_lt, ?Z.ltb_ge; lia. Qed.

Lemma ascii_compare_trans a b c :
  Ascii.compare a b = Lt → Ascii.compare b c = Lt → Ascii.compare a c = Lt.
Proof. unfold Ascii.compare. rewrite !N.compare_lt_iff. lia. Qed.

Lemma ascii_compare_eq a b : Ascii.compare a b = Eq → a = b.
Proof. apply Ascii.compare_eq_iff. Qed.

#[global] Instance string_less_total : StrictTotal (less (A:=string)).
Proof.
  assert (∀ a, Ascii.compare a a = Eq) as Hrefl.
  { intros a. unfold Ascii.compare. apply N.compare_refl. }
  unfold less, string_less, String.ltb. split.
  - intros x. induction x as [|a x IH]; simpl; [done|]. by rewrite Hrefl.
  - intros x. induction x as [|a x IH]; intros [|b y] [|c z]; simpl; try done.
    destruct (Ascii.compare a b) eqn:Eab, (Ascii.compare b c) eqn:Ebc; try done.
    + apply ascii_compare_eq in Eab as ->. rewrite Ebc. apply IH.
    + apply ascii_compare_eq in Eab as ->. by rewrite Ebc.
    + apply ascii_compare_eq in Ebc as ->. by rewrite Eab.
    + by rewrite (ascii_compare_trans _ _ _ Eab Ebc).
  - intros x. induction x as [|a x IH]; intros [|b y]; simpl; auto.
    destruct (Ascii.compare a b) eqn:Eab; [|by auto|].
    + apply ascii_compare_eq in Eab as ->. rewrite Hrefl.
      destruct (IH y) as [?|[->|?]]; auto.
    + right; right. rewrite Ascii.compare_antisym, Eab. done.
Qed.

Section ordered_map.
  Context {K : Type} `{Countable K} `{!Less K} `{!StrictTotal (less (A:=K))} {V : Type}.

(** The entries of a [std::map] in iteration order. *)
Definition entries (m : gmap K V) : list (K * V) :=
  sort_by (λ p q, less p.1 q.1) (map_to_list m).

Lemma elem_of_entries m k v : (k, v) ∈ entries m ↔ m !! k = Some v.
Proof. unfold entries. by rewrite elem_of_sort_by, elem_of_map_to_list. Qed.

Lemma entries_perm m : entries m ≡ₚ map_to_list m.
Proof. apply sort_by_perm. Qed.

Lemma NoDup_entries_keys m : NoDup (entries m).*1.
Proof. rewrite entries_perm. apply NoDup_fst_map_to_list. Qed.

Lemma ssorted_keys (l : list (K * V)) :
  StronglySorted (le_by (λ p q, less p.1 q.1)) l → NoDup l.*1 → ssorted less l.*1.
Proof.
  induction 1 as [|[k v] l Hs IH Hk]; simpl; intros Hnd; [constructor|].
  apply NoDup_cons in Hnd as [Hni Hnd]. constructor; [by apply IH|].
  rewrite Forall_forall in Hk. rewrite Forall_forall. intros k' Hk'.
  pose proof Hk' as Hin. apply list_elem_of_fmap in Hk' as ([k2 v2]&->&Hin').
  specialize (Hk _ Hin'). unfold le_by in Hk. simpl in *.
  destruct (st_total (lt:=less) k k2) as [?|[->|?]]; [done|done|congruence].
Qed.

Lemma entries_keys_ssorted m : ssorted less (entries m).*1.
Proof.
  apply ssorted_keys; [|apply NoDup_entries_keys].
  unfold entries. apply (sort_by_sorted (λ p q : K * V, less p.1 q.1)).
Qed.

Lemma list_to_map_entries m : list_to_map (entries m) = m.
Proof.
  rewrite <- (list_to_map_to_list m) at 2. apply list_to_map_proper.
  - apply NoDup_entries_keys.
  - apply entries_perm.
Qed.

(** Two key-sorted association lists with the same content are equal: the
    iteration order is determined by the content. *)
Lemma entries_unique m l :
  ssorted less l.*1 → (∀ k v, (k, v) ∈ l ↔ m !! k = Some v) → entries m = l.
Proof.
  intros Hs Hl.
  assert (NoDup l.*1) as Hnd by (by eapply ssorted_NoDup).
  assert (entries m ≡ₚ l) as Hp.
  { apply NoDup_Permutation.
    - eapply NoDup_fmap_1, NoDup_entries_keys.
    - eapply NoDup_fmap_1, Hnd.
    - intros [k v]. by rewrite elem_of_entries, Hl. }
  pose proof (entries_keys_ssorted m) as Hm.
  assert ((entries m).*1 = l.*1) as Hk.
  { apply (ssorted_unique less); [by rewrite Hp|done|done]. }
  apply list_eq_same_length with (n := length l); [done|by rewrite Hp|].
  intros i [k v] [k' v'] _ H1 H2.
  assert (k = k') as ->.
  { apply (f_equal (.!! i)) in Hk. rewrite !list_lookup_fmap, H1, H2 in Hk. by simplify_eq/=. }
  apply list_elem_of_lookup_2, elem_of_entries in H1.
  apply list_elem_of_lookup_2, Hl in H2. congruence.
Qed.

Lemma entries_list_to_map l : ssorted less l.*1 → entries (list_to_map l) = l.
Proof.
  intros Hs. apply entries_unique; [done|]. intros k v.
  apply elem_of_list_to_map. by eapply ssorted_NoDup.
Qed.

(** A loop over a map that only looks for an entry. *)
Lemma existsb_entries (f : K * V → bool) m :
  existsb f (entries m) = true ↔ ∃ k v, m !! k = Some v ∧ f (k, v) = true.
Proof.
  rewrite existsb_exists. setoid_rewrite <- elem_of_entries.
  setoid_rewrite <- list_elem_of_In. split; [intros ([k v]&?&?)|intros (k&v&?&?)]; eauto.
Qed.

End ordered_map.

(** ** Text *)

Abbreviation ascii := Ascii.ascii.

(** A [std::string] seen as its characters. *)
Abbreviation chars := String.list_ascii_of_string.
Abbreviation of_chars := String.string_of_list_ascii.

Definition code (c : ascii) : N := Ascii.N_of_ascii c.

(** [s.empty()]. *)
Definition is_empty (s : string) : bool :=
  match s with EmptyString => true | _ => false end.

Definition strlen (s : string) : N := N.of_nat (String.length s).

(** [s.substr(0, n)], also the effect of [s.resize(n)] on a longer string. *)
Definition str_take (n : N) (s : string) : string := of_chars (take (N.to_nat n) (chars s)).

Lemma is_empty_spec s : is_empty s = true ↔ s = EmptyString.
Proof. by destruct s. Qed.

Lemma chars_app s t : chars (s +:+ t) = chars s ++ chars t.
Proof. induction s as [|a s IH]; simpl; [done|]. by rewrite IH. Qed.

Lemma length_chars s : length (chars s) = String.length s.
Proof. induction s; simpl; auto. Qed.

Lemma strlen_chars s : strlen s = N.of_nat (length (chars s)).
Proof. by rewrite length_chars. Qed.

Lemma chars_inj s t : chars s = chars t → s = t.
Proof.
  intros H. rewrite <- (String.string_of_list_ascii_of_string s), H.
  apply String.string_of_list_ascii_of_string.
Qed.

Lemma chars_of_chars l : chars (of_chars l) = l.
Proof. apply String.list_ascii_of_string_of_list_ascii. Qed.

Lemma strlen_str_take n s : (strlen (str_take n s) <= n)%N.
Proof. unfold str_take. rewrite strlen_chars, chars_of_chars, length_take. lia. Qed.

(** The index of the first element that satisfies [f], as a [for] loop with an
    early return finds it. *)
Fixpoint find_index {A} (f : A → bool) (i : N) (l : list A) : option N :=
  match l with
  | [] => None
  | x :: l' => if f x then Some i else find_index f (i + 1)%N l'
  end.

Lemma find_index_None {A} (f : A → bool) i l :
  find_index f i l = None ↔ Forall (λ x, f x = false) l.
Proof.
  revert i. induction l as [|x l IH]; intros i; simpl; [done|].
  rewrite Forall_cons. destruct (f x); [split; [done|naive_solver]|].
  rewrite IH. naive_solver.
Qed.

Lemma find_index_Some {A} (f : A → bool) i l j :
  find_index f i l = Some j ↔
  ∃ k x, j = (i + N.of_nat k)%N ∧ l !! k = Some x ∧ f x = true ∧
         Forall (λ y, f y = false) (take k l).
Proof.
  revert i. induction l as [|x l IH]; intros i; simpl.
  { split; [done|]. intros (k&x&_&H&_). by rewrite lookup_nil in H. }
  destruct (f x) eqn:E.
  - split.
    + intros [= <-]. exists 0, x. split_and!; [lia|done|done|constructor].
    + intros ([|k]&y&->&Hl&Hy&Hall); [f_equal; lia|]. simpl in Hall.
      apply Forall_cons in Hall as [? _]. congruence.
  - rewrite IH. split; intros (k&y&->&Hl&Hy&Hall).
    + exists (S k), y. simpl. split_and!; [lia|done|done|by constructor].
    + destruct k as [|k]; simpl in *; [congruence|].
      apply Forall_cons in Hall as [_ ?]. exists k, y. split_and!; [lia|done..].
Qed.

(** ** Automation *)

Create HintDb fabric.

(** Splits conjunctions of booleans in the context. *)
Ltac split_bools :=
  repeat match goal with
  | H : _ && _ = true |- _ => apply andb_prop in H as [? ?]
  | H : _ || _ = false |- _ => apply orb_false_elim in H as [? ?]
  | H : negb _ = true |- _ => apply negb_true_iff in H
  | H : negb _ = false |- _ => apply negb_false_iff in H
  | H : bool_decide _ = true |- _ => apply bool_decide_eq_true in H
  | H : bool_decide _ = false |- _ => apply bool_decide_eq_false in H
  end.

(** Case analysis on every scrutinee of the goal or of a hypothesis. *)
Ltac case_match_all :=
  repeat match goal with
  | |- context [match ?x with _ => _ end] => destruct x eqn:?
  end.
