(* ===== verification/Identity.v ===== *)
(** * Strongly typed identities

    [include/cluster_fabric/identity.hpp] and [src/identity.cpp]: the bounded
    identity alphabet, [StrongId<Tag>] and the generation of process
    incarnation identities. *)

From S2P Require Import Prelude.

(** ** Validation of text *)

Definition kMaxIdentityLength : N := 128.

Inductive IdentityStatus := IdOk | IdEmpty | IdTooLong | IdInvalidCharacter | IdReserved.

#[global] Instance IdentityStatus_eq_dec : EqDecision IdentityStatus.
Proof. solve_decision. Defined.

Record IdentityValidation := MkIdentityValidation {
  iv_status : IdentityStatus;
  iv_position : N
}.

Definition iv_ok (v : IdentityValidation) : bool := bool_decide (iv_status v = IdOk).

Definition is_identity_char (c : ascii) : bool :=
  let u := code c in
  if (48 <=? u)%N && (u <=? 57)%N then true else
  if (97 <=? u)%N && (u <=? 122)%N then true else
  if (65 <=? u)%N && (u <=? 90)%N then true else
  match c with
  | "-" | "_" | "." | ":" | "@" => true
  | _ => false
  end%char.

(** [value.find("..")]. *)
Fixpoint find_double_dot (i : N) (l : list ascii) : option N :=
  match l with
  | a :: ((b :: _) as l') =>
      if bool_decide (a = "."%char) && bool_decide (b = "."%char) then Some i
      else find_double_dot (i + 1)%N l'
  | _ => None
  end.

Definition validate_identity (value : string) : IdentityValidation :=
  if is_empty value then MkIdentityValidation IdEmpty 0 else
  if (kMaxIdentityLength <? strlen value)%N
  then MkIdentityValidation IdTooLong kMaxIdentityLength else
  match find_index (λ c, negb (is_identity_char c)) 0 (chars value) with
  | Some i => MkIdentityValidation IdInvalidCharacter i
  | None =>
      if bool_decide (value = ".") || bool_decide (value = "..")
      then MkIdentityValidation IdReserved 0 else
      match find_double_dot 0 (chars value) with
      | Some i => MkIdentityValidation IdReserved i
      | None => MkIdentityValidation IdOk 0
      end
  end.

Definition validate_label (value : string) : IdentityValidation :=
  if is_empty value then MkIdentityValidation IdEmpty 0 else
  if (kMaxIdentityLength <? strlen value)%N
  then MkIdentityValidation IdTooLong kMaxIdentityLength else
  match find_index (λ c, (code c <? 0x20)%N || (0x7E <? code c)%N) 0 (chars value) with
  | Some i => MkIdentityValidation IdInvalidCharacter i
  | None => MkIdentityValidation IdOk 0
  end.

(** ** [StrongId<Tag>] *)

Inductive IdTag :=
  | ClusterIdTag | RackIdTag | RackAgentBootIdTag | RackPublisherIdTag | RackEndpointIdTag
  | PlacementDomainIdTag | CapacityDomainIdTag | FailureDomainIdTag | NetworkDomainIdTag
  | StorageDomainIdTag | PowerDomainIdTag | CoolingDomainIdTag | LinkDomainIdTag
  | InterRackLinkIdTag | ConstraintIdTag.

Record StrongId (tag : IdTag) := MkId { id_value : string }.
Arguments MkId {tag} _.
Arguments id_value {tag} _.

#[global] Instance StrongId_eq_dec tag : EqDecision (StrongId tag).
Proof. solve_decision. Defined.

#[global] Instance StrongId_countable tag : Countable (StrongId tag) :=
  inj_countable' (id_value (tag:=tag)) MkId (λ x, match x with MkId _ => eq_refl end).

#[global] Instance StrongId_less tag : Less (StrongId tag) :=
  λ x y, less (id_value x) (id_value y).

#[global] Instance StrongId_less_total tag : StrictTotal (less (A:=StrongId tag)).
Proof.
  unfold less at 1, StrongId_less. split.
  - intros [x]. apply st_irrefl.
  - intros [x] [y] [z]. apply (st_trans (lt:=less)).
  - intros [x] [y]. simpl. destruct (st_total (lt:=less) x y) as [?|[->|?]]; auto.
Qed.

(** The default-constructed, UNKNOWN identity. *)
Definition no_id {tag} : StrongId tag := MkId EmptyString.

Definition id_known {tag} (i : StrongId tag) : bool := negb (is_empty (id_value i)).

Definition parse_id {tag} (value : string) : option (StrongId tag) :=
  if negb (iv_ok (validate_identity value)) then None else Some (MkId value).

Definition is_valid_id (value : string) : bool := iv_ok (validate_identity value).

Abbreviation ClusterId := (StrongId ClusterIdTag).
Abbreviation RackId := (StrongId RackIdTag).
Abbreviation RackAgentBootId := (StrongId RackAgentBootIdTag).
Abbreviation RackPublisherId := (StrongId RackPublisherIdTag).
Abbreviation RackEndpointId := (StrongId RackEndpointIdTag).
Abbreviation PlacementDomainId := (StrongId PlacementDomainIdTag).
Abbreviation CapacityDomainId := (StrongId CapacityDomainIdTag).
Abbreviation FailureDomainId := (StrongId FailureDomainIdTag).
Abbreviation NetworkDomainId := (StrongId NetworkDomainIdTag).
Abbreviation StorageDomainId := (StrongId StorageDomainIdTag).
Abbreviation PowerDomainId := (StrongId PowerDomainIdTag).
Abbreviation CoolingDomainId := (StrongId CoolingDomainIdTag).
Abbreviation LinkDomainId := (StrongId LinkDomainIdTag).
Abbreviation InterRackLinkId := (StrongId InterRackLinkIdTag).
Abbreviation ConstraintId := (StrongId ConstraintIdTag).

(** ** Rendering of numbers

    [append_decimal], [append_hex] and [std::to_string]: a [do]/[while] loop
    that stores digits from the least significant one, then reverses them.
    64 iterations are more than any 64-bit value needs in base 10 or 16. *)

Definition kDigitFuel : nat := 64.

Definition decimal_digit (d : N) : ascii := Ascii.ascii_of_N (48 + d).

Definition hex_digit (d : N) : ascii :=
  if (d <? 10)%N then Ascii.ascii_of_N (48 + d) else Ascii.ascii_of_N (87 + d).

Fixpoint digits_loop (fuel : nat) (base : N) (digit : N → ascii) (value : N)
    (acc : list ascii) : list ascii :=
  match fuel with
  | O => acc
  | S fuel' =>
      let acc' := digit (value mod base)%N :: acc in
      let value' := (value / base)%N in
      if (value' =? 0)%N then acc' else digits_loop fuel' base digit value' acc'
  end.

Definition append_decimal (out : string) (value : N) : string :=
  out +:+ of_chars (digits_loop kDigitFuel 10 decimal_digit value []).

Definition append_hex (out : string) (value : N) : string :=
  out +:+ of_chars (digits_loop kDigitFuel 16 hex_digit value []).

(** [std::to_string] on an unsigned value. *)
Definition to_decimal (value : N) : string := append_decimal EmptyString value.

Fixpoint count_loop (fuel : nat) (base : N) (value : N) (count : N) : N :=
  match fuel with
  | O => count
  | S fuel' =>
      if (base <=? value)%N then count_loop fuel' base (value / base)%N (count + 1)%N else count
  end.

Definition decimal_digits (value : N) : N := count_loop kDigitFuel 10 value 1.
Definition hex_digits (value : N) : N := count_loop kDigitFuel 16 value 1.

(** ** Process incarnation identities *)

Definition suffix_length (pid sequence mix : N) : N :=
  3 + decimal_digits pid + decimal_digits sequence + hex_digits mix.

Definition compose (prefix : string) (pid sequence mix : N) : string :=
  let suffix := suffix_length pid sequence mix in
  let keep0 := strlen prefix in
  let keep := if (kMaxIdentityLength <? keep0 + suffix)%N
              then if (suffix <? kMaxIdentityLength)%N then (kMaxIdentityLength - suffix)%N else 0%N
              else keep0 in
  let out := str_take keep prefix in
  let out := append_decimal (out +:+ "-") pid in
  let out := append_decimal (out +:+ "-") sequence in
  append_hex (out +:+ "-") mix.

(** What [process_identity] and [clock_mix] return is read from the platform;
    both are 64-bit values.  [seq] is the global counter [g_boot_sequence]:
    the function returns its new value. *)
Definition make_boot_id_text (prefix : string) (pid seq mix : N) : string * N :=
  let safe_prefix := if iv_ok (validate_identity prefix) then prefix else "boot" in
  let sequence := ((seq + 1) mod (u64_max + 1))%N in
  let text := compose safe_prefix pid sequence mix in
  (if negb (iv_ok (validate_identity text)) then compose EmptyString pid sequence mix else text,
   sequence).

(** ** Facts about validation *)

Lemma find_double_dot_None i l :
  find_double_dot i l = None ↔
  ∀ k, ¬ (l !! k = Some "."%char ∧ l !! (S k) = Some "."%char).
Proof.
  revert i. induction l as [|a [|b l] IH]; intros i.
  - split; [|done]. intros _ k [H _]. by rewrite lookup_nil in H.
  - split; [|done]. intros _ [|k] [_ H]; simpl in H; by rewrite ?lookup_nil in H.
  - change (find_double_dot i (a :: b :: l)) with
      (if bool_decide (a = "."%char) && bool_decide (b = "."%char) then Some i
       else find_double_dot (i + 1)%N (b :: l)).
    destruct (bool_decide _ && bool_decide _) eqn:E.
    + split_bools. subst. split; [done|]. intros H. by destruct (H 0).
    + rewrite IH. split.
      * intros H [|k] [H1 H2]; simpl in *; [|by eapply H].
        by simplify_eq.
      * intros H k Hk. by apply (H (S k)).
Qed.

(** The contract of the identity alphabet: what a parsed identity is. *)
Definition identity_text (s : string) : Prop :=
  s ≠ EmptyString ∧ (strlen s <= kMaxIdentityLength)%N ∧
  Forall (λ c, is_identity_char c = true) (chars s) ∧
  s ≠ "." ∧
  (∀ k, ¬ (chars s !! k = Some "."%char ∧ chars s !! (S k) = Some "."%char)).

Lemma is_valid_id_spec s : is_valid_id s = true ↔ identity_text s.
Proof.
  unfold is_valid_id, validate_identity, identity_text, iv_ok.
  destruct (is_empty s) eqn:Ee.
  { apply is_empty_spec in Ee as ->. simpl. naive_solver. }
  assert (s ≠ EmptyString) by (intros ->; done).
  destruct (N.ltb_spec kMaxIdentityLength (strlen s)); simpl.
  { split; [done|]. intros (_&?&_). lia. }
  destruct (find_index _ 0 (chars s)) as [i|] eqn:Ef; simpl.
  { split; [done|]. intros (_&_&Hall&_). exfalso.
    apply find_index_Some in Ef as (k&x&_&Hl&Hx&_).
    rewrite Forall_forall in Hall. apply list_elem_of_lookup_2, Hall in Hl.
    by rewrite Hl in Hx. }
  apply find_index_None in Ef.
  assert (Forall (λ c, is_identity_char c = true) (chars s)) as Hall.
  { eapply Forall_impl; [exact Ef|]. intros c Hc. by apply negb_false_iff. }
  destruct (bool_decide (s = ".") || bool_decide (s = "..")) eqn:Ed; simpl.
  { split; [done|]. intros (_&_&_&Hd&Hdd).
    apply orb_true_iff in Ed as [Ed|Ed]; split_bools; subst; [done|]. by destruct (Hdd 0). }
  split_bools.
  destruct (find_double_dot 0 (chars s)) as [i|] eqn:Edd; simpl.
  - split; [done|]. intros (_&_&_&_&Hdd). apply (find_double_dot_None 0) in Hdd. congruence.
  - rewrite find_double_dot_None in Edd. naive_solver.
Qed.

Lemma parse_id_Some {tag} s (i : StrongId tag) :
  parse_id s = Some i ↔ is_valid_id s = true ∧ i = MkId s.
Proof.
  unfold parse_id, is_valid_id. destruct (iv_ok _); simpl; naive_solver.
Qed.

(** Every character of the alphabet is printable ASCII, and none is a space or
    a path separator. *)
Lemma identity_char_safe c :
  is_identity_char c = true →
  (0x2D <= code c)%N ∧ (code c <= 0x7A)%N ∧ c ≠ "/"%char ∧ c ≠ "\"%char.
Proof. destruct c as [[] [] [] [] [] [] [] []]; vm_compute; try done; intros _; repeat split; done. Qed.

(** ** Facts about rendering *)

Lemma digits_loop_acc fuel base digit v acc :
  digits_loop fuel base digit v acc = digits_loop fuel base digit v [] ++ acc.
Proof.
  revert v acc. induction fuel as [|fuel IH]; intros v acc; simpl; [done|].
  destruct (_ =? 0)%N; [done|]. rewrite IH, (IH _ [_]), <- app_assoc. done.
Qed.

Lemma digits_loop_S fuel base digit v :
  base ≠ 0%N →
  digits_loop (S fuel) base digit v [] =
  (if (v <? base)%N then [] else digits_loop fuel base digit (v / base) []) ++
  [digit (v mod base)%N].
Proof.
  intros Hb. simpl. destruct (N.eqb_spec (v / base) 0) as [E|E].
  - apply N.div_small_iff in E; [|done]. by rewrite (proj2 (N.ltb_lt _ _)).
  - rewrite N.div_small_iff in E by done. rewrite (proj2 (N.ltb_ge _ _)) by lia.
    by rewrite digits_loop_acc.
Qed.

Section digits.
  Context (base : N) (digit : N → ascii) (val : ascii → N).
  Hypothesis base_ge : (2 <= base)%N.
  Hypothesis val_digit : ∀ d, (d < base)%N → val (digit d) = d.

Lemma div_fuel fuel v :
  (v < base ^ N.of_nat (S fuel))%N → (base <= v)%N → (v / base < base ^ N.of_nat fuel)%N.
Proof.
  intros Hv Hb. rewrite Nat2N.inj_succ, N.pow_succ_r' in Hv.
  apply N.Div0.div_lt_upper_bound; lia.
Qed.

(** Reading the rendered digits back gives the value. *)
Lemma digits_value fuel v :
  (v < base ^ N.of_nat fuel)%N →
  foldl (λ a c, a * base + val c)%N 0%N (digits_loop fuel base digit v []) = v.
Proof.
  revert v. induction fuel as [|fuel IH]; intros v Hv.
  { simpl in *. lia. }
  rewrite digits_loop_S by lia. rewrite foldl_app. simpl.
  rewrite val_digit by (apply N.mod_lt; lia).
  destruct (N.ltb_spec v base) as [Hlt|Hge].
  - simpl. rewrite N.mod_small by lia. lia.
  - rewrite IH by (by apply div_fuel). rewrite N.mul_comm, <- N.div_mod by lia. done.
Qed.

Lemma count_loop_S fuel v c :
  count_loop (S fuel) base v c =
  if (base <=? v)%N then count_loop fuel base (v / base) (c + 1) else c.
Proof. done. Qed.

Lemma digits_length fuel v :
  (v < base ^ N.of_nat (S fuel))%N → ∀ c,
  count_loop (S fuel) base v (c + 1) =
  (c + N.of_nat (length (digits_loop (S fuel) base digit v [])))%N.
Proof.
  revert v. induction fuel as [|fuel IH]; intros v Hv c;
    rewrite digits_loop_S, length_app by lia; rewrite count_loop_S; cbn [length].
  - replace (base ^ N.of_nat 1)%N with base in Hv by (simpl; lia).
    rewrite (proj2 (N.leb_gt _ _)), (proj2 (N.ltb_lt _ _)) by lia. done.
  - destruct (N.leb_spec base v) as [Hge|Hlt].
    + rewrite (proj2 (N.ltb_ge _ _)) by lia. rewrite IH by (by apply div_fuel). lia.
    + rewrite (proj2 (N.ltb_lt _ _)) by lia. done.
Qed.

Lemma digits_length_le fuel k v :
  (v < base ^ N.of_nat (S k))%N → (length (digits_loop fuel base digit v []) ≤ S k)%nat.
Proof.
  revert fuel v. induction k as [|k IH]; intros [|fuel] v Hv; try (simpl; lia).
  - rewrite digits_loop_S by lia. replace (base ^ N.of_nat 1)%N with base in Hv by (simpl; lia).
    rewrite (proj2 (N.ltb_lt _ _)) by lia. done.
  - rewrite digits_loop_S, length_app by lia. simpl.
    destruct (N.ltb_spec v base); simpl; [lia|].
    pose proof (IH fuel (v / base)%N (div_fuel _ _ Hv ltac:(lia))). lia.
Qed.

Lemma digits_nonempty fuel v : fuel ≠ 0 → digits_loop fuel base digit v [] ≠ [].
Proof.
  destruct fuel as [|fuel]; [done|]. intros _. rewrite digits_loop_S by lia.
  intros H. by apply app_nil in H as [_ ?].
Qed.

Lemma digits_forall (P : ascii → Prop) fuel v :
  (∀ d, (d < base)%N → P (digit d)) → Forall P (digits_loop fuel base digit v []).
Proof.
  intros HP. revert v. induction fuel as [|fuel IH]; intros v; [constructor|].
  rewrite digits_loop_S by lia. apply Forall_app. split.
  - destruct (_ <? _)%N; [constructor|apply IH].
  - constructor; [|constructor]. apply HP, N.mod_lt. lia.
Qed.

End digits.

Definition digit_value (c : ascii) : N := code c - 48.
Definition hex_value (c : ascii) : N :=
  if (code c <? 97)%N then (code c - 48)%N else (code c - 87)%N.

Lemma below_16 (P : N → Prop) :
  P 0%N → P 1%N → P 2%N → P 3%N → P 4%N → P 5%N → P 6%N → P 7%N → P 8%N → P 9%N →
  P 10%N → P 11%N → P 12%N → P 13%N → P 14%N → P 15%N → ∀ d, (d < 16)%N → P d.
Proof.
  intros. assert (d ∈ [0;1;2;3;4;5;6;7;8;9;10;11;12;13;14;15])%N as Hd.
  { rewrite !elem_of_cons. lia. }
  repeat (apply elem_of_cons in Hd as [->|Hd]; [done|]). by apply elem_of_nil in Hd.
Qed.

Lemma decimal_digit_value d : (d < 10)%N → digit_value (decimal_digit d) = d.
Proof.
  intros Hd. apply (below_16 (λ d, (d < 10)%N → digit_value (decimal_digit d) = d)); [..|lia|done];
    by vm_compute.
Qed.

Lemma hex_digit_value d : (d < 16)%N → hex_value (hex_digit d) = d.
Proof. revert d. apply (below_16 (λ d, hex_value (hex_digit d) = d)); by vm_compute. Qed.

(** A digit is an identity character, different from the separators. *)
Definition plain_char (c : ascii) : Prop :=
  is_identity_char c = true ∧ c ≠ "-"%char ∧ c ≠ "."%char.

Lemma decimal_digit_plain d : (d < 10)%N → plain_char (decimal_digit d).
Proof.
  intros Hd. apply (below_16 (λ d, (d < 10)%N → plain_char (decimal_digit d))); [..|lia|done];
    intros; vm_compute; done.
Qed.

Lemma hex_digit_plain d : (d < 16)%N → plain_char (hex_digit d).
Proof. revert d. apply (below_16 (λ d, plain_char (hex_digit d))); vm_compute; done. Qed.

Lemma u64_pow10 v : (v <= u64_max)%N → (v < 10 ^ N.of_nat 20)%N.
Proof. unfold u64_max. intros. change (10 ^ N.of_nat 20)%N with 100000000000000000000%N. lia. Qed.

Lemma u64_pow16 v : (v <= u64_max)%N → (v < 16 ^ N.of_nat 16)%N.
Proof. unfold u64_max. intros. change (16 ^ N.of_nat 16)%N with 18446744073709551616%N. lia. Qed.

Lemma u64_fuel base v : (10 <= base)%N → (v <= u64_max)%N → (v < base ^ N.of_nat kDigitFuel)%N.
Proof.
  intros Hb Hv. apply u64_pow10 in Hv. eapply N.lt_le_trans; [exact Hv|].
  etrans; [apply (N.pow_le_mono_r 10 (N.of_nat 20) (N.of_nat kDigitFuel)); vm_compute; done|].
  apply N.pow_le_mono_l. lia.
Qed.

Definition dec_chars (v : N) : list ascii := digits_loop kDigitFuel 10 decimal_digit v [].
Definition hex_chars (v : N) : list ascii := digits_loop kDigitFuel 16 hex_digit v [].

Lemma dec_chars_value v :
  (v <= u64_max)%N → foldl (λ a c, a * 10 + digit_value c)%N 0%N (dec_chars v) = v.
Proof.
  intros. apply digits_value; [lia|apply decimal_digit_value|by apply u64_fuel].
Qed.

Lemma hex_chars_value v :
  (v <= u64_max)%N → foldl (λ a c, a * 16 + hex_value c)%N 0%N (hex_chars v) = v.
Proof.
  intros. apply digits_value; [lia|apply hex_digit_value|by apply u64_fuel].
Qed.

Lemma dec_chars_inj v w :
  (v <= u64_max)%N → (w <= u64_max)%N → dec_chars v = dec_chars w → v = w.
Proof. intros Hv Hw H. by rewrite <- (dec_chars_value v Hv), H, dec_chars_value. Qed.

Lemma dec_chars_bounds v :
  (v <= u64_max)%N →
  decimal_digits v = N.of_nat (length (dec_chars v)) ∧ (length (dec_chars v) ≤ 20)%nat.
Proof.
  intros Hv. split.
  - exact (digits_length 10 decimal_digit ltac:(lia) 63 v (u64_fuel 10 v ltac:(lia) Hv) 0).
  - apply (digits_length_le 10 decimal_digit ltac:(lia) _ 19). by apply u64_pow10.
Qed.

Lemma hex_chars_bounds v :
  (v <= u64_max)%N →
  hex_digits v = N.of_nat (length (hex_chars v)) ∧ (length (hex_chars v) ≤ 16)%nat.
Proof.
  intros Hv. split.
  - exact (digits_length 16 hex_digit ltac:(lia) 63 v (u64_fuel 16 v ltac:(lia) Hv) 0).
  - apply (digits_length_le 16 hex_digit ltac:(lia) _ 15). by apply u64_pow16.
Qed.

Lemma dec_chars_plain v : Forall plain_char (dec_chars v).
Proof. apply digits_forall; [lia|apply decimal_digit_plain]. Qed.

Lemma hex_chars_plain v : Forall plain_char (hex_chars v).
Proof. apply digits_forall; [lia|apply hex_digit_plain]. Qed.

Lemma dec_chars_nonempty v : dec_chars v ≠ [].
Proof. by apply (digits_nonempty 10 decimal_digit ltac:(lia)). Qed.

Lemma dec_chars_forall (P : ascii → Prop) v :
  (∀ d, (d < 10)%N → P (decimal_digit d)) → Forall P (dec_chars v).
Proof. apply digits_forall. lia. Qed.

Lemma chars_append_decimal out v : chars (append_decimal out v) = chars out ++ dec_chars v.
Proof. unfold append_decimal. by rewrite chars_app, chars_of_chars. Qed.

Lemma chars_append_hex out v : chars (append_hex out v) = chars out ++ hex_chars v.
Proof. unfold append_hex. by rewrite chars_app, chars_of_chars. Qed.

Lemma chars_to_decimal v : chars (to_decimal v) = dec_chars v.
Proof. apply chars_append_decimal. Qed.

#[global] Opaque dec_chars hex_chars.

(** The number of bytes of the prefix that [compose] keeps. *)
Definition kept (prefix : string) (pid sequence mix : N) : N :=
  let suffix := suffix_length pid sequence mix in
  if (kMaxIdentityLength <? strlen prefix + suffix)%N
  then if (suffix <? kMaxIdentityLength)%N then (kMaxIdentityLength - suffix)%N else 0%N
  else strlen prefix.

Definition tail_chars (pid sequence mix : N) : list ascii :=
  dec_chars pid ++ "-"%char :: dec_chars sequence ++ "-"%char :: hex_chars mix.

Lemma chars_compose prefix pid sequence mix :
  chars (compose prefix pid sequence mix) =
  take (N.to_nat (kept prefix pid sequence mix)) (chars prefix) ++
  "-"%char :: tail_chars pid sequence mix.
Proof.
  unfold compose. rewrite chars_append_hex, chars_app, chars_append_decimal, chars_app,
    chars_append_decimal, chars_app. unfold str_take. rewrite chars_of_chars.
  unfold tail_chars. simpl. rewrite <- !app_assoc. done.
Qed.

Lemma compose_length prefix pid sequence mix :
  (pid <= u64_max)%N → (sequence <= u64_max)%N → (mix <= u64_max)%N →
  (strlen (compose prefix pid sequence mix) <= kMaxIdentityLength)%N.
Proof.
  intros Hp Hs Hm. rewrite strlen_chars, chars_compose. unfold tail_chars, kept, suffix_length.
  destruct (dec_chars_bounds pid Hp) as [-> Lp], (dec_chars_bounds sequence Hs) as [-> Ls],
    (hex_chars_bounds mix Hm) as [-> Lm].
  rewrite length_app, length_take. simpl. rewrite length_app. simpl. rewrite length_app. simpl.
  rewrite strlen_chars. unfold kMaxIdentityLength.
  destruct (N.ltb_spec 128 (N.of_nat (length (chars prefix)) + (3 + N.of_nat (length (dec_chars pid))
    + N.of_nat (length (dec_chars sequence)) + N.of_nat (length (hex_chars mix))))%N); [|lia].
  destruct (N.ltb_spec (3 + N.of_nat (length (dec_chars pid))
    + N.of_nat (length (dec_chars sequence)) + N.of_nat (length (hex_chars mix)))%N 128); lia.
Qed.

(** A dot of the composed text comes from the prefix. *)
Lemma compose_dots prefix pid sequence mix k :
  chars (compose prefix pid sequence mix) !! k = Some "."%char →
  (k < length (take (N.to_nat (kept prefix pid sequence mix)) (chars prefix)))%nat ∧
  chars prefix !! k = Some "."%char.
Proof.
  rewrite chars_compose. intros H. apply lookup_app_Some in H as [H|[_ H]].
  - split; [by eapply lookup_lt_Some|]. by apply lookup_take_Some in H as [? _].
  - exfalso. apply list_elem_of_lookup_2 in H.
    assert (∀ l, Forall plain_char l → "."%char ∉ l) as Hpl.
    { intros l Hl Hin. rewrite Forall_forall in Hl. by destruct (Hl _ Hin) as (_&_&?). }
    unfold tail_chars in H.
    rewrite !elem_of_cons, elem_of_app, elem_of_cons, elem_of_app, elem_of_cons in H.
    destruct H as [H|[H|[H|[H|[H|H]]]]].
    + discriminate H.
    + exact (Hpl _ (dec_chars_plain pid) H).
    + discriminate H.
    + exact (Hpl _ (dec_chars_plain sequence) H).
    + discriminate H.
    + exact (Hpl _ (hex_chars_plain mix) H).
Qed.

Lemma compose_valid prefix pid sequence mix :
  (pid <= u64_max)%N → (sequence <= u64_max)%N → (mix <= u64_max)%N →
  identity_text prefix → identity_text (compose prefix pid sequence mix).
Proof.
  intros Hp Hs Hm (_&_&Hall&_&Hdd). set (t := compose prefix pid sequence mix).
  assert ("-"%char ∈ chars t) as Hdash.
  { unfold t. rewrite chars_compose. set_solver. }
  split_and!.
  - intros E. rewrite E in Hdash. by apply elem_of_nil in Hdash.
  - by apply compose_length.
  - unfold t. rewrite chars_compose. apply Forall_app. split; [by apply Forall_take|].
    constructor; [done|]. unfold tail_chars.
    assert (∀ l, Forall plain_char l → Forall (λ c, is_identity_char c = true) l) as Hpl.
    { intros l Hl. eapply Forall_impl; [exact Hl|]. by intros c (?&_). }
    apply Forall_app. split; [apply Hpl, dec_chars_plain|]. constructor; [done|].
    apply Forall_app. split; [apply Hpl, dec_chars_plain|]. constructor; [done|].
    apply Hpl, hex_chars_plain.
  - intros E. rewrite E in Hdash. by apply list_elem_of_singleton in Hdash.
  - intros k [H1 H2]. apply compose_dots in H1 as [_ H1]. apply compose_dots in H2 as [_ H2].
    exact (Hdd k (conj H1 H2)).
Qed.

(** Splitting a list at the last occurrence of a separator is unambiguous. *)
Lemma split_last {A} (x : A) (a a' b b' : list A) :
  x ∉ b → x ∉ b' → a ++ x :: b = a' ++ x :: b' → a = a' ∧ b = b'.
Proof.
  revert a'. induction a as [|y a IH]; intros [|y' a'] Hb Hb' H; simpl in H; simplify_eq; auto.
  - exfalso. apply Hb. set_solver.
  - exfalso. apply Hb'. set_solver.
  - edestruct (IH a') as [-> ->]; auto.
Qed.

Lemma plain_no_dash l : Forall plain_char l → "-"%char ∉ l.
Proof. rewrite Forall_forall. intros Hl Hin. by destruct (Hl _ Hin) as (_&?&_). Qed.

Lemma split_assoc {A} (x : A) a b c d :
  ((a ++ x :: b) ++ x :: c) ++ x :: d = a ++ x :: b ++ x :: c ++ x :: d.
Proof. by rewrite <- !app_assoc. Qed.

Lemma compose_inj prefix prefix' pid pid' sequence sequence' mix mix' :
  (sequence <= u64_max)%N → (sequence' <= u64_max)%N →
  (pid <= u64_max)%N → (pid' <= u64_max)%N →
  compose prefix pid sequence mix = compose prefix' pid' sequence' mix' →
  pid = pid' ∧ sequence = sequence'.
Proof.
  intros Hs Hs' Hp Hp' E. apply (f_equal (λ s, chars s)) in E. rewrite !chars_compose in E.
  unfold tail_chars in E.
  rewrite <- !split_assoc in E.
  apply split_last in E as [E _]; [|apply plain_no_dash, hex_chars_plain..].
  apply split_last in E as [E E2]; [|apply plain_no_dash, dec_chars_plain..].
  apply split_last in E as [_ E1]; [|apply plain_no_dash, dec_chars_plain..].
  split; by apply dec_chars_inj.
Qed.

Lemma safe_prefix_valid prefix :
  identity_text (if iv_ok (validate_identity prefix) then prefix else "boot").
Proof.
  apply is_valid_id_spec. unfold is_valid_id.
  destruct (iv_ok (validate_identity prefix)) eqn:E; [done|by vm_compute].
Qed.

Lemma sequence_u64 seq : ((seq + 1) mod (u64_max + 1) <= u64_max)%N.
Proof. pose proof (N.mod_lt (seq + 1) (u64_max + 1)). lia. Qed.

Lemma make_boot_id_text_eq prefix pid seq mix :
  (pid <= u64_max)%N → (mix <= u64_max)%N →
  make_boot_id_text prefix pid seq mix =
  (compose (if iv_ok (validate_identity prefix) then prefix else "boot") pid
     ((seq + 1) mod (u64_max + 1))%N mix, ((seq + 1) mod (u64_max + 1))%N).
Proof.
  intros Hp Hm. unfold make_boot_id_text.
  pose proof (compose_valid _ pid _ mix Hp (sequence_u64 seq) Hm (safe_prefix_valid prefix)) as Hv.
  apply is_valid_id_spec in Hv. unfold is_valid_id in Hv. by rewrite Hv.
Qed.

(** The text of a generated process incarnation identity is always a valid
    identity, whatever prefix the caller supplies and whatever 64-bit values
    the platform reports, so parsing it succeeds on the first attempt. *)
Theorem make_boot_id_text_valid prefix pid seq mix :
  (pid <= u64_max)%N → (mix <= u64_max)%N →
  parse_id (tag:=RackAgentBootIdTag) (fst (make_boot_id_text prefix pid seq mix)) =
  Some (MkId (fst (make_boot_id_text prefix pid seq mix))).
Proof.
  intros Hp Hm. apply parse_id_Some. split; [|done]. apply is_valid_id_spec.
  rewrite make_boot_id_text_eq by done.
  apply compose_valid; auto using sequence_u64, safe_prefix_valid.
Qed.

Lemma make_boot_id_text_valid_witness :
  parse_id (tag:=RackAgentBootIdTag) (fst (make_boot_id_text "rack a/../b" 4242 7 255)) =
  Some (MkId "boot-4242-8-ff").
Proof.
  assert (MkId "boot-4242-8-ff" =
    MkId (tag:=RackAgentBootIdTag) (fst (make_boot_id_text "rack a/../b" 4242 7 255))) as ->
    by (vm_compute; reflexivity).
  apply make_boot_id_text_valid; vm_compute; discriminate.
Defined.

(** Two identities generated by one process are different as long as the
    64-bit boot sequence has not wrapped all the way round between them, even
    when the prefixes differ and the clock component is the same; identities
    of two processes with different process ids are different as well. *)
Theorem make_boot_id_text_distinct prefix prefix' pid pid' seq seq' mix mix' :
  (pid <= u64_max)%N → (pid' <= u64_max)%N → (mix <= u64_max)%N → (mix' <= u64_max)%N →
  (seq <= u64_max)%N → (seq' <= u64_max)%N →
  fst (make_boot_id_text prefix pid seq mix) = fst (make_boot_id_text prefix' pid' seq' mix') →
  pid = pid' ∧ seq = seq'.
Proof.
  intros Hp Hp' Hm Hm' Hs Hs'. rewrite !make_boot_id_text_eq by done. simpl. intros E.
  apply compose_inj in E as [? E]; [|apply sequence_u64..|done|done]. split; [done|].
  assert (∀ s, (s <= u64_max)%N → s = u64_max ∧ ((s + 1) mod (u64_max + 1) = 0)%N ∨
    ((s + 1) mod (u64_max + 1) = s + 1)%N) as Hcase.
  { intros s ?. destruct (decide (s = u64_max)) as [->|]; [by left|].
    right. apply N.mod_small. lia. }
  destruct (Hcase seq Hs) as [[? ?]|?], (Hcase seq' Hs') as [[? ?]|?]; lia.
Qed.

Lemma make_boot_id_text_distinct_witness :
  (3 = 3)%N ∧ (4 = 4)%N.
Proof.
  apply (make_boot_id_text_distinct "rack" "rack" 3 3 4 4 9 9);
    [vm_compute; discriminate..|vm_compute; reflexivity].
Defined.
