(* ===== verification/Counter.v ===== *)
(** * Generations and epochs

    [include/cluster_fabric/generation.hpp] and [src/generation.cpp]: strongly
    typed 64-bit counters, their checked successor and their text form. *)

From S2P Require Import Prelude Identity.

Inductive CounterTag :=
  | ClusterEpochTag | CoordinatorEpochTag | ClusterGenerationTag | MembershipGenerationTag
  | TopologyEpochTag | TopologyGenerationTag | ConnectivityGenerationTag | HealthGenerationTag
  | ConstraintGenerationTag | SnapshotGenerationTag | PublicationGenerationTag
  | RackGenerationTag | DomainGenerationTag.

(** [StrongCounter<Tag>]: the value is a [std::uint64_t]. *)
Record StrongCounter (tag : CounterTag) := MkCtr { ctr : N }.
Arguments MkCtr {tag} _.
Arguments ctr {tag} _.

#[global] Instance StrongCounter_eq_dec tag : EqDecision (StrongCounter tag).
Proof. solve_decision. Defined.

#[global] Instance StrongCounter_less tag : Less (StrongCounter tag) :=
  λ x y, less (ctr x) (ctr y).

Definition no_ctr {tag} : StrongCounter tag := MkCtr 0.

Definition ctr_known {tag} (c : StrongCounter tag) : bool := negb (ctr c =? 0)%N.

(** Checked successor: no value on overflow rather than a wrapped one. *)
Definition next {tag} (c : StrongCounter tag) : option (StrongCounter tag) :=
  if (ctr c =? u64_max)%N then None else Some (MkCtr (ctr c + 1)).

Definition precedes {tag} (c candidate : StrongCounter tag) : bool := (ctr c <? ctr candidate)%N.

(** [StrongCounter::str]. *)
Definition ctr_str {tag} (c : StrongCounter tag) : string := to_decimal (ctr c).

Definition ctr_wf {tag} (c : StrongCounter tag) : Prop := (ctr c <= u64_max)%N.

Abbreviation ClusterEpoch := (StrongCounter ClusterEpochTag).
Abbreviation CoordinatorEpoch := (StrongCounter CoordinatorEpochTag).
Abbreviation ClusterGeneration := (StrongCounter ClusterGenerationTag).
Abbreviation MembershipGeneration := (StrongCounter MembershipGenerationTag).
Abbreviation TopologyEpoch := (StrongCounter TopologyEpochTag).
Abbreviation TopologyGeneration := (StrongCounter TopologyGenerationTag).
Abbreviation ConnectivityGeneration := (StrongCounter ConnectivityGenerationTag).
Abbreviation HealthGeneration := (StrongCounter HealthGenerationTag).
Abbreviation ConstraintGeneration := (StrongCounter ConstraintGenerationTag).
Abbreviation SnapshotGeneration := (StrongCounter SnapshotGenerationTag).
Abbreviation PublicationGeneration := (StrongCounter PublicationGenerationTag).
Abbreviation RackGeneration := (StrongCounter RackGenerationTag).
Abbreviation DomainGeneration := (StrongCounter DomainGenerationTag).

(** ** Text form *)

Definition kMaxCounterDigits : N := 20.

(** [render_counter]: the digits of the value, most significant first. *)
Definition render_counter (value : N) : string := to_decimal value.

(** The digit loop of [parse_counter_text]; [value > (kMax - digit) / 10]
    guards every step against overflow. *)
Fixpoint parse_digits (value : N) (l : list ascii) : option N :=
  match l with
  | [] => Some value
  | c :: l' =>
      if (code c <? 48)%N || (57 <? code c)%N then None else
      let digit := (code c - 48)%N in
      if ((u64_max - digit) / 10 <? value)%N then None else
      parse_digits (value * 10 + digit)%N l'
  end.

Definition parse_counter_text (text : string) (allow_zero : bool) : option N :=
  if is_empty text then None else
  if (kMaxCounterDigits <? strlen text)%N then None else
  match parse_digits 0 (chars text) with
  | None => None
  | Some value => if (value =? 0)%N && negb allow_zero then None else Some value
  end.

(** ** Facts *)

Lemma next_Some {tag} (c c' : StrongCounter tag) :
  next c = Some c' → ctr c ≠ u64_max ∧ ctr c' = (ctr c + 1)%N.
Proof. unfold next. destruct (N.eqb_spec (ctr c) u64_max); naive_solver. Qed.

Lemma next_below {tag} (c : StrongCounter tag) :
  (ctr c < u64_max)%N → ∃ c', next c = Some c' ∧ ctr c' = (ctr c + 1)%N.
Proof. intros H. unfold next. destruct (N.eqb_spec (ctr c) u64_max); [lia|eauto]. Qed.

Lemma next_wf {tag} (c c' : StrongCounter tag) : ctr_wf c → next c = Some c' → ctr_wf c'.
Proof. unfold ctr_wf. intros Hc H%next_Some. lia. Qed.

Lemma next_known {tag} (c c' : StrongCounter tag) : next c = Some c' → ctr_known c' = true.
Proof. intros [_ H]%next_Some. unfold ctr_known. rewrite H. by destruct (N.eqb_spec (ctr c + 1) 0); lia. Qed.

#[export] Hint Resolve next_wf next_known : fabric.

Lemma ctr_eq {tag} (c d : StrongCounter tag) : c = d ↔ ctr c = ctr d.
Proof. split; [by intros ->|]. destruct c, d. simpl. by intros ->. Qed.

Lemma parse_digits_spec value l n :
  (value <= u64_max)%N →
  parse_digits value l = Some n ↔
  Forall (λ c, (48 <= code c)%N ∧ (code c <= 57)%N) l ∧
  foldl (λ a c, a * 10 + digit_value c)%N value l = n ∧ (n <= u64_max)%N.
Proof.
  revert value. induction l as [|c l IH]; intros value Hv; simpl.
  { split; [intros [= ->]; by repeat constructor|]. by intros (_&->&_). }
  destruct ((code c <? 48)%N || (57 <? code c)%N) eqn:Ec.
  { split; [done|]. intros (H&_). apply Forall_cons in H as [[? ?] _].
    apply orb_true_iff in Ec as [?%N.ltb_lt|?%N.ltb_lt]; lia. }
  apply orb_false_elim in Ec as [Hlo%N.ltb_ge Hhi%N.ltb_ge]. unfold digit_value.
  destruct (N.ltb_spec ((u64_max - (code c - 48)) / 10) value) as [Hov|Hok].
  - split; [done|]. intros (_&Hf&Hn). exfalso.
    assert (∀ l' a, (a <= foldl (λ a c, a * 10 + (code c - 48)) a l')%N) as Hmono.
    { induction l' as [|c' l' IHl]; intros a; simpl; [done|].
      etrans; [|apply IHl]. lia. }
    specialize (Hmono l (value * 10 + (code c - 48))%N). rewrite Hf in Hmono.
    pose proof (N.mul_succ_div_gt (u64_max - (code c - 48)) 10 ltac:(lia)). lia.
  - pose proof (N.Div0.mul_div_le (u64_max - (code c - 48)) 10) as Hd.
    assert (code c - 48 <= u64_max)%N by (unfold u64_max; lia).
    rewrite IH by lia. rewrite Forall_cons. naive_solver.
Qed.

Lemma parse_counter_text_Some text allow_zero n :
  parse_counter_text text allow_zero = Some n ↔
  (0 < strlen text <= kMaxCounterDigits)%N ∧
  Forall (λ c, (48 <= code c)%N ∧ (code c <= 57)%N) (chars text) ∧
  foldl (λ a c, a * 10 + digit_value c)%N 0%N (chars text) = n ∧ (n <= u64_max)%N ∧
  (allow_zero = true ∨ n ≠ 0%N).
Proof.
  unfold parse_counter_text. destruct (is_empty text) eqn:Ee.
  { apply is_empty_spec in Ee as ->. split; [done|]. intros ((?&_)&_). by vm_compute in H. }
  assert (0 < strlen text)%N by (destruct text; [done|unfold strlen; simpl; lia]).
  destruct (N.ltb_spec kMaxCounterDigits (strlen text)).
  { split; [done|]. intros ((_&?)&_). lia. }
  pose proof (parse_digits_spec 0 (chars text)) as Hp.
  destruct (parse_digits 0 (chars text)) as [v|].
  - destruct (proj1 (Hp v ltac:(lia)) eq_refl) as (Hall&Hf&Hv).
    destruct ((v =? 0)%N && negb allow_zero) eqn:Ez.
    + split_bools. apply N.eqb_eq in H1. split; [done|]. intros (_&_&?&_&[?|?]); congruence.
    + split.
      * intros [= <-]. repeat split; try done. apply andb_false_iff in Ez as [Ez|Ez].
        -- right. by apply N.eqb_neq.
        -- left. by apply negb_false_iff.
      * intros (_&_&?&_). congruence.
  - split; [done|]. intros (_&Hall&Hf&Hn&_).
    by destruct (proj2 (Hp n ltac:(lia)) (conj Hall (conj Hf Hn))).
Qed.

Lemma decimal_digit_code d : (d < 10)%N → (48 <= code (decimal_digit d) <= 57)%N.
Proof.
  intros Hd.
  apply (below_16 (λ d, (d < 10)%N → (48 <= code (decimal_digit d) <= 57)%N)); [..|lia|done];
    intros; vm_compute; (split; discriminate) || lia.
Qed.

(** Parsing inverts rendering: every 64-bit counter value, up to the
    largest, is rendered as text that the untrusted-text parser accepts and
    reads back as the same value (the reserved zero only when it is allowed). *)
Theorem counter_text_roundtrip n allow_zero :
  (n <= u64_max)%N → allow_zero = true ∨ n ≠ 0%N →
  parse_counter_text (render_counter n) allow_zero = Some n.
Proof.
  intros Hn Hz. apply parse_counter_text_Some. unfold render_counter.
  rewrite strlen_chars, chars_to_decimal.
  destruct (dec_chars_bounds n Hn) as [_ Hlen]. split_and!; [| | | |done|done].
  - assert (dec_chars n ≠ []) as Hne by apply dec_chars_nonempty.
    destruct (dec_chars n); simpl in *; [done|lia].
  - unfold kMaxCounterDigits. lia.
  - apply dec_chars_forall. intros d Hd. by apply decimal_digit_code.
  - by apply dec_chars_value.
Qed.

Lemma counter_text_roundtrip_witness :
  parse_counter_text (render_counter u64_max) false = Some u64_max.
Proof. apply counter_text_roundtrip; [vm_compute; discriminate|right; vm_compute; discriminate]. Defined.
