(* ===== verification/Taxonomy.v ===== *)
(** * Enumerations

    The scoped enumerations of [taxonomy.hpp], [lifecycle.hpp], [evidence.hpp],
    [topology.hpp], [cluster_state.hpp], [mutation.hpp] and [error.hpp], with
    their text forms ([src/taxonomy.cpp], [src/lifecycle.cpp],
    [src/evidence.cpp], [src/mutation.cpp], [src/error.cpp]).

    Every enumeration of the program numbers its enumerators from zero without
    gaps: the raw value is the position in the declaration. *)

From S2P Require Import Prelude.

Class Enum (E : Type) `{EqDecision E} := {
  enumerators : list E;
  enumerators_complete (e : E) : e ∈ enumerators;
  enumerators_NoDup : NoDup enumerators
}.

Ltac enum_complete := intros []; apply (bool_decide_unpack _); vm_compute; exact I.
Ltac enum_nodup := simpl; apply (bool_decide_unpack _); vm_compute; exact I.

(** [static_cast<std::uint8_t>(value)]. *)
Definition raw {E} `{Enum E} (e : E) : N :=
  match find_index (eqb_of e) 0 enumerators with Some i => i | None => 0%N end.

(** The enumerator with a raw value, when there is one. *)
Definition of_raw {E} `{Enum E} (n : N) : option E := enumerators !! N.to_nat n.

Section enum.
  Context {E : Type} `{Enum E}.

Lemma raw_lookup (e : E) : enumerators !! N.to_nat (raw e) = Some e.
Proof.
  unfold raw. pose proof (enumerators_complete e) as Hin.
  destruct (find_index (eqb_of e) 0 enumerators) as [i|] eqn:Ef.
  - apply find_index_Some in Ef as (k&x&->&Hl&Hx&_). unfold eqb_of in Hx. split_bools. subst.
    by rewrite N.add_0_l, Nat2N.id.
  - apply find_index_None in Ef. rewrite Forall_forall in Ef. specialize (Ef e Hin).
    unfold eqb_of in Ef. by split_bools.
Qed.

Lemma of_raw_raw (e : E) : of_raw (raw e) = Some e.
Proof. apply raw_lookup. Qed.

Lemma raw_inj (x y : E) : raw x = raw y → x = y.
Proof. intros Hxy. pose proof (raw_lookup x) as Hx. rewrite Hxy, raw_lookup in Hx. congruence. Qed.

Lemma raw_lt (e : E) : (raw e < size (enumerators (E:=E)))%N.
Proof.
  pose proof (lookup_lt_Some _ _ _ (raw_lookup e)). unfold size. lia.
Qed.

Lemma of_raw_Some (n : N) (e : E) : of_raw n = Some e → n = raw e.
Proof.
  unfold of_raw. intros Hn.
  pose proof (NoDup_lookup _ _ _ _ enumerators_NoDup Hn (raw_lookup e)). lia.
Qed.

End enum.

(** The order of the underlying integers. *)
#[global] Instance enum_less {E} `{Enum E} : Less E := λ x y, less (raw x) (raw y).

#[global] Instance enum_less_total {E} `{Enum E} : StrictTotal (less (A:=E)).
Proof.
  unfold less at 1, enum_less. split.
  - intros x. apply st_irrefl.
  - intros x y z. apply (st_trans (lt:=less)).
  - intros x y. destruct (st_total (lt:=less) (raw x) (raw y)) as [?|[?%raw_inj|?]]; auto.
Qed.

#[global] Instance enum_countable {E} `{Enum E} : Countable E :=
  inj_countable raw of_raw of_raw_raw.

(** ** Text tables *)

(** [render]: the canonical name of the first row for the value. *)
Fixpoint render {E} `{EqDecision E} (value : E) (names : list (E * string * string)) : string :=
  match names with
  | [] => "UNKNOWN"
  | (v, canonical, _) :: rest => if decide (v = value) then canonical else render value rest
  end.

(** [parse] of [lifecycle.cpp] and the loops of [evidence.cpp]: the canonical
    or the enumerator spelling of the first row that has it. *)
Fixpoint parse_name {E} (text : string) (names : list (E * string * string)) : option E :=
  match names with
  | [] => None
  | (v, canonical, enumerator) :: rest =>
      if decide (text = canonical ∨ text = enumerator) then Some v else parse_name text rest
  end.

(** [parse] of [taxonomy.cpp]: the enumerator spelling of [Unknown] is not accepted. *)
Fixpoint parse_taxonomy {E} `{EqDecision E} (unknown : E) (text : string)
    (names : list (E * string * string)) : option E :=
  match names with
  | [] => None
  | (v, canonical, enumerator) :: rest =>
      if decide (text = canonical) then Some v else
      if decide (v ≠ unknown ∧ text = enumerator) then Some v else
      parse_taxonomy unknown text rest
  end.

(** ** Taxonomy *)

Inductive FailureDomainClass :=
  | FD_Unknown | FD_Rack | FD_Row | FD_SwitchPlane | FD_PowerFeed | FD_NetworkPlane
  | FD_AvailabilityZone | FD_StorageDomain | FD_CoolingLoop | FD_ControlPlane.

#[global] Instance FailureDomainClass_eq_dec : EqDecision FailureDomainClass.
Proof. solve_decision. Defined.

#[global] Program Instance FailureDomainClass_enum : Enum FailureDomainClass := {|
  enumerators := [FD_Unknown; FD_Rack; FD_Row; FD_SwitchPlane; FD_PowerFeed; FD_NetworkPlane;
    FD_AvailabilityZone; FD_StorageDomain; FD_CoolingLoop; FD_ControlPlane]
|}.
Next Obligation. enum_complete. Qed.
Next Obligation. enum_nodup. Qed.

Definition kFailureDomainClassNames : list (FailureDomainClass * string * string) :=
  [(FD_Unknown, "UNKNOWN", "Unknown");
   (FD_Rack, "RACK", "Rack");
   (FD_Row, "ROW", "Row");
   (FD_SwitchPlane, "SWITCH_PLANE", "SwitchPlane");
   (FD_PowerFeed, "POWER_FEED", "PowerFeed");
   (FD_NetworkPlane, "NETWORK_PLANE", "NetworkPlane");
   (FD_AvailabilityZone, "AVAILABILITY_ZONE", "AvailabilityZone");
   (FD_StorageDomain, "STORAGE_DOMAIN", "StorageDomain");
   (FD_CoolingLoop, "COOLING_LOOP", "CoolingLoop");
   (FD_ControlPlane, "CONTROL_PLANE", "ControlPlane")].

Definition string_of_failure_domain_class (value : FailureDomainClass) : string := render value kFailureDomainClassNames.
Definition failure_domain_class_from_string (text : string) : option FailureDomainClass :=
  parse_taxonomy FD_Unknown text kFailureDomainClassNames.

Inductive PlacementDomainClass :=
  | PD_Unknown | PD_LowLatencyFabric | PD_AvailabilityDomain | PD_NetworkTier
  | PD_PowerBoundary | PD_StorageLocality | PD_FailureDomain | PD_PolicyClass.

#[global] Instance PlacementDomainClass_eq_dec : EqDecision PlacementDomainClass.
Proof. solve_decision. Defined.

#[global] Program Instance PlacementDomainClass_enum : Enum PlacementDomainClass := {|
  enumerators := [PD_Unknown; PD_LowLatencyFabric; PD_AvailabilityDomain; PD_NetworkTier;
    PD_PowerBoundary; PD_StorageLocality; PD_FailureDomain; PD_PolicyClass]
|}.
Next Obligation. enum_complete. Qed.
Next Obligation. enum_nodup. Qed.

Definition kPlacementDomainClassNames : list (PlacementDomainClass * string * string) :=
  [(PD_Unknown, "UNKNOWN", "Unknown");
   (PD_LowLatencyFabric, "LOW_LATENCY_FABRIC", "LowLatencyFabric");
   (PD_AvailabilityDomain, "AVAILABILITY_DOMAIN", "AvailabilityDomain");
   (PD_NetworkTier, "NETWORK_TIER", "NetworkTier");
   (PD_PowerBoundary, "POWER_BOUNDARY", "PowerBoundary");
   (PD_StorageLocality, "STORAGE_LOCALITY", "StorageLocality");
   (PD_FailureDomain, "FAILURE_DOMAIN", "FailureDomain");
   (PD_PolicyClass, "POLICY_CLASS", "PolicyClass")].

Definition string_of_placement_domain_class (value : PlacementDomainClass) : string := render value kPlacementDomainClassNames.
Definition placement_domain_class_from_string (text : string) : option PlacementDomainClass :=
  parse_taxonomy PD_Unknown text kPlacementDomainClassNames.

Inductive CapacityDomainClass :=
  | CD_Unknown | CD_RackGroup | CD_AcceleratorPool | CD_CpuPool | CD_NetworkDomain
  | CD_StorageDomain.

#[global] Instance CapacityDomainClass_eq_dec : EqDecision CapacityDomainClass.
Proof. solve_decision. Defined.

#[global] Program Instance CapacityDomainClass_enum : Enum CapacityDomainClass := {|
  enumerators := [CD_Unknown; CD_RackGroup; CD_AcceleratorPool; CD_CpuPool; CD_NetworkDomain;
    CD_StorageDomain]
|}.
Next Obligation. enum_complete. Qed.
Next Obligation. enum_nodup. Qed.

Definition kCapacityDomainClassNames : list (CapacityDomainClass * string * string) :=
  [(CD_Unknown, "UNKNOWN", "Unknown");
   (CD_RackGroup, "RACK_GROUP", "RackGroup");
   (CD_AcceleratorPool, "ACCELERATOR_POOL", "AcceleratorPool");
   (CD_CpuPool, "CPU_POOL", "CpuPool");
   (CD_NetworkDomain, "NETWORK_DOMAIN", "NetworkDomain");
   (CD_StorageDomain, "STORAGE_DOMAIN", "StorageDomain")].

Definition string_of_capacity_domain_class (value : CapacityDomainClass) : string := render value kCapacityDomainClassNames.
Definition capacity_domain_class_from_string (text : string) : option CapacityDomainClass :=
  parse_taxonomy CD_Unknown text kCapacityDomainClassNames.

Inductive ConnectivityClass :=
  | Conn_Unknown | Conn_DirectFabric | Conn_SwitchedFabric | Conn_RoutedPath | Conn_Overlay
  | Conn_ManagementOnly.

#[global] Instance ConnectivityClass_eq_dec : EqDecision ConnectivityClass.
Proof. solve_decision. Defined.

#[global] Program Instance ConnectivityClass_enum : Enum ConnectivityClass := {|
  enumerators := [Conn_Unknown; Conn_DirectFabric; Conn_SwitchedFabric; Conn_RoutedPath;
    Conn_Overlay; Conn_ManagementOnly]
|}.
Next Obligation. enum_complete. Qed.
Next Obligation. enum_nodup. Qed.

Definition kConnectivityClassNames : list (ConnectivityClass * string * string) :=
  [(Conn_Unknown, "UNKNOWN", "Unknown");
   (Conn_DirectFabric, "DIRECT_FABRIC", "DirectFabric");
   (Conn_SwitchedFabric, "SWITCHED_FABRIC", "SwitchedFabric");
   (Conn_RoutedPath, "ROUTED_PATH", "RoutedPath");
   (Conn_Overlay, "OVERLAY", "Overlay");
   (Conn_ManagementOnly, "MANAGEMENT_ONLY", "ManagementOnly")].

Definition string_of_connectivity_class (value : ConnectivityClass) : string := render value kConnectivityClassNames.
Definition connectivity_class_from_string (text : string) : option ConnectivityClass :=
  parse_taxonomy Conn_Unknown text kConnectivityClassNames.

Inductive LinkDirection :=
  | Dir_Unknown | Dir_Unidirectional | Dir_Bidirectional.

#[global] Instance LinkDirection_eq_dec : EqDecision LinkDirection.
Proof. solve_decision. Defined.

#[global] Program Instance LinkDirection_enum : Enum LinkDirection := {|
  enumerators := [Dir_Unknown; Dir_Unidirectional; Dir_Bidirectional]
|}.
Next Obligation. enum_complete. Qed.
Next Obligation. enum_nodup. Qed.

Definition kLinkDirectionNames : list (LinkDirection * string * string) :=
  [(Dir_Unknown, "UNKNOWN", "Unknown");
   (Dir_Unidirectional, "UNIDIRECTIONAL", "Unidirectional");
   (Dir_Bidirectional, "BIDIRECTIONAL", "Bidirectional")].

Definition string_of_link_direction (value : LinkDirection) : string := render value kLinkDirectionNames.
Definition link_direction_from_string (text : string) : option LinkDirection :=
  parse_taxonomy Dir_Unknown text kLinkDirectionNames.

Inductive Reachability :=
  | Reach_Unknown | Reach_Reachable | Reach_Unreachable | Reach_RevalidationRequired.

#[global] Instance Reachability_eq_dec : EqDecision Reachability.
Proof. solve_decision. Defined.

#[global] Program Instance Reachability_enum : Enum Reachability := {|
  enumerators := [Reach_Unknown; Reach_Reachable; Reach_Unreachable;
    Reach_RevalidationRequired]
|}.
Next Obligation. enum_complete. Qed.
Next Obligation. enum_nodup. Qed.

Definition kReachabilityNames : list (Reachability * string * string) :=
  [(Reach_Unknown, "UNKNOWN", "Unknown");
   (Reach_Reachable, "REACHABLE", "Reachable");
   (Reach_Unreachable, "UNREACHABLE", "Unreachable");
   (Reach_RevalidationRequired, "REVALIDATION_REQUIRED", "RevalidationRequired")].

Definition string_of_reachability (value : Reachability) : string := render value kReachabilityNames.
Definition reachability_from_string (text : string) : option Reachability :=
  parse_taxonomy Reach_Unknown text kReachabilityNames.

Inductive BandwidthClass :=
  | BW_Unknown | BW_Low | BW_Moderate | BW_High | BW_VeryHigh.

#[global] Instance BandwidthClass_eq_dec : EqDecision BandwidthClass.
Proof. solve_decision. Defined.

#[global] Program Instance BandwidthClass_enum : Enum BandwidthClass := {|
  enumerators := [BW_Unknown; BW_Low; BW_Moderate; BW_High; BW_VeryHigh]
|}.
Next Obligation. enum_complete. Qed.
Next Obligation. enum_nodup. Qed.

Definition kBandwidthClassNames : list (BandwidthClass * string * string) :=
  [(BW_Unknown, "UNKNOWN", "Unknown");
   (BW_Low, "LOW", "Low");
   (BW_Moderate, "MODERATE", "Moderate");
   (BW_High, "HIGH", "High");
   (BW_VeryHigh, "VERY_HIGH", "VeryHigh")].

Definition string_of_bandwidth_class (value : BandwidthClass) : string := render value kBandwidthClassNames.
Definition bandwidth_class_from_string (text : string) : option BandwidthClass :=
  parse_taxonomy BW_Unknown text kBandwidthClassNames.

Inductive LatencyClass :=
  | Lat_Unknown | Lat_VeryLow | Lat_Low | Lat_Moderate | Lat_High.

#[global] Instance LatencyClass_eq_dec : EqDecision LatencyClass.
Proof. solve_decision. Defined.

#[global] Program Instance LatencyClass_enum : Enum LatencyClass := {|
  enumerators := [Lat_Unknown; Lat_VeryLow; Lat_Low; Lat_Moderate; Lat_High]
|}.
Next Obligation. enum_complete. Qed.
Next Obligation. enum_nodup. Qed.

Definition kLatencyClassNames : list (LatencyClass * string * string) :=
  [(Lat_Unknown, "UNKNOWN", "Unknown");
   (Lat_VeryLow, "VERY_LOW", "VeryLow");
   (Lat_Low, "LOW", "Low");
   (Lat_Moderate, "MODERATE", "Moderate");
   (Lat_High, "HIGH", "High")].

Definition string_of_latency_class (value : LatencyClass) : string := render value kLatencyClassNames.
Definition latency_class_from_string (text : string) : option LatencyClass :=
  parse_taxonomy Lat_Unknown text kLatencyClassNames.

Inductive AcceleratorVendor :=
  | Vendor_Unknown | Vendor_Nvidia | Vendor_Amd | Vendor_Intel | Vendor_Other.

#[global] Instance AcceleratorVendor_eq_dec : EqDecision AcceleratorVendor.
Proof. solve_decision. Defined.

#[global] Program Instance AcceleratorVendor_enum : Enum AcceleratorVendor := {|
  enumerators := [Vendor_Unknown; Vendor_Nvidia; Vendor_Amd; Vendor_Intel; Vendor_Other]
|}.
Next Obligation. enum_complete. Qed.
Next Obligation. enum_nodup. Qed.

Definition kAcceleratorVendorNames : list (AcceleratorVendor * string * string) :=
  [(Vendor_Unknown, "UNKNOWN", "Unknown");
   (Vendor_Nvidia, "NVIDIA", "Nvidia");
   (Vendor_Amd, "AMD", "Amd");
   (Vendor_Intel, "INTEL", "Intel");
   (Vendor_Other, "OTHER", "Other")].

Definition string_of_accelerator_vendor (value : AcceleratorVendor) : string := render value kAcceleratorVendorNames.
Definition accelerator_vendor_from_string (text : string) : option AcceleratorVendor :=
  parse_taxonomy Vendor_Unknown text kAcceleratorVendorNames.

Inductive HealthState :=
  | Health_Unknown | Health_Healthy | Health_Degraded | Health_Unhealthy.

#[global] Instance HealthState_eq_dec : EqDecision HealthState.
Proof. solve_decision. Defined.

#[global] Program Instance HealthState_enum : Enum HealthState := {|
  enumerators := [Health_Unknown; Health_Healthy; Health_Degraded; Health_Unhealthy]
|}.
Next Obligation. enum_complete. Qed.
Next Obligation. enum_nodup. Qed.

Definition kHealthStateNames : list (HealthState * string * string) :=
  [(Health_Unknown, "UNKNOWN", "Unknown");
   (Health_Healthy, "HEALTHY", "Healthy");
   (Health_Degraded, "DEGRADED", "Degraded");
   (Health_Unhealthy, "UNHEALTHY", "Unhealthy")].

Definition string_of_health_state (value : HealthState) : string := render value kHealthStateNames.
Definition health_state_from_string (text : string) : option HealthState :=
  parse_taxonomy Health_Unknown text kHealthStateNames.

Inductive ConstraintKind :=
  | CK_Unknown | CK_PlacementScope | CK_ConnectivityRequirement | CK_FailureDomainIndependence
  | CK_CapacityFloor | CK_MaintenanceWindow.

#[global] Instance ConstraintKind_eq_dec : EqDecision ConstraintKind.
Proof. solve_decision. Defined.

#[global] Program Instance ConstraintKind_enum : Enum ConstraintKind := {|
  enumerators := [CK_Unknown; CK_PlacementScope; CK_ConnectivityRequirement;
    CK_FailureDomainIndependence; CK_CapacityFloor; CK_MaintenanceWindow]
|}.
Next Obligation. enum_complete. Qed.
Next Obligation. enum_nodup. Qed.

Definition kConstraintKindNames : list (ConstraintKind * string * string) :=
  [(CK_Unknown, "UNKNOWN", "Unknown");
   (CK_PlacementScope, "PLACEMENT_SCOPE", "PlacementScope");
   (CK_ConnectivityRequirement, "CONNECTIVITY_REQUIREMENT", "ConnectivityRequirement");
   (CK_FailureDomainIndependence, "FAILURE_DOMAIN_INDEPENDENCE", "FailureDomainIndependence");
   (CK_CapacityFloor, "CAPACITY_FLOOR", "CapacityFloor");
   (CK_MaintenanceWindow, "MAINTENANCE_WINDOW", "MaintenanceWindow")].

Definition string_of_constraint_kind (value : ConstraintKind) : string := render value kConstraintKindNames.
Definition constraint_kind_from_string (text : string) : option ConstraintKind :=
  parse_taxonomy CK_Unknown text kConstraintKindNames.

(** ** Lifecycle *)

Inductive ClusterLifecycle :=
  | CL_Declared | CL_Forming | CL_Partial | CL_Ready | CL_Degraded | CL_RevalidationRequired
  | CL_Retiring | CL_Retired.

#[global] Instance ClusterLifecycle_eq_dec : EqDecision ClusterLifecycle.
Proof. solve_decision. Defined.

#[global] Program Instance ClusterLifecycle_enum : Enum ClusterLifecycle := {|
  enumerators := [CL_Declared; CL_Forming; CL_Partial; CL_Ready; CL_Degraded;
    CL_RevalidationRequired; CL_Retiring; CL_Retired]
|}.
Next Obligation. enum_complete. Qed.
Next Obligation. enum_nodup. Qed.

Definition kClusterLifecycleNames : list (ClusterLifecycle * string * string) :=
  [(CL_Declared, "DECLARED", "Declared");
   (CL_Forming, "FORMING", "Forming");
   (CL_Partial, "PARTIAL", "Partial");
   (CL_Ready, "READY", "Ready");
   (CL_Degraded, "DEGRADED", "Degraded");
   (CL_RevalidationRequired, "REVALIDATION_REQUIRED", "RevalidationRequired");
   (CL_Retiring, "RETIRING", "Retiring");
   (CL_Retired, "RETIRED", "Retired")].

Definition string_of_cluster_lifecycle (value : ClusterLifecycle) : string := render value kClusterLifecycleNames.
Definition cluster_lifecycle_from_string (text : string) : option ClusterLifecycle :=
  parse_name text kClusterLifecycleNames.

Inductive RackMembershipState :=
  | Mem_Unknown | Mem_Active | Mem_Unavailable | Mem_Withdrawn | Mem_Retired.

#[global] Instance RackMembershipState_eq_dec : EqDecision RackMembershipState.
Proof. solve_decision. Defined.

#[global] Program Instance RackMembershipState_enum : Enum RackMembershipState := {|
  enumerators := [Mem_Unknown; Mem_Active; Mem_Unavailable; Mem_Withdrawn; Mem_Retired]
|}.
Next Obligation. enum_complete. Qed.
Next Obligation. enum_nodup. Qed.

Definition kRackMembershipStateNames : list (RackMembershipState * string * string) :=
  [(Mem_Unknown, "UNKNOWN", "Unknown");
   (Mem_Active, "ACTIVE", "Active");
   (Mem_Unavailable, "UNAVAILABLE", "Unavailable");
   (Mem_Withdrawn, "WITHDRAWN", "Withdrawn");
   (Mem_Retired, "RETIRED", "Retired")].

Definition string_of_rack_membership_state (value : RackMembershipState) : string := render value kRackMembershipStateNames.
Definition rack_membership_state_from_string (text : string) : option RackMembershipState :=
  parse_name text kRackMembershipStateNames.

Inductive RackLifecycleState :=
  | RL_Unknown | RL_Declared | RL_Forming | RL_Ready | RL_Degraded | RL_Retiring | RL_Retired.

#[global] Instance RackLifecycleState_eq_dec : EqDecision RackLifecycleState.
Proof. solve_decision. Defined.

#[global] Program Instance RackLifecycleState_enum : Enum RackLifecycleState := {|
  enumerators := [RL_Unknown; RL_Declared; RL_Forming; RL_Ready; RL_Degraded; RL_Retiring;
    RL_Retired]
|}.
Next Obligation. enum_complete. Qed.
Next Obligation. enum_nodup. Qed.

Definition kRackLifecycleStateNames : list (RackLifecycleState * string * string) :=
  [(RL_Unknown, "UNKNOWN", "Unknown");
   (RL_Declared, "DECLARED", "Declared");
   (RL_Forming, "FORMING", "Forming");
   (RL_Ready, "READY", "Ready");
   (RL_Degraded, "DEGRADED", "Degraded");
   (RL_Retiring, "RETIRING", "Retiring");
   (RL_Retired, "RETIRED", "Retired")].

Definition string_of_rack_lifecycle_state (value : RackLifecycleState) : string := render value kRackLifecycleStateNames.
Definition rack_lifecycle_state_from_string (text : string) : option RackLifecycleState :=
  parse_name text kRackLifecycleStateNames.

Inductive RackCurrentness :=
  | Cur_Unknown | Cur_Current | Cur_Superseded | Cur_RevalidationRequired.

#[global] Instance RackCurrentness_eq_dec : EqDecision RackCurrentness.
Proof. solve_decision. Defined.

#[global] Program Instance RackCurrentness_enum : Enum RackCurrentness := {|
  enumerators := [Cur_Unknown; Cur_Current; Cur_Superseded; Cur_RevalidationRequired]
|}.
Next Obligation. enum_complete. Qed.
Next Obligation. enum_nodup. Qed.

Definition kRackCurrentnessNames : list (RackCurrentness * string * string) :=
  [(Cur_Unknown, "UNKNOWN", "Unknown");
   (Cur_Current, "CURRENT", "Current");
   (Cur_Superseded, "SUPERSEDED", "Superseded");
   (Cur_RevalidationRequired, "REVALIDATION_REQUIRED", "RevalidationRequired")].

Definition string_of_rack_currentness (value : RackCurrentness) : string := render value kRackCurrentnessNames.
Definition rack_currentness_from_string (text : string) : option RackCurrentness :=
  parse_name text kRackCurrentnessNames.

(** Consumers may treat the composition as authoritative for current use. *)
Definition is_consumable_lifecycle (value : ClusterLifecycle) : bool :=
  bool_decide (value = CL_Ready) || bool_decide (value = CL_Partial) ||
  bool_decide (value = CL_Degraded).

Definition accepts_mutations (value : ClusterLifecycle) : bool :=
  bool_decide (value ≠ CL_Retired).

(** ** Evidence *)

Inductive EvidenceProvenance :=
  | Prov_Unknown | Prov_Measured | Prov_Reported | Prov_Derived | Prov_Estimated
  | Prov_Synthetic | Prov_Reconstructed.

#[global] Instance EvidenceProvenance_eq_dec : EqDecision EvidenceProvenance.
Proof. solve_decision. Defined.

#[global] Program Instance EvidenceProvenance_enum : Enum EvidenceProvenance := {|
  enumerators := [Prov_Unknown; Prov_Measured; Prov_Reported; Prov_Derived; Prov_Estimated;
    Prov_Synthetic; Prov_Reconstructed]
|}.
Next Obligation. enum_complete. Qed.
Next Obligation. enum_nodup. Qed.

Definition string_of_evidence_provenance (value : EvidenceProvenance) : string :=
  match value with
  | Prov_Unknown => "UNKNOWN"
  | Prov_Measured => "MEASURED"
  | Prov_Reported => "REPORTED"
  | Prov_Derived => "DERIVED"
  | Prov_Estimated => "ESTIMATED"
  | Prov_Synthetic => "SYNTHETIC"
  | Prov_Reconstructed => "RECONSTRUCTED"
  end.

Definition kProvenanceNames : list (EvidenceProvenance * string * string) :=
  [(Prov_Unknown, "UNKNOWN", "Unknown");
   (Prov_Measured, "MEASURED", "Measured");
   (Prov_Reported, "REPORTED", "Reported");
   (Prov_Derived, "DERIVED", "Derived");
   (Prov_Estimated, "ESTIMATED", "Estimated");
   (Prov_Synthetic, "SYNTHETIC", "Synthetic");
   (Prov_Reconstructed, "RECONSTRUCTED", "Reconstructed")].

Definition evidence_provenance_from_string (text : string) : option EvidenceProvenance := parse_name text kProvenanceNames.

Inductive Freshness :=
  | Fresh_Unknown | Fresh_Fresh | Fresh_Stale | Fresh_RevalidationRequired.

#[global] Instance Freshness_eq_dec : EqDecision Freshness.
Proof. solve_decision. Defined.

#[global] Program Instance Freshness_enum : Enum Freshness := {|
  enumerators := [Fresh_Unknown; Fresh_Fresh; Fresh_Stale; Fresh_RevalidationRequired]
|}.
Next Obligation. enum_complete. Qed.
Next Obligation. enum_nodup. Qed.

Definition string_of_freshness (value : Freshness) : string :=
  match value with
  | Fresh_Unknown => "UNKNOWN"
  | Fresh_Fresh => "FRESH"
  | Fresh_Stale => "STALE"
  | Fresh_RevalidationRequired => "REVALIDATION_REQUIRED"
  end.

Definition kFreshnessNames : list (Freshness * string * string) :=
  [(Fresh_Unknown, "UNKNOWN", "Unknown");
   (Fresh_Fresh, "FRESH", "Fresh");
   (Fresh_Stale, "STALE", "Stale");
   (Fresh_RevalidationRequired, "REVALIDATION_REQUIRED", "RevalidationRequired")].

Definition freshness_from_string (text : string) : option Freshness := parse_name text kFreshnessNames.

Inductive Durability :=
  | Dur_Durable | Dur_Ephemeral.

#[global] Instance Durability_eq_dec : EqDecision Durability.
Proof. solve_decision. Defined.

#[global] Program Instance Durability_enum : Enum Durability := {|
  enumerators := [Dur_Durable; Dur_Ephemeral]
|}.
Next Obligation. enum_complete. Qed.
Next Obligation. enum_nodup. Qed.

Definition string_of_durability (value : Durability) : string :=
  match value with
  | Dur_Durable => "DURABLE"
  | Dur_Ephemeral => "EPHEMERAL"
  end.

Definition durability_from_string (text : string) : option Durability :=
  if decide (text = "DURABLE" ∨ text = "Durable") then Some Dur_Durable else
  if decide (text = "EPHEMERAL" ∨ text = "Ephemeral") then Some Dur_Ephemeral else None.

(** ** Topology and queries *)

Inductive DomainIndependence :=
  | Indep_Unknown | Indep_Independent | Indep_Shared | Indep_RevalidationRequired.

#[global] Instance DomainIndependence_eq_dec : EqDecision DomainIndependence.
Proof. solve_decision. Defined.

#[global] Program Instance DomainIndependence_enum : Enum DomainIndependence := {|
  enumerators := [Indep_Unknown; Indep_Independent; Indep_Shared; Indep_RevalidationRequired]
|}.
Next Obligation. enum_complete. Qed.
Next Obligation. enum_nodup. Qed.

Inductive CapacityAggregateStatus :=
  | Agg_Unknown | Agg_Known | Agg_MixedSemantics | Agg_IncompleteEvidence
  | Agg_RevalidationRequired.

#[global] Instance CapacityAggregateStatus_eq_dec : EqDecision CapacityAggregateStatus.
Proof. solve_decision. Defined.

#[global] Program Instance CapacityAggregateStatus_enum : Enum CapacityAggregateStatus := {|
  enumerators := [Agg_Unknown; Agg_Known; Agg_MixedSemantics; Agg_IncompleteEvidence;
    Agg_RevalidationRequired]
|}.
Next Obligation. enum_complete. Qed.
Next Obligation. enum_nodup. Qed.

Inductive RackReferenceIssue :=
  | Issue_None | Issue_MissingRackId | Issue_MissingGeneration | Issue_TooManyEndpoints
  | Issue_TooManyFailureDomainHints | Issue_TooManyAcceleratorClasses | Issue_InvalidLabel
  | Issue_DuplicateEndpoint | Issue_DuplicateFailureDomainHint | Issue_MissingPublisher
  | Issue_UnknownProvenance.

#[global] Instance RackReferenceIssue_eq_dec : EqDecision RackReferenceIssue.
Proof. solve_decision. Defined.

#[global] Program Instance RackReferenceIssue_enum : Enum RackReferenceIssue := {|
  enumerators := [Issue_None; Issue_MissingRackId; Issue_MissingGeneration;
    Issue_TooManyEndpoints; Issue_TooManyFailureDomainHints;
    Issue_TooManyAcceleratorClasses; Issue_InvalidLabel;
    Issue_DuplicateEndpoint; Issue_DuplicateFailureDomainHint;
    Issue_MissingPublisher; Issue_UnknownProvenance]
|}.
Next Obligation. enum_complete. Qed.
Next Obligation. enum_nodup. Qed.

(** ** Mutations and errors *)

Inductive ErrorCategory :=
  | EC_None | EC_Identity | EC_Protocol | EC_Persistence | EC_Authority | EC_Generation
  | EC_Validation | EC_Resource | EC_Transport | EC_Shutdown | EC_Internal.

#[global] Instance ErrorCategory_eq_dec : EqDecision ErrorCategory.
Proof. solve_decision. Defined.

#[global] Program Instance ErrorCategory_enum : Enum ErrorCategory := {|
  enumerators := [EC_None; EC_Identity; EC_Protocol; EC_Persistence; EC_Authority;
    EC_Generation; EC_Validation; EC_Resource; EC_Transport; EC_Shutdown;
    EC_Internal]
|}.
Next Obligation. enum_complete. Qed.
Next Obligation. enum_nodup. Qed.

Definition string_of_error_category (value : ErrorCategory) : string :=
  match value with
  | EC_None => "NONE"
  | EC_Identity => "IDENTITY"
  | EC_Protocol => "PROTOCOL"
  | EC_Persistence => "PERSISTENCE"
  | EC_Authority => "AUTHORITY"
  | EC_Generation => "GENERATION"
  | EC_Validation => "VALIDATION"
  | EC_Resource => "RESOURCE"
  | EC_Transport => "TRANSPORT"
  | EC_Shutdown => "SHUTDOWN"
  | EC_Internal => "INTERNAL"
  end.

Inductive ErrorStage :=
  | ES_None | ES_Decode | ES_ValidateAuthority | ES_ValidateGeneration | ES_ValidateReference
  | ES_ConstructCandidate | ES_VerifyInvariants | ES_Commit | ES_Persist | ES_Publish
  | ES_Encode | ES_Transport | ES_Recover | ES_Shutdown.

#[global] Instance ErrorStage_eq_dec : EqDecision ErrorStage.
Proof. solve_decision. Defined.

#[global] Program Instance ErrorStage_enum : Enum ErrorStage := {|
  enumerators := [ES_None; ES_Decode; ES_ValidateAuthority; ES_ValidateGeneration;
    ES_ValidateReference; ES_ConstructCandidate; ES_VerifyInvariants;
    ES_Commit; ES_Persist; ES_Publish; ES_Encode; ES_Transport; ES_Recover;
    ES_Shutdown]
|}.
Next Obligation. enum_complete. Qed.
Next Obligation. enum_nodup. Qed.

Definition string_of_error_stage (value : ErrorStage) : string :=
  match value with
  | ES_None => "NONE"
  | ES_Decode => "DECODE"
  | ES_ValidateAuthority => "VALIDATE_AUTHORITY"
  | ES_ValidateGeneration => "VALIDATE_GENERATION"
  | ES_ValidateReference => "VALIDATE_REFERENCE"
  | ES_ConstructCandidate => "CONSTRUCT_CANDIDATE"
  | ES_VerifyInvariants => "VERIFY_INVARIANTS"
  | ES_Commit => "COMMIT"
  | ES_Persist => "PERSIST"
  | ES_Publish => "PUBLISH"
  | ES_Encode => "ENCODE"
  | ES_Transport => "TRANSPORT"
  | ES_Recover => "RECOVER"
  | ES_Shutdown => "SHUTDOWN"
  end.

Inductive MutationKind :=
  | MK_Unknown | MK_DeclareCluster | MK_RegisterRackPublisher | MK_AddRack
  | MK_UpdateRackGeneration | MK_MarkRackUnavailable | MK_WithdrawRack | MK_RetireRack
  | MK_RecoverRack | MK_PublishInterRackLink | MK_WithdrawInterRackLink
  | MK_PublishPlacementDomain | MK_PublishCapacityDomain | MK_PublishFailureDomain
  | MK_PublishNetworkDomain | MK_PublishStorageDomain | MK_PublishPowerDomain
  | MK_PublishCoolingDomain | MK_PublishLinkDomain | MK_PublishConstraint
  | MK_PublishHealthCurrentness | MK_WithdrawEvidence | MK_SupersedeTopology
  | MK_PublishSnapshot | MK_RevalidateRecoveredState | MK_RetireCluster.

#[global] Instance MutationKind_eq_dec : EqDecision MutationKind.
Proof. solve_decision. Defined.

#[global] Program Instance MutationKind_enum : Enum MutationKind := {|
  enumerators := [MK_Unknown; MK_DeclareCluster; MK_RegisterRackPublisher; MK_AddRack;
    MK_UpdateRackGeneration; MK_MarkRackUnavailable; MK_WithdrawRack;
    MK_RetireRack; MK_RecoverRack; MK_PublishInterRackLink;
    MK_WithdrawInterRackLink; MK_PublishPlacementDomain;
    MK_PublishCapacityDomain; MK_PublishFailureDomain; MK_PublishNetworkDomain;
    MK_PublishStorageDomain; MK_PublishPowerDomain; MK_PublishCoolingDomain;
    MK_PublishLinkDomain; MK_PublishConstraint; MK_PublishHealthCurrentness;
    MK_WithdrawEvidence; MK_SupersedeTopology; MK_PublishSnapshot;
    MK_RevalidateRecoveredState; MK_RetireCluster]
|}.
Next Obligation. enum_complete. Qed.
Next Obligation. enum_nodup. Qed.

Definition string_of_mutation_kind (value : MutationKind) : string :=
  match value with
  | MK_Unknown => "UNKNOWN"
  | MK_DeclareCluster => "DECLARE_CLUSTER"
  | MK_RegisterRackPublisher => "REGISTER_RACK_PUBLISHER"
  | MK_AddRack => "ADD_RACK"
  | MK_UpdateRackGeneration => "UPDATE_RACK_GENERATION"
  | MK_MarkRackUnavailable => "MARK_RACK_UNAVAILABLE"
  | MK_WithdrawRack => "WITHDRAW_RACK"
  | MK_RetireRack => "RETIRE_RACK"
  | MK_RecoverRack => "RECOVER_RACK"
  | MK_PublishInterRackLink => "PUBLISH_INTER_RACK_LINK"
  | MK_WithdrawInterRackLink => "WITHDRAW_INTER_RACK_LINK"
  | MK_PublishPlacementDomain => "PUBLISH_PLACEMENT_DOMAIN"
  | MK_PublishCapacityDomain => "PUBLISH_CAPACITY_DOMAIN"
  | MK_PublishFailureDomain => "PUBLISH_FAILURE_DOMAIN"
  | MK_PublishNetworkDomain => "PUBLISH_NETWORK_DOMAIN"
  | MK_PublishStorageDomain => "PUBLISH_STORAGE_DOMAIN"
  | MK_PublishPowerDomain => "PUBLISH_POWER_DOMAIN"
  | MK_PublishCoolingDomain => "PUBLISH_COOLING_DOMAIN"
  | MK_PublishLinkDomain => "PUBLISH_LINK_DOMAIN"
  | MK_PublishConstraint => "PUBLISH_CONSTRAINT"
  | MK_PublishHealthCurrentness => "PUBLISH_HEALTH_CURRENTNESS"
  | MK_WithdrawEvidence => "WITHDRAW_EVIDENCE"
  | MK_SupersedeTopology => "SUPERSEDE_TOPOLOGY"
  | MK_PublishSnapshot => "PUBLISH_SNAPSHOT"
  | MK_RevalidateRecoveredState => "REVALIDATE_RECOVERED_STATE"
  | MK_RetireCluster => "RETIRE_CLUSTER"
  end.

Inductive MutationOutcome :=
  | Out_Accepted | Out_NoChange | Out_Rejected | Out_RevalidationRequired.

#[global] Instance MutationOutcome_eq_dec : EqDecision MutationOutcome.
Proof. solve_decision. Defined.

#[global] Program Instance MutationOutcome_enum : Enum MutationOutcome := {|
  enumerators := [Out_Accepted; Out_NoChange; Out_Rejected; Out_RevalidationRequired]
|}.
Next Obligation. enum_complete. Qed.
Next Obligation. enum_nodup. Qed.

Definition string_of_mutation_outcome (value : MutationOutcome) : string :=
  match value with
  | Out_Accepted => "ACCEPTED"
  | Out_NoChange => "NO_CHANGE"
  | Out_Rejected => "REJECTED"
  | Out_RevalidationRequired => "REVALIDATION_REQUIRED"
  end.

Inductive RejectionReason :=
  | Rej_None | Rej_StaleClusterEpoch | Rej_StaleCoordinatorEpoch | Rej_StaleRackBoot
  | Rej_StaleRackGeneration | Rej_StaleTopologyEpoch | Rej_StalePublication
  | Rej_NotAuthorized | Rej_Conflict | Rej_UnknownRack | Rej_UnknownDomain | Rej_InvalidDomain
  | Rej_InvalidRelationship | Rej_Retired | Rej_WrongCluster | Rej_LimitExceeded
  | Rej_Malformed | Rej_NotReady | Rej_ShuttingDown | Rej_PersistenceFailed
  | Rej_InvariantViolation | Rej_Internal.

#[global] Instance RejectionReason_eq_dec : EqDecision RejectionReason.
Proof. solve_decision. Defined.

#[global] Program Instance RejectionReason_enum : Enum RejectionReason := {|
  enumerators := [Rej_None; Rej_StaleClusterEpoch; Rej_StaleCoordinatorEpoch;
    Rej_StaleRackBoot; Rej_StaleRackGeneration; Rej_StaleTopologyEpoch;
    Rej_StalePublication; Rej_NotAuthorized; Rej_Conflict; Rej_UnknownRack;
    Rej_UnknownDomain; Rej_InvalidDomain; Rej_InvalidRelationship; Rej_Retired;
    Rej_WrongCluster; Rej_LimitExceeded; Rej_Malformed; Rej_NotReady;
    Rej_ShuttingDown; Rej_PersistenceFailed; Rej_InvariantViolation;
    Rej_Internal]
|}.
Next Obligation. enum_complete. Qed.
Next Obligation. enum_nodup. Qed.

Definition string_of_rejection_reason (value : RejectionReason) : string :=
  match value with
  | Rej_None => "NONE"
  | Rej_StaleClusterEpoch => "REJECT_STALE_CLUSTER_EPOCH"
  | Rej_StaleCoordinatorEpoch => "REJECT_STALE_COORDINATOR_EPOCH"
  | Rej_StaleRackBoot => "REJECT_STALE_RACK_BOOT"
  | Rej_StaleRackGeneration => "REJECT_STALE_RACK_GENERATION"
  | Rej_StaleTopologyEpoch => "REJECT_STALE_TOPOLOGY_EPOCH"
  | Rej_StalePublication => "REJECT_STALE_PUBLICATION"
  | Rej_NotAuthorized => "REJECT_NOT_AUTHORIZED"
  | Rej_Conflict => "REJECT_CONFLICT"
  | Rej_UnknownRack => "REJECT_UNKNOWN_RACK"
  | Rej_UnknownDomain => "REJECT_UNKNOWN_DOMAIN"
  | Rej_InvalidDomain => "REJECT_INVALID_DOMAIN"
  | Rej_InvalidRelationship => "REJECT_INVALID_RELATIONSHIP"
  | Rej_Retired => "REJECT_RETIRED"
  | Rej_WrongCluster => "REJECT_WRONG_CLUSTER"
  | Rej_LimitExceeded => "REJECT_LIMIT_EXCEEDED"
  | Rej_Malformed => "REJECT_MALFORMED"
  | Rej_NotReady => "REJECT_NOT_READY"
  | Rej_ShuttingDown => "REJECT_SHUTTING_DOWN"
  | Rej_PersistenceFailed => "REJECT_PERSISTENCE_FAILED"
  | Rej_InvariantViolation => "REJECT_INVARIANT_VIOLATION"
  | Rej_Internal => "REJECT_INTERNAL"
  end.

(** The scan over raw values of [mutation_kind_from_string] and
    [rejection_reason_from_string]. *)
Definition scan_enum {E} `{Enum E} (to_string : E → string) (text : string) : option E :=
  snd <$> list_find (λ e, to_string e = text) enumerators.

Definition mutation_kind_from_string (text : string) : option MutationKind :=
  scan_enum string_of_mutation_kind text.

Definition rejection_reason_from_string (text : string) : option RejectionReason :=
  scan_enum string_of_rejection_reason text.

(** ** Text round trips *)

Lemma scan_enum_inj {E} `{Enum E} (to_string : E → string) :
  NoDup (to_string <$> enumerators) → ∀ e, scan_enum to_string (to_string e) = Some e.
Proof.
  intros Hnd e. unfold scan_enum. set (P := λ e', to_string e' = to_string e).
  assert (Forall (λ x, P x → x = e) enumerators) as Hinj.
  { rewrite Forall_forall. intros x Hx HP.
    apply list_elem_of_lookup in Hx as [i Hi].
    pose proof (list_elem_of_lookup_1 _ _ (enumerators_complete e)) as [j Hj].
    assert (i = j) as ->.
    { eapply (NoDup_lookup _ _ _ (to_string e)); [exact Hnd|..];
        rewrite list_lookup_fmap; [by rewrite Hi; f_equal/=|by rewrite Hj]. }
    congruence. }
  destruct (list_find_elem_of P enumerators e) as [[i x] Hf]; [apply enumerators_complete|done|].
  rewrite Hf. simpl. apply list_find_Some in Hf as (Hl&HP&_).
  rewrite Forall_forall in Hinj. f_equal. apply Hinj; [by eapply list_elem_of_lookup_2|done].
Qed.

(** Every enumeration that has a text form reads its canonical text back
    as the same enumerator. *)
Theorem enum_text_roundtrip :
  (∀ e, mutation_kind_from_string (string_of_mutation_kind e) = Some e) ∧
  (∀ e, rejection_reason_from_string (string_of_rejection_reason e) = Some e) ∧
  (∀ e, failure_domain_class_from_string (string_of_failure_domain_class e) = Some e) ∧
  (∀ e, placement_domain_class_from_string (string_of_placement_domain_class e) = Some e) ∧
  (∀ e, capacity_domain_class_from_string (string_of_capacity_domain_class e) = Some e) ∧
  (∀ e, connectivity_class_from_string (string_of_connectivity_class e) = Some e) ∧
  (∀ e, link_direction_from_string (string_of_link_direction e) = Some e) ∧
  (∀ e, reachability_from_string (string_of_reachability e) = Some e) ∧
  (∀ e, bandwidth_class_from_string (string_of_bandwidth_class e) = Some e) ∧
  (∀ e, latency_class_from_string (string_of_latency_class e) = Some e) ∧
  (∀ e, accelerator_vendor_from_string (string_of_accelerator_vendor e) = Some e) ∧
  (∀ e, health_state_from_string (string_of_health_state e) = Some e) ∧
  (∀ e, constraint_kind_from_string (string_of_constraint_kind e) = Some e) ∧
  (∀ e, cluster_lifecycle_from_string (string_of_cluster_lifecycle e) = Some e) ∧
  (∀ e, rack_membership_state_from_string (string_of_rack_membership_state e) = Some e) ∧
  (∀ e, rack_lifecycle_state_from_string (string_of_rack_lifecycle_state e) = Some e) ∧
  (∀ e, rack_currentness_from_string (string_of_rack_currentness e) = Some e) ∧
  (∀ e, evidence_provenance_from_string (string_of_evidence_provenance e) = Some e) ∧
  (∀ e, freshness_from_string (string_of_freshness e) = Some e) ∧
  (∀ e, durability_from_string (string_of_durability e) = Some e).
Proof.
  split; [apply scan_enum_inj; apply (bool_decide_unpack _); by vm_compute|].
  split; [apply scan_enum_inj; apply (bool_decide_unpack _); by vm_compute|].
  split_and!; intros []; by vm_compute.
Qed.
