(* ===== verification/Evidence.v ===== *)
(** * Evidence stamps

    [include/cluster_fabric/evidence.hpp] and [src/evidence.cpp]: timestamps,
    freshness classification and the evidence stamp carried by every record. *)

From S2P Require Import Prelude Taxonomy.

Open Scope Z_scope.

(** Milliseconds since the Unix epoch, a [std::int64_t]; zero is unknown. *)
Record Timestamp := MkTs { unix_millis : Z }.

#[global] Instance Timestamp_eq_dec : EqDecision Timestamp.
Proof. solve_decision. Defined.

Definition ts_unknown : Timestamp := MkTs 0.

Definition ts_known (t : Timestamp) : bool := 0 <? unix_millis t.

Definition is_physical_provenance (value : EvidenceProvenance) : bool :=
  bool_decide (value = Prov_Measured) || bool_decide (value = Prov_Reported) ||
  bool_decide (value = Prov_Derived).

Definition is_current_evidence_provenance (value : EvidenceProvenance) : bool :=
  bool_decide (value = Prov_Measured) || bool_decide (value = Prov_Reported).

Definition classify_freshness (observed_at now : Timestamp) (ttl_millis : Z) : Freshness :=
  if negb (ts_known observed_at) then Fresh_Unknown else
  if ttl_millis <=? 0 then Fresh_Fresh else
  let observed := unix_millis observed_at in
  let current := unix_millis now in
  if current <? observed then Fresh_Fresh else
  let elapsed := current - observed in
  if elapsed <=? ttl_millis then Fresh_Fresh else Fresh_Stale.

Record EvidenceStamp := MkStamp {
  ev_provenance : EvidenceProvenance;
  ev_observed_at : Timestamp;
  ev_freshness : Freshness;
  ev_ttl_millis : Z
}.

#[global] Instance EvidenceStamp_eq_dec : EqDecision EvidenceStamp.
Proof. solve_decision. Defined.

#[global] Instance eta_EvidenceStamp : Eta EvidenceStamp := λ r,
  MkStamp (ev_provenance r) (ev_observed_at r) (ev_freshness r) (ev_ttl_millis r).
#[global] Instance upd_ev_provenance : Upd ev_provenance := ltac:(derive_upd).
#[global] Instance upd_ev_observed_at : Upd ev_observed_at := ltac:(derive_upd).
#[global] Instance upd_ev_freshness : Upd ev_freshness := ltac:(derive_upd).

Definition stamp_unknown : EvidenceStamp := MkStamp Prov_Unknown ts_unknown Fresh_Unknown 0.

(** [EvidenceStamp::make]. *)
Definition stamp_make (provenance : EvidenceProvenance) (observed_at : Timestamp)
    (ttl_millis : Z) : EvidenceStamp :=
  MkStamp provenance observed_at (classify_freshness observed_at observed_at ttl_millis) ttl_millis.

Definition stamp_is_unknown (s : EvidenceStamp) : bool :=
  bool_decide (ev_provenance s = Prov_Unknown).

(** The stamp may back a statement about the present. *)
Definition is_current (s : EvidenceStamp) : bool :=
  is_current_evidence_provenance (ev_provenance s) && ts_known (ev_observed_at s) &&
  bool_decide (ev_freshness s = Fresh_Fresh).

Definition requires_revalidation (s : EvidenceStamp) : bool :=
  bool_decide (ev_freshness s = Fresh_RevalidationRequired) ||
  bool_decide (ev_provenance s = Prov_Reconstructed).

Definition refresh (now : Timestamp) (s : EvidenceStamp) : EvidenceStamp :=
  if decide (ev_freshness s = Fresh_RevalidationRequired) then s else
  s <| ev_freshness := classify_freshness (ev_observed_at s) now (ev_ttl_millis s) |>.

Definition mark_revalidation_required (s : EvidenceStamp) : EvidenceStamp :=
  s <| ev_freshness := Fresh_RevalidationRequired |>.

(** ** Facts *)

Lemma marked_not_current s : is_current (mark_revalidation_required s) = false.
Proof. unfold is_current. simpl. by rewrite andb_false_r. Qed.

Lemma marked_requires_revalidation s : requires_revalidation (mark_revalidation_required s) = true.
Proof. done. Qed.

Lemma current_not_revalidation s : is_current s = true → requires_revalidation s = false.
Proof.
  unfold is_current, requires_revalidation, is_current_evidence_provenance.
  destruct s as [[] ? [] ?]; simpl; intros; split_bools; done.
Qed.

#[export] Hint Resolve marked_not_current current_not_revalidation : fabric.

(** Freshness is decided without overflow and only ever decays.  For
    64-bit instants the subtraction the classifier performs stays in range;
    evidence with a known observation time is FRESH exactly until its
    time-to-live has elapsed (never when no expiry is declared); and once it
    is STALE it stays STALE as the clock advances. *)
Theorem classify_freshness_correct observed now ttl :
  in_i64 (unix_millis observed) = true → in_i64 (unix_millis now) = true →
  ts_known observed = true →
  (unix_millis observed ≤ unix_millis now →
   in_i64 (unix_millis now - unix_millis observed) = true) ∧
  (classify_freshness observed now ttl = Fresh_Fresh ↔
   ttl ≤ 0 ∨ unix_millis now ≤ unix_millis observed + ttl) ∧
  (classify_freshness observed now ttl = Fresh_Stale →
   ∀ later, unix_millis now ≤ unix_millis later →
   classify_freshness observed later ttl = Fresh_Stale).
Proof.
  unfold in_i64, ts_known, classify_freshness, ts_known. intros Ho Hn Hk. split_bools.
  rewrite ?Z.leb_le, ?Z.ltb_lt in *. unfold i64_min, i64_max in *.
  rewrite (proj2 (Z.ltb_lt 0 _)) by lia. simpl. split_and!.
  - intros. apply andb_true_intro. rewrite !Z.leb_le. lia.
  - repeat case_match; rewrite ?Z.leb_le, ?Z.leb_gt, ?Z.ltb_lt, ?Z.ltb_ge in *;
      (split; [intros; try done; lia|]); try done; lia.
  - intros Hs later Hl. revert Hs.
    repeat case_match; rewrite ?Z.leb_le, ?Z.leb_gt, ?Z.ltb_lt, ?Z.ltb_ge in *; try done; lia.
Qed.

Lemma classify_freshness_correct_witness :
  classify_freshness (MkTs 1000) (MkTs 2001) 1000 = Fresh_Stale ∧
  classify_freshness (MkTs 1000) (MkTs i64_max) 1000 = Fresh_Stale.
Proof.
  split; [reflexivity|].
  apply (classify_freshness_correct (MkTs 1000) (MkTs 2001) 1000); try reflexivity.
  simpl. unfold i64_max. lia.
Defined.
