(* ===== verification/Types.v ===== *)
(** * Records

    The structures of [domains.hpp], [topology.hpp], [rack_reference.hpp],
    [lifecycle.hpp], [cluster_state.hpp], [error.hpp], [explanation.hpp] and
    [mutation.hpp].  A field [f] of a structure is the projection [p_f], where
    [p] abbreviates the structure; assignments to a field use [<| p_f := v |>]. *)

From S2P Require Import Prelude Identity Counter Taxonomy Evidence.

(** ** Binary64 values

    A [double] is its 64-bit pattern.  [operator==] is IEEE equality: NaN
    differs from everything and the two zeros are equal. *)

Record double := MkDouble { dbl_bits : N }.

#[global] Instance double_eq_dec : EqDecision double.
Proof. solve_decision. Defined.

Definition dbl_exponent (d : double) : N := N.land (N.shiftr (dbl_bits d) 52) 2047.
Definition dbl_mantissa (d : double) : N := N.land (dbl_bits d) (N.ones 52).
Definition dbl_magnitude (d : double) : N := N.land (dbl_bits d) (N.ones 63).

Definition dbl_is_finite (d : double) : bool := negb (dbl_exponent d =? 2047)%N.
Definition dbl_is_nan (d : double) : bool :=
  (dbl_exponent d =? 2047)%N && negb (dbl_mantissa d =? 0)%N.

Definition dbl_eqb (x y : double) : bool :=
  if dbl_is_nan x || dbl_is_nan y then false else
  (dbl_bits x =? dbl_bits y)%N || ((dbl_magnitude x =? 0)%N && (dbl_magnitude y =? 0)%N).

(** [operator==] of a structure.  It is structural equality except for the
    structures that hold a [double]. *)
Class CppEq (A : Type) := cpp_eqb : A → A → bool.

(** ** Domains *)

(** Common header of every domain record. *)
Record DomainHeader := MkHeader {
  dh_evidence : EvidenceStamp;
  dh_generation : DomainGeneration;
  dh_publisher : option RackPublisherId;
  dh_cluster_epoch : ClusterEpoch;
  dh_coordinator_epoch : CoordinatorEpoch;
  dh_label : string
}.

#[global] Instance DomainHeader_eq_dec : EqDecision DomainHeader.
Proof. solve_decision. Defined.

#[global] Instance eta_DomainHeader : Eta DomainHeader := λ r,
  MkHeader (dh_evidence r) (dh_generation r) (dh_publisher r) (dh_cluster_epoch r)
    (dh_coordinator_epoch r) (dh_label r).
#[global] Instance upd_dh_evidence : Upd dh_evidence := ltac:(derive_upd).
#[global] Instance upd_dh_generation : Upd dh_generation := ltac:(derive_upd).
#[global] Instance upd_dh_publisher : Upd dh_publisher := ltac:(derive_upd).
#[global] Instance upd_dh_cluster_epoch : Upd dh_cluster_epoch := ltac:(derive_upd).
#[global] Instance upd_dh_coordinator_epoch : Upd dh_coordinator_epoch := ltac:(derive_upd).
#[global] Instance upd_dh_label : Upd dh_label := ltac:(derive_upd).

Record PlacementDomain := MkPlacement {
  pd_id : PlacementDomainId;
  pd_klass : PlacementDomainClass;
  pd_racks : list RackId;
  pd_header : DomainHeader
}.

#[global] Instance PlacementDomain_eq_dec : EqDecision PlacementDomain.
Proof. solve_decision. Defined.

#[global] Instance eta_PlacementDomain : Eta PlacementDomain := λ r,
  MkPlacement (pd_id r) (pd_klass r) (pd_racks r) (pd_header r).
#[global] Instance upd_pd_id : Upd pd_id := ltac:(derive_upd).
#[global] Instance upd_pd_klass : Upd pd_klass := ltac:(derive_upd).
#[global] Instance upd_pd_racks : Upd pd_racks := ltac:(derive_upd).
#[global] Instance upd_pd_header : Upd pd_header := ltac:(derive_upd).

Record CapacityQuantity := MkQuantity {
  cq_unit : string;
  cq_value : option double;
  cq_provenance : EvidenceProvenance;
  cq_aggregated : bool
}.

#[global] Instance CapacityQuantity_eq_dec : EqDecision CapacityQuantity.
Proof. solve_decision. Defined.

Record CapacityDomain := MkCapacity {
  cd_id : CapacityDomainId;
  cd_klass : CapacityDomainClass;
  cd_racks : list RackId;
  cd_quantities : list CapacityQuantity;
  cd_header : DomainHeader
}.

#[global] Instance CapacityDomain_eq_dec : EqDecision CapacityDomain.
Proof. solve_decision. Defined.

#[global] Instance eta_CapacityDomain : Eta CapacityDomain := λ r,
  MkCapacity (cd_id r) (cd_klass r) (cd_racks r) (cd_quantities r) (cd_header r).
#[global] Instance upd_cd_id : Upd cd_id := ltac:(derive_upd).
#[global] Instance upd_cd_klass : Upd cd_klass := ltac:(derive_upd).
#[global] Instance upd_cd_racks : Upd cd_racks := ltac:(derive_upd).
#[global] Instance upd_cd_quantities : Upd cd_quantities := ltac:(derive_upd).
#[global] Instance upd_cd_header : Upd cd_header := ltac:(derive_upd).

Record FailureDomain := MkFailure {
  fd_id : FailureDomainId;
  fd_klass : FailureDomainClass;
  fd_racks : list RackId;
  fd_header : DomainHeader
}.

#[global] Instance FailureDomain_eq_dec : EqDecision FailureDomain.
Proof. solve_decision. Defined.

#[global] Instance eta_FailureDomain : Eta FailureDomain := λ r,
  MkFailure (fd_id r) (fd_klass r) (fd_racks r) (fd_header r).
#[global] Instance upd_fd_id : Upd fd_id := ltac:(derive_upd).
#[global] Instance upd_fd_klass : Upd fd_klass := ltac:(derive_upd).
#[global] Instance upd_fd_racks : Upd fd_racks := ltac:(derive_upd).
#[global] Instance upd_fd_header : Upd fd_header := ltac:(derive_upd).

Record NetworkDomain := MkNetwork {
  nd_id : NetworkDomainId;
  nd_connectivity : ConnectivityClass;
  nd_racks : list RackId;
  nd_header : DomainHeader
}.

#[global] Instance NetworkDomain_eq_dec : EqDecision NetworkDomain.
Proof. solve_decision. Defined.

#[global] Instance eta_NetworkDomain : Eta NetworkDomain := λ r,
  MkNetwork (nd_id r) (nd_connectivity r) (nd_racks r) (nd_header r).
#[global] Instance upd_nd_id : Upd nd_id := ltac:(derive_upd).
#[global] Instance upd_nd_connectivity : Upd nd_connectivity := ltac:(derive_upd).
#[global] Instance upd_nd_racks : Upd nd_racks := ltac:(derive_upd).
#[global] Instance upd_nd_header : Upd nd_header := ltac:(derive_upd).

Record StorageDomain := MkStorage {
  sd_id : StorageDomainId;
  sd_racks : list RackId;
  sd_header : DomainHeader
}.

#[global] Instance StorageDomain_eq_dec : EqDecision StorageDomain.
Proof. solve_decision. Defined.

#[global] Instance eta_StorageDomain : Eta StorageDomain := λ r,
  MkStorage (sd_id r) (sd_racks r) (sd_header r).
#[global] Instance upd_sd_id : Upd sd_id := ltac:(derive_upd).
#[global] Instance upd_sd_racks : Upd sd_racks := ltac:(derive_upd).
#[global] Instance upd_sd_header : Upd sd_header := ltac:(derive_upd).

Record PowerDomain := MkPower {
  pw_id : PowerDomainId;
  pw_racks : list RackId;
  pw_parent : option PowerDomainId;
  pw_header : DomainHeader
}.

#[global] Instance PowerDomain_eq_dec : EqDecision PowerDomain.
Proof. solve_decision. Defined.

#[global] Instance eta_PowerDomain : Eta PowerDomain := λ r,
  MkPower (pw_id r) (pw_racks r) (pw_parent r) (pw_header r).
#[global] Instance upd_pw_id : Upd pw_id := ltac:(derive_upd).
#[global] Instance upd_pw_racks : Upd pw_racks := ltac:(derive_upd).
#[global] Instance upd_pw_parent : Upd pw_parent := ltac:(derive_upd).
#[global] Instance upd_pw_header : Upd pw_header := ltac:(derive_upd).

Record CoolingDomain := MkCooling {
  co_id : CoolingDomainId;
  co_racks : list RackId;
  co_parent : option CoolingDomainId;
  co_header : DomainHeader
}.

#[global] Instance CoolingDomain_eq_dec : EqDecision CoolingDomain.
Proof. solve_decision. Defined.

#[global] Instance eta_CoolingDomain : Eta CoolingDomain := λ r,
  MkCooling (co_id r) (co_racks r) (co_parent r) (co_header r).
#[global] Instance upd_co_id : Upd co_id := ltac:(derive_upd).
#[global] Instance upd_co_racks : Upd co_racks := ltac:(derive_upd).
#[global] Instance upd_co_parent : Upd co_parent := ltac:(derive_upd).
#[global] Instance upd_co_header : Upd co_header := ltac:(derive_upd).

Record LinkDomain := MkLinkDomain {
  ld_id : LinkDomainId;
  ld_racks : list RackId;
  ld_header : DomainHeader
}.

#[global] Instance LinkDomain_eq_dec : EqDecision LinkDomain.
Proof. solve_decision. Defined.

#[global] Instance eta_LinkDomain : Eta LinkDomain := λ r,
  MkLinkDomain (ld_id r) (ld_racks r) (ld_header r).
#[global] Instance upd_ld_id : Upd ld_id := ltac:(derive_upd).
#[global] Instance upd_ld_racks : Upd ld_racks := ltac:(derive_upd).
#[global] Instance upd_ld_header : Upd ld_header := ltac:(derive_upd).

(** Per-class aggregate domain generations. *)
Record DomainGenerations := MkGenerations {
  dg_placement : DomainGeneration;
  dg_capacity : DomainGeneration;
  dg_failure : DomainGeneration;
  dg_network : DomainGeneration;
  dg_storage : DomainGeneration;
  dg_power : DomainGeneration;
  dg_cooling : DomainGeneration;
  dg_link : DomainGeneration
}.

#[global] Instance DomainGenerations_eq_dec : EqDecision DomainGenerations.
Proof. solve_decision. Defined.

#[global] Instance eta_DomainGenerations : Eta DomainGenerations := λ r,
  MkGenerations (dg_placement r) (dg_capacity r) (dg_failure r) (dg_network r) (dg_storage r)
    (dg_power r) (dg_cooling r) (dg_link r).
#[global] Instance upd_dg_placement : Upd dg_placement := ltac:(derive_upd).
#[global] Instance upd_dg_capacity : Upd dg_capacity := ltac:(derive_upd).
#[global] Instance upd_dg_failure : Upd dg_failure := ltac:(derive_upd).
#[global] Instance upd_dg_network : Upd dg_network := ltac:(derive_upd).
#[global] Instance upd_dg_storage : Upd dg_storage := ltac:(derive_upd).
#[global] Instance upd_dg_power : Upd dg_power := ltac:(derive_upd).
#[global] Instance upd_dg_cooling : Upd dg_cooling := ltac:(derive_upd).
#[global] Instance upd_dg_link : Upd dg_link := ltac:(derive_upd).

Definition dg_all_known (g : DomainGenerations) : bool :=
  ctr_known (dg_placement g) && ctr_known (dg_capacity g) && ctr_known (dg_failure g) &&
  ctr_known (dg_network g) && ctr_known (dg_storage g) && ctr_known (dg_power g) &&
  ctr_known (dg_cooling g) && ctr_known (dg_link g).

Record ClusterConstraint := MkConstraint {
  cc_id : ConstraintId;
  cc_kind : ConstraintKind;
  cc_racks : list RackId;
  cc_domain_ref : string;
  cc_statement : string;
  cc_header : DomainHeader
}.

#[global] Instance ClusterConstraint_eq_dec : EqDecision ClusterConstraint.
Proof. solve_decision. Defined.

#[global] Instance eta_ClusterConstraint : Eta ClusterConstraint := λ r,
  MkConstraint (cc_id r) (cc_kind r) (cc_racks r) (cc_domain_ref r) (cc_statement r) (cc_header r).
#[global] Instance upd_cc_id : Upd cc_id := ltac:(derive_upd).
#[global] Instance upd_cc_kind : Upd cc_kind := ltac:(derive_upd).
#[global] Instance upd_cc_racks : Upd cc_racks := ltac:(derive_upd).
#[global] Instance upd_cc_domain_ref : Upd cc_domain_ref := ltac:(derive_upd).
#[global] Instance upd_cc_statement : Upd cc_statement := ltac:(derive_upd).
#[global] Instance upd_cc_header : Upd cc_header := ltac:(derive_upd).

(** ** Topology *)

Record InterRackLink := MkLink {
  lk_id : InterRackLinkId;
  lk_source : RackId;
  lk_destination : RackId;
  lk_direction : LinkDirection;
  lk_connectivity : ConnectivityClass;
  lk_network_domain : option NetworkDomainId;
  lk_link_domain : option LinkDomainId;
  lk_source_endpoint : option RackEndpointId;
  lk_destination_endpoint : option RackEndpointId;
  lk_bandwidth_class : BandwidthClass;
  lk_nominal_bandwidth_bps : option N;
  lk_latency_class : LatencyClass;
  lk_nominal_latency_nanos : option N;
  lk_hop_count : option N;
  lk_reachability : Reachability;
  lk_health : HealthState;
  lk_failure_domains : list FailureDomainId;
  lk_header : DomainHeader;
  lk_topology_epoch : TopologyEpoch;
  lk_topology_generation : TopologyGeneration;
  lk_publication : PublicationGeneration;
  lk_boot : option RackAgentBootId
}.

#[global] Instance InterRackLink_eq_dec : EqDecision InterRackLink.
Proof. solve_decision. Defined.

#[global] Instance eta_InterRackLink : Eta InterRackLink := λ r,
  MkLink (lk_id r) (lk_source r) (lk_destination r) (lk_direction r) (lk_connectivity r)
    (lk_network_domain r) (lk_link_domain r) (lk_source_endpoint r)
    (lk_destination_endpoint r) (lk_bandwidth_class r) (lk_nominal_bandwidth_bps r)
    (lk_latency_class r) (lk_nominal_latency_nanos r) (lk_hop_count r) (lk_reachability r)
    (lk_health r) (lk_failure_domains r) (lk_header r) (lk_topology_epoch r)
    (lk_topology_generation r) (lk_publication r) (lk_boot r).
#[global] Instance upd_lk_id : Upd lk_id := ltac:(derive_upd).
#[global] Instance upd_lk_source : Upd lk_source := ltac:(derive_upd).
#[global] Instance upd_lk_destination : Upd lk_destination := ltac:(derive_upd).
#[global] Instance upd_lk_direction : Upd lk_direction := ltac:(derive_upd).
#[global] Instance upd_lk_connectivity : Upd lk_connectivity := ltac:(derive_upd).
#[global] Instance upd_lk_network_domain : Upd lk_network_domain := ltac:(derive_upd).
#[global] Instance upd_lk_link_domain : Upd lk_link_domain := ltac:(derive_upd).
#[global] Instance upd_lk_source_endpoint : Upd lk_source_endpoint := ltac:(derive_upd).
#[global] Instance upd_lk_destination_endpoint : Upd lk_destination_endpoint := ltac:(derive_upd).
#[global] Instance upd_lk_bandwidth_class : Upd lk_bandwidth_class := ltac:(derive_upd).
#[global] Instance upd_lk_nominal_bandwidth_bps : Upd lk_nominal_bandwidth_bps := ltac:(derive_upd).
#[global] Instance upd_lk_latency_class : Upd lk_latency_class := ltac:(derive_upd).
#[global] Instance upd_lk_nominal_latency_nanos : Upd lk_nominal_latency_nanos := ltac:(derive_upd).
#[global] Instance upd_lk_hop_count : Upd lk_hop_count := ltac:(derive_upd).
#[global] Instance upd_lk_reachability : Upd lk_reachability := ltac:(derive_upd).
#[global] Instance upd_lk_health : Upd lk_health := ltac:(derive_upd).
#[global] Instance upd_lk_failure_domains : Upd lk_failure_domains := ltac:(derive_upd).
#[global] Instance upd_lk_header : Upd lk_header := ltac:(derive_upd).
#[global] Instance upd_lk_topology_epoch : Upd lk_topology_epoch := ltac:(derive_upd).
#[global] Instance upd_lk_topology_generation : Upd lk_topology_generation := ltac:(derive_upd).
#[global] Instance upd_lk_publication : Upd lk_publication := ltac:(derive_upd).
#[global] Instance upd_lk_boot : Upd lk_boot := ltac:(derive_upd).

Record TopologyEpochRecord := MkTopologyRecord {
  tr_epoch : TopologyEpoch;
  tr_generation : TopologyGeneration;
  tr_established_at : Timestamp;
  tr_evidence : EvidenceStamp;
  tr_reason : string
}.

#[global] Instance TopologyEpochRecord_eq_dec : EqDecision TopologyEpochRecord.
Proof. solve_decision. Defined.

#[global] Instance eta_TopologyEpochRecord : Eta TopologyEpochRecord := λ r,
  MkTopologyRecord (tr_epoch r) (tr_generation r) (tr_established_at r) (tr_evidence r) (tr_reason r).
#[global] Instance upd_tr_epoch : Upd tr_epoch := ltac:(derive_upd).
#[global] Instance upd_tr_generation : Upd tr_generation := ltac:(derive_upd).
#[global] Instance upd_tr_established_at : Upd tr_established_at := ltac:(derive_upd).
#[global] Instance upd_tr_evidence : Upd tr_evidence := ltac:(derive_upd).
#[global] Instance upd_tr_reason : Upd tr_reason := ltac:(derive_upd).

(** ** Rack references *)

Record AcceleratorClassSummary := MkAccelerator {
  ac_vendor : AcceleratorVendor;
  ac_family : string;
  ac_device_count : option N;
  ac_device_memory_bytes : option N
}.

#[global] Instance AcceleratorClassSummary_eq_dec : EqDecision AcceleratorClassSummary.
Proof. solve_decision. Defined.

Record RackCompositionSummary := MkComposition {
  rc_accelerators : list AcceleratorClassSummary;
  rc_cpu_sockets : option N;
  rc_cpu_cores : option N;
  rc_host_memory_bytes : option N;
  rc_nic_count : option N;
  rc_switch_count : option N;
  rc_composition_label : string;
  rc_provenance : EvidenceProvenance
}.

#[global] Instance RackCompositionSummary_eq_dec : EqDecision RackCompositionSummary.
Proof. solve_decision. Defined.

#[global] Instance eta_RackCompositionSummary : Eta RackCompositionSummary := λ r,
  MkComposition (rc_accelerators r) (rc_cpu_sockets r) (rc_cpu_cores r) (rc_host_memory_bytes r)
    (rc_nic_count r) (rc_switch_count r) (rc_composition_label r) (rc_provenance r).
#[global] Instance upd_rc_accelerators : Upd rc_accelerators := ltac:(derive_upd).
#[global] Instance upd_rc_cpu_sockets : Upd rc_cpu_sockets := ltac:(derive_upd).
#[global] Instance upd_rc_cpu_cores : Upd rc_cpu_cores := ltac:(derive_upd).
#[global] Instance upd_rc_host_memory_bytes : Upd rc_host_memory_bytes := ltac:(derive_upd).
#[global] Instance upd_rc_nic_count : Upd rc_nic_count := ltac:(derive_upd).
#[global] Instance upd_rc_switch_count : Upd rc_switch_count := ltac:(derive_upd).
#[global] Instance upd_rc_composition_label : Upd rc_composition_label := ltac:(derive_upd).
#[global] Instance upd_rc_provenance : Upd rc_provenance := ltac:(derive_upd).

Record RackEndpoint := MkEndpoint {
  ep_id : RackEndpointId;
  ep_network_domain : option NetworkDomainId;
  ep_link_domain : option LinkDomainId;
  ep_connectivity : ConnectivityClass;
  ep_evidence : EvidenceStamp
}.

#[global] Instance RackEndpoint_eq_dec : EqDecision RackEndpoint.
Proof. solve_decision. Defined.

#[global] Instance eta_RackEndpoint : Eta RackEndpoint := λ r,
  MkEndpoint (ep_id r) (ep_network_domain r) (ep_link_domain r) (ep_connectivity r) (ep_evidence r).
#[global] Instance upd_ep_id : Upd ep_id := ltac:(derive_upd).
#[global] Instance upd_ep_network_domain : Upd ep_network_domain := ltac:(derive_upd).
#[global] Instance upd_ep_link_domain : Upd ep_link_domain := ltac:(derive_upd).
#[global] Instance upd_ep_connectivity : Upd ep_connectivity := ltac:(derive_upd).
#[global] Instance upd_ep_evidence : Upd ep_evidence := ltac:(derive_upd).

Record RackFailureDomainHint := MkHint {
  fh_klass : FailureDomainClass;
  fh_id : FailureDomainId;
  fh_evidence : EvidenceStamp
}.

#[global] Instance RackFailureDomainHint_eq_dec : EqDecision RackFailureDomainHint.
Proof. solve_decision. Defined.

#[global] Instance eta_RackFailureDomainHint : Eta RackFailureDomainHint := λ r,
  MkHint (fh_klass r) (fh_id r) (fh_evidence r).
#[global] Instance upd_fh_klass : Upd fh_klass := ltac:(derive_upd).
#[global] Instance upd_fh_id : Upd fh_id := ltac:(derive_upd).
#[global] Instance upd_fh_evidence : Upd fh_evidence := ltac:(derive_upd).

(** The narrow reference the cluster accepts about one rack. *)
Record RackReference := MkReference {
  rr_rack : RackId;
  rr_generation : RackGeneration;
  rr_rack_lifecycle : RackLifecycleState;
  rr_currentness : RackCurrentness;
  rr_composition : RackCompositionSummary;
  rr_endpoints : list RackEndpoint;
  rr_failure_domain_hints : list RackFailureDomainHint;
  rr_evidence : EvidenceStamp;
  rr_publisher : option RackPublisherId;
  rr_publication : PublicationGeneration;
  rr_boot : RackAgentBootId;
  rr_cluster_epoch : ClusterEpoch;
  rr_coordinator_epoch : CoordinatorEpoch;
  rr_health : HealthState;
  rr_origin_label : string
}.

#[global] Instance RackReference_eq_dec : EqDecision RackReference.
Proof. solve_decision. Defined.

#[global] Instance eta_RackReference : Eta RackReference := λ r,
  MkReference (rr_rack r) (rr_generation r) (rr_rack_lifecycle r) (rr_currentness r)
    (rr_composition r) (rr_endpoints r) (rr_failure_domain_hints r) (rr_evidence r)
    (rr_publisher r) (rr_publication r) (rr_boot r) (rr_cluster_epoch r)
    (rr_coordinator_epoch r) (rr_health r) (rr_origin_label r).
#[global] Instance upd_rr_rack : Upd rr_rack := ltac:(derive_upd).
#[global] Instance upd_rr_generation : Upd rr_generation := ltac:(derive_upd).
#[global] Instance upd_rr_rack_lifecycle : Upd rr_rack_lifecycle := ltac:(derive_upd).
#[global] Instance upd_rr_currentness : Upd rr_currentness := ltac:(derive_upd).
#[global] Instance upd_rr_composition : Upd rr_composition := ltac:(derive_upd).
#[global] Instance upd_rr_endpoints : Upd rr_endpoints := ltac:(derive_upd).
#[global] Instance upd_rr_failure_domain_hints : Upd rr_failure_domain_hints := ltac:(derive_upd).
#[global] Instance upd_rr_evidence : Upd rr_evidence := ltac:(derive_upd).
#[global] Instance upd_rr_publisher : Upd rr_publisher := ltac:(derive_upd).
#[global] Instance upd_rr_publication : Upd rr_publication := ltac:(derive_upd).
#[global] Instance upd_rr_boot : Upd rr_boot := ltac:(derive_upd).
#[global] Instance upd_rr_cluster_epoch : Upd rr_cluster_epoch := ltac:(derive_upd).
#[global] Instance upd_rr_coordinator_epoch : Upd rr_coordinator_epoch := ltac:(derive_upd).
#[global] Instance upd_rr_health : Upd rr_health := ltac:(derive_upd).
#[global] Instance upd_rr_origin_label : Upd rr_origin_label := ltac:(derive_upd).

(** ** Readiness *)

Record ReadinessContract := MkContract {
  ct_minimum_current_racks : N;
  ct_mandatory_racks : list RackId;
  ct_require_all_active_racks_current : bool;
  ct_require_connectivity_evidence : bool;
  ct_minimum_current_links : N;
  ct_required_placement_domain_classes : list PlacementDomainClass;
  ct_required_failure_domain_classes : list FailureDomainClass;
  ct_allow_partial : bool;
  ct_allow_degraded : bool;
  ct_require_no_conflicts : bool
}.

#[global] Instance ReadinessContract_eq_dec : EqDecision ReadinessContract.
Proof. solve_decision. Defined.

#[global] Instance eta_ReadinessContract : Eta ReadinessContract := λ r,
  MkContract (ct_minimum_current_racks r) (ct_mandatory_racks r)
    (ct_require_all_active_racks_current r) (ct_require_connectivity_evidence r)
    (ct_minimum_current_links r) (ct_required_placement_domain_classes r)
    (ct_required_failure_domain_classes r) (ct_allow_partial r) (ct_allow_degraded r)
    (ct_require_no_conflicts r).
#[global] Instance upd_ct_minimum_current_racks : Upd ct_minimum_current_racks := ltac:(derive_upd).
#[global] Instance upd_ct_mandatory_racks : Upd ct_mandatory_racks := ltac:(derive_upd).
#[global] Instance upd_ct_require_all_active_racks_current : Upd ct_require_all_active_racks_current := ltac:(derive_upd).
#[global] Instance upd_ct_require_connectivity_evidence : Upd ct_require_connectivity_evidence := ltac:(derive_upd).
#[global] Instance upd_ct_minimum_current_links : Upd ct_minimum_current_links := ltac:(derive_upd).
#[global] Instance upd_ct_required_placement_domain_classes : Upd ct_required_placement_domain_classes := ltac:(derive_upd).
#[global] Instance upd_ct_required_failure_domain_classes : Upd ct_required_failure_domain_classes := ltac:(derive_upd).
#[global] Instance upd_ct_allow_partial : Upd ct_allow_partial := ltac:(derive_upd).
#[global] Instance upd_ct_allow_degraded : Upd ct_allow_degraded := ltac:(derive_upd).
#[global] Instance upd_ct_require_no_conflicts : Upd ct_require_no_conflicts := ltac:(derive_upd).

Definition default_contract : ReadinessContract :=
  MkContract 1 [] true false 0 [] [] true true true.

(** [ReadinessContract::permissive] and [ReadinessContract::strict]. *)
Definition contract_permissive : ReadinessContract :=
  default_contract
    <| ct_minimum_current_racks := 0%N |>
    <| ct_require_all_active_racks_current := false |>
    <| ct_require_connectivity_evidence := false |>
    <| ct_minimum_current_links := 0%N |>
    <| ct_allow_partial := true |>
    <| ct_allow_degraded := true |>
    <| ct_require_no_conflicts := false |>.

Definition contract_strict : ReadinessContract :=
  default_contract
    <| ct_minimum_current_racks := 1%N |>
    <| ct_require_all_active_racks_current := true |>
    <| ct_require_connectivity_evidence := true |>
    <| ct_minimum_current_links := 1%N |>
    <| ct_allow_partial := false |>
    <| ct_allow_degraded := false |>
    <| ct_require_no_conflicts := true |>.

Record ReadinessBlocker := MkBlocker {
  bl_code : string;
  bl_subject : string;
  bl_detail : string
}.

#[global] Instance ReadinessBlocker_eq_dec : EqDecision ReadinessBlocker.
Proof. solve_decision. Defined.

Record ReadinessEvaluation := MkEvaluation {
  re_satisfied : bool;
  re_lifecycle : ClusterLifecycle;
  re_blockers : list ReadinessBlocker
}.

#[global] Instance ReadinessEvaluation_eq_dec : EqDecision ReadinessEvaluation.
Proof. solve_decision. Defined.

(** ** Canonical state *)

(** A process incarnation that has been permanently fenced. *)
Record FencedAuthority := MkFenced {
  fa_boot : RackAgentBootId;
  fa_rack : RackId;
  fa_reason : string;
  fa_fenced_at : Timestamp
}.

#[global] Instance FencedAuthority_eq_dec : EqDecision FencedAuthority.
Proof. solve_decision. Defined.

#[global] Instance eta_FencedAuthority : Eta FencedAuthority := λ r,
  MkFenced (fa_boot r) (fa_rack r) (fa_reason r) (fa_fenced_at r).
#[global] Instance upd_fa_boot : Upd fa_boot := ltac:(derive_upd).
#[global] Instance upd_fa_rack : Upd fa_rack := ltac:(derive_upd).
#[global] Instance upd_fa_reason : Upd fa_reason := ltac:(derive_upd).
#[global] Instance upd_fa_fenced_at : Upd fa_fenced_at := ltac:(derive_upd).

Record RetiredIdentity := MkRetired {
  ri_rack : RackId;
  ri_last_generation : RackGeneration;
  ri_retired_at : Timestamp;
  ri_reason : string
}.

#[global] Instance RetiredIdentity_eq_dec : EqDecision RetiredIdentity.
Proof. solve_decision. Defined.

(** Cluster-side record of one rack. *)
Record RackRecord := MkRackRecord {
  rk_reference : RackReference;
  rk_membership : RackMembershipState;
  rk_membership_generation : MembershipGeneration;
  rk_accepted_at_generation : ClusterGeneration;
  rk_membership_evidence : EvidenceStamp;
  rk_authoritative_current : bool;
  rk_non_authoritative_reason : string
}.

#[global] Instance RackRecord_eq_dec : EqDecision RackRecord.
Proof. solve_decision. Defined.

#[global] Instance eta_RackRecord : Eta RackRecord := λ r,
  MkRackRecord (rk_reference r) (rk_membership r) (rk_membership_generation r)
    (rk_accepted_at_generation r) (rk_membership_evidence r) (rk_authoritative_current r)
    (rk_non_authoritative_reason r).
#[global] Instance upd_rk_reference : Upd rk_reference := ltac:(derive_upd).
#[global] Instance upd_rk_membership : Upd rk_membership := ltac:(derive_upd).
#[global] Instance upd_rk_membership_generation : Upd rk_membership_generation := ltac:(derive_upd).
#[global] Instance upd_rk_accepted_at_generation : Upd rk_accepted_at_generation := ltac:(derive_upd).
#[global] Instance upd_rk_membership_evidence : Upd rk_membership_evidence := ltac:(derive_upd).
#[global] Instance upd_rk_authoritative_current : Upd rk_authoritative_current := ltac:(derive_upd).
#[global] Instance upd_rk_non_authoritative_reason : Upd rk_non_authoritative_reason := ltac:(derive_upd).

(** The authoritative cluster composition. *)
Record ClusterState := MkState {
  cs_id : ClusterId;
  cs_epoch : ClusterEpoch;
  cs_coordinator_epoch : CoordinatorEpoch;
  cs_generation : ClusterGeneration;
  cs_membership_generation : MembershipGeneration;
  cs_topology_epoch : TopologyEpoch;
  cs_topology_generation : TopologyGeneration;
  cs_connectivity_generation : ConnectivityGeneration;
  cs_health_generation : HealthGeneration;
  cs_constraint_generation : ConstraintGeneration;
  cs_domain_generations : DomainGenerations;
  cs_snapshot_generation : SnapshotGeneration;
  cs_publication_generation : PublicationGeneration;
  cs_lifecycle : ClusterLifecycle;
  cs_readiness_contract : ReadinessContract;
  cs_topology_record : TopologyEpochRecord;
  cs_racks : gmap RackId RackRecord;
  cs_links : gmap InterRackLinkId InterRackLink;
  cs_placement_domains : gmap PlacementDomainId PlacementDomain;
  cs_capacity_domains : gmap CapacityDomainId CapacityDomain;
  cs_failure_domains : gmap FailureDomainId FailureDomain;
  cs_network_domains : gmap NetworkDomainId NetworkDomain;
  cs_storage_domains : gmap StorageDomainId StorageDomain;
  cs_power_domains : gmap PowerDomainId PowerDomain;
  cs_cooling_domains : gmap CoolingDomainId CoolingDomain;
  cs_link_domains : gmap LinkDomainId LinkDomain;
  cs_constraints : gmap ConstraintId ClusterConstraint;
  cs_fenced_authorities : list FencedAuthority;
  cs_retired_racks : list RetiredIdentity;
  cs_withdrawn_racks : list RackId;
  cs_last_mutation_at : Timestamp;
  cs_declared_at : Timestamp
}.

#[global] Instance eta_ClusterState : Eta ClusterState := λ r,
  MkState (cs_id r) (cs_epoch r) (cs_coordinator_epoch r) (cs_generation r)
    (cs_membership_generation r) (cs_topology_epoch r) (cs_topology_generation r)
    (cs_connectivity_generation r) (cs_health_generation r) (cs_constraint_generation r)
    (cs_domain_generations r) (cs_snapshot_generation r) (cs_publication_generation r)
    (cs_lifecycle r) (cs_readiness_contract r) (cs_topology_record r) (cs_racks r)
    (cs_links r) (cs_placement_domains r) (cs_capacity_domains r) (cs_failure_domains r)
    (cs_network_domains r) (cs_storage_domains r) (cs_power_domains r)
    (cs_cooling_domains r) (cs_link_domains r) (cs_constraints r)
    (cs_fenced_authorities r) (cs_retired_racks r) (cs_withdrawn_racks r)
    (cs_last_mutation_at r) (cs_declared_at r).
#[global] Instance upd_cs_id : Upd cs_id := ltac:(derive_upd).
#[global] Instance upd_cs_epoch : Upd cs_epoch := ltac:(derive_upd).
#[global] Instance upd_cs_coordinator_epoch : Upd cs_coordinator_epoch := ltac:(derive_upd).
#[global] Instance upd_cs_generation : Upd cs_generation := ltac:(derive_upd).
#[global] Instance upd_cs_membership_generation : Upd cs_membership_generation := ltac:(derive_upd).
#[global] Instance upd_cs_topology_epoch : Upd cs_topology_epoch := ltac:(derive_upd).
#[global] Instance upd_cs_topology_generation : Upd cs_topology_generation := ltac:(derive_upd).
#[global] Instance upd_cs_connectivity_generation : Upd cs_connectivity_generation := ltac:(derive_upd).
#[global] Instance upd_cs_health_generation : Upd cs_health_generation := ltac:(derive_upd).
#[global] Instance upd_cs_constraint_generation : Upd cs_constraint_generation := ltac:(derive_upd).
#[global] Instance upd_cs_domain_generations : Upd cs_domain_generations := ltac:(derive_upd).
#[global] Instance upd_cs_snapshot_generation : Upd cs_snapshot_generation := ltac:(derive_upd).
#[global] Instance upd_cs_publication_generation : Upd cs_publication_generation := ltac:(derive_upd).
#[global] Instance upd_cs_lifecycle : Upd cs_lifecycle := ltac:(derive_upd).
#[global] Instance upd_cs_readiness_contract : Upd cs_readiness_contract := ltac:(derive_upd).
#[global] Instance upd_cs_topology_record : Upd cs_topology_record := ltac:(derive_upd).
#[global] Instance upd_cs_racks : Upd cs_racks := ltac:(derive_upd).
#[global] Instance upd_cs_links : Upd cs_links := ltac:(derive_upd).
#[global] Instance upd_cs_placement_domains : Upd cs_placement_domains := ltac:(derive_upd).
#[global] Instance upd_cs_capacity_domains : Upd cs_capacity_domains := ltac:(derive_upd).
#[global] Instance upd_cs_failure_domains : Upd cs_failure_domains := ltac:(derive_upd).
#[global] Instance upd_cs_network_domains : Upd cs_network_domains := ltac:(derive_upd).
#[global] Instance upd_cs_storage_domains : Upd cs_storage_domains := ltac:(derive_upd).
#[global] Instance upd_cs_power_domains : Upd cs_power_domains := ltac:(derive_upd).
#[global] Instance upd_cs_cooling_domains : Upd cs_cooling_domains := ltac:(derive_upd).
#[global] Instance upd_cs_link_domains : Upd cs_link_domains := ltac:(derive_upd).
#[global] Instance upd_cs_constraints : Upd cs_constraints := ltac:(derive_upd).
#[global] Instance upd_cs_fenced_authorities : Upd cs_fenced_authorities := ltac:(derive_upd).
#[global] Instance upd_cs_retired_racks : Upd cs_retired_racks := ltac:(derive_upd).
#[global] Instance upd_cs_withdrawn_racks : Upd cs_withdrawn_racks := ltac:(derive_upd).
#[global] Instance upd_cs_last_mutation_at : Upd cs_last_mutation_at := ltac:(derive_upd).
#[global] Instance upd_cs_declared_at : Upd cs_declared_at := ltac:(derive_upd).

(** ** Errors and explanations *)

Record StructuredError := MkError {
  er_category : ErrorCategory;
  er_stage : ErrorStage;
  er_subject : string;
  er_reason : string;
  er_expected : string;
  er_current : string;
  er_message : string
}.

#[global] Instance StructuredError_eq_dec : EqDecision StructuredError.
Proof. solve_decision. Defined.

#[global] Instance eta_StructuredError : Eta StructuredError := λ r,
  MkError (er_category r) (er_stage r) (er_subject r) (er_reason r) (er_expected r)
    (er_current r) (er_message r).
#[global] Instance upd_er_category : Upd er_category := ltac:(derive_upd).
#[global] Instance upd_er_stage : Upd er_stage := ltac:(derive_upd).
#[global] Instance upd_er_subject : Upd er_subject := ltac:(derive_upd).
#[global] Instance upd_er_reason : Upd er_reason := ltac:(derive_upd).
#[global] Instance upd_er_expected : Upd er_expected := ltac:(derive_upd).
#[global] Instance upd_er_current : Upd er_current := ltac:(derive_upd).
#[global] Instance upd_er_message : Upd er_message := ltac:(derive_upd).

Definition no_error : StructuredError := MkError EC_None ES_None "" "" "" "" "".

Definition er_ok (e : StructuredError) : bool := bool_decide (er_category e = EC_None).

Definition kMaxEncodedStringBytes : N := 4096.

(** [StructuredError::make]: reason and message are bounded. *)
Definition bounded (s : string) : string :=
  if (kMaxEncodedStringBytes <? strlen s)%N then str_take kMaxEncodedStringBytes s else s.

Definition error_make (category : ErrorCategory) (stage : ErrorStage)
    (reason message : string) : StructuredError :=
  MkError category stage "" (bounded reason) "" "" (bounded message).

Record ExplanationFactor := MkFactor {
  ef_code : string;
  ef_subject : string;
  ef_detail : string
}.

#[global] Instance ExplanationFactor_eq_dec : EqDecision ExplanationFactor.
Proof. solve_decision. Defined.

Record Explanation := MkExplanation {
  ex_code : string;
  ex_subject : string;
  ex_summary : string;
  ex_factors : list ExplanationFactor
}.

#[global] Instance Explanation_eq_dec : EqDecision Explanation.
Proof. solve_decision. Defined.

#[global] Instance eta_Explanation : Eta Explanation := λ r,
  MkExplanation (ex_code r) (ex_subject r) (ex_summary r) (ex_factors r).
#[global] Instance upd_ex_code : Upd ex_code := ltac:(derive_upd).
#[global] Instance upd_ex_subject : Upd ex_subject := ltac:(derive_upd).
#[global] Instance upd_ex_summary : Upd ex_summary := ltac:(derive_upd).
#[global] Instance upd_ex_factors : Upd ex_factors := ltac:(derive_upd).

Definition no_explanation : Explanation := MkExplanation "" "" "" [].

Definition explanation_make (code subject summary : string) : Explanation :=
  MkExplanation code subject summary [].

(** ** Mutations *)

Record MutationAuthority := MkAuthority {
  au_cluster_epoch : ClusterEpoch;
  au_coordinator_epoch : CoordinatorEpoch;
  au_topology_epoch : TopologyEpoch;
  au_topology_generation : TopologyGeneration;
  au_boot : option RackAgentBootId;
  au_publisher : option RackPublisherId;
  au_rack : option RackId;
  au_rack_generation : option RackGeneration;
  au_publication : PublicationGeneration
}.

#[global] Instance MutationAuthority_eq_dec : EqDecision MutationAuthority.
Proof. solve_decision. Defined.

#[global] Instance eta_MutationAuthority : Eta MutationAuthority := λ r,
  MkAuthority (au_cluster_epoch r) (au_coordinator_epoch r) (au_topology_epoch r)
    (au_topology_generation r) (au_boot r) (au_publisher r) (au_rack r)
    (au_rack_generation r) (au_publication r).
#[global] Instance upd_au_cluster_epoch : Upd au_cluster_epoch := ltac:(derive_upd).
#[global] Instance upd_au_coordinator_epoch : Upd au_coordinator_epoch := ltac:(derive_upd).
#[global] Instance upd_au_topology_epoch : Upd au_topology_epoch := ltac:(derive_upd).
#[global] Instance upd_au_topology_generation : Upd au_topology_generation := ltac:(derive_upd).
#[global] Instance upd_au_boot : Upd au_boot := ltac:(derive_upd).
#[global] Instance upd_au_publisher : Upd au_publisher := ltac:(derive_upd).
#[global] Instance upd_au_rack : Upd au_rack := ltac:(derive_upd).
#[global] Instance upd_au_rack_generation : Upd au_rack_generation := ltac:(derive_upd).
#[global] Instance upd_au_publication : Upd au_publication := ltac:(derive_upd).

Record MutationRequest := MkRequest {
  rq_kind : MutationKind;
  rq_cluster : ClusterId;
  rq_authority : MutationAuthority;
  rq_evidence : EvidenceStamp;
  rq_reason : string;
  rq_requested_at : Timestamp;
  rq_declared_lifecycle : ClusterLifecycle;
  rq_readiness_contract : ReadinessContract;
  rq_rack_reference : RackReference;
  rq_membership : RackMembershipState;
  rq_expected_rack_generation : option RackGeneration;
  rq_new_rack_generation : option RackGeneration;
  rq_placement_domain : option PlacementDomain;
  rq_capacity_domain : option CapacityDomain;
  rq_failure_domain : option FailureDomain;
  rq_network_domain : option NetworkDomain;
  rq_storage_domain : option StorageDomain;
  rq_power_domain : option PowerDomain;
  rq_cooling_domain : option CoolingDomain;
  rq_link_domain : option LinkDomain;
  rq_constraint : option ClusterConstraint;
  rq_link : option InterRackLink;
  rq_link_id : option InterRackLinkId;
  rq_target_topology_epoch : option TopologyEpoch;
  rq_topology_reason : string;
  rq_health : HealthState;
  rq_reachability : Reachability;
  rq_evidence_selector : string;
  rq_racks : list RackId
}.

#[global] Instance eta_MutationRequest : Eta MutationRequest := λ r,
  MkRequest (rq_kind r) (rq_cluster r) (rq_authority r) (rq_evidence r) (rq_reason r)
    (rq_requested_at r) (rq_declared_lifecycle r) (rq_readiness_contract r)
    (rq_rack_reference r) (rq_membership r) (rq_expected_rack_generation r)
    (rq_new_rack_generation r) (rq_placement_domain r) (rq_capacity_domain r)
    (rq_failure_domain r) (rq_network_domain r) (rq_storage_domain r) (rq_power_domain r)
    (rq_cooling_domain r) (rq_link_domain r) (rq_constraint r) (rq_link r) (rq_link_id r)
    (rq_target_topology_epoch r) (rq_topology_reason r) (rq_health r) (rq_reachability r)
    (rq_evidence_selector r) (rq_racks r).
#[global] Instance upd_rq_kind : Upd rq_kind := ltac:(derive_upd).
#[global] Instance upd_rq_cluster : Upd rq_cluster := ltac:(derive_upd).
#[global] Instance upd_rq_authority : Upd rq_authority := ltac:(derive_upd).
#[global] Instance upd_rq_evidence : Upd rq_evidence := ltac:(derive_upd).
#[global] Instance upd_rq_reason : Upd rq_reason := ltac:(derive_upd).
#[global] Instance upd_rq_requested_at : Upd rq_requested_at := ltac:(derive_upd).
#[global] Instance upd_rq_declared_lifecycle : Upd rq_declared_lifecycle := ltac:(derive_upd).
#[global] Instance upd_rq_readiness_contract : Upd rq_readiness_contract := ltac:(derive_upd).
#[global] Instance upd_rq_rack_reference : Upd rq_rack_reference := ltac:(derive_upd).
#[global] Instance upd_rq_membership : Upd rq_membership := ltac:(derive_upd).
#[global] Instance upd_rq_expected_rack_generation : Upd rq_expected_rack_generation := ltac:(derive_upd).
#[global] Instance upd_rq_new_rack_generation : Upd rq_new_rack_generation := ltac:(derive_upd).
#[global] Instance upd_rq_placement_domain : Upd rq_placement_domain := ltac:(derive_upd).
#[global] Instance upd_rq_capacity_domain : Upd rq_capacity_domain := ltac:(derive_upd).
#[global] Instance upd_rq_failure_domain : Upd rq_failure_domain := ltac:(derive_upd).
#[global] Instance upd_rq_network_domain : Upd rq_network_domain := ltac:(derive_upd).
#[global] Instance upd_rq_storage_domain : Upd rq_storage_domain := ltac:(derive_upd).
#[global] Instance upd_rq_power_domain : Upd rq_power_domain := ltac:(derive_upd).
#[global] Instance upd_rq_cooling_domain : Upd rq_cooling_domain := ltac:(derive_upd).
#[global] Instance upd_rq_link_domain : Upd rq_link_domain := ltac:(derive_upd).
#[global] Instance upd_rq_constraint : Upd rq_constraint := ltac:(derive_upd).
#[global] Instance upd_rq_link : Upd rq_link := ltac:(derive_upd).
#[global] Instance upd_rq_link_id : Upd rq_link_id := ltac:(derive_upd).
#[global] Instance upd_rq_target_topology_epoch : Upd rq_target_topology_epoch := ltac:(derive_upd).
#[global] Instance upd_rq_topology_reason : Upd rq_topology_reason := ltac:(derive_upd).
#[global] Instance upd_rq_health : Upd rq_health := ltac:(derive_upd).
#[global] Instance upd_rq_reachability : Upd rq_reachability := ltac:(derive_upd).
#[global] Instance upd_rq_evidence_selector : Upd rq_evidence_selector := ltac:(derive_upd).
#[global] Instance upd_rq_racks : Upd rq_racks := ltac:(derive_upd).

Record MutationResult := MkResult {
  mr_outcome : MutationOutcome;
  mr_reason : RejectionReason;
  mr_error : StructuredError;
  mr_explanation : Explanation;
  mr_cluster_epoch : ClusterEpoch;
  mr_coordinator_epoch : CoordinatorEpoch;
  mr_cluster_generation : ClusterGeneration;
  mr_membership_generation : MembershipGeneration;
  mr_topology_epoch : TopologyEpoch;
  mr_topology_generation : TopologyGeneration;
  mr_connectivity_generation : ConnectivityGeneration;
  mr_health_generation : HealthGeneration;
  mr_constraint_generation : ConstraintGeneration;
  mr_snapshot_generation : SnapshotGeneration;
  mr_publication_generation : PublicationGeneration;
  mr_lifecycle : ClusterLifecycle
}.

#[global] Instance eta_MutationResult : Eta MutationResult := λ r,
  MkResult (mr_outcome r) (mr_reason r) (mr_error r) (mr_explanation r) (mr_cluster_epoch r)
    (mr_coordinator_epoch r) (mr_cluster_generation r) (mr_membership_generation r)
    (mr_topology_epoch r) (mr_topology_generation r) (mr_connectivity_generation r)
    (mr_health_generation r) (mr_constraint_generation r) (mr_snapshot_generation r)
    (mr_publication_generation r) (mr_lifecycle r).
#[global] Instance upd_mr_outcome : Upd mr_outcome := ltac:(derive_upd).
#[global] Instance upd_mr_reason : Upd mr_reason := ltac:(derive_upd).
#[global] Instance upd_mr_error : Upd mr_error := ltac:(derive_upd).
#[global] Instance upd_mr_explanation : Upd mr_explanation := ltac:(derive_upd).
#[global] Instance upd_mr_cluster_epoch : Upd mr_cluster_epoch := ltac:(derive_upd).
#[global] Instance upd_mr_coordinator_epoch : Upd mr_coordinator_epoch := ltac:(derive_upd).
#[global] Instance upd_mr_cluster_generation : Upd mr_cluster_generation := ltac:(derive_upd).
#[global] Instance upd_mr_membership_generation : Upd mr_membership_generation := ltac:(derive_upd).
#[global] Instance upd_mr_topology_epoch : Upd mr_topology_epoch := ltac:(derive_upd).
#[global] Instance upd_mr_topology_generation : Upd mr_topology_generation := ltac:(derive_upd).
#[global] Instance upd_mr_connectivity_generation : Upd mr_connectivity_generation := ltac:(derive_upd).
#[global] Instance upd_mr_health_generation : Upd mr_health_generation := ltac:(derive_upd).
#[global] Instance upd_mr_constraint_generation : Upd mr_constraint_generation := ltac:(derive_upd).
#[global] Instance upd_mr_snapshot_generation : Upd mr_snapshot_generation := ltac:(derive_upd).
#[global] Instance upd_mr_publication_generation : Upd mr_publication_generation := ltac:(derive_upd).
#[global] Instance upd_mr_lifecycle : Upd mr_lifecycle := ltac:(derive_upd).

(** ** [operator==] *)

#[global] Instance cpp_eq_option {A} `{CppEq A} : CppEq (option A) := λ x y,
  match x, y with
  | Some a, Some b => cpp_eqb a b
  | None, None => true
  | _, _ => false
  end.

Fixpoint list_eqb {A} `{CppEq A} (l k : list A) : bool :=
  match l, k with
  | [], [] => true
  | x :: l', y :: k' => cpp_eqb x y && list_eqb l' k'
  | _, _ => false
  end.

#[global] Instance cpp_eq_list {A} `{CppEq A} : CppEq (list A) := list_eqb.
#[global] Instance cpp_eq_double : CppEq double := dbl_eqb.
#[global] Instance cpp_eq_quantity : CppEq CapacityQuantity := λ x y,
  bool_decide (cq_unit x = cq_unit y) && cpp_eqb (cq_value x) (cq_value y) &&
  bool_decide (cq_provenance x = cq_provenance y) &&
  bool_decide (cq_aggregated x = cq_aggregated y).
#[global] Instance cpp_eq_capacity : CppEq CapacityDomain := λ x y,
  bool_decide (cd_id x = cd_id y) && bool_decide (cd_klass x = cd_klass y) &&
  bool_decide (cd_racks x = cd_racks y) && cpp_eqb (cd_quantities x) (cd_quantities y) &&
  bool_decide (cd_header x = cd_header y).
#[global] Instance cpp_eq_placement : CppEq PlacementDomain := eqb_of.
#[global] Instance cpp_eq_failure : CppEq FailureDomain := eqb_of.
#[global] Instance cpp_eq_network : CppEq NetworkDomain := eqb_of.
#[global] Instance cpp_eq_storage : CppEq StorageDomain := eqb_of.
#[global] Instance cpp_eq_power : CppEq PowerDomain := eqb_of.
#[global] Instance cpp_eq_cooling : CppEq CoolingDomain := eqb_of.
#[global] Instance cpp_eq_link_domain : CppEq LinkDomain := eqb_of.
#[global] Instance cpp_eq_constraint : CppEq ClusterConstraint := eqb_of.
#[global] Instance cpp_eq_link : CppEq InterRackLink := eqb_of.
