(* ===== verification/State.v ===== *)
(** * Canonical state queries

    [include/cluster_fabric/cluster_state.hpp] and the first part of
    [src/cluster_state.cpp]: the predicates on [ClusterState] that the engine,
    the invariant checks and the readiness contract share. *)

From S2P Require Import Prelude Identity Counter Taxonomy Evidence Types.

(** The default-constructed state. *)
Definition no_generations : DomainGenerations :=
  MkGenerations no_ctr no_ctr no_ctr no_ctr no_ctr no_ctr no_ctr no_ctr.

Definition no_topology_record : TopologyEpochRecord :=
  MkTopologyRecord no_ctr no_ctr ts_unknown stamp_unknown "".

Definition empty_state : ClusterState :=
  MkState no_id no_ctr no_ctr no_ctr no_ctr no_ctr no_ctr no_ctr no_ctr no_ctr no_generations
    no_ctr no_ctr CL_Declared default_contract no_topology_record
    ∅ ∅ ∅ ∅ ∅ ∅ ∅ ∅ ∅ ∅ ∅ [] [] [] ts_unknown ts_unknown.

(** ** Membership *)

Definition is_active (record : RackRecord) : bool := bool_decide (rk_membership record = Mem_Active).

Definition is_current_active (record : RackRecord) : bool :=
  is_active record && rk_authoritative_current record.

Definition needs_revalidation (record : RackRecord) : bool :=
  if negb (is_active record) then false else
  if decide (rr_currentness (rk_reference record) = Cur_RevalidationRequired) then true else
  requires_revalidation (rr_evidence (rk_reference record)).

Definition domain_is_current (header : DomainHeader) : bool := is_current (dh_evidence header).

Definition domain_needs_revalidation (header : DomainHeader) : bool :=
  requires_revalidation (dh_evidence header).

Definition has_rack (s : ClusterState) (rack : RackId) : bool := bool_decide (is_Some (cs_racks s !! rack)).

(** A rack that is only registered carries membership UNKNOWN and is not a
    member. *)
Definition is_rack_member (s : ClusterState) (rack : RackId) : bool :=
  match cs_racks s !! rack with
  | Some record => bool_decide (rk_membership record ≠ Mem_Unknown)
  | None => false
  end.

Definition is_boot_fenced (s : ClusterState) (boot : RackAgentBootId) : bool :=
  existsb (λ fenced, bool_decide (fa_boot fenced = boot)) (cs_fenced_authorities s).

Definition is_rack_retired (s : ClusterState) (rack : RackId) : bool :=
  existsb (λ retired, bool_decide (ri_rack retired = rack)) (cs_retired_racks s).

(** The number of elements of a list that satisfy a test, as a counting loop. *)
Definition count_if {A} (f : A → bool) (l : list A) : N := size (List.filter f l).

Definition current_rack_count (s : ClusterState) : N :=
  count_if (λ e, is_current_active e.2) (entries (cs_racks s)).

(** ** Facts *)

Lemma existsb_elem {A} (f : A → bool) l : existsb f l = true ↔ ∃ x, x ∈ l ∧ f x = true.
Proof. rewrite existsb_exists. by setoid_rewrite <- list_elem_of_In. Qed.

Lemma is_boot_fenced_spec s boot :
  is_boot_fenced s boot = true ↔ ∃ f, f ∈ cs_fenced_authorities s ∧ fa_boot f = boot.
Proof. unfold is_boot_fenced. rewrite existsb_elem. by setoid_rewrite bool_decide_eq_true. Qed.

Lemma is_rack_retired_spec s rack :
  is_rack_retired s rack = true ↔ ∃ r, r ∈ cs_retired_racks s ∧ ri_rack r = rack.
Proof. unfold is_rack_retired. rewrite existsb_elem. by setoid_rewrite bool_decide_eq_true. Qed.

Lemma has_rack_spec s rack : has_rack s rack = true ↔ ∃ r, cs_racks s !! rack = Some r.
Proof. unfold has_rack. by rewrite bool_decide_eq_true. Qed.

Lemma is_rack_member_spec s rack :
  is_rack_member s rack = true ↔
  ∃ r, cs_racks s !! rack = Some r ∧ rk_membership r ≠ Mem_Unknown.
Proof.
  unfold is_rack_member. destruct (cs_racks s !! rack) as [r|]; [|naive_solver].
  rewrite bool_decide_eq_true. naive_solver.
Qed.

Lemma count_if_0 {A} (f : A → bool) l : count_if f l = 0%N ↔ ∀ x, x ∈ l → f x = false.
Proof.
  unfold count_if, size. induction l as [|x l IH]; simpl; [set_solver|].
  destruct (f x) eqn:E; simpl.
  - split; [lia|]. intros H. specialize (H x). rewrite E in H. set_solver.
  - rewrite IH. set_solver.
Qed.

#[global] Instance filter_bool_perm {A} (f : A → bool) :
  Proper ((≡ₚ) ==> (≡ₚ)) (List.filter f).
Proof.
  intros l k. induction 1 as [|x l k ? IH|x y l|]; simpl; [done| | |by etrans].
  - by destruct (f x); [rewrite IH|].
  - destruct (f x), (f y); try done. apply Permutation_swap.
Qed.

(** The count of a map does not depend on the iteration order. *)
Lemma count_if_entries {K V} `{Countable K} `{!Less K} (f : V → bool) (m : gmap K V) :
  count_if (λ e, f e.2) (entries m) = N.of_nat (base.size (filter (λ e, f e.2 = true) m)).
Proof.
  unfold count_if, size. f_equal. unfold entries.
  transitivity (length (List.filter (λ e, f e.2) (map_to_list m))).
  - apply Permutation_length. rewrite (sort_by_perm _ (map_to_list m)). done.
  - induction m as [|i x m Hi IH] using map_ind.
    + by rewrite map_to_list_empty, map_filter_empty, map_size_empty.
    + rewrite (Permutation_length (filter_bool_perm _ _ _ (map_to_list_insert m i x Hi))). simpl.
      destruct (f x) eqn:E.
      * rewrite map_filter_insert_True by done. rewrite map_size_insert_None by
          (apply map_lookup_filter_None; left; done). simpl. by rewrite IH.
      * rewrite map_filter_insert_False by (simpl; congruence).
        by rewrite delete_id.
Qed.
