(* ===== verification/Readiness.v ===== *)
(** * The readiness contract

    [evaluate_readiness] of [src/cluster_state.cpp], and the contract it
    decides, stated on its own. *)

From S2P Require Import Prelude Identity Counter Taxonomy Evidence Types State.

(** ** The evaluation *)

Record RackTally := MkTally {
  ta_active_count : N;
  ta_current_count : N;
  ta_any_revalidation : bool
}.

(** The loop over the member racks. *)
Definition rack_tally (s : ClusterState) : RackTally :=
  let racks := entries (cs_racks s) in
  MkTally (count_if (λ e, is_active e.2) racks)
          (count_if (λ e, is_active e.2 && is_current_active e.2) racks)
          (existsb (λ e, is_active e.2 && needs_revalidation e.2) racks).

Definition count_blockers (s : ClusterState) : list ReadinessBlocker :=
  let t := rack_tally s in
  let c := cs_readiness_contract s in
  (if (ta_active_count t =? 0)%N
   then [MkBlocker "no_active_rack" "cluster" "no rack is a member with membership ACTIVE"]
   else []) ++
  (if (ta_current_count t <? ct_minimum_current_racks c)%N
   then [MkBlocker "minimum_current_racks_not_met" "cluster"
           ("current racks " +:+ to_decimal (ta_current_count t) +:+ " is below the required " +:+
            to_decimal (ct_minimum_current_racks c))]
   else []).

Definition reason_or (reason fallback : string) : string :=
  if is_empty reason then fallback else reason.

(** The blocker of one mandatory rack, and whether it makes revalidation a
    required element. *)
Definition mandatory_blocker (s : ClusterState) (mandatory : RackId) : list ReadinessBlocker :=
  match cs_racks s !! mandatory with
  | None =>
      [MkBlocker "mandatory_rack_missing" ("rack/" +:+ id_value mandatory)
         "mandatory rack is not a member of this cluster"]
  | Some record =>
      if negb (is_active record) then
        [MkBlocker "mandatory_rack_not_active" ("rack/" +:+ id_value mandatory)
           ("mandatory rack membership is " +:+
            string_of_rack_membership_state (rk_membership record))]
      else if negb (is_current_active record) then
        [MkBlocker "mandatory_rack_not_current" ("rack/" +:+ id_value mandatory)
           ("mandatory rack is not authoritative current: " +:+
            reason_or (rk_non_authoritative_reason record) "unknown reason")]
      else []
  end.

Definition mandatory_not_current (s : ClusterState) (mandatory : RackId) : bool :=
  match cs_racks s !! mandatory with
  | Some record => is_active record && negb (is_current_active record)
  | None => false
  end.

Definition not_current_blockers (s : ClusterState) : list ReadinessBlocker :=
  if ct_require_all_active_racks_current (cs_readiness_contract s) then
    flat_map (λ e : RackId * RackRecord,
      if is_active e.2 && negb (rk_authoritative_current e.2) then
        [MkBlocker "active_rack_not_current" ("rack/" +:+ id_value e.1)
           (reason_or (rk_non_authoritative_reason e.2) "active rack is not authoritative current")]
      else []) (entries (cs_racks s))
  else [].

Definition revalidation_blockers (s : ClusterState) : list ReadinessBlocker :=
  if ta_any_revalidation (rack_tally s) then
    flat_map (λ e : RackId * RackRecord,
      if needs_revalidation e.2 then
        [MkBlocker "rack_revalidation_required" ("rack/" +:+ id_value e.1)
           "dynamic evidence owned by a fenced or restarted authority must be republished before the rack is current"]
      else []) (entries (cs_racks s))
  else [].

Definition current_links (s : ClusterState) : N :=
  count_if (λ e, is_current (dh_evidence (lk_header e.2))) (entries (cs_links s)).

Definition link_blockers (s : ClusterState) : list ReadinessBlocker :=
  let c := cs_readiness_contract s in
  (if ct_require_connectivity_evidence c && (current_links s =? 0)%N
   then [MkBlocker "connectivity_evidence_missing" "cluster"
           "no inter-rack link carries current evidence"]
   else []) ++
  (if (current_links s <? ct_minimum_current_links c)%N
   then [MkBlocker "minimum_current_links_not_met" "cluster"
           ("current links " +:+ to_decimal (current_links s) +:+ " is below the required " +:+
            to_decimal (ct_minimum_current_links c))]
   else []).

Definition has_placement_class (s : ClusterState) (klass : PlacementDomainClass) : bool :=
  existsb (λ e, bool_decide (pd_klass e.2 = klass) && domain_is_current (pd_header e.2))
    (entries (cs_placement_domains s)).

Definition has_failure_class (s : ClusterState) (klass : FailureDomainClass) : bool :=
  existsb (λ e, bool_decide (fd_klass e.2 = klass) && domain_is_current (fd_header e.2))
    (entries (cs_failure_domains s)).

Definition class_blockers (s : ClusterState) : list ReadinessBlocker :=
  let c := cs_readiness_contract s in
  flat_map (λ klass,
    if negb (has_placement_class s klass) then
      [MkBlocker "placement_domain_class_missing"
         ("placement_domain_class/" +:+ string_of_placement_domain_class klass)
         "no current placement domain of the required class"]
    else []) (ct_required_placement_domain_classes c) ++
  flat_map (λ klass,
    if negb (has_failure_class s klass) then
      [MkBlocker "failure_domain_class_missing"
         ("failure_domain_class/" +:+ string_of_failure_domain_class klass)
         "no current failure domain of the required class"]
    else []) (ct_required_failure_domain_classes c).

Definition conflict_blockers (s : ClusterState) : list ReadinessBlocker :=
  if ct_require_no_conflicts (cs_readiness_contract s) then
    flat_map (λ e : InterRackLinkId * InterRackLink,
      if negb (has_rack s (lk_source e.2)) || negb (has_rack s (lk_destination e.2)) then
        [MkBlocker "structural_conflict" ("link/" +:+ id_value e.1)
           "link references a rack that is not a member of this cluster"]
      else []) (entries (cs_links s)) ++
    flat_map (λ e : RackId * RackRecord,
      (if rk_authoritative_current e.2 && is_boot_fenced s (rr_boot (rk_reference e.2)) then
        [MkBlocker "structural_conflict" ("rack/" +:+ id_value e.1)
           "rack is authoritative current under a fenced process incarnation"]
       else []) ++
      (if rk_authoritative_current e.2 && is_rack_retired s e.1 then
        [MkBlocker "structural_conflict" ("rack/" +:+ id_value e.1)
           "retired rack is still authoritative current"]
       else [])) (entries (cs_racks s))
  else [].

(** Every blocker, in the order in which the code appends them. *)
Definition all_blockers (s : ClusterState) : list ReadinessBlocker :=
  count_blockers s ++
  flat_map (mandatory_blocker s) (ct_mandatory_racks (cs_readiness_contract s)) ++
  not_current_blockers s ++ revalidation_blockers s ++ link_blockers s ++ class_blockers s ++
  conflict_blockers s.

Definition revalidation_is_required_element (s : ClusterState) : bool :=
  let t := rack_tally s in
  let c := cs_readiness_contract s in
  ((ta_current_count t <? ct_minimum_current_racks c)%N && ta_any_revalidation t) ||
  existsb (mandatory_not_current s) (ct_mandatory_racks c) ||
  (ta_any_revalidation t && negb (ct_allow_degraded c)).

Definition blocker_lt : ReadinessBlocker → ReadinessBlocker → bool :=
  lex_lt bl_code less bl_subject less.

Definition knowingly_incomplete (s : ClusterState) : bool :=
  existsb (λ e, bool_decide (rk_membership e.2 = Mem_Unavailable) ||
                bool_decide (rk_membership e.2 = Mem_Withdrawn)) (entries (cs_racks s)) ||
  negb (bool_decide (cs_withdrawn_racks s = [])).

Definition evaluate_readiness (s : ClusterState) : ReadinessEvaluation :=
  if decide (cs_lifecycle s = CL_Retired) then
    MkEvaluation false CL_Retired [MkBlocker "cluster_retired" "cluster" "cluster is RETIRED"]
  else if decide (cs_lifecycle s = CL_Retiring) then
    MkEvaluation false CL_Retiring [MkBlocker "cluster_retiring" "cluster" "cluster is RETIRING"]
  else
  let blockers := sort_by blocker_lt (all_blockers s) in
  let satisfied := bool_decide (blockers = []) in
  if revalidation_is_required_element s then MkEvaluation satisfied CL_RevalidationRequired blockers
  else if satisfied then
    if knowingly_incomplete s && ct_allow_partial (cs_readiness_contract s)
    then MkEvaluation satisfied CL_Partial blockers
    else MkEvaluation satisfied CL_Ready blockers
  else if (0 <? ta_current_count (rack_tally s))%N then MkEvaluation satisfied CL_Degraded blockers
  else if (0 <? ta_active_count (rack_tally s))%N then MkEvaluation satisfied CL_Forming blockers
  else MkEvaluation satisfied CL_Declared blockers.

(** ** The contract

    What the contract asks of the canonical state, with no reference to the
    order of the checks. *)

Definition active_racks (s : ClusterState) : gmap RackId RackRecord :=
  filter (λ e, is_active e.2 = true) (cs_racks s).

Definition live_racks (s : ClusterState) : gmap RackId RackRecord :=
  filter (λ e, is_current_active e.2 = true) (cs_racks s).

Definition live_links (s : ClusterState) : gmap InterRackLinkId InterRackLink :=
  filter (λ e, is_current (dh_evidence (lk_header e.2)) = true) (cs_links s).

Record contract_holds (s : ClusterState) : Prop := {
  ch_lifecycle : cs_lifecycle s ≠ CL_Retired ∧ cs_lifecycle s ≠ CL_Retiring;
  ch_active : active_racks s ≠ ∅;
  ch_minimum_racks :
    (ct_minimum_current_racks (cs_readiness_contract s) <= N.of_nat (base.size (live_racks s)))%N;
  ch_mandatory : ∀ rack, rack ∈ ct_mandatory_racks (cs_readiness_contract s) →
    is_Some (live_racks s !! rack);
  ch_all_current : ct_require_all_active_racks_current (cs_readiness_contract s) = true →
    active_racks s = live_racks s;
  ch_revalidated : ∀ rack r, cs_racks s !! rack = Some r → needs_revalidation r = false;
  ch_connectivity : ct_require_connectivity_evidence (cs_readiness_contract s) = true →
    live_links s ≠ ∅;
  ch_minimum_links :
    (ct_minimum_current_links (cs_readiness_contract s) <= N.of_nat (base.size (live_links s)))%N;
  ch_placement : ∀ k, k ∈ ct_required_placement_domain_classes (cs_readiness_contract s) →
    ∃ i d, cs_placement_domains s !! i = Some d ∧ pd_klass d = k ∧ domain_is_current (pd_header d) = true;
  ch_failure : ∀ k, k ∈ ct_required_failure_domain_classes (cs_readiness_contract s) →
    ∃ i d, cs_failure_domains s !! i = Some d ∧ fd_klass d = k ∧ domain_is_current (fd_header d) = true;
  ch_links_resolve : ct_require_no_conflicts (cs_readiness_contract s) = true →
    ∀ i l, cs_links s !! i = Some l → has_rack s (lk_source l) = true ∧ has_rack s (lk_destination l) = true;
  ch_no_fenced : ct_require_no_conflicts (cs_readiness_contract s) = true →
    ∀ rack r, cs_racks s !! rack = Some r → rk_authoritative_current r = true →
    is_boot_fenced s (rr_boot (rk_reference r)) = false ∧ is_rack_retired s rack = false
}.

(** ** The evaluation decides the contract *)

Lemma flat_map_nil {A B} (f : A → list B) l : flat_map f l = [] ↔ ∀ x, x ∈ l → f x = [].
Proof.
  induction l as [|x l IH]; simpl; [set_solver|].
  rewrite app_nil, IH. set_solver.
Qed.

Lemma sort_by_nil {A} (lt : A → A → bool) l : sort_by lt l = [] ↔ l = [].
Proof.
  split; [|by intros ->]. intros H. apply Permutation_nil. by rewrite <- (sort_by_perm lt l), H.
Qed.

Lemma filter_empty_iff {K V} `{Countable K} (f : V → bool) (m : gmap K V) :
  filter (λ e, f e.2 = true) m = ∅ ↔ ∀ k v, m !! k = Some v → f v = false.
Proof.
  rewrite map_empty_filter. unfold map_Forall. simpl.
  split; intros Hm k v Hkv; specialize (Hm k v Hkv); simpl in *; destruct (f v); congruence.
Qed.

Lemma N_of_size_eq_0 {K V} `{Countable K} (m : gmap K V) : N.of_nat (base.size m) = 0%N ↔ m = ∅.
Proof. rewrite <- map_size_empty_iff. lia. Qed.

Lemma active_count_spec s : ta_active_count (rack_tally s) = N.of_nat (base.size (active_racks s)).
Proof. apply (count_if_entries is_active). Qed.

Lemma current_count_spec s : ta_current_count (rack_tally s) = N.of_nat (base.size (live_racks s)).
Proof.
  simpl. rewrite (count_if_entries (λ r, is_active r && is_current_active r)).
  do 2 f_equal. apply map_filter_ext. intros i r _. simpl. unfold is_current_active.
  by destruct (is_active r).
Qed.

Lemma current_links_spec s : current_links s = N.of_nat (base.size (live_links s)).
Proof. apply (count_if_entries (λ l, is_current (dh_evidence (lk_header l)))). Qed.

Lemma needs_revalidation_active r : needs_revalidation r = true → is_active r = true.
Proof. unfold needs_revalidation. by destruct (is_active r). Qed.

Lemma any_revalidation_spec s :
  ta_any_revalidation (rack_tally s) = false ↔
  ∀ rack r, cs_racks s !! rack = Some r → needs_revalidation r = false.
Proof.
  simpl. rewrite <- not_true_iff_false.
  rewrite existsb_entries. simpl. split.
  - intros Hn rack r Hr. destruct (needs_revalidation r) eqn:E; [|done].
    destruct Hn. exists rack, r. rewrite E, (needs_revalidation_active r); done.
  - intros Hall (rack&r&Hr&Ht). split_bools. rewrite (Hall rack r) in *; done.
Qed.

Lemma count_blockers_nil s :
  count_blockers s = [] ↔
  active_racks s ≠ ∅ ∧
  (ct_minimum_current_racks (cs_readiness_contract s) <= N.of_nat (base.size (live_racks s)))%N.
Proof.
  unfold count_blockers. rewrite app_nil, active_count_spec, current_count_spec.
  rewrite <- N_of_size_eq_0.
  destruct (N.eqb_spec (N.of_nat (base.size (active_racks s))) 0);
    destruct (N.ltb_spec (N.of_nat (base.size (live_racks s)))
                (ct_minimum_current_racks (cs_readiness_contract s))); naive_solver lia.
Qed.

Lemma live_racks_lookup s rack :
  is_Some (live_racks s !! rack) ↔ ∃ r, cs_racks s !! rack = Some r ∧ is_current_active r = true.
Proof.
  unfold live_racks. split; [intros [r Hr]|intros (r&Hr&Hc); exists r].
  - apply map_lookup_filter_Some in Hr as [? ?]. eauto.
  - by apply map_lookup_filter_Some.
Qed.

Lemma current_active_active r : is_current_active r = true → is_active r = true.
Proof. unfold is_current_active. by destruct (is_active r). Qed.

Lemma mandatory_blocker_nil s rack :
  mandatory_blocker s rack = [] ↔ is_Some (live_racks s !! rack).
Proof.
  rewrite live_racks_lookup. unfold mandatory_blocker.
  destruct (cs_racks s !! rack) as [r|]; [|naive_solver].
  destruct (is_active r) eqn:Ea; simpl.
  - destruct (is_current_active r) eqn:Ec; simpl; [split; [by eauto|done]|].
    split; [done|]. intros (r'&[= <-]&?). congruence.
  - split; [done|]. intros (r'&[= <-]&Hc%current_active_active). congruence.
Qed.

Lemma not_current_blockers_nil s :
  not_current_blockers s = [] ↔
  (ct_require_all_active_racks_current (cs_readiness_contract s) = true →
   active_racks s = live_racks s).
Proof.
  unfold not_current_blockers. destruct (ct_require_all_active_racks_current _); [|done].
  rewrite flat_map_nil. unfold active_racks, live_racks. split.
  - intros Hall _. apply map_filter_ext. intros i r Hr. simpl.
    specialize (Hall (i, r)). rewrite elem_of_entries in Hall. specialize (Hall Hr). simpl in Hall.
    unfold is_current_active. destruct (is_active r), (rk_authoritative_current r); done.
  - intros Heq [i r] Hir. apply elem_of_entries in Hir. simpl.
    destruct (is_active r) eqn:Ea; simpl; [|done].
    assert (filter (λ e, is_active e.2 = true) (cs_racks s) !! i = Some r) as Hl
      by (by apply map_lookup_filter_Some).
    rewrite Heq in Hl by done. apply map_lookup_filter_Some in Hl as [_ Hc]. simpl in Hc.
    unfold is_current_active in Hc. by rewrite Ea in Hc; simpl in Hc; rewrite Hc.
Qed.

Lemma revalidation_blockers_nil s :
  revalidation_blockers s = [] ↔
  ∀ rack r, cs_racks s !! rack = Some r → needs_revalidation r = false.
Proof.
  unfold revalidation_blockers. destruct (ta_any_revalidation (rack_tally s)) eqn:E.
  - rewrite flat_map_nil. split.
    + intros Hall rack r Hr. specialize (Hall (rack, r)). rewrite elem_of_entries in Hall.
      specialize (Hall Hr). simpl in Hall. by destruct (needs_revalidation r).
    + intros Hall [rack r] Hr. apply elem_of_entries in Hr. simpl. by rewrite (Hall rack r Hr).
  - split; [|done]. intros _. by apply any_revalidation_spec.
Qed.

Lemma link_blockers_nil s :
  link_blockers s = [] ↔
  (ct_require_connectivity_evidence (cs_readiness_contract s) = true → live_links s ≠ ∅) ∧
  (ct_minimum_current_links (cs_readiness_contract s) <= N.of_nat (base.size (live_links s)))%N.
Proof.
  unfold link_blockers. rewrite app_nil, current_links_spec, <- N_of_size_eq_0.
  destruct (ct_require_connectivity_evidence _); simpl;
    destruct (N.eqb_spec (N.of_nat (base.size (live_links s))) 0);
    destruct (N.ltb_spec (N.of_nat (base.size (live_links s)))
                (ct_minimum_current_links (cs_readiness_contract s))); naive_solver lia.
Qed.

Lemma has_placement_class_spec s k :
  has_placement_class s k = true ↔
  ∃ i d, cs_placement_domains s !! i = Some d ∧ pd_klass d = k ∧ domain_is_current (pd_header d) = true.
Proof.
  unfold has_placement_class.
  rewrite existsb_entries. simpl.
  split; intros (i&d&Hi&Hd); exists i, d; rewrite andb_true_iff, bool_decide_eq_true in *; auto.
Qed.

Lemma has_failure_class_spec s k :
  has_failure_class s k = true ↔
  ∃ i d, cs_failure_domains s !! i = Some d ∧ fd_klass d = k ∧ domain_is_current (fd_header d) = true.
Proof.
  unfold has_failure_class.
  rewrite existsb_entries. simpl.
  split; intros (i&d&Hi&Hd); exists i, d; rewrite andb_true_iff, bool_decide_eq_true in *; auto.
Qed.

Lemma missing_nil (f : bool) (b : ReadinessBlocker) : (if negb f then [b] else []) = [] ↔ f = true.
Proof. by destruct f. Qed.

Lemma class_blockers_nil s :
  class_blockers s = [] ↔
  (∀ k, k ∈ ct_required_placement_domain_classes (cs_readiness_contract s) →
    has_placement_class s k = true) ∧
  (∀ k, k ∈ ct_required_failure_domain_classes (cs_readiness_contract s) →
    has_failure_class s k = true).
Proof.
  unfold class_blockers. rewrite app_nil, !flat_map_nil.
  by setoid_rewrite missing_nil.
Qed.

Lemma conflict_blockers_nil s :
  conflict_blockers s = [] ↔
  (ct_require_no_conflicts (cs_readiness_contract s) = true →
    (∀ i l, cs_links s !! i = Some l →
       has_rack s (lk_source l) = true ∧ has_rack s (lk_destination l) = true) ∧
    (∀ rack r, cs_racks s !! rack = Some r → rk_authoritative_current r = true →
       is_boot_fenced s (rr_boot (rk_reference r)) = false ∧ is_rack_retired s rack = false)).
Proof.
  unfold conflict_blockers. destruct (ct_require_no_conflicts _); [|done].
  rewrite app_nil, !flat_map_nil. split.
  - intros [Hl Hr] _. split.
    + intros i l Hil. specialize (Hl (i, l)). rewrite elem_of_entries in Hl.
      specialize (Hl Hil). simpl in Hl. by destruct (has_rack _ _), (has_rack _ _).
    + intros rack r Hrr Hac. specialize (Hr (rack, r)). rewrite elem_of_entries in Hr.
      specialize (Hr Hrr). simpl in Hr. rewrite Hac in Hr. simpl in Hr.
      by destruct (is_boot_fenced _ _), (is_rack_retired _ _).
  - intros [Hl Hr]; [done|]. split.
    + intros [i l] Hil%elem_of_entries. simpl. destruct (Hl i l Hil) as [-> ->]. done.
    + intros [rack r] Hrr%elem_of_entries. simpl. destruct (rk_authoritative_current r) eqn:E; [|done].
      destruct (Hr rack r Hrr E) as [-> ->]. done.
Qed.

Lemma all_blockers_nil s :
  cs_lifecycle s ≠ CL_Retired → cs_lifecycle s ≠ CL_Retiring →
  all_blockers s = [] ↔ contract_holds s.
Proof.
  intros H1 H2. unfold all_blockers.
  rewrite !app_nil, count_blockers_nil, flat_map_nil, not_current_blockers_nil,
    revalidation_blockers_nil, link_blockers_nil, class_blockers_nil, conflict_blockers_nil.
  setoid_rewrite mandatory_blocker_nil. setoid_rewrite has_placement_class_spec.
  setoid_rewrite has_failure_class_spec. split.
  - intros ((?&?)&?&?&?&(?&?)&(?&?)&Hc). split; auto; intros Hcf; destruct (Hc Hcf) as [? ?]; eauto.
  - intros []. split_and!; auto. intros Hcf. split; [exact (ch_links_resolve0 Hcf)|exact (ch_no_fenced0 Hcf)].
Qed.

(** A satisfied contract never asks for revalidation. *)
Lemma blockers_nil_no_revalidation s :
  all_blockers s = [] → revalidation_is_required_element s = false.
Proof.
  unfold all_blockers. rewrite !app_nil, flat_map_nil.
  intros (Hc&Hm&_&Hr&_). apply count_blockers_nil in Hc as [_ Hmin].
  rewrite revalidation_blockers_nil, <- any_revalidation_spec in Hr.
  unfold revalidation_is_required_element. rewrite Hr, andb_false_r. simpl.
  rewrite orb_false_r. apply not_true_iff_false. rewrite existsb_elem.
  intros (rack&Hin&Hn). specialize (Hm rack Hin). rewrite mandatory_blocker_nil in Hm.
  apply live_racks_lookup in Hm as (r&Hr'&Hcur). unfold mandatory_not_current in Hn.
  rewrite Hr', Hcur, andb_false_r in Hn. done.
Qed.

Lemma no_blockers_iff s :
  cs_lifecycle s ≠ CL_Retired → cs_lifecycle s ≠ CL_Retiring →
  bool_decide (sort_by blocker_lt (all_blockers s) = []) = true ↔ contract_holds s.
Proof. intros. by rewrite bool_decide_eq_true, sort_by_nil, all_blockers_nil. Qed.

Lemma evaluate_readiness_satisfied s :
  re_satisfied (evaluate_readiness s) = true ↔ contract_holds s.
Proof.
  unfold evaluate_readiness.
  case_decide as H1; [split; [done|]; intros []; naive_solver|].
  case_decide as H2; [split; [done|]; intros []; naive_solver|].
  pose proof (no_blockers_iff s H1 H2) as Hiff.
  repeat case_match; simpl; done.
Qed.

Lemma satisfied_blockers s :
  cs_lifecycle s ≠ CL_Retired → cs_lifecycle s ≠ CL_Retiring →
  bool_decide (sort_by blocker_lt (all_blockers s) = []) = true →
  revalidation_is_required_element s = false.
Proof.
  intros H1 H2 H. split_bools. apply sort_by_nil in H. by apply blockers_nil_no_revalidation.
Qed.

Lemma evaluate_readiness_lifecycle s :
  (re_lifecycle (evaluate_readiness s) = CL_Ready ∨
   re_lifecycle (evaluate_readiness s) = CL_Partial ↔ contract_holds s) ∧
  (re_lifecycle (evaluate_readiness s) = CL_Partial ↔
   contract_holds s ∧ knowingly_incomplete s = true ∧
   ct_allow_partial (cs_readiness_contract s) = true).
Proof.
  unfold evaluate_readiness.
  case_decide as H1; [split; (split; [naive_solver|]); intros; destruct_and?;
    match goal with H : contract_holds _ |- _ => destruct H end; naive_solver|].
  case_decide as H2; [split; (split; [naive_solver|]); intros; destruct_and?;
    match goal with H : contract_holds _ |- _ => destruct H end; naive_solver|].
  rewrite <- (no_blockers_iff s H1 H2).
  pose proof (satisfied_blockers s H1 H2) as Hreq.
  destruct (bool_decide (sort_by blocker_lt (all_blockers s) = [])) eqn:Eb.
  - rewrite Hreq by done.
    destruct (knowingly_incomplete s), (ct_allow_partial _); simpl; naive_solver.
  - destruct (revalidation_is_required_element s); [naive_solver|].
    repeat case_match; simpl; naive_solver.
Qed.

(** A retired or retiring cluster stays so. *)
Lemma evaluate_readiness_retired s :
  re_lifecycle (evaluate_readiness s) = CL_Retired ↔ cs_lifecycle s = CL_Retired.
Proof.
  unfold evaluate_readiness. case_decide; [done|]. case_decide; [naive_solver|].
  repeat case_match; simpl; naive_solver.
Qed.


(** The lifecycle the evaluation derives is READY or PARTIAL exactly when
    the contract holds; it is PARTIAL exactly when, in addition, some rack is
    unavailable or withdrawn and the contract allows a partial cluster. *)
Theorem evaluate_readiness_ready s :
  (re_lifecycle (evaluate_readiness s) = CL_Ready ∨
   re_lifecycle (evaluate_readiness s) = CL_Partial ↔ contract_holds s) ∧
  (re_lifecycle (evaluate_readiness s) = CL_Partial ↔
   contract_holds s ∧ knowingly_incomplete s = true ∧
   ct_allow_partial (cs_readiness_contract s) = true).
Proof. apply evaluate_readiness_lifecycle. Qed.
