(* ===== verification/Domains.v ===== *)
(** * Domain classes

    The eight domain classes are handled by templates in the code
    ([DomainTraits<Domain>] of [src/coordinator_engine.cpp] and the generic
    lambdas of [src/invariant.cpp]).  [DomainTraits] is the interface those
    templates use. *)

From S2P Require Import Prelude Identity Counter Taxonomy Evidence Types.

Class DomainTraits (D : Type) (tag : IdTag) := MkTraits {
  (** [Traits::member], the map of the class in [ClusterState]. *)
  dt_member : ClusterState → gmap (StrongId tag) D;
  dt_member_upd :: Upd dt_member;
  (** [Traits::aggregate], the aggregate generation of the class. *)
  dt_aggregate : DomainGenerations → DomainGeneration;
  dt_aggregate_upd :: Upd dt_aggregate;
  (** [Traits::label]. *)
  dt_label : string;
  dt_id : D → StrongId tag;
  dt_racks : D → list RackId;
  dt_racks_upd :: Upd dt_racks;
  dt_header : D → DomainHeader;
  dt_header_upd :: Upd dt_header;
  (** [static_cast<int>(domain.klass)], for the classes that have a [klass]. *)
  dt_klass : D → option N;
  (** [static_cast<int>(domain.connectivity)], for network domains. *)
  dt_connectivity : D → option N;
  dt_eq :: CppEq D
}.
Arguments dt_member D {tag _} _.
Arguments dt_aggregate D {tag _} _.
Arguments dt_label D {tag _}.
#[global] Hint Mode DomainTraits ! - : typeclass_instances.

#[global] Instance placement_traits : DomainTraits PlacementDomain PlacementDomainIdTag := {|
  dt_member := cs_placement_domains; dt_aggregate := dg_placement; dt_label := "placement_domain";
  dt_id := pd_id; dt_racks := pd_racks; dt_header := pd_header;
  dt_klass := λ d, Some (raw (pd_klass d)); dt_connectivity := λ _, None
|}.
#[global] Instance capacity_traits : DomainTraits CapacityDomain CapacityDomainIdTag := {|
  dt_member := cs_capacity_domains; dt_aggregate := dg_capacity; dt_label := "capacity_domain";
  dt_id := cd_id; dt_racks := cd_racks; dt_header := cd_header;
  dt_klass := λ d, Some (raw (cd_klass d)); dt_connectivity := λ _, None
|}.
#[global] Instance failure_traits : DomainTraits FailureDomain FailureDomainIdTag := {|
  dt_member := cs_failure_domains; dt_aggregate := dg_failure; dt_label := "failure_domain";
  dt_id := fd_id; dt_racks := fd_racks; dt_header := fd_header;
  dt_klass := λ d, Some (raw (fd_klass d)); dt_connectivity := λ _, None
|}.
#[global] Instance network_traits : DomainTraits NetworkDomain NetworkDomainIdTag := {|
  dt_member := cs_network_domains; dt_aggregate := dg_network; dt_label := "network_domain";
  dt_id := nd_id; dt_racks := nd_racks; dt_header := nd_header;
  dt_klass := λ _, None; dt_connectivity := λ d, Some (raw (nd_connectivity d))
|}.
#[global] Instance storage_traits : DomainTraits StorageDomain StorageDomainIdTag := {|
  dt_member := cs_storage_domains; dt_aggregate := dg_storage; dt_label := "storage_domain";
  dt_id := sd_id; dt_racks := sd_racks; dt_header := sd_header;
  dt_klass := λ _, None; dt_connectivity := λ _, None
|}.
#[global] Instance power_traits : DomainTraits PowerDomain PowerDomainIdTag := {|
  dt_member := cs_power_domains; dt_aggregate := dg_power; dt_label := "power_domain";
  dt_id := pw_id; dt_racks := pw_racks; dt_header := pw_header;
  dt_klass := λ _, None; dt_connectivity := λ _, None
|}.
#[global] Instance cooling_traits : DomainTraits CoolingDomain CoolingDomainIdTag := {|
  dt_member := cs_cooling_domains; dt_aggregate := dg_cooling; dt_label := "cooling_domain";
  dt_id := co_id; dt_racks := co_racks; dt_header := co_header;
  dt_klass := λ _, None; dt_connectivity := λ _, None
|}.
#[global] Instance link_traits : DomainTraits LinkDomain LinkDomainIdTag := {|
  dt_member := cs_link_domains; dt_aggregate := dg_link; dt_label := "link_domain";
  dt_id := ld_id; dt_racks := ld_racks; dt_header := ld_header;
  dt_klass := λ _, None; dt_connectivity := λ _, None
|}.

(** The class test of the invariant checks: a class without an enumerator is
    never UNKNOWN. *)
Definition class_of {D tag} `{DomainTraits D tag} (d : D) : N :=
  match dt_klass d, dt_connectivity d with
  | Some k, _ => k
  | None, Some c => c
  | None, None => 1
  end.

(** The laws of the interface: each [Upd] instance is a lens, and the
    identity of a domain is not touched by assignments to its other fields. *)
Class DomainLaws (D : Type) (tag : IdTag) `{DomainTraits D tag} : Prop := {
  dl_member_get f s : dt_member D (upd (dt_member D) f s) = f (dt_member D s);
  dl_member_twice f g s : upd (dt_member D) f (upd (dt_member D) g s) = upd (dt_member D) (f ∘ g) s;
  dl_member_id s : upd (dt_member D) (λ m, m) s = s;
  dl_aggregate_get f g : dt_aggregate D (upd (dt_aggregate D) f g) = f (dt_aggregate D g);
  dl_racks_get f (d : D) : dt_racks (upd dt_racks f d) = f (dt_racks d);
  dl_racks_id f (d : D) : dt_id (upd dt_racks f d) = dt_id d;
  dl_racks_header f (d : D) : dt_header (upd dt_racks f d) = dt_header d;
  dl_header_get f (d : D) : dt_header (upd dt_header f d) = f (dt_header d);
  dl_header_id f (d : D) : dt_id (upd dt_header f d) = dt_id d;
  dl_header_racks f (d : D) : dt_racks (upd dt_header f d) = dt_racks d
}.

Ltac domain_laws :=
  split; intros; first [reflexivity | by match goal with s : ClusterState |- _ => destruct s end].

#[global] Instance placement_laws : DomainLaws PlacementDomain PlacementDomainIdTag.
Proof. domain_laws. Qed.
#[global] Instance capacity_laws : DomainLaws CapacityDomain CapacityDomainIdTag.
Proof. domain_laws. Qed.
#[global] Instance failure_laws : DomainLaws FailureDomain FailureDomainIdTag.
Proof. domain_laws. Qed.
#[global] Instance network_laws : DomainLaws NetworkDomain NetworkDomainIdTag.
Proof. domain_laws. Qed.
#[global] Instance storage_laws : DomainLaws StorageDomain StorageDomainIdTag.
Proof. domain_laws. Qed.
#[global] Instance power_laws : DomainLaws PowerDomain PowerDomainIdTag.
Proof. domain_laws. Qed.
#[global] Instance cooling_laws : DomainLaws CoolingDomain CoolingDomainIdTag.
Proof. domain_laws. Qed.
#[global] Instance link_laws : DomainLaws LinkDomain LinkDomainIdTag.
Proof. domain_laws. Qed.
