(* ===== verification/Indexes.v ===== *)
(** * Derived indexes

    [ClusterIndexes] of [include/cluster_fabric/cluster_state.hpp] and
    [src/cluster_state.cpp]: the lookup tables rebuilt from canonical state
    after every mutation. *)

From S2P Require Import Prelude Identity Counter Taxonomy Evidence Types State Domains.

Record ClusterIndexes := MkIndexes {
  ix_rack_count : N;
  ix_racks_in_placement : gmap PlacementDomainId (list RackId);
  ix_racks_in_capacity : gmap CapacityDomainId (list RackId);
  ix_racks_in_failure : gmap FailureDomainId (list RackId);
  ix_racks_in_network : gmap NetworkDomainId (list RackId);
  ix_placement_of_rack : gmap RackId (list PlacementDomainId);
  ix_capacity_of_rack : gmap RackId (list CapacityDomainId);
  ix_failure_of_rack : gmap RackId (list FailureDomainId);
  ix_network_of_rack : gmap RackId (list NetworkDomainId);
  ix_links_from : gmap RackId (list InterRackLinkId);
  ix_links_to : gmap RackId (list InterRackLinkId);
  ix_placement_by_class : gmap PlacementDomainClass (list PlacementDomainId);
  ix_failure_by_class : gmap FailureDomainClass (list FailureDomainId);
  ix_racks_by_membership : gmap RackMembershipState (list RackId);
  ix_racks_by_boot : gmap RackAgentBootId (list RackId)
}.

(** [map[key].push_back(value)]. *)
Definition push {K V} `{Countable K} (m : gmap K (list V)) (k : K) (v : V) : gmap K (list V) :=
  <[k := default [] (m !! k) ++ [v]]> m.

(** A table built by visiting the entries of a map in order and pushing the key
    of each entry under the index keys of its record. *)
Definition push_all {I V A} `{Countable I} (keys : V → list I) (l : list (A * V)) :
    gmap I (list A) :=
  foldl (λ m e, foldl (λ m k, push m k e.1) m (keys e.2)) ∅ l.

(** The members of every domain of a class, sorted and deduplicated. *)
Definition members_index {D tag} `{DomainTraits D tag} (s : ClusterState) :
    gmap (StrongId tag) (list RackId) :=
  foldl (λ m e, <[e.1 := sort_uniq less (dt_racks e.2)]> m) ∅ (entries (dt_member D s)).

(** The domains of a class each rack belongs to. *)
Definition domains_of_index (D : Type) {tag} `{DomainTraits D tag} (s : ClusterState) :
    gmap RackId (list (StrongId tag)) :=
  sort_by less <$> push_all (λ d : D, sort_uniq less (dt_racks d)) (entries (dt_member D s)).

Definition rebuild (s : ClusterState) : ClusterIndexes := {|
  ix_rack_count := N.of_nat (base.size (cs_racks s));
  ix_racks_in_placement := members_index (D:=PlacementDomain) s;
  ix_racks_in_capacity := members_index (D:=CapacityDomain) s;
  ix_racks_in_failure := members_index (D:=FailureDomain) s;
  ix_racks_in_network := members_index (D:=NetworkDomain) s;
  ix_placement_of_rack := domains_of_index PlacementDomain s;
  ix_capacity_of_rack := domains_of_index CapacityDomain s;
  ix_failure_of_rack := domains_of_index FailureDomain s;
  ix_network_of_rack := domains_of_index NetworkDomain s;
  ix_links_from := sort_by less <$> push_all (λ l, [lk_source l]) (entries (cs_links s));
  ix_links_to := sort_by less <$> push_all (λ l, [lk_destination l]) (entries (cs_links s));
  ix_placement_by_class := push_all (λ d, [pd_klass d]) (entries (cs_placement_domains s));
  ix_failure_by_class := push_all (λ d, [fd_klass d]) (entries (cs_failure_domains s));
  ix_racks_by_membership := push_all (λ r, [rk_membership r]) (entries (cs_racks s));
  ix_racks_by_boot := push_all (λ r, [rr_boot (rk_reference r)]) (entries (cs_racks s))
|}.

(** The accessors: an absent key reads as the empty list. *)
Definition index_of {K V} `{Countable K} (m : gmap K (list V)) (k : K) : list V := default [] (m !! k).

Definition racks_in_placement_domain (ix : ClusterIndexes) := index_of (ix_racks_in_placement ix).
Definition racks_in_capacity_domain (ix : ClusterIndexes) := index_of (ix_racks_in_capacity ix).
Definition racks_in_failure_domain (ix : ClusterIndexes) := index_of (ix_racks_in_failure ix).
Definition racks_in_network_domain (ix : ClusterIndexes) := index_of (ix_racks_in_network ix).
Definition placement_domains_of (ix : ClusterIndexes) := index_of (ix_placement_of_rack ix).
Definition capacity_domains_of (ix : ClusterIndexes) := index_of (ix_capacity_of_rack ix).
Definition failure_domains_of (ix : ClusterIndexes) := index_of (ix_failure_of_rack ix).
Definition network_domains_of (ix : ClusterIndexes) := index_of (ix_network_of_rack ix).
Definition links_from (ix : ClusterIndexes) := index_of (ix_links_from ix).
Definition links_to (ix : ClusterIndexes) := index_of (ix_links_to ix).
Definition placement_domains_of_class (ix : ClusterIndexes) := index_of (ix_placement_by_class ix).
Definition failure_domains_of_class (ix : ClusterIndexes) := index_of (ix_failure_by_class ix).
Definition racks_in_membership_state (ix : ClusterIndexes) := index_of (ix_racks_by_membership ix).
Definition racks_for_boot (ix : ClusterIndexes) := index_of (ix_racks_by_boot ix).

(** ** What the tables hold *)

Section push.
  Context {I V A : Type} `{Countable I} (keys : V → list I).

Lemma index_of_push (m : gmap I (list A)) k a k' :
  index_of (push m k a) k' = index_of m k' ++ (if decide (k = k') then [a] else []).
Proof.
  unfold index_of, push. destruct (decide (k = k')) as [->|Hne].
  - by rewrite lookup_insert_eq.
  - by rewrite lookup_insert_ne, app_nil_r.
Qed.

Lemma index_of_push_keys (ks : list I) (m : gmap I (list A)) a k :
  NoDup ks →
  index_of (foldl (λ m k, push m k a) m ks) k =
  index_of m k ++ (if decide (k ∈ ks) then [a] else []).
Proof.
  revert m. induction ks as [|k0 ks IH]; intros m Hnd; simpl.
  { by rewrite app_nil_r. }
  apply NoDup_cons in Hnd as [Hni Hnd]. rewrite IH, index_of_push by done.
  rewrite <- app_assoc. f_equal. repeat case_decide; set_solver.
Qed.

(** Under key [k] the table lists, in order, the entries whose record has [k]
    among its keys. *)
Lemma index_of_push_all (l : list (A * V)) k :
  (∀ v, NoDup (keys v)) →
  index_of (push_all keys l) k = (filter (λ e, k ∈ keys e.2) l).*1.
Proof.
  intros Hnd. unfold push_all.
  assert (∀ m, index_of (foldl (λ m e, foldl (λ m k, push m k e.1) m (keys e.2)) m l) k =
    index_of m k ++ (filter (λ e, k ∈ keys e.2) l).*1) as Hgen.
  { induction l as [|e l IH]; intros m; simpl; [by rewrite app_nil_r|].
    rewrite IH, index_of_push_keys by done. rewrite <- app_assoc. f_equal.
    rewrite filter_cons. by repeat case_decide. }
  rewrite Hgen. unfold index_of. by rewrite lookup_empty.
Qed.

End push.

Lemma index_of_fmap {K V} `{Countable K} (f : list V → list V) (m : gmap K (list V)) k :
  f [] = [] → index_of (f <$> m) k = f (index_of m k).
Proof. intros Hf. unfold index_of. rewrite lookup_fmap. by destruct (m !! k). Qed.

Lemma fmap_fst_filter_ssorted {K V} `{Less K} (P : K * V → Prop) `{!∀ x, Decision (P x)} (l : list (K * V)) :
  ssorted less l.*1 → ssorted less (filter P l).*1.
Proof.
  unfold ssorted. induction l as [|[k v] l IH]; simpl; [done|].
  intros [Hs Hk]%StronglySorted_inv. rewrite filter_cons. case_decide; [|auto].
  simpl. constructor; [auto|]. rewrite Forall_forall in Hk |- *.
  intros k' Hk'. apply Hk. apply list_elem_of_fmap in Hk' as (e&->&He).
  apply list_elem_of_filter in He as [_ He]. by apply list_elem_of_fmap_2.
Qed.

Lemma members_index_lookup {D tag} `{DomainTraits D tag} s i :
  members_index (D:=D) s !! i = sort_uniq less ∘ dt_racks <$> dt_member D s !! i.
Proof.
  unfold members_index.
  assert (∀ (l : list (StrongId tag * D)) (m : gmap (StrongId tag) (list RackId)), NoDup l.*1 →
    foldl (λ m e, <[e.1 := sort_uniq less (dt_racks e.2)]> m) m l !! i =
    match (list_to_map l : gmap _ _) !! i with
    | Some d => Some (sort_uniq less (dt_racks d))
    | None => m !! i
    end) as Hgen.
  { induction l as [|[j d] l IH]; intros m Hnd; simpl; [by rewrite lookup_empty|].
    apply NoDup_cons in Hnd as [Hni Hnd]. rewrite IH by done.
    destruct (decide (i = j)) as [->|Hne].
    - rewrite lookup_insert_eq. rewrite (not_elem_of_list_to_map_1 l j) by done.
      by rewrite lookup_insert_eq.
    - by rewrite !lookup_insert_ne by done. }
  rewrite Hgen by apply NoDup_entries_keys. rewrite list_to_map_entries, lookup_empty.
  by destruct (dt_member D s !! i).
Qed.

Lemma NoDup_sort_uniq_keys (l : list RackId) : NoDup (sort_uniq less l).
Proof. eapply ssorted_NoDup, sort_uniq_ssorted. all: apply _. Qed.

(** The table of domains of a rack is sorted and lists exactly the domains whose
    record names the rack. *)
Lemma domains_of_index_spec D {tag} `{DomainTraits D tag} s rack :
  index_of (domains_of_index D s) rack =
  (filter (λ e, rack ∈ dt_racks e.2) (entries (dt_member D s))).*1.
Proof.
  unfold domains_of_index. rewrite index_of_fmap by done.
  rewrite (index_of_push_all (λ d : D, sort_uniq less (dt_racks d)))
    by (intros; apply NoDup_sort_uniq_keys).
  rewrite (sort_by_id less) by (apply fmap_fst_filter_ssorted, entries_keys_ssorted).
  f_equal. apply list_filter_iff. intros e. apply elem_of_sort_uniq. apply _.
Qed.
