(* ===== verification/Invariant.v ===== *)
(** * Invariants of canonical state

    [include/cluster_fabric/invariant.hpp] and [src/invariant.cpp]: the checks
    the commit path runs on every candidate state, and the verification of the
    derived indexes. *)

From S2P Require Import Prelude Identity Counter Taxonomy Evidence Types State Readiness Domains.
From S2P Require Import Indexes.

Inductive InvariantId :=
  | Inv_Unknown | Inv_SingleClusterIdentity | Inv_ClusterEpochKnown
  | Inv_CoordinatorEpochKnown | Inv_ClusterGenerationKnown | Inv_GenerationsMonotonic
  | Inv_MembershipGenerationConsistent | Inv_TopologyEpochKnown
  | Inv_TopologyGenerationConsistent | Inv_RackIdentitiesValid
  | Inv_RackGenerationAuthoritative | Inv_RackGenerationUnique | Inv_RackNotFenced
  | Inv_RackNotRetired | Inv_RackMembershipConsistent | Inv_RackReferenceBounded
  | Inv_LinkEndpointsResolve | Inv_LinkDirectionConsistent | Inv_LinkNoSelfLoop
  | Inv_LinkIdentitiesUnique | Inv_DomainMembersResolve | Inv_DomainClassConsistent
  | Inv_DomainGenerationsConsistent | Inv_ConstraintReferencesResolve
  | Inv_IndexMatchesCanonical | Inv_SnapshotMapMatchesState | Inv_LifecycleConsistent
  | Inv_UnknownNeverPositive | Inv_RecoveredEvidenceNotCurrent | Inv_FencedAuthorityConsistent
  | Inv_CountsWithinBounds | Inv_AccountingBaseline.

#[global] Instance InvariantId_eq_dec : EqDecision InvariantId.
Proof. solve_decision. Defined.

#[global] Program Instance InvariantId_enum : Enum InvariantId := {|
  enumerators := [Inv_Unknown; Inv_SingleClusterIdentity; Inv_ClusterEpochKnown;
    Inv_CoordinatorEpochKnown; Inv_ClusterGenerationKnown;
    Inv_GenerationsMonotonic; Inv_MembershipGenerationConsistent;
    Inv_TopologyEpochKnown; Inv_TopologyGenerationConsistent;
    Inv_RackIdentitiesValid; Inv_RackGenerationAuthoritative;
    Inv_RackGenerationUnique; Inv_RackNotFenced; Inv_RackNotRetired;
    Inv_RackMembershipConsistent; Inv_RackReferenceBounded;
    Inv_LinkEndpointsResolve; Inv_LinkDirectionConsistent; Inv_LinkNoSelfLoop;
    Inv_LinkIdentitiesUnique; Inv_DomainMembersResolve;
    Inv_DomainClassConsistent; Inv_DomainGenerationsConsistent;
    Inv_ConstraintReferencesResolve; Inv_IndexMatchesCanonical;
    Inv_SnapshotMapMatchesState; Inv_LifecycleConsistent;
    Inv_UnknownNeverPositive; Inv_RecoveredEvidenceNotCurrent;
    Inv_FencedAuthorityConsistent; Inv_CountsWithinBounds;
    Inv_AccountingBaseline]
|}.
Next Obligation. enum_complete. Qed.
Next Obligation. enum_nodup. Qed.

Definition string_of_invariant_id (value : InvariantId) : string :=
  match value with
  | Inv_Unknown => "UNKNOWN"
  | Inv_SingleClusterIdentity => "SINGLE_CLUSTER_IDENTITY"
  | Inv_ClusterEpochKnown => "CLUSTER_EPOCH_KNOWN"
  | Inv_CoordinatorEpochKnown => "COORDINATOR_EPOCH_KNOWN"
  | Inv_ClusterGenerationKnown => "CLUSTER_GENERATION_KNOWN"
  | Inv_GenerationsMonotonic => "GENERATIONS_MONOTONIC"
  | Inv_MembershipGenerationConsistent => "MEMBERSHIP_GENERATION_CONSISTENT"
  | Inv_TopologyEpochKnown => "TOPOLOGY_EPOCH_KNOWN"
  | Inv_TopologyGenerationConsistent => "TOPOLOGY_GENERATION_CONSISTENT"
  | Inv_RackIdentitiesValid => "RACK_IDENTITIES_VALID"
  | Inv_RackGenerationAuthoritative => "RACK_GENERATION_AUTHORITATIVE"
  | Inv_RackGenerationUnique => "RACK_GENERATION_UNIQUE"
  | Inv_RackNotFenced => "RACK_NOT_FENCED"
  | Inv_RackNotRetired => "RACK_NOT_RETIRED"
  | Inv_RackMembershipConsistent => "RACK_MEMBERSHIP_CONSISTENT"
  | Inv_RackReferenceBounded => "RACK_REFERENCE_BOUNDED"
  | Inv_LinkEndpointsResolve => "LINK_ENDPOINTS_RESOLVE"
  | Inv_LinkDirectionConsistent => "LINK_DIRECTION_CONSISTENT"
  | Inv_LinkNoSelfLoop => "LINK_NO_SELF_LOOP"
  | Inv_LinkIdentitiesUnique => "LINK_IDENTITIES_UNIQUE"
  | Inv_DomainMembersResolve => "DOMAIN_MEMBERS_RESOLVE"
  | Inv_DomainClassConsistent => "DOMAIN_CLASS_CONSISTENT"
  | Inv_DomainGenerationsConsistent => "DOMAIN_GENERATIONS_CONSISTENT"
  | Inv_ConstraintReferencesResolve => "CONSTRAINT_REFERENCES_RESOLVE"
  | Inv_IndexMatchesCanonical => "INDEX_MATCHES_CANONICAL"
  | Inv_SnapshotMapMatchesState => "SNAPSHOT_MAP_MATCHES_STATE"
  | Inv_LifecycleConsistent => "LIFECYCLE_CONSISTENT"
  | Inv_UnknownNeverPositive => "UNKNOWN_NEVER_POSITIVE"
  | Inv_RecoveredEvidenceNotCurrent => "RECOVERED_EVIDENCE_NOT_CURRENT"
  | Inv_FencedAuthorityConsistent => "FENCED_AUTHORITY_CONSISTENT"
  | Inv_CountsWithinBounds => "COUNTS_WITHIN_BOUNDS"
  | Inv_AccountingBaseline => "ACCOUNTING_BASELINE"
  end.

Record InvariantViolation := MkViolation {
  vi_id : InvariantId;
  vi_subject : string;
  vi_detail : string
}.

#[global] Instance InvariantViolation_eq_dec : EqDecision InvariantViolation.
Proof. solve_decision. Defined.

(** ** Bounds ([include/cluster_fabric/limits.hpp]) *)

Definition kMaxRacksPerCluster : N := 16384.
Definition kMaxInterRackLinks : N := 262144.
Definition kMaxDomainsPerClass : N := 16384.
Definition kMaxDomainMembers : N := 16384.
Definition kMaxFailureDomainRefs : N := 256.
Definition kMaxConstraints : N := 4096.
Definition kMaxRackEndpoints : N := 256.
Definition kMaxCapacityQuantities : N := 64.

(** [map.size()]. *)
Definition msize {K V} `{Countable K} (m : gmap K V) : N := N.of_nat (base.size m).

(** ** Reports *)

(** [if (cond) add(report, id, subject, detail)]. *)
Definition viol (cond : bool) (id : InvariantId) (subject detail : string) :
    list InvariantViolation :=
  if cond then [MkViolation id subject detail] else [].

Definition violation_lt : InvariantViolation → InvariantViolation → bool :=
  lex_lt vi_id less (λ v, (vi_subject v, vi_detail v)) (lex_lt fst less snd less).

(** [finish]: the report in its deterministic order. *)
Definition finish (l : list InvariantViolation) : list InvariantViolation := sort_by violation_lt l.

(** [std::is_sorted] and no [std::adjacent_find]. *)
Fixpoint is_sorted {A} (lt : A → A → bool) (l : list A) : bool :=
  match l with
  | x :: ((y :: _) as l') => negb (lt y x) && is_sorted lt l'
  | _ => true
  end.

Fixpoint has_adjacent {A} `{EqDecision A} (l : list A) : bool :=
  match l with
  | x :: ((y :: _) as l') => bool_decide (x = y) || has_adjacent l'
  | _ => false
  end.

Definition sorted_unique (l : list RackId) : bool := is_sorted less l && negb (has_adjacent l).

(** ** The checks *)

Definition nothing_recorded (s : ClusterState) : bool :=
  (msize (cs_racks s) =? 0)%N && (msize (cs_links s) =? 0)%N &&
  (msize (cs_placement_domains s) =? 0)%N && (msize (cs_capacity_domains s) =? 0)%N &&
  (msize (cs_failure_domains s) =? 0)%N && (msize (cs_network_domains s) =? 0)%N &&
  (msize (cs_storage_domains s) =? 0)%N && (msize (cs_power_domains s) =? 0)%N &&
  (msize (cs_cooling_domains s) =? 0)%N && (msize (cs_link_domains s) =? 0)%N &&
  (msize (cs_constraints s) =? 0)%N && bool_decide (cs_retired_racks s = []) &&
  bool_decide (cs_withdrawn_racks s = []) && bool_decide (cs_fenced_authorities s = []).

Definition cluster_violations (s : ClusterState) : list InvariantViolation :=
  viol (is_empty (id_value (cs_id s))) Inv_SingleClusterIdentity "cluster"
    "cluster identity is empty" ++
  viol (negb (ctr_known (cs_epoch s))) Inv_ClusterEpochKnown "cluster" "cluster epoch is zero" ++
  viol (negb (ctr_known (cs_coordinator_epoch s))) Inv_CoordinatorEpochKnown "cluster"
    "coordinator epoch is zero" ++
  viol (negb (ctr_known (cs_generation s))) Inv_ClusterGenerationKnown "cluster"
    "cluster generation is zero" ++
  viol (negb (ctr_known (cs_membership_generation s))) Inv_GenerationsMonotonic "cluster"
    "membership generation is zero" ++
  viol (negb (ctr_known (cs_topology_epoch s))) Inv_TopologyEpochKnown "cluster"
    "topology epoch is zero" ++
  viol (negb (ctr_known (cs_topology_generation s))) Inv_TopologyGenerationConsistent "cluster"
    "topology generation is zero" ++
  viol (bool_decide (tr_epoch (cs_topology_record s) ≠ cs_topology_epoch s))
    Inv_TopologyGenerationConsistent "cluster"
    ("topology record epoch " +:+ ctr_str (tr_epoch (cs_topology_record s)) +:+
     " does not match " +:+ ctr_str (cs_topology_epoch s)) ++
  viol (bool_decide (tr_generation (cs_topology_record s) ≠ cs_topology_generation s))
    Inv_TopologyGenerationConsistent "cluster"
    ("topology record generation " +:+ ctr_str (tr_generation (cs_topology_record s)) +:+
     " does not match " +:+ ctr_str (cs_topology_generation s)) ++
  viol (ctr (cs_generation s) <? ctr (cs_membership_generation s))%N
    Inv_MembershipGenerationConsistent "cluster"
    "membership generation exceeds cluster generation" ++
  viol (ctr (cs_generation s) <? ctr (cs_topology_generation s))%N
    Inv_TopologyGenerationConsistent "cluster"
    "topology generation exceeds cluster generation".

Definition count_violations (s : ClusterState) : list InvariantViolation :=
  viol (kMaxRacksPerCluster <? msize (cs_racks s))%N Inv_CountsWithinBounds "cluster"
    "rack count exceeds the configured bound" ++
  viol (kMaxInterRackLinks <? msize (cs_links s))%N Inv_CountsWithinBounds "cluster"
    "link count exceeds the configured bound" ++
  viol (kMaxConstraints <? msize (cs_constraints s))%N Inv_CountsWithinBounds "cluster"
    "constraint count exceeds the configured bound" ++
  viol (existsb (λ count, kMaxDomainsPerClass <? count)%N
    [msize (cs_placement_domains s); msize (cs_capacity_domains s);
     msize (cs_failure_domains s); msize (cs_network_domains s);
     msize (cs_storage_domains s); msize (cs_power_domains s);
     msize (cs_cooling_domains s); msize (cs_link_domains s)]) Inv_CountsWithinBounds "cluster"
    "domain count exceeds the configured bound".

(** One iteration of the loop over the rack records. *)
Definition rack_violations (s : ClusterState) (e : RackId * RackRecord) :
    list InvariantViolation :=
  let record := e.2 in
  let ref := rk_reference record in
  let subject := "rack/" +:+ id_value e.1 in
  viol (bool_decide (rr_rack ref ≠ e.1)) Inv_RackIdentitiesValid subject
    "record key does not match the referenced rack identity" ++
  viol (negb (ctr_known (rr_generation ref))) Inv_RackGenerationAuthoritative subject
    "rack generation is zero" ++
  viol (kMaxRackEndpoints <? size (rr_endpoints ref))%N Inv_RackReferenceBounded subject
    "endpoint count exceeds the bound" ++
  viol (kMaxFailureDomainRefs <? size (rr_failure_domain_hints ref))%N Inv_RackReferenceBounded
    subject "failure domain hint count exceeds the bound" ++
  (if decide (rk_membership record = Mem_Unknown) then
     viol (rk_authoritative_current record) Inv_RackMembershipConsistent subject
       "registered rack with UNKNOWN membership is marked authoritative current" ++
     viol (bool_decide (rr_currentness ref ≠ Cur_Unknown) &&
           bool_decide (rr_currentness ref ≠ Cur_RevalidationRequired))
       Inv_RackMembershipConsistent subject
       "registered rack with UNKNOWN membership claims a decided currentness"
   else []) ++
  viol (ctr (cs_membership_generation s) <? ctr (rk_membership_generation record))%N
    Inv_MembershipGenerationConsistent subject
    "record membership generation exceeds the cluster membership generation" ++
  (if rk_authoritative_current record then
     viol (ctr (rr_generation ref) =? 0)%N Inv_RackGenerationAuthoritative subject
       "authoritative rack has an unknown generation" ++
     viol (is_boot_fenced s (rr_boot ref)) Inv_RackNotFenced subject
       "authoritative rack is published under a fenced process incarnation" ++
     viol (is_rack_retired s e.1) Inv_RackNotRetired subject
       "retired rack is still authoritative current" ++
     viol (bool_decide (ev_provenance (rr_evidence ref) = Prov_Unknown)) Inv_UnknownNeverPositive
       subject "authoritative rack carries UNKNOWN provenance" ++
     viol (bool_decide (ev_provenance (rr_evidence ref) = Prov_Reconstructed))
       Inv_RecoveredEvidenceNotCurrent subject
       "recovered rack evidence is marked authoritative current"
   else []).

(** One iteration of the loop over the links. *)
Definition link_violations (s : ClusterState) (e : InterRackLinkId * InterRackLink) :
    list InvariantViolation :=
  let link := e.2 in
  let subject := "link/" +:+ id_value e.1 in
  let old_epoch := bool_decide (lk_topology_epoch link ≠ cs_topology_epoch s) in
  let claims_reachability := bool_decide (lk_reachability link = Reach_Reachable) ||
                             bool_decide (lk_reachability link = Reach_Unreachable) in
  viol (bool_decide (lk_id link ≠ e.1)) Inv_LinkIdentitiesUnique subject
    "record key does not match the link identity" ++
  viol (negb (is_rack_member s (lk_source link))) Inv_LinkEndpointsResolve subject
    ("source rack " +:+ id_value (lk_source link) +:+ " is not a member of this cluster") ++
  viol (negb (is_rack_member s (lk_destination link))) Inv_LinkEndpointsResolve subject
    ("destination rack " +:+ id_value (lk_destination link) +:+
     " is not a member of this cluster") ++
  viol (bool_decide (lk_source link = lk_destination link)) Inv_LinkNoSelfLoop subject
    "link connects a rack to itself" ++
  viol (bool_decide (lk_direction link = Dir_Unknown)) Inv_LinkDirectionConsistent subject
    "link direction is UNKNOWN" ++
  viol (old_epoch && negb (requires_revalidation (dh_evidence (lk_header link))))
    Inv_TopologyGenerationConsistent subject
    "link topology epoch does not match the cluster topology epoch" ++
  viol (old_epoch && (claims_reachability || bool_decide (lk_health link ≠ Health_Unknown)))
    Inv_TopologyGenerationConsistent subject
    "link from a superseded topology epoch still claims reachability or health" ++
  viol (ctr (cs_topology_generation s) <? ctr (lk_topology_generation link))%N
    Inv_TopologyGenerationConsistent subject
    "link topology generation exceeds the cluster topology generation" ++
  flat_map (λ domain,
    viol (bool_decide (cs_failure_domains s !! domain = None)) Inv_LinkEndpointsResolve subject
      ("link references unknown failure domain " +:+ id_value domain)) (lk_failure_domains link).

(** [check_domain], for one domain class. *)
Definition check_domain (D : Type) {tag} `{DomainTraits D tag} (s : ClusterState) :
    list InvariantViolation :=
  flat_map (λ e : StrongId tag * D,
    let subject := dt_label D +:+ "/" +:+ id_value e.1 in
    viol (class_of e.2 =? 0)%N Inv_DomainClassConsistent subject "domain class is UNKNOWN" ++
    flat_map (λ rack,
      viol (negb (is_rack_member s rack)) Inv_DomainMembersResolve subject
        ("member rack " +:+ id_value rack +:+ " is not a member of this cluster"))
      (dt_racks e.2) ++
    viol (negb (sorted_unique (dt_racks e.2))) Inv_DomainMembersResolve subject
      "member rack list is not sorted and unique") (entries (dt_member D s)).

Definition max_generation (D : Type) {tag} `{DomainTraits D tag} (s : ClusterState) : N :=
  foldl (λ value e, N.max value (ctr (dh_generation (dt_header e.2)))) 0%N
    (entries (dt_member D s)).

(** [word] is the name of the class in the message. *)
Definition check_generation (D : Type) {tag} `{DomainTraits D tag} (word : string)
    (s : ClusterState) : list InvariantViolation :=
  viol (ctr (dt_aggregate D (cs_domain_generations s)) <? max_generation D s)%N
    Inv_DomainGenerationsConsistent (dt_label D)
    ("a domain record generation exceeds the aggregate " +:+ word +:+ " generation").

Definition domain_violations (s : ClusterState) : list InvariantViolation :=
  check_domain PlacementDomain s ++ check_domain CapacityDomain s ++
  check_domain FailureDomain s ++ check_domain NetworkDomain s ++
  check_domain StorageDomain s ++ check_domain PowerDomain s ++
  check_domain CoolingDomain s ++ check_domain LinkDomain s ++
  check_generation PlacementDomain "placement" s ++ check_generation CapacityDomain "capacity" s ++
  check_generation FailureDomain "failure" s ++ check_generation NetworkDomain "network" s ++
  check_generation StorageDomain "storage" s ++ check_generation PowerDomain "power" s ++
  check_generation CoolingDomain "cooling" s ++ check_generation LinkDomain "link" s.

Definition constraint_violations (s : ClusterState) : list InvariantViolation :=
  flat_map (λ e : ConstraintId * ClusterConstraint,
    flat_map (λ rack,
      viol (negb (is_rack_member s rack)) Inv_ConstraintReferencesResolve
        ("constraint/" +:+ id_value e.1)
        ("constraint references rack " +:+ id_value rack +:+ " which is not a member"))
      (cc_racks e.2)) (entries (cs_constraints s)).

Definition withdrawn_violations (s : ClusterState) : list InvariantViolation :=
  viol (negb (sorted_unique (cs_withdrawn_racks s))) Inv_RackMembershipConsistent "cluster"
    "withdrawn rack list is not sorted and unique" ++
  flat_map (λ rack,
    viol (match cs_racks s !! rack with
          | None => true
          | Some record => bool_decide (rk_membership record ≠ Mem_Withdrawn)
          end) Inv_RackMembershipConsistent ("rack/" +:+ id_value rack)
      "rack is listed as withdrawn but its membership state disagrees") (cs_withdrawn_racks s) ++
  flat_map (λ e : RackId * RackRecord,
    viol (bool_decide (rk_membership e.2 = Mem_Withdrawn) &&
          negb (binary_search less (cs_withdrawn_racks s) e.1)) Inv_RackMembershipConsistent
      ("rack/" +:+ id_value e.1)
      "membership is withdrawn but the rack is absent from the withdrawn list")
    (entries (cs_racks s)).

Definition authority_violations (s : ClusterState) : list InvariantViolation :=
  viol (negb (strictly_sorted less (fa_boot <$> cs_fenced_authorities s)))
    Inv_FencedAuthorityConsistent "cluster"
    "fenced authority list is not strictly sorted by boot identity" ++
  flat_map (λ fenced,
    viol (match cs_racks s !! fa_rack fenced with
          | Some record => rk_authoritative_current record &&
              bool_decide (rr_boot (rk_reference record) = fa_boot fenced)
          | None => false
          end) Inv_RackNotFenced ("rack/" +:+ id_value (fa_rack fenced))
      "fenced process incarnation is still authoritative current") (cs_fenced_authorities s) ++
  viol (negb (strictly_sorted less (ri_rack <$> cs_retired_racks s))) Inv_RackNotRetired "cluster"
    "retired identity list is not strictly sorted by rack identity".

Definition lifecycle_violations (s : ClusterState) : list InvariantViolation :=
  viol (bool_decide (cs_lifecycle s = CL_Ready) && negb (re_satisfied (evaluate_readiness s)))
    Inv_LifecycleConsistent "cluster"
    "cluster is READY but the readiness contract is not satisfied" ++
  (if decide (cs_lifecycle s = CL_Retired) then
     flat_map (λ e : RackId * RackRecord,
       viol (rk_authoritative_current e.2) Inv_LifecycleConsistent ("rack/" +:+ id_value e.1)
         "rack is authoritative current in a RETIRED cluster") (entries (cs_racks s))
   else []) ++
  viol (ctr (cs_publication_generation s) <? ctr (cs_snapshot_generation s))%N
    Inv_SnapshotMapMatchesState "cluster"
    "snapshot generation exceeds the publication generation".

(** Every violation of canonical state, in the order of the checks. *)
Definition state_violations (s : ClusterState) : list InvariantViolation :=
  cluster_violations s ++ count_violations s ++
  flat_map (rack_violations s) (entries (cs_racks s)) ++
  flat_map (link_violations s) (entries (cs_links s)) ++
  domain_violations s ++ constraint_violations s ++ withdrawn_violations s ++
  authority_violations s ++ lifecycle_violations s.

(** ** Verification of the derived indexes *)

Definition check_members {D tag} `{DomainTraits D tag} (s : ClusterState)
    (index : StrongId tag → list RackId) : list InvariantViolation :=
  flat_map (λ e : StrongId tag * D,
    viol (bool_decide (index e.1 ≠ sort_uniq less (dt_racks e.2))) Inv_IndexMatchesCanonical
      (dt_label D +:+ "/" +:+ id_value e.1)
      "index member list does not match the canonical record") (entries (dt_member D s)).

(** The domains of a class whose (sorted) member list holds the rack. *)
Definition expected_domains (D : Type) {tag} `{DomainTraits D tag} (s : ClusterState)
    (rack : RackId) : list (StrongId tag) :=
  (filter (λ e, binary_search less (dt_racks e.2) rack = true) (entries (dt_member D s))).*1.

Definition check_rack_index (s : ClusterState) (ix : ClusterIndexes) (e : RackId * RackRecord) :
    list InvariantViolation :=
  viol (bool_decide (placement_domains_of ix e.1 ≠ expected_domains PlacementDomain s e.1))
    Inv_IndexMatchesCanonical ("rack/" +:+ id_value e.1)
    "placement domain index does not match canonical records" ++
  viol (bool_decide (failure_domains_of ix e.1 ≠ expected_domains FailureDomain s e.1))
    Inv_IndexMatchesCanonical ("rack/" +:+ id_value e.1)
    "failure domain index does not match canonical records".

Definition check_link_index (ix : ClusterIndexes) (e : InterRackLinkId * InterRackLink) :
    list InvariantViolation :=
  viol (negb (binary_search less (links_from ix (lk_source e.2)) e.1)) Inv_IndexMatchesCanonical
    ("link/" +:+ id_value e.1) "source index is missing this link" ++
  viol (negb (binary_search less (links_to ix (lk_destination e.2)) e.1)) Inv_IndexMatchesCanonical
    ("link/" +:+ id_value e.1) "destination index is missing this link".

(** The first entry of a grouping that the index does not hold. *)
Definition first_mismatch {K V} `{Countable K} `{!Less K} `{EqDecision V} (index : K → list V)
    (expected : gmap K (list V)) (report : K → InvariantViolation) : list InvariantViolation :=
  match List.find (λ e, bool_decide (index e.1 ≠ e.2)) (entries expected) with
  | Some e => [report e.1]
  | None => []
  end.

Definition index_violations (s : ClusterState) (ix : ClusterIndexes) : list InvariantViolation :=
  check_members (D:=PlacementDomain) s (racks_in_placement_domain ix) ++
  check_members (D:=CapacityDomain) s (racks_in_capacity_domain ix) ++
  check_members (D:=FailureDomain) s (racks_in_failure_domain ix) ++
  check_members (D:=NetworkDomain) s (racks_in_network_domain ix) ++
  flat_map (check_rack_index s ix) (entries (cs_racks s)) ++
  flat_map (check_link_index ix) (entries (cs_links s)) ++
  first_mismatch (racks_in_membership_state ix)
    (push_all (λ r, [rk_membership r]) (entries (cs_racks s)))
    (λ _, MkViolation Inv_IndexMatchesCanonical "cluster"
            "membership index does not match canonical records") ++
  first_mismatch (racks_for_boot ix)
    (push_all (λ r, [rr_boot (rk_reference r)]) (entries (cs_racks s)))
    (λ boot, MkViolation Inv_IndexMatchesCanonical ("boot/" +:+ id_value boot)
               "boot index does not match canonical records").

Definition check_indexes (s : ClusterState) (ix : ClusterIndexes) : list InvariantViolation :=
  finish (index_violations s ix).

(** [check_invariants(state, indexes)]; the report is empty when it is [ok]. *)
Definition check_invariants (s : ClusterState) (indexes : option ClusterIndexes) :
    list InvariantViolation :=
  if nothing_recorded s then [] else
  finish (state_violations s ++
          match indexes with Some ix => check_indexes s ix | None => [] end).

(** ** Facts about reports *)

Lemma viol_nil b i subject detail : viol b i subject detail = [] ↔ b = false.
Proof. by destruct b. Qed.

Lemma finish_nil l : finish l = [] ↔ l = [].
Proof. apply sort_by_nil. Qed.

Lemma flat_map_entries_nil {K V B} `{Countable K} `{!Less K} (f : K * V → list B) (m : gmap K V) :
  flat_map f (entries m) = [] ↔ ∀ k v, m !! k = Some v → f (k, v) = [].
Proof.
  rewrite flat_map_nil. split.
  - intros Hf k v Hkv. by apply Hf, elem_of_entries.
  - intros Hf [k v] Hkv%elem_of_entries. by apply Hf.
Qed.

Lemma sorted_unique_spec l : sorted_unique l = true ↔ ssorted less l.
Proof.
  rewrite <- (strictly_sorted_spec less). unfold sorted_unique.
  induction l as [|x [|y l] IH]; [done|done|]. cbn [is_sorted has_adjacent strictly_sorted].
  destruct (st_total (lt:=less) x y) as [Hxy|[->|Hyx]].
  - rewrite Hxy, (st_asym less x y Hxy), bool_decide_false.
    + exact IH.
    + intros ->. by rewrite (st_irrefl (lt:=less)) in Hxy.
  - rewrite st_irrefl, bool_decide_true by done. simpl. by rewrite andb_false_r.
  - by rewrite Hyx, (st_asym less y x Hyx).
Qed.

(** The condition the commit path tests. *)
Definition invariants_hold (s : ClusterState) : Prop :=
  nothing_recorded s = true ∨ state_violations s = [].

Lemma check_invariants_spec s : check_invariants s None = [] ↔ invariants_hold s.
Proof.
  unfold check_invariants, invariants_hold. destruct (nothing_recorded s).
  - naive_solver.
  - rewrite finish_nil, app_nil_r. naive_solver.
Qed.

Lemma nothing_recorded_racks s : nothing_recorded s = true → cs_racks s = ∅.
Proof.
  unfold nothing_recorded. rewrite !andb_true_iff.
  intros [[[[[[[[[[[[[Hn _] _] _] _] _] _] _] _] _] _] _] _] _]. by apply N.eqb_eq, N_of_size_eq_0 in Hn.
Qed.

Ltac split_nil :=
  repeat match goal with
  | H : _ ++ _ = [] |- _ => apply app_nil in H as [? ?]
  | H : viol _ _ _ _ = [] |- _ => apply viol_nil in H
  end.

(** ** The indexes rebuilt from a state that holds the invariants verify *)

Lemma list_filter_ext_in {A} (P Q : A → Prop) `{!∀ x, Decision (P x), !∀ x, Decision (Q x)} (l : list A) :
  (∀ x, x ∈ l → P x ↔ Q x) → filter P l = filter Q l.
Proof.
  induction l as [|x l IH]; intros Hl; [done|].
  rewrite !filter_cons, IH by set_solver.
  pose proof (Hl x ltac:(set_solver)). repeat case_decide; naive_solver.
Qed.

Lemma check_members_rebuilt {D tag} `{DomainTraits D tag} s index :
  (∀ i, index i = index_of (members_index (D:=D) s) i) → check_members (D:=D) s index = [].
Proof.
  intros Hix. apply flat_map_entries_nil. intros i d Hd. apply viol_nil, bool_decide_eq_false.
  simpl. rewrite Hix. unfold index_of. rewrite members_index_lookup, Hd. naive_solver.
Qed.

Lemma expected_domains_rebuilt D {tag} `{DomainTraits D tag} s rack :
  (∀ i d, dt_member D s !! i = Some d → ssorted less (dt_racks d)) →
  index_of (domains_of_index D s) rack = expected_domains D s rack.
Proof.
  intros Hs. rewrite domains_of_index_spec. unfold expected_domains. f_equal.
  apply list_filter_ext_in. intros [i d] Hid%elem_of_entries. simpl.
  symmetry. apply (binary_search_spec less). eauto.
Qed.

Lemma links_rebuilt (f : InterRackLink → RackId) s i l :
  cs_links s !! i = Some l →
  binary_search less
    (index_of (sort_by less <$> push_all (λ l, [f l]) (entries (cs_links s))) (f l)) i = true.
Proof.
  intros Hl. rewrite index_of_fmap by done.
  rewrite (index_of_push_all (λ l, [f l])) by (intros; apply NoDup_singleton).
  assert (ssorted less (filter (λ e, f l ∈ [f e.2]) (entries (cs_links s))).*1) as Hs
    by apply fmap_fst_filter_ssorted, entries_keys_ssorted.
  rewrite (sort_by_id less) by done. apply (binary_search_spec less); [done|].
  apply list_elem_of_fmap. exists (i, l). split; [done|].
  apply list_elem_of_filter. split; [set_solver|]. by apply elem_of_entries.
Qed.

Lemma first_mismatch_same {K V} `{Countable K} `{!Less K} `{EqDecision V} (m : gmap K (list V)) report :
  first_mismatch (index_of m) m report = [].
Proof.
  unfold first_mismatch. destruct (List.find _ _) as [[k v]|] eqn:Ef; [|done].
  apply List.find_some in Ef as [Hin Hne]. split_bools.
  apply list_elem_of_In, elem_of_entries in Hin. unfold index_of in Hne. simpl in Hne.
  by rewrite Hin in Hne.
Qed.

Lemma check_domain_sorted D {tag} `{DomainTraits D tag} s :
  check_domain D s = [] → ∀ i d, dt_member D s !! i = Some d → ssorted less (dt_racks d).
Proof.
  unfold check_domain. rewrite flat_map_entries_nil. intros Hall i d Hd.
  specialize (Hall i d Hd). simpl in Hall. split_nil. split_bools. by apply sorted_unique_spec.
Qed.

Lemma index_violations_rebuilt s :
  domain_violations s = [] → index_violations s (rebuild s) = [].
Proof.
  intros Hd. unfold domain_violations in Hd. split_nil. unfold index_violations.
  rewrite !check_members_rebuilt by done. simpl.
  rewrite (proj2 (flat_map_entries_nil (check_rack_index s (rebuild s)) _)).
  2: { intros rack r Hr. unfold check_rack_index. simpl.
       unfold placement_domains_of, failure_domains_of. simpl.
       rewrite !expected_domains_rebuilt by (by apply check_domain_sorted).
       by rewrite !bool_decide_false by naive_solver. }
  rewrite (proj2 (flat_map_entries_nil (check_link_index (rebuild s)) _)).
  2: { intros i l Hl. unfold check_link_index. simpl. unfold links_from, links_to. simpl.
       by rewrite (links_rebuilt lk_source s i l), (links_rebuilt lk_destination s i l). }
  simpl. unfold racks_in_membership_state, racks_for_boot. simpl.
  by rewrite !first_mismatch_same.
Qed.

(** The derived indexes the coordinator rebuilds always verify: on a state
    that holds the canonical invariants, checking the invariants together with
    freshly rebuilt indexes reports no violation either, so the index check
    never rejects a legitimate state. *)
Theorem rebuild_passes_invariants s :
  check_invariants s None = [] → check_invariants s (Some (rebuild s)) = [].
Proof.
  intros [Hn|Hv]%check_invariants_spec; unfold check_invariants.
  - by rewrite Hn.
  - destruct (nothing_recorded s); [done|]. apply finish_nil, app_nil. split; [done|].
    apply finish_nil, index_violations_rebuilt.
    unfold state_violations in Hv. by split_nil.
Qed.
