(* ===== verification/Queries.v ===== *)
(** * Queries on canonical state

    [aggregate_capacity], [failure_domain_independence] and
    [reachability_between] of [src/cluster_state.cpp], and what their answers
    mean. *)

From S2P Require Import Prelude Identity Counter Taxonomy Evidence Types State Readiness Domains.
From S2P Require Import Indexes Invariant.
From Stdlib Require Import SpecFloat.

(** ** Addition of doubles

    IEEE 754 binary64 addition, round to nearest even, on bit patterns. *)

Definition dbl_prec : Z := 53.
Definition dbl_emax : Z := 1024.

Definition dbl_sign (d : double) : bool := N.testbit (dbl_bits d) 63.

Definition dbl_to_spec (d : double) : spec_float :=
  let s := dbl_sign d in
  let e := dbl_exponent d in
  let m := dbl_mantissa d in
  if (e =? 2047)%N then if (m =? 0)%N then S754_infinity s else S754_nan else
  if (e =? 0)%N then
    match m with N0 => S754_zero s | Npos p => S754_finite s p (-1074) end
  else match (m + 2 ^ 52)%N with
       | N0 => S754_zero s
       | Npos p => S754_finite s p (Z.of_N e - 1075)
       end.

Definition sign_bit (s : bool) : N := if s then 2 ^ 63 else 0.

Definition dbl_of_spec (f : spec_float) : double :=
  MkDouble match f with
  | S754_zero s => sign_bit s
  | S754_infinity s => sign_bit s + 2047 * 2 ^ 52
  | S754_nan => 2047 * 2 ^ 52 + 2 ^ 51
  | S754_finite s m e =>
      if (Npos m <? 2 ^ 52)%N then sign_bit s + Npos m
      else sign_bit s + Z.to_N (e + 1075) * 2 ^ 52 + (Npos m - 2 ^ 52)
  end%N.

Definition dbl_add (x y : double) : double :=
  dbl_of_spec (SFadd dbl_prec dbl_emax (dbl_to_spec x) (dbl_to_spec y)).

Definition dbl_zero : double := MkDouble 0.

(** ** Capacity *)

Record CapacityAggregate := MkAggregate {
  ca_status : CapacityAggregateStatus;
  ca_unit : string;
  ca_value : option double;
  ca_provenance : EvidenceProvenance;
  ca_reason : string
}.

(** The accumulators of the loop over the quantities. *)
Record CapacityScan := MkScan {
  sc_found_any : bool;
  sc_any_unknown_value : bool;
  sc_any_revalidation : bool;
  sc_provenance : option EvidenceProvenance;
  sc_mixed : bool;
  sc_aggregated_seen : bool;
  sc_aggregated_unset : bool;
  sc_total : double;
  sc_contributing : N
}.

Definition scan_start : CapacityScan :=
  MkScan false false false None false false false dbl_zero 0.

(** One iteration on a quantity of the requested unit; an unset [provenance] is
    [provenance_set = false]. *)
Definition scan_quantity (sc : CapacityScan) (q : CapacityQuantity) : CapacityScan :=
  MkScan true
    (sc_any_unknown_value sc || bool_decide (cq_value q = None))
    (sc_any_revalidation sc || bool_decide (cq_provenance q = Prov_Reconstructed))
    (match sc_provenance sc with None => Some (cq_provenance q) | Some p => Some p end)
    (match sc_provenance sc with
     | None => sc_mixed sc
     | Some p => sc_mixed sc || bool_decide (p ≠ cq_provenance q)
     end)
    (sc_aggregated_seen sc || cq_aggregated q)
    (sc_aggregated_unset sc || negb (cq_aggregated q))
    (match cq_value q with Some v => dbl_add (sc_total sc) v | None => sc_total sc end)
    (match cq_value q with Some _ => sc_contributing sc + 1 | None => sc_contributing sc end).

Definition scan_quantities (unit : string) (l : list CapacityQuantity) : CapacityScan :=
  foldl (λ sc q, if bool_decide (cq_unit q = unit) then scan_quantity sc q else sc) scan_start l.

Inductive MemberIssue := MemberUnknown | MemberRevalidation.

(** The loop over the member racks: the first problem found. *)
Fixpoint member_issue (s : ClusterState) (racks : list RackId) : option MemberIssue :=
  match racks with
  | [] => None
  | rack :: rest =>
      match cs_racks s !! rack with
      | None => Some MemberUnknown
      | Some r => if requires_revalidation (rr_evidence (rk_reference r))
                  then Some MemberRevalidation else member_issue s rest
      end
  end.

Definition aggregate_capacity (s : ClusterState) (domain : CapacityDomainId) (unit : string) :
    CapacityAggregate :=
  let refused status reason := MkAggregate status unit None Prov_Unknown reason in
  match cs_capacity_domains s !! domain with
  | None => refused Agg_Unknown "unknown_capacity_domain"
  | Some record =>
    let sc := scan_quantities unit (cd_quantities record) in
    if negb (sc_found_any sc) then refused Agg_Unknown "no_quantity_with_unit" else
    if sc_any_revalidation sc then
      refused Agg_RevalidationRequired "reconstructed_quantity_requires_revalidation" else
    if sc_mixed sc || (sc_aggregated_seen sc && sc_aggregated_unset sc) then
      refused Agg_MixedSemantics "member_quantities_have_different_semantics" else
    match member_issue s (cd_racks record) with
    | Some MemberUnknown => refused Agg_IncompleteEvidence "member_rack_unknown"
    | Some MemberRevalidation =>
        refused Agg_RevalidationRequired "member_rack_requires_revalidation"
    | None =>
      if sc_any_unknown_value sc then
        refused Agg_IncompleteEvidence "member_quantity_unknown" else
      if (1 <? sc_contributing sc)%N then
        MkAggregate Agg_Known unit (Some (sc_total sc)) Prov_Derived "derived_from_member_quantities"
      else
        MkAggregate Agg_Known unit (Some (sc_total sc)) (default Prov_Unknown (sc_provenance sc))
          "single_supplied_quantity"
    end
  end.

(** ** Independence *)

Record IndependenceScan := MkIndep {
  is_lhs : bool;
  is_rhs : bool;
  is_revalidation : bool;
  is_shared : bool
}.

(** One iteration of either loop over the domains of a rack. *)
Definition scan_domain (s : ClusterState) (lhs rhs : RackId) (klass : FailureDomainClass)
    (acc : IndependenceScan) (i : FailureDomainId) : IndependenceScan :=
  match cs_failure_domains s !! i with
  | None => acc
  | Some domain =>
      if decide (fd_klass domain ≠ klass) then acc else
      if domain_needs_revalidation (fd_header domain) then
        MkIndep (is_lhs acc) (is_rhs acc) true (is_shared acc) else
      if negb (domain_is_current (fd_header domain)) then acc else
      let in_lhs := binary_search less (fd_racks domain) lhs in
      let in_rhs := binary_search less (fd_racks domain) rhs in
      MkIndep (is_lhs acc || in_lhs) (is_rhs acc || in_rhs) (is_revalidation acc)
        (is_shared acc || (in_lhs && in_rhs))
  end.

Definition failure_domain_independence (s : ClusterState) (ix : ClusterIndexes)
    (lhs rhs : RackId) (klass : FailureDomainClass) : DomainIndependence :=
  if decide (klass = FD_Unknown) then Indep_Unknown else
  match cs_racks s !! lhs, cs_racks s !! rhs with
  | Some _, Some _ =>
      let acc := foldl (scan_domain s lhs rhs klass) (MkIndep false false false false)
                   (failure_domains_of ix lhs) in
      let acc := foldl (scan_domain s lhs rhs klass) acc (failure_domains_of ix rhs) in
      if is_shared acc then Indep_Shared else
      if is_revalidation acc then Indep_RevalidationRequired else
      if is_lhs acc && is_rhs acc then Indep_Independent else Indep_Unknown
  | _, _ => Indep_Unknown
  end.

(** ** Reachability *)

(** The link carries traffic from the source to the destination. *)
Definition forward (link : InterRackLink) (source destination : RackId) : bool :=
  (bool_decide (lk_source link = source) && bool_decide (lk_destination link = destination)) ||
  (bool_decide (lk_source link = destination) && bool_decide (lk_destination link = source) &&
   bool_decide (lk_direction link = Dir_Bidirectional)).

Record ReachScan := MkReach {
  rs_current : bool;
  rs_reachable : bool;
  rs_unreachable : bool;
  rs_revalidation : bool
}.

Definition scan_link (source destination : RackId) (acc : ReachScan) (link : InterRackLink) :
    ReachScan :=
  if negb (forward link source destination) then acc else
  if requires_revalidation (dh_evidence (lk_header link)) then
    MkReach (rs_current acc) (rs_reachable acc) (rs_unreachable acc) true else
  if negb (is_current (dh_evidence (lk_header link))) then acc else
  MkReach true
    (rs_reachable acc || bool_decide (lk_reachability link = Reach_Reachable))
    (rs_unreachable acc || bool_decide (lk_reachability link = Reach_Unreachable))
    (rs_revalidation acc || bool_decide (lk_reachability link = Reach_RevalidationRequired)).

Definition reachability_between (s : ClusterState) (source destination : RackId) : Reachability :=
  if negb (has_rack s source) || negb (has_rack s destination) then Reach_Unknown else
  let acc := foldl (λ acc e, scan_link source destination acc e.2)
               (MkReach false false false false) (entries (cs_links s)) in
  if rs_reachable acc then Reach_Reachable else
  if rs_revalidation acc then Reach_RevalidationRequired else
  if rs_current acc && rs_unreachable acc then Reach_Unreachable else Reach_Unknown.

(** ** The loops as disjunctions *)

Section reach.
  Context (source destination : RackId).

(** A current link from the source to the destination. *)
Definition current_forward (link : InterRackLink) : bool :=
  forward link source destination && is_current (dh_evidence (lk_header link)).

Definition claims (r : Reachability) (link : InterRackLink) : bool :=
  current_forward link && bool_decide (lk_reachability link = r).

Definition pending_forward (link : InterRackLink) : bool :=
  (forward link source destination && requires_revalidation (dh_evidence (lk_header link))) ||
  claims Reach_RevalidationRequired link.

Lemma scan_link_or acc link :
  scan_link source destination acc link =
  MkReach (rs_current acc || current_forward link) (rs_reachable acc || claims Reach_Reachable link)
    (rs_unreachable acc || claims Reach_Unreachable link)
    (rs_revalidation acc || pending_forward link).
Proof.
  unfold scan_link, pending_forward, claims, current_forward.
  destruct (forward link source destination); cbn; [|by destruct acc; cbn; rewrite !orb_false_r].
  destruct (is_current _) eqn:Ec.
  - rewrite (current_not_revalidation _ Ec). cbn. by rewrite orb_true_r.
  - cbn. destruct (requires_revalidation _), acc; cbn; by rewrite ?orb_false_r, ?orb_true_r.
Qed.

Lemma scan_links_or (l : list (InterRackLinkId * InterRackLink)) acc :
  foldl (λ acc e, scan_link source destination acc e.2) acc l =
  MkReach (rs_current acc || existsb (λ e, current_forward e.2) l)
    (rs_reachable acc || existsb (λ e, claims Reach_Reachable e.2) l)
    (rs_unreachable acc || existsb (λ e, claims Reach_Unreachable e.2) l)
    (rs_revalidation acc || existsb (λ e, pending_forward e.2) l).
Proof.
  revert acc. induction l as [|e l IH]; intros acc; cbn [foldl existsb].
  - destruct acc; cbn; by rewrite !orb_false_r.
  - rewrite IH, scan_link_or. cbn. by rewrite !orb_assoc.
Qed.
End reach.

(** Some link of the state passes the test. *)
Definition some_link (s : ClusterState) (test : InterRackLink → bool) : Prop :=
  ∃ i link, cs_links s !! i = Some link ∧ test link = true.

Lemma some_link_spec s test :
  existsb (λ e : InterRackLinkId * InterRackLink, test e.2) (entries (cs_links s)) = true ↔
  some_link s test.
Proof. apply existsb_entries. Qed.

(** Reachability answers only from current evidence.  REACHABLE is
    answered exactly when both racks are recorded and some link between them in
    that direction, with current evidence, says so; failing that,
    REVALIDATION_REQUIRED exactly when a link between them awaits revalidation;
    failing that, UNREACHABLE exactly when a current link says so; every other
    case is UNKNOWN.  Stale or unknown evidence never makes a rack reachable. *)
Theorem reachability_between_correct s source destination :
  let answer := reachability_between s source destination in
  let recorded := has_rack s source = true ∧ has_rack s destination = true in
  let reachable := some_link s (claims source destination Reach_Reachable) in
  let pending := some_link s (pending_forward source destination) in
  let unreachable := some_link s (claims source destination Reach_Unreachable) in
  (answer = Reach_Reachable ↔ recorded ∧ reachable) ∧
  (answer = Reach_RevalidationRequired ↔ recorded ∧ ¬ reachable ∧ pending) ∧
  (answer = Reach_Unreachable ↔ recorded ∧ ¬ reachable ∧ ¬ pending ∧ unreachable).
Proof.
  intros answer recorded reachable pending unreachable.
  unfold answer, reachability_between, recorded.
  destruct (has_rack s source), (has_rack s destination); cbn [negb orb];
    try (split_and!; split; intros; naive_solver).
  rewrite scan_links_or. cbn [rs_current rs_reachable rs_unreachable rs_revalidation orb].
  unfold reachable, pending, unreachable. rewrite <- !some_link_spec.
  destruct (existsb (λ e, claims source destination Reach_Reachable e.2) _) eqn:Er; [naive_solver|].
  destruct (existsb (λ e, pending_forward source destination e.2) _) eqn:Ep; [naive_solver|].
  destruct (existsb (λ e, claims source destination Reach_Unreachable e.2) _) eqn:Eu.
  - assert (existsb (λ e, current_forward source destination e.2) (entries (cs_links s)) = true)
      as ->.
    { apply some_link_spec. apply some_link_spec in Eu as (i&l&Hl&Hc). exists i, l.
      split; [done|]. unfold claims in Hc. by split_bools. }
    cbn [andb]. split_and!; split; intros; naive_solver.
  - rewrite andb_false_r. split_and!; split; intros; naive_solver.
Qed.

(** ** Independence from the rebuilt indexes *)

Section independence.
  Context (s : ClusterState) (lhs rhs : RackId) (klass : FailureDomainClass).

Definition current_of_class (domain : FailureDomain) : bool :=
  bool_decide (fd_klass domain = klass) && domain_is_current (fd_header domain).

Definition pending_of_class (domain : FailureDomain) : bool :=
  bool_decide (fd_klass domain = klass) && domain_needs_revalidation (fd_header domain).

(** The test holds of the domain of that identity. *)
Definition of_domain (test : FailureDomain → bool) (i : FailureDomainId) : bool :=
  match cs_failure_domains s !! i with Some d => test d | None => false end.

Definition holds (rack : RackId) (domain : FailureDomain) : bool :=
  current_of_class domain && binary_search less (fd_racks domain) rack.

Lemma scan_domain_or acc i :
  scan_domain s lhs rhs klass acc i =
  MkIndep (is_lhs acc || of_domain (holds lhs) i) (is_rhs acc || of_domain (holds rhs) i)
    (is_revalidation acc || of_domain pending_of_class i)
    (is_shared acc || of_domain (λ d, holds lhs d && holds rhs d) i).
Proof.
  unfold scan_domain, of_domain, holds, pending_of_class, current_of_class.
  destruct (cs_failure_domains s !! i) as [d|]; [|by destruct acc; cbn; rewrite !orb_false_r].
  destruct (decide (fd_klass d = klass)) as [Hk|Hk].
  2: { rewrite decide_True, bool_decide_false by done. destruct acc; cbn. by rewrite !orb_false_r. }
  rewrite decide_False, bool_decide_true by auto.
  unfold domain_needs_revalidation, domain_is_current. cbn [andb].
  destruct (is_current _) eqn:Ec.
  - rewrite (current_not_revalidation _ Ec). cbn. by rewrite orb_false_r.
  - cbn. destruct (requires_revalidation _), acc; cbn; by rewrite ?orb_false_r, ?orb_true_r.
Qed.

Lemma scan_domains_or l acc :
  foldl (scan_domain s lhs rhs klass) acc l =
  MkIndep (is_lhs acc || existsb (of_domain (holds lhs)) l)
    (is_rhs acc || existsb (of_domain (holds rhs)) l)
    (is_revalidation acc || existsb (of_domain pending_of_class) l)
    (is_shared acc || existsb (of_domain (λ d, holds lhs d && holds rhs d)) l).
Proof.
  revert acc. induction l as [|e l IH]; intros acc; cbn [foldl existsb].
  - destruct acc; cbn; by rewrite !orb_false_r.
  - rewrite IH, scan_domain_or. cbn. by rewrite !orb_assoc.
Qed.

(** Some failure domain with the rack among its members passes the test. *)
Definition some_domain (test : FailureDomain → bool) (rack : RackId) : Prop :=
  ∃ i d, cs_failure_domains s !! i = Some d ∧ rack ∈ fd_racks d ∧ test d = true.

Lemma existsb_domains_of test rack :
  existsb (of_domain test) (failure_domains_of (rebuild s) rack) = true ↔ some_domain test rack.
Proof.
  unfold failure_domains_of. cbn [rebuild ix_failure_of_rack].
  rewrite existsb_elem, domains_of_index_spec. unfold some_domain, of_domain. split.
  - intros (i&Hi&Ht). apply list_elem_of_fmap in Hi as ([i' d]&->&Hin). cbn in *.
    apply list_elem_of_filter in Hin as [Hm Hin%elem_of_entries]. cbn in *.
    change (cs_failure_domains s !! i' = Some d) in Hin. rewrite Hin in Ht. eauto.
  - intros (i&d&Hd&Hm&Ht). exists i. rewrite Hd. split; [|done].
    apply list_elem_of_fmap. exists (i, d). split; [done|].
    apply list_elem_of_filter. split; [done|]. by apply elem_of_entries.
Qed.
End independence.

Section independence_spec.
  Context (s : ClusterState) (lhs rhs : RackId) (klass : FailureDomainClass).
  Hypothesis Hsorted : ∀ i d, cs_failure_domains s !! i = Some d → ssorted less (fd_racks d).

(** The rack belongs to a domain of the class whose evidence is current. *)
Definition covered (rack : RackId) : Prop := some_domain s (current_of_class klass) rack.

(** Both racks belong to the same current domain of the class. *)
Definition share_domain : Prop :=
  ∃ i d, cs_failure_domains s !! i = Some d ∧ current_of_class klass d = true ∧
         lhs ∈ fd_racks d ∧ rhs ∈ fd_racks d.

(** A domain of the class that holds one of the racks awaits revalidation. *)
Definition pending_domain : Prop :=
  some_domain s (pending_of_class klass) lhs ∨ some_domain s (pending_of_class klass) rhs.

Lemma holds_spec i d rack :
  cs_failure_domains s !! i = Some d →
  holds klass rack d = true ↔ current_of_class klass d = true ∧ rack ∈ fd_racks d.
Proof.
  intros Hd. unfold holds. rewrite andb_true_iff, (binary_search_spec less); [done|eauto].
Qed.

Lemma some_domain_holds rack rack' :
  some_domain s (holds klass rack) rack' → covered rack.
Proof.
  intros (i&d&Hd&_&Ht). apply (holds_spec i d rack Hd) in Ht as [??]. by exists i, d.
Qed.

Lemma covered_some_domain rack : covered rack → some_domain s (holds klass rack) rack.
Proof.
  intros (i&d&Hd&Hm&Ht). exists i, d. split_and!; [done|done|]. by apply (holds_spec i d rack Hd).
Qed.

Lemma share_some_domain rack :
  rack = lhs ∨ rack = rhs →
  some_domain s (λ d, holds klass lhs d && holds klass rhs d) rack ↔ share_domain.
Proof.
  intros Hr. split.
  - intros (i&d&Hd&_&Ht). apply andb_true_iff in Ht as [H1 H2].
    apply (holds_spec i d lhs Hd) in H1 as [??]. apply (holds_spec i d rhs Hd) in H2 as [??].
    by exists i, d.
  - intros (i&d&Hd&Hc&?&?). exists i, d. split_and!; [done|by destruct Hr as [-> | ->]|].
    apply andb_true_iff. split; by apply (holds_spec i d).
Qed.

Lemma independence_answer (bl br : bool) (Sh Pe Cl Cr : Prop) :
  ¬ Sh → ¬ Pe → (bl = true ↔ Cl) → (br = true ↔ Cr) →
  let answer := if bl && br then Indep_Independent else Indep_Unknown in
  (answer = Indep_Shared ↔ Sh) ∧ (answer = Indep_RevalidationRequired ↔ ¬ Sh ∧ Pe) ∧
  (answer = Indep_Independent ↔ ¬ Sh ∧ ¬ Pe ∧ Cl ∧ Cr).
Proof. destruct bl, br; cbn; naive_solver. Qed.

Lemma independence_cases :
  klass ≠ FD_Unknown → has_rack s lhs = true → has_rack s rhs = true →
  let answer := failure_domain_independence s (rebuild s) lhs rhs klass in
  (answer = Indep_Shared ↔ share_domain) ∧
  (answer = Indep_RevalidationRequired ↔ ¬ share_domain ∧ pending_domain) ∧
  (answer = Indep_Independent ↔ ¬ share_domain ∧ ¬ pending_domain ∧ covered lhs ∧ covered rhs).
Proof.
  intros Hk (rl&Hl)%has_rack_spec (rr&Hr)%has_rack_spec answer. unfold answer.
  unfold failure_domain_independence. rewrite decide_False, Hl, Hr by done.
  rewrite !scan_domains_or. cbn [is_lhs is_rhs is_revalidation is_shared orb].
  set (L := failure_domains_of (rebuild s) lhs). set (R := failure_domains_of (rebuild s) rhs).
  assert (∀ b : bool, (b = true → False) → b = false) as Hnot by (intros []; naive_solver).
  destruct (_ || existsb (of_domain s (λ d, _)) R) eqn:Es.
  - assert (share_domain) as Hs.
    { apply orb_true_iff in Es as [E|E]; unfold L, R in E; apply existsb_domains_of in E;
        [eapply (share_some_domain lhs)|eapply (share_some_domain rhs)]; auto. }
    split_and!; split; intros; naive_solver.
  - assert (¬ share_domain) as Hs.
    { intros Hs. apply orb_false_iff in Es as [E _].
      apply (proj2 (share_some_domain lhs ltac:(auto))), existsb_domains_of in Hs.
      unfold L in E. congruence. }
    destruct (_ || existsb (of_domain s (pending_of_class klass)) R) eqn:Ep.
    + assert pending_domain as Hp.
      { apply orb_true_iff in Ep as [E|E]; unfold L, R in E; apply existsb_domains_of in E;
          [by left|by right]. }
      split_and!; split; intros; naive_solver.
    + assert (¬ pending_domain) as Hp.
      { apply orb_false_iff in Ep as [E1 E2]. intros [Hp|Hp]; apply existsb_domains_of in Hp;
          unfold L, R in *; congruence. }
      assert (∀ rack, (rack = lhs ∨ rack = rhs) → existsb (of_domain s (holds klass rack)) L ||
        existsb (of_domain s (holds klass rack)) R = true ↔ covered rack) as Hcov.
      { intros rack Hrack. unfold L, R. rewrite orb_true_iff, !existsb_domains_of. split.
        - intros [?|?]; by eapply some_domain_holds.
        - intros Hc%covered_some_domain. destruct Hrack as [-> | ->]; auto. }
      pose proof (Hcov lhs ltac:(auto)) as Hcl. pose proof (Hcov rhs ltac:(auto)) as Hcr.
      by apply independence_answer.
Qed.
End independence_spec.

(** C31: the independence query is sound and complete.  On a state that holds
    the invariants, with the indexes rebuilt from it, two recorded racks are
    SHARED for a failure-domain class exactly when a domain of that class with
    current evidence holds both; failing that the answer is
    REVALIDATION_REQUIRED exactly when a domain of the class that holds one of
    them awaits revalidation; and INDEPENDENT is answered only when each of them
    is covered by a current domain of the class and none of the above holds. *)
Theorem failure_domain_independence_correct s lhs rhs klass :
  check_invariants s None = [] → klass ≠ FD_Unknown →
  has_rack s lhs = true → has_rack s rhs = true →
  let answer := failure_domain_independence s (rebuild s) lhs rhs klass in
  (answer = Indep_Shared ↔ share_domain s lhs rhs klass) ∧
  (answer = Indep_RevalidationRequired ↔
     ¬ share_domain s lhs rhs klass ∧ pending_domain s lhs rhs klass) ∧
  (answer = Indep_Independent ↔
     ¬ share_domain s lhs rhs klass ∧ ¬ pending_domain s lhs rhs klass ∧
     covered s klass lhs ∧ covered s klass rhs).
Proof.
  intros Hi Hk Hl Hr. apply independence_cases; try done.
  apply check_invariants_spec in Hi as [Hn|Hv].
  - exfalso. apply has_rack_spec in Hl as (r&Hlr). rewrite (nothing_recorded_racks s Hn) in Hlr.
    by apply lookup_empty_Some in Hlr.
  - unfold state_violations, domain_violations in Hv. split_nil.
    match goal with H : check_domain FailureDomain s = [] |- _ =>
      exact (check_domain_sorted FailureDomain s H) end.
Qed.

(** ** Aggregation *)

(** The quantities of a unit. *)
Definition of_unit (unit : string) (l : list CapacityQuantity) : list CapacityQuantity :=
  filter (λ q, cq_unit q = unit) l.

Lemma scan_quantities_filter unit l :
  scan_quantities unit l = foldl scan_quantity scan_start (of_unit unit l).
Proof.
  unfold scan_quantities, of_unit. generalize scan_start.
  induction l as [|q l IH]; intros sc; [done|]. cbn [foldl]. rewrite IH, filter_cons.
  case_bool_decide as Hu; [by rewrite decide_True|by rewrite decide_False].
Qed.

Definition quantity_sum (l : list CapacityQuantity) : double :=
  foldl dbl_add dbl_zero (omap cq_value l).

Definition quantity_count (l : list CapacityQuantity) : N := size (omap cq_value l).

(** The accumulators after a non-empty list of quantities of the unit. *)
Lemma scan_from_spec l sc p :
  sc_provenance sc = Some p →
  foldl scan_quantity sc l =
  MkScan (sc_found_any sc || negb (bool_decide (l = [])))
    (sc_any_unknown_value sc || existsb (λ q, bool_decide (cq_value q = None)) l)
    (sc_any_revalidation sc || existsb (λ q, bool_decide (cq_provenance q = Prov_Reconstructed)) l)
    (Some p) (sc_mixed sc || existsb (λ q, bool_decide (p ≠ cq_provenance q)) l)
    (sc_aggregated_seen sc || existsb cq_aggregated l)
    (sc_aggregated_unset sc || existsb (λ q, negb (cq_aggregated q)) l)
    (foldl dbl_add (sc_total sc) (omap cq_value l))
    (sc_contributing sc + quantity_count l)%N.
Proof.
  revert sc. induction l as [|q l IH]; intros sc Hp; cbn [foldl existsb].
  - destruct sc. cbn in *. subst. by rewrite !orb_false_r, N.add_0_r.
  - rewrite IH by (cbn; by rewrite Hp). cbn -[dbl_add omap bool_decide existsb]. rewrite Hp, !orb_assoc.
    rewrite (bool_decide_false (q :: l = [])) by done. cbn [negb]. rewrite orb_true_r.
    unfold quantity_count. cbn [omap list_omap]. destruct (cq_value q); unfold size; cbn [foldl length];
      f_equal; lia.
Qed.

(** The quantities agree in provenance and in being aggregated. *)
Definition uniform (l : list CapacityQuantity) : Prop :=
  ∃ p a, p ≠ Prov_Reconstructed ∧ ∀ q, q ∈ l → cq_provenance q = p ∧ cq_aggregated q = a.

Definition members_usable (s : ClusterState) (racks : list RackId) : Prop :=
  ∀ rack, rack ∈ racks → ∃ r, cs_racks s !! rack = Some r ∧
    requires_revalidation (rr_evidence (rk_reference r)) = false.

Lemma member_issue_None s racks : member_issue s racks = None ↔ members_usable s racks.
Proof.
  unfold members_usable. induction racks as [|rack racks IH]; cbn; [set_solver|].
  destruct (cs_racks s !! rack) as [r|] eqn:Er.
  - destruct (requires_revalidation _) eqn:Ev.
    + split; [done|]. intros H. destruct (H rack) as (r'&?&?); [set_solver|]. congruence.
    + rewrite IH. split; intros H rack'; [|set_solver].
      rewrite elem_of_cons. intros [->|?]; [eauto|by apply H].
  - split; [done|]. intros H. destruct (H rack) as (r'&?&?); [set_solver|]. naive_solver.
Qed.

Lemma existsb_false {A} (f : A → bool) l : existsb f l = false ↔ ∀ x, x ∈ l → f x = false.
Proof.
  rewrite <- not_true_iff_false, existsb_elem. split.
  - intros H x Hx. apply not_true_iff_false. intros Hf. naive_solver.
  - intros H (x&Hx&Hf). rewrite H in Hf; done.
Qed.

Lemma mixed_spec q l :
  (existsb (λ x, bool_decide (cq_provenance x = Prov_Reconstructed)) (q :: l) = false ∧
   existsb (λ x, bool_decide (cq_provenance q ≠ cq_provenance x)) l = false ∧
   existsb cq_aggregated (q :: l) && existsb (λ x, negb (cq_aggregated x)) (q :: l) = false) ↔
  uniform (q :: l).
Proof.
  rewrite andb_false_iff, !existsb_false. setoid_rewrite bool_decide_eq_false.
  setoid_rewrite negb_false_iff. unfold uniform. split.
  - intros (Hr&Hp&Ha). exists (cq_provenance q), (cq_aggregated q).
    split; [apply Hr; set_solver|]. intros x [->|Hx]%elem_of_cons; [done|].
    split; [destruct (decide (cq_provenance x = cq_provenance q)); [done|];
            destruct (Hp x Hx); naive_solver|].
    destruct Ha as [Ha|Ha]; rewrite (Ha x), (Ha q); set_solver.
  - intros (p&a&Hp&Hall). split_and!.
    + intros x Hx. by destruct (Hall x Hx) as [-> _].
    + intros x Hx. destruct (Hall q), (Hall x); set_solver.
    + destruct a; [right|left]; intros x Hx; by destruct (Hall x Hx).
Qed.

Lemma quantity_count_all l :
  (∀ q, q ∈ l → cq_value q ≠ None) → quantity_count l = size l.
Proof.
  unfold quantity_count, size. induction l as [|q l IH]; intros H; [done|].
  cbn [omap list_omap]. destruct (cq_value q) eqn:E; [|destruct (H q); set_solver].
  cbn [length]. rewrite !Nat2N.inj_succ, IH; [done|]. set_solver.
Qed.

(** What an aggregate needs before it is presented as known. *)
Record aggregate_supported (s : ClusterState) (record : CapacityDomain) (unit : string) : Prop := {
  as_some : of_unit unit (cd_quantities record) ≠ [];
  as_uniform : uniform (of_unit unit (cd_quantities record));
  as_valued : ∀ q, q ∈ of_unit unit (cd_quantities record) → cq_value q ≠ None;
  as_members : members_usable s (cd_racks record)
}.

Lemma aggregate_record_cases s domain unit record :
  cs_capacity_domains s !! domain = Some record →
  let a := aggregate_capacity s domain unit in
  let l := of_unit unit (cd_quantities record) in
  (ca_status a = Agg_Known ↔ aggregate_supported s record unit) ∧
  (ca_status a = Agg_Known →
     ca_value a = Some (quantity_sum l) ∧
     (if (1 <? size l)%N then ca_provenance a = Prov_Derived
      else ∃ q, l = [q] ∧ ca_provenance a = cq_provenance q)) ∧
  (ca_status a ≠ Agg_Known → ca_value a = None ∧ ca_provenance a = Prov_Unknown).
Proof.
  intros Hrec. unfold aggregate_capacity. rewrite Hrec, scan_quantities_filter.
  destruct (of_unit unit (cd_quantities record)) as [|q l'] eqn:El; cbn zeta.
  { cbn. split_and!; [split; [done|]|done|done]. intros [Hs _ _ _]. by rewrite El in Hs. }
  cbn [foldl]. rewrite (scan_from_spec l' _ (cq_provenance q)) by done.
  cbn [scan_quantity scan_start sc_found_any sc_any_unknown_value sc_any_revalidation sc_provenance
    sc_mixed sc_aggregated_seen sc_aggregated_unset sc_total sc_contributing orb negb default].
  pose proof (mixed_spec q l') as Hmix. cbn [existsb] in Hmix.
  destruct (_ || existsb (λ x, bool_decide (cq_provenance x = Prov_Reconstructed)) l') eqn:Er.
  { cbn. split_and!; [split; [done|]|done|done]. intros [_ Hu _ _]. rewrite El in Hu.
    apply Hmix in Hu as [? _]. congruence. }
  destruct (existsb (λ x, bool_decide (cq_provenance q ≠ _)) l' || _) eqn:Em.
  { cbn. split_and!; [split; [done|]|done|done]. intros [_ Hu _ _]. rewrite El in Hu.
    apply Hmix in Hu as (_&H1&H2). rewrite H1, H2 in Em. done. }
  apply orb_false_iff in Em as [Em1 Em2].
  assert (uniform (q :: l')) as Huni by (by apply Hmix). clear Hmix.
  destruct (member_issue s (cd_racks record)) as [[]|] eqn:Ei.
  1,2: (cbn; split_and!; [split; [done|]|done|done]; intros [_ _ _ Hm];
    apply member_issue_None in Hm; congruence).
  apply member_issue_None in Ei.
  destruct (_ || existsb (λ x, bool_decide (cq_value x = None)) l') eqn:Ev.
  { cbn. split_and!; [split; [done|]|done|done]. intros [_ _ Hv _]. rewrite El in Hv.
    change (existsb (λ x, bool_decide (cq_value x = None)) (q :: l') = true) in Ev.
    apply existsb_elem in Ev as (x&Hx&Hn). split_bools. by destruct (Hv x Hx). }
  change (existsb (λ x, bool_decide (cq_value x = None)) (q :: l') = false) in Ev.
  rewrite existsb_false in Ev.
  assert (∀ x, x ∈ q :: l' → cq_value x ≠ None) as Hval.
  { intros x Hx. specialize (Ev x Hx). by split_bools. }
  assert (aggregate_supported s record unit) as Hsup by (split; rewrite ?El; done).
  assert ((match cq_value q with Some _ => 0 + 1 | None => 0 end + quantity_count l')%N =
    size (q :: l')) as Hcount.
  { rewrite <- quantity_count_all by done. unfold quantity_count. cbn [omap list_omap].
    destruct (cq_value q); unfold size; cbn [length]; lia. }
  rewrite Hcount.
  assert (foldl dbl_add (match cq_value q with Some v => dbl_add dbl_zero v | None => dbl_zero end)
    (omap cq_value l') = quantity_sum (q :: l')) as Hsum.
  { unfold quantity_sum. cbn [omap list_omap]. by destruct (cq_value q). }
  rewrite Hsum. destruct (1 <? size (q :: l'))%N eqn:Es; cbn [ca_status ca_value ca_provenance];
    split_and!; try done. intros _. split; [done|]. exists q. split; [|done].
  destruct l'; [done|]. unfold size in Es. cbn [length] in Es. apply N.ltb_ge in Es. lia.
Qed.

(** C32: an aggregate is presented as known only when it is meaningful.  The
    status is KNOWN exactly when the domain exists, it has quantities of the
    unit, these agree in provenance and aggregation and are all present and not
    reconstructed, and every member rack is recorded and needs no revalidation.
    The value is then the sum of the quantities, classified DERIVED when several
    contribute and with the supplied provenance otherwise; without the KNOWN
    status there is no value. *)
Theorem aggregate_capacity_correct s domain unit :
  let a := aggregate_capacity s domain unit in
  (ca_status a = Agg_Known ↔
     ∃ record, cs_capacity_domains s !! domain = Some record ∧ aggregate_supported s record unit) ∧
  (∀ record, cs_capacity_domains s !! domain = Some record → ca_status a = Agg_Known →
     let l := of_unit unit (cd_quantities record) in
     ca_value a = Some (quantity_sum l) ∧
     (if (1 <? size l)%N then ca_provenance a = Prov_Derived
      else ∃ q, l = [q] ∧ ca_provenance a = cq_provenance q)) ∧
  (ca_status a ≠ Agg_Known → ca_value a = None ∧ ca_provenance a = Prov_Unknown).
Proof.
  intros a. destruct (cs_capacity_domains s !! domain) as [record|] eqn:Er.
  - destruct (aggregate_record_cases s domain unit record Er) as (H1&H2&H3). fold a in H1, H2, H3.
    split_and!; [|by intros ? [= <-]|done]. rewrite H1. split; [eauto|]. by intros (?&[= <-]&?).
  - unfold a, aggregate_capacity. rewrite Er. cbn. split_and!; [|done|done]. naive_solver.
Qed.
