(* ===== verification/RackRef.v ===== *)
(** * Rack references

    [include/cluster_fabric/rack_reference.hpp] and [src/rack_reference.cpp]:
    validation and canonical form of the reference a rack authority publishes. *)

From S2P Require Import Prelude Identity Counter Taxonomy Evidence Types Invariant.

Record RackReferenceValidation := MkRefValidation {
  rv_issue : RackReferenceIssue;
  rv_subject : string;
  rv_detail : string
}.

Definition rv_ok (v : RackReferenceValidation) : bool := bool_decide (rv_issue v = Issue_None).

Definition validate_rack_reference (r : RackReference) : RackReferenceValidation :=
  let subject := "rack/" +:+ id_value (rr_rack r) in
  let comp := rr_composition r in
  if is_empty (id_value (rr_rack r)) then
    MkRefValidation Issue_MissingRackId "rack" "rack identity is empty" else
  if negb (ctr_known (rr_generation r)) then
    MkRefValidation Issue_MissingGeneration subject "rack generation is zero (unknown)" else
  if (kMaxRackEndpoints <? size (rr_endpoints r))%N then
    MkRefValidation Issue_TooManyEndpoints subject
      ("endpoint count " +:+ to_decimal (size (rr_endpoints r)) +:+ " exceeds " +:+
       to_decimal kMaxRackEndpoints) else
  if (kMaxFailureDomainRefs <? size (rr_failure_domain_hints r))%N then
    MkRefValidation Issue_TooManyFailureDomainHints subject
      ("failure domain hint count " +:+ to_decimal (size (rr_failure_domain_hints r)) +:+
       " exceeds " +:+ to_decimal kMaxFailureDomainRefs) else
  if (kMaxCapacityQuantities <? size (rc_accelerators comp))%N then
    MkRefValidation Issue_TooManyAcceleratorClasses subject
      ("accelerator class count " +:+ to_decimal (size (rc_accelerators comp)) +:+
       " exceeds " +:+ to_decimal kMaxCapacityQuantities) else
  if negb (iv_ok (validate_label (rc_composition_label comp))) &&
     negb (is_empty (rc_composition_label comp)) then
    MkRefValidation Issue_InvalidLabel subject "composition label is not a valid bounded label" else
  if negb (iv_ok (validate_label (rr_origin_label r))) && negb (is_empty (rr_origin_label r)) then
    MkRefValidation Issue_InvalidLabel subject "origin label is not a valid bounded label" else
  if existsb (λ a, negb (is_empty (ac_family a)) && negb (iv_ok (validate_label (ac_family a))))
       (rc_accelerators comp) then
    MkRefValidation Issue_InvalidLabel subject
      "accelerator family label is not a valid bounded label" else
  if existsb (λ h, bool_decide (fh_klass h = FD_Unknown)) (rr_failure_domain_hints r) then
    MkRefValidation Issue_InvalidLabel subject "failure domain hint has UNKNOWN class" else
  if existsb (λ e, is_empty (id_value (ep_id e))) (rr_endpoints r) then
    MkRefValidation Issue_InvalidLabel subject "endpoint identity is empty" else
  if negb (bool_decide (is_Some (rr_publisher r))) then
    MkRefValidation Issue_MissingPublisher subject "publisher authority is absent" else
  if bool_decide (ev_provenance (rr_evidence r) = Prov_Unknown) then
    MkRefValidation Issue_UnknownProvenance subject "reference provenance is UNKNOWN" else
  MkRefValidation Issue_None "" "".

(** ** Canonical form *)

(** [std::optional]'s order: an absent value precedes every value. *)
Definition option_lt {A} (lt : A → A → bool) (x y : option A) : bool :=
  match x, y with
  | None, Some _ => true
  | Some a, Some b => lt a b
  | _, None => false
  end.

(** The defaulted [operator<=>] of [AcceleratorClassSummary]. *)
Definition accelerator_lt (x y : AcceleratorClassSummary) : bool :=
  lex_lt ac_vendor less (λ a, a)
    (lex_lt ac_family less (λ a, a)
      (lex_lt ac_device_count (option_lt N.ltb) ac_device_memory_bytes (option_lt N.ltb))) x y.

Definition endpoint_lt (x y : RackEndpoint) : bool := less (ep_id x) (ep_id y).
Definition endpoint_same (x y : RackEndpoint) : bool := bool_decide (ep_id x = ep_id y).

Definition hint_lt : RackFailureDomainHint → RackFailureDomainHint → bool :=
  lex_lt fh_klass less fh_id less.
Definition hint_same (x y : RackFailureDomainHint) : bool :=
  bool_decide (fh_klass x = fh_klass y) && bool_decide (fh_id x = fh_id y).

Definition canonicalize (r : RackReference) : RackReference :=
  let comp := rr_composition r in
  r <| rr_composition :=
         comp <| rc_accelerators := unique eqb_of (sort_by accelerator_lt (rc_accelerators comp)) |> |>
    <| rr_endpoints := unique endpoint_same (sort_by endpoint_lt (rr_endpoints r)) |>
    <| rr_failure_domain_hints :=
         unique hint_same (sort_by hint_lt (rr_failure_domain_hints r)) |>.

(** ** Canonical lists have strictly increasing keys *)

Section keyed_unique.
  Context {A K : Type} `{EqDecision K} (key : A → K) (ltk : K → K → bool) `{!StrictTotal ltk}.
  Context (lt eqv : A → A → bool).
  Hypothesis lt_key : ∀ x y, lt x y = ltk (key x) (key y).
  Hypothesis eqv_key : ∀ x y, eqv x y = bool_decide (key x = key y).

Lemma keyed_weak : WeakOrder lt.
Proof.
  split; intros *; rewrite !lt_key; [apply st_asym; done|].
  by apply (wo_ntrans (lt:=ltk)).
Qed.

Lemma unique_from_keys_ge x l :
  StronglySorted (le_by lt) (x :: l) →
  Forall (λ k, k = key x ∨ ltk (key x) k = true) (key <$> unique_from eqv x l).
Proof.
  intros [Hs Hx]%StronglySorted_inv. rewrite Forall_forall. intros k Hk.
  apply list_elem_of_fmap in Hk as (y&->&Hy).
  pose proof (elem_of_sublist _ _ _ Hy (unique_from_sublist eqv x l)) as Hin.
  apply elem_of_cons in Hin as [->|Hin]; [by left|].
  rewrite Forall_forall in Hx. specialize (Hx y Hin). unfold le_by in Hx. rewrite lt_key in Hx.
  destruct (st_total (lt:=ltk) (key x) (key y)) as [?|[?|?]]; [by right|by left|congruence].
Qed.

Lemma unique_from_ssorted_keys x l :
  StronglySorted (le_by lt) (x :: l) → ssorted ltk (key <$> unique_from eqv x l).
Proof.
  revert x. induction l as [|y l IH]; intros x Hs; simpl; [repeat constructor|].
  pose proof Hs as [Hs' Hx]%StronglySorted_inv. rewrite eqv_key. case_bool_decide as Exy.
  - apply IH. constructor; [by apply StronglySorted_inv in Hs' as [? _]|].
    by apply Forall_cons in Hx as [_ ?].
  - simpl. constructor; [by apply IH|].
    assert (ltk (key x) (key y) = true) as Hxy.
    { apply Forall_cons in Hx as [Hx _]. unfold le_by in Hx. rewrite lt_key in Hx.
      destruct (st_total (lt:=ltk) (key x) (key y)) as [?|[?|?]]; [done|done|congruence]. }
    eapply Forall_impl; [by apply unique_from_keys_ge|]. simpl.
    intros k [->|Hk]; [done|]. by eapply st_trans.
Qed.

Lemma sort_unique_ssorted_keys l : ssorted ltk (key <$> unique eqv (sort_by lt l)).
Proof.
  pose proof (sort_by_sorted lt (WeakOrder0:=keyed_weak) l) as Hs. unfold unique.
  destruct (sort_by lt l); [constructor|]. by apply unique_from_ssorted_keys.
Qed.

End keyed_unique.

(** The key order of hints: by class, then by identity. *)
Definition hint_key (h : RackFailureDomainHint) : FailureDomainClass * FailureDomainId :=
  (fh_klass h, fh_id h).

#[global] Instance lex_strict_total {A B} `{EqDecision A} (lta : A → A → bool) (ltb : B → B → bool)
  `{!StrictTotal lta, !StrictTotal ltb} : StrictTotal (lex_lt (@fst A B) lta snd ltb).
Proof.
  unfold lex_lt. split.
  - intros [a b]. simpl. rewrite decide_True by done. apply st_irrefl.
  - intros [a b] [a' b'] [a'' b'']; simpl. intros H1 H2. repeat case_decide; subst; try done.
    + by eapply st_trans.
    + rewrite (st_asym lta a' a'') in H1; done.
    + by eapply (st_trans (lt:=lta)).
  - intros [a b] [a' b']; simpl. repeat case_decide; subst; try done.
    + destruct (st_total (lt:=ltb) b b') as [?|[->|?]]; auto.
    + destruct (st_total (lt:=lta) a a') as [?|[?|?]]; auto.
Qed.

Lemma canonicalize_endpoints_sorted r : ssorted less (ep_id <$> rr_endpoints (canonicalize r)).
Proof. simpl. by apply (sort_unique_ssorted_keys ep_id less). Qed.

Lemma canonicalize_hints_sorted r :
  ssorted (lex_lt fst less snd less) (hint_key <$> rr_failure_domain_hints (canonicalize r)).
Proof.
  simpl. apply (sort_unique_ssorted_keys hint_key (lex_lt fst less snd less)); [done|].
  intros x y. unfold hint_same, hint_key.
  rewrite <- bool_decide_and. apply bool_decide_ext. split; [intros [-> ->]; done|by intros [= -> ->]].
Qed.

(** The canonical form of a rack reference has strictly increasing endpoint
    identities and strictly increasing (class, identity) hint keys, keeps only
    elements of the published lists, and canonicalising touches no other
    authoritative field. *)
Theorem canonicalize_canonical r :
  ssorted less (ep_id <$> rr_endpoints (canonicalize r)) ∧
  ssorted (lex_lt fst less snd less) (hint_key <$> rr_failure_domain_hints (canonicalize r)) ∧
  (∀ e, e ∈ rr_endpoints (canonicalize r) → e ∈ rr_endpoints r) ∧
  (∀ h, h ∈ rr_failure_domain_hints (canonicalize r) → h ∈ rr_failure_domain_hints r) ∧
  rr_rack (canonicalize r) = rr_rack r ∧ rr_generation (canonicalize r) = rr_generation r ∧
  rr_evidence (canonicalize r) = rr_evidence r ∧ rr_publisher (canonicalize r) = rr_publisher r ∧
  rr_publication (canonicalize r) = rr_publication r ∧ rr_boot (canonicalize r) = rr_boot r.
Proof.
  split; [apply canonicalize_endpoints_sorted|]. split; [apply canonicalize_hints_sorted|].
  split; [|split; [|done]]; intros x Hx; simpl in Hx.
  - eapply elem_of_sort_by, elem_of_sublist; [exact Hx|apply unique_sublist].
  - eapply elem_of_sort_by, elem_of_sublist; [exact Hx|apply unique_sublist].
Qed.
