(* ===== verification/EngineBase.v ===== *)
(** * The commit engine: context, journal and authority validation

    The first part of [src/coordinator_engine.cpp] and [StateJournal] of
    [src/detail/coordinator_impl.hpp]: results, the undo journal, the checked
    counters, comparison of publications, and the two validation gates every
    mutation passes. *)

From S2P Require Import Prelude Identity Counter Taxonomy Evidence Types State Domains Invariant.
From S2P Require Import RackRef.

(** ** Configuration *)

Record CoordinatorConfig := MkConfig {
  cf_cluster : ClusterId;
  cf_readiness_contract : ReadinessContract;
  cf_max_racks : N;
  cf_max_links : N;
  cf_max_domains_per_class : N;
  cf_max_constraints : N;
  cf_persist_on_commit : bool
}.

Definition default_config (cluster : ClusterId) (contract : ReadinessContract) : CoordinatorConfig :=
  MkConfig cluster contract kMaxRacksPerCluster kMaxInterRackLinks kMaxDomainsPerClass
    kMaxConstraints true.

(** ** Results *)

Definition default_result : MutationResult :=
  MkResult Out_Rejected Rej_None no_error no_explanation no_ctr no_ctr no_ctr no_ctr no_ctr
    no_ctr no_ctr no_ctr no_ctr no_ctr no_ctr CL_Declared.

(** [MutationResult::accepted]: a change, or a valid request with nothing to do. *)
Definition accepted (r : MutationResult) : bool :=
  bool_decide (mr_outcome r = Out_Accepted) || bool_decide (mr_outcome r = Out_NoChange).

Definition category_of (reason : RejectionReason) : ErrorCategory :=
  match reason with
  | Rej_StaleClusterEpoch | Rej_StaleCoordinatorEpoch | Rej_StaleRackBoot
  | Rej_StaleRackGeneration | Rej_StaleTopologyEpoch | Rej_StalePublication => EC_Generation
  | Rej_NotAuthorized | Rej_Conflict | Rej_Retired => EC_Authority
  | Rej_LimitExceeded => EC_Resource
  | Rej_PersistenceFailed => EC_Persistence
  | Rej_ShuttingDown => EC_Shutdown
  | Rej_Internal | Rej_InvariantViolation => EC_Internal
  | _ => EC_Validation
  end.

(** [MutationResult::rejected]. *)
Definition rejected (reason : RejectionReason) (stage : ErrorStage)
    (subject detail reason_code : string) : MutationResult :=
  let reason_code :=
    if is_empty reason_code then string_of_rejection_reason reason else reason_code in
  let error := (error_make (category_of reason) stage reason_code detail)
                 <| er_subject := subject |> in
  default_result
    <| mr_outcome := Out_Rejected |>
    <| mr_reason := reason |>
    <| mr_error := error |>
    <| mr_explanation := explanation_make (string_of_rejection_reason reason)
                           (er_subject error) (er_message error) |>.

Definition reject_with (reason : RejectionReason) (stage : ErrorStage)
    (subject detail : string) : MutationResult := rejected reason stage subject detail "".

Definition reject_code (reason : RejectionReason) (stage : ErrorStage)
    (subject detail code : string) : MutationResult := rejected reason stage subject detail code.

Definition accepted_change : MutationResult := default_result <| mr_outcome := Out_Accepted |>.

Definition accepted_no_change (detail : string) : MutationResult :=
  default_result
    <| mr_outcome := Out_NoChange |>
    <| mr_explanation := explanation_make "idempotent" "cluster" detail |>.

Definition gate_ok : MutationResult := default_result <| mr_outcome := Out_Accepted |>.

(** ** The undo journal *)

(** Everything outside the canonical maps that a mutation may change. *)
Record ScalarSnapshot := MkScalars {
  ss_epoch : ClusterEpoch;
  ss_coordinator_epoch : CoordinatorEpoch;
  ss_generation : ClusterGeneration;
  ss_membership_generation : MembershipGeneration;
  ss_topology_epoch : TopologyEpoch;
  ss_topology_generation : TopologyGeneration;
  ss_connectivity_generation : ConnectivityGeneration;
  ss_health_generation : HealthGeneration;
  ss_constraint_generation : ConstraintGeneration;
  ss_domain_generations : DomainGenerations;
  ss_snapshot_generation : SnapshotGeneration;
  ss_publication_generation : PublicationGeneration;
  ss_lifecycle : ClusterLifecycle;
  ss_readiness_contract : ReadinessContract;
  ss_topology_record : TopologyEpochRecord;
  ss_fenced_authorities : list FencedAuthority;
  ss_retired_racks : list RetiredIdentity;
  ss_withdrawn_racks : list RackId;
  ss_last_mutation_at : Timestamp;
  ss_declared_at : Timestamp
}.

Definition capture_scalars (s : ClusterState) : ScalarSnapshot :=
  MkScalars (cs_epoch s) (cs_coordinator_epoch s) (cs_generation s) (cs_membership_generation s)
    (cs_topology_epoch s) (cs_topology_generation s) (cs_connectivity_generation s)
    (cs_health_generation s) (cs_constraint_generation s) (cs_domain_generations s)
    (cs_snapshot_generation s) (cs_publication_generation s) (cs_lifecycle s)
    (cs_readiness_contract s) (cs_topology_record s) (cs_fenced_authorities s)
    (cs_retired_racks s) (cs_withdrawn_racks s) (cs_last_mutation_at s) (cs_declared_at s).

Definition restore_scalars (snapshot : ScalarSnapshot) (s : ClusterState) : ClusterState :=
  MkState (cs_id s) (ss_epoch snapshot) (ss_coordinator_epoch snapshot) (ss_generation snapshot)
    (ss_membership_generation snapshot) (ss_topology_epoch snapshot)
    (ss_topology_generation snapshot) (ss_connectivity_generation snapshot)
    (ss_health_generation snapshot) (ss_constraint_generation snapshot)
    (ss_domain_generations snapshot) (ss_snapshot_generation snapshot)
    (ss_publication_generation snapshot) (ss_lifecycle snapshot)
    (ss_readiness_contract snapshot) (ss_topology_record snapshot)
    (cs_racks s) (cs_links s) (cs_placement_domains s) (cs_capacity_domains s)
    (cs_failure_domains s) (cs_network_domains s) (cs_storage_domains s) (cs_power_domains s)
    (cs_cooling_domains s) (cs_link_domains s) (cs_constraints s)
    (ss_fenced_authorities snapshot) (ss_retired_racks snapshot) (ss_withdrawn_racks snapshot)
    (ss_last_mutation_at snapshot) (ss_declared_at snapshot).

(** An undo action, and the journal with the most recent action first. *)
Definition Undo := ClusterState → ClusterState.
Definition StateJournal := list Undo.

(** The action that restores one entry of a canonical map. *)
Definition undo_entry {tag V} (member : ClusterState → gmap (StrongId tag) V) `{!Upd member}
    (key : StrongId tag) (previous : option V) : Undo :=
  upd member (λ m, match previous with
                   | None => delete key m
                   | Some value => <[key := value]> m
                   end).

(** [StateJournal::rollback]: the actions in reverse order of recording. *)
Definition rollback (journal : StateJournal) (s : ClusterState) : ClusterState :=
  foldl (λ s undo, undo s) s journal.

(** ** The apply context *)

Record ApplyContext := MkCtx {
  cx_state : ClusterState;
  cx_config : CoordinatorConfig;
  cx_now : Timestamp;
  cx_journal : StateJournal;
  cx_changed : bool
}.

#[global] Instance eta_ApplyContext : Eta ApplyContext := λ r,
  MkCtx (cx_state r) (cx_config r) (cx_now r) (cx_journal r) (cx_changed r).
#[global] Instance upd_cx_state : Upd cx_state := ltac:(derive_upd).
#[global] Instance upd_cx_journal : Upd cx_journal := ltac:(derive_upd).
#[global] Instance upd_cx_changed : Upd cx_changed := ltac:(derive_upd).

(** [journal.record_scalars()]. *)
Definition record_scalars (ctx : ApplyContext) : ApplyContext :=
  ctx <| cx_journal := restore_scalars (capture_scalars (cx_state ctx)) :: cx_journal ctx |>.

(** [journal.record(&ClusterState::member, key)]. *)
Definition record {tag V} (member : ClusterState → gmap (StrongId tag) V) `{!Upd member}
    (key : StrongId tag) (ctx : ApplyContext) : ApplyContext :=
  ctx <| cx_journal := undo_entry member key (member (cx_state ctx) !! key) :: cx_journal ctx |>.

(** [journal.record(member, key); state.*member.insert_or_assign(key, value)]. *)
Definition record_insert {tag V} (member : ClusterState → gmap (StrongId tag) V) `{!Upd member}
    (key : StrongId tag) (value : V) (ctx : ApplyContext) : ApplyContext :=
  let ctx := record member key ctx in
  ctx <| cx_state := upd member (λ m, <[key := value]> m) (cx_state ctx) |>.

(** [journal.record(member, key); state.*member.erase(key)]. *)
Definition record_erase {tag V} (member : ClusterState → gmap (StrongId tag) V) `{!Upd member}
    (key : StrongId tag) (ctx : ApplyContext) : ApplyContext :=
  let ctx := record member key ctx in
  ctx <| cx_state := upd member (λ m, delete key m) (cx_state ctx) |>.

(** An assignment to canonical state. *)
Definition set_state (f : ClusterState → ClusterState) (ctx : ApplyContext) : ApplyContext :=
  ctx <| cx_state := f (cx_state ctx) |>.

Definition mark_changed (ctx : ApplyContext) : ApplyContext := ctx <| cx_changed := true |>.

(** ** Checked counters *)

(** [bump]: the successor, or no value on overflow. *)
Definition bump {tag} (value : StrongCounter tag) : option (StrongCounter tag) := next value.

(** [advance_aggregate]; the addition wraps at 64 bits. *)
Definition advance_aggregate (aggregate record : DomainGeneration) : option DomainGeneration :=
  let candidate := ((ctr aggregate + 1) mod (u64_max + 1))%N in
  let value := N.max candidate (ctr record) in
  if (value <? ctr aggregate)%N || (value =? 0)%N then None else Some (MkCtr value).

(** ** Comparison of publications *)

Definition normalized_for_compare (reference : RackReference) : RackReference :=
  let value := canonicalize reference in
  value
    <| rr_publication := no_ctr |>
    <| rr_evidence := stamp_unknown |>
    <| rr_health := Health_Unknown |>
    <| rr_currentness := Cur_Unknown |>
    <| rr_coordinator_epoch := no_ctr |>
    <| rr_cluster_epoch := no_ctr |>
    <| rr_endpoints := (λ e, e <| ep_evidence := stamp_unknown |>) <$> rr_endpoints value |>
    <| rr_failure_domain_hints :=
         (λ h, h <| fh_evidence := stamp_unknown |>) <$> rr_failure_domain_hints value |>.

Definition same_authoritative_content (lhs rhs : RackReference) : bool :=
  let a := normalized_for_compare lhs in
  let b := normalized_for_compare rhs in
  bool_decide (a <| rr_boot := rr_boot b |> <| rr_publisher := rr_publisher b |> = b).

Definition identical_publication (lhs rhs : RackReference) : bool :=
  same_authoritative_content lhs rhs && bool_decide (rr_boot lhs = rr_boot rhs) &&
  bool_decide (rr_publisher lhs = rr_publisher rhs) &&
  bool_decide (rr_publication lhs = rr_publication rhs) &&
  bool_decide (rr_evidence lhs = rr_evidence rhs) && bool_decide (rr_health lhs = rr_health rhs).

(** ** Authority validation *)

Definition validate_common (ctx : ApplyContext) (request : MutationRequest) : MutationResult :=
  let s := cx_state ctx in
  let authority := rq_authority request in
  if decide (rq_kind request = MK_Unknown) then
    reject_with Rej_Malformed ES_Decode "request" "mutation kind is UNKNOWN" else
  if negb (is_valid_id (id_value (rq_cluster request))) then
    reject_with Rej_Malformed ES_Decode "cluster" "cluster identity is not valid" else
  if decide (rq_kind request = MK_DeclareCluster) then
    if ctr_known (cs_epoch s) && bool_decide (au_cluster_epoch authority ≠ cs_epoch s) then
      reject_with Rej_StaleClusterEpoch ES_ValidateGeneration "cluster"
        ("declaration carries cluster epoch " +:+ ctr_str (au_cluster_epoch authority) +:+
         " but the authoritative epoch is " +:+ ctr_str (cs_epoch s))
    else gate_ok
  else
  if decide (rq_cluster request ≠ cs_id s) then
    reject_with Rej_WrongCluster ES_ValidateAuthority
      ("cluster/" +:+ id_value (rq_cluster request))
      ("request targets cluster " +:+ id_value (rq_cluster request) +:+
       " but this coordinator owns " +:+ id_value (cs_id s)) else
  if negb (ctr_known (cs_epoch s)) then
    reject_with Rej_NotReady ES_ValidateAuthority "cluster" "cluster has not been declared" else
  if decide (au_cluster_epoch authority ≠ cs_epoch s) then
    reject_with Rej_StaleClusterEpoch ES_ValidateGeneration "cluster"
      ("request carries cluster epoch " +:+ ctr_str (au_cluster_epoch authority) +:+
       " but the authoritative epoch is " +:+ ctr_str (cs_epoch s)) else
  if decide (au_coordinator_epoch authority ≠ cs_coordinator_epoch s) then
    reject_with Rej_StaleCoordinatorEpoch ES_ValidateGeneration "cluster"
      ("request carries coordinator epoch " +:+ ctr_str (au_coordinator_epoch authority) +:+
       " but the authoritative epoch is " +:+ ctr_str (cs_coordinator_epoch s)) else
  if negb (accepts_mutations (cs_lifecycle s)) then
    reject_with Rej_Retired ES_ValidateAuthority "cluster"
      "cluster is RETIRED and accepts no further mutations" else
  gate_ok.

(** A value that is present on both sides and differs. *)
Definition both_differ {A} `{EqDecision A} (x y : option A) : bool :=
  match x, y with Some a, Some b => bool_decide (a ≠ b) | _, _ => false end.

Definition opt_value {tag} (x : option (StrongId tag)) : string :=
  match x with Some i => id_value i | None => "" end.

Definition opt_str {tag} (x : option (StrongCounter tag)) : string :=
  match x with Some c => ctr_str c | None => "" end.

(** An equal publication counter is acceptable only for an exact duplicate. *)
Definition identical_duplicate (request : MutationRequest) (r : RackRecord) (rack : RackId)
    (boot : RackAgentBootId) : bool :=
  (ctr (au_publication (rq_authority request)) =? ctr (rr_publication (rk_reference r)))%N &&
  bool_decide (rr_rack (rq_rack_reference request) = rack) &&
  bool_decide (rr_boot (rq_rack_reference request) = boot) &&
  same_authoritative_content (rk_reference r) (canonicalize (rq_rack_reference request)).

Definition validate_boot (ctx : ApplyContext) (request : MutationRequest) (rack : RackId) :
    MutationResult :=
  let s := cx_state ctx in
  let authority := rq_authority request in
  let subject := "rack/" +:+ id_value rack in
  match au_boot authority with
  | None => gate_ok
  | Some boot =>
    if is_boot_fenced s boot then
      reject_with Rej_StaleRackBoot ES_ValidateAuthority subject
        ("process incarnation " +:+ id_value boot +:+
         " is permanently fenced and cannot mutate cluster state") else
    match cs_racks s !! rack with
    | None => gate_ok
    | Some r =>
      let ref := rk_reference r in
      if rk_authoritative_current r && bool_decide (rr_boot ref ≠ boot) then
        reject_with Rej_NotAuthorized ES_ValidateAuthority subject
          ("rack is currently published by process incarnation " +:+ id_value (rr_boot ref)) else
      if both_differ (au_publisher authority) (rr_publisher ref) then
        reject_with Rej_NotAuthorized ES_ValidateAuthority subject
          ("publisher " +:+ opt_value (au_publisher authority) +:+
           " does not own this rack; owner is " +:+ opt_value (rr_publisher ref)) else
      if bool_decide (rr_boot ref = boot) && ctr_known (au_publication authority) &&
         (ctr (au_publication authority) <=? ctr (rr_publication ref))%N &&
         negb (identical_duplicate request r rack boot) then
        reject_code Rej_StalePublication ES_ValidateGeneration subject
          ("publication " +:+ ctr_str (au_publication authority) +:+
           " is not newer than the accepted publication " +:+ ctr_str (rr_publication ref))
          "stale_publication" else
      gate_ok
    end
  end.

(** ** Facts *)

Lemma rejected_not_accepted reason stage subject detail reason_code :
  accepted (rejected reason stage subject detail reason_code) = false.
Proof. done. Qed.

Lemma bump_Some {tag} (c c' : StrongCounter tag) : bump c = Some c' → ctr c' = (ctr c + 1)%N.
Proof. by intros [_ ?]%next_Some. Qed.

(** The aggregate strictly increases and covers the record; with a 64-bit
    aggregate the wrapped addition never loses it. *)
Lemma advance_aggregate_Some a r a' :
  ctr_wf a → ctr_wf r → advance_aggregate a r = Some a' →
  (ctr a <= ctr a')%N ∧ (ctr r <= ctr a')%N ∧ ctr_wf a'.
Proof.
  unfold advance_aggregate, ctr_wf. intros Ha Hr.
  pose proof (N.mod_lt (ctr a + 1) (u64_max + 1) ltac:(unfold u64_max; lia)) as Hm.
  destruct (_ || _) eqn:E; [done|]. intros [= <-]. simpl.
  apply orb_false_elim in E as [E%N.ltb_ge _]. lia.
Qed.
