(* ===== verification/EngineRack.v ===== *)
(** * The commit engine: rack mutations

    [apply_register_publisher], [apply_add_rack],
    [apply_update_rack_generation], [apply_membership_change] and
    [apply_recover_rack] of [src/coordinator_engine.cpp]. *)

From S2P Require Import Prelude Identity Counter Taxonomy Evidence Types State Domains Invariant.
From S2P Require Import RackRef EngineBase.

Definition no_composition : RackCompositionSummary :=
  MkComposition [] None None None None None "" Prov_Unknown.

Definition no_reference : RackReference :=
  MkReference no_id no_ctr RL_Unknown Cur_Unknown no_composition [] [] stamp_unknown None no_ctr
    no_id no_ctr no_ctr Health_Unknown "".

(** The default-constructed record. *)
Definition no_record : RackRecord :=
  MkRackRecord no_reference Mem_Unknown no_ctr no_ctr stamp_unknown false "".

(** [RackCompositionSummary::empty]. *)
Definition composition_empty (c : RackCompositionSummary) : bool :=
  bool_decide (rc_accelerators c = []) && bool_decide (rc_cpu_sockets c = None) &&
  bool_decide (rc_cpu_cores c = None) && bool_decide (rc_host_memory_bytes c = None) &&
  bool_decide (rc_nic_count c = None) && bool_decide (rc_switch_count c = None) &&
  is_empty (rc_composition_label c).

Definition rack_subject (rack : RackId) : string := "rack/" +:+ id_value rack.

(** [request.authority.rack.value_or(request.rack_reference.rack)]. *)
Definition request_rack (request : MutationRequest) : RackId :=
  default (rr_rack (rq_rack_reference request)) (au_rack (rq_authority request)).

Definition membership_overflow : MutationResult :=
  reject_with Rej_LimitExceeded ES_Commit "cluster" "membership generation overflow".

(** The common tail: record, store, mark as changed. *)
Definition store_rack (rack : RackId) (r : RackRecord) (ctx : ApplyContext) :
    ApplyContext * MutationResult :=
  (mark_changed (record_insert cs_racks rack r ctx), accepted_change).

(** ** Registration *)

Definition registered_record (s : ClusterState) (request : MutationRequest) (rack : RackId)
    (generation : RackGeneration) : RackRecord :=
  let authority := rq_authority request in
  let incoming := rq_rack_reference request in
  MkRackRecord
    (no_reference
       <| rr_rack := rack |>
       <| rr_generation := generation |>
       <| rr_rack_lifecycle := rr_rack_lifecycle incoming |>
       <| rr_currentness := Cur_Unknown |>
       <| rr_composition := rr_composition incoming |>
       <| rr_evidence := rq_evidence request |>
       <| rr_publisher := au_publisher authority |>
       <| rr_publication := au_publication authority |>
       <| rr_boot := default (rr_boot incoming) (au_boot authority) |>
       <| rr_cluster_epoch := cs_epoch s |>
       <| rr_coordinator_epoch := cs_coordinator_epoch s |>
       <| rr_origin_label := rr_origin_label incoming |>)
    Mem_Unknown (cs_membership_generation s) (cs_generation s) (rq_evidence request) false
    "registered_but_not_admitted".

Definition apply_register_publisher (ctx : ApplyContext) (request : MutationRequest) :
    ApplyContext * MutationResult :=
  let s := cx_state ctx in
  let authority := rq_authority request in
  let rack := request_rack request in
  let subject := rack_subject rack in
  if is_empty (id_value rack) then
    (ctx, reject_with Rej_Malformed ES_ValidateReference "rack"
            "registration carries no rack identity") else
  if is_rack_retired s rack then
    (ctx, reject_with Rej_Retired ES_ValidateReference subject
            "rack identity is retired and cannot be re-registered") else
  match au_publisher authority with
  | None =>
      (ctx, reject_with Rej_NotAuthorized ES_ValidateAuthority subject
              "registration carries no publisher authority")
  | Some publisher =>
    match cs_racks s !! rack with
    | Some existing =>
        let ref := rk_reference existing in
        if both_differ (rr_publisher ref) (Some publisher) then
          (ctx, reject_with Rej_Conflict ES_ValidateAuthority subject
                  ("rack is already owned by publisher " +:+ opt_value (rr_publisher ref))) else
        if ctr_known (rr_generation ref) &&
           match au_rack_generation authority with
           | Some g => less g (rr_generation ref)
           | None => false
           end then
          (ctx, reject_with Rej_StaleRackGeneration ES_ValidateGeneration subject
                  ("registration carries generation " +:+ opt_str (au_rack_generation authority) +:+
                   " which is older than the authoritative generation " +:+
                   ctr_str (rr_generation ref))) else
        (ctx, accepted_no_change "rack publisher already registered")
    | None =>
        if (cf_max_racks (cx_config ctx) <=? msize (cs_racks s))%N then
          (ctx, reject_with Rej_LimitExceeded ES_ValidateReference subject
                  "rack count would exceed the configured bound") else
        let generation :=
          default (rr_generation (rq_rack_reference request)) (au_rack_generation authority) in
        if negb (ctr_known generation) then
          (ctx, reject_with Rej_Malformed ES_ValidateReference subject
                  "registration carries an unknown rack generation") else
        store_rack rack (registered_record s request rack generation) ctx
    end
  end.

(** ** Admission *)

(** A registered rack that has not been admitted yet. *)
Definition is_placeholder (r : RackRecord) : bool :=
  bool_decide (rk_membership r = Mem_Unknown) && negb (rk_authoritative_current r).

(** A republication that changes nothing authoritative. *)
Definition duplicate_publication (ref incoming : RackReference) : bool :=
  identical_publication ref incoming ||
  (same_authoritative_content ref incoming && bool_decide (rr_boot ref = rr_boot incoming) &&
   bool_decide (rr_publisher ref = rr_publisher incoming) &&
   bool_decide (rr_publication ref = rr_publication incoming)).

(** The checks against an existing record: the early return, if any. *)
Definition check_existing_rack (r : RackRecord) (incoming : RackReference) : option MutationResult :=
  let ref := rk_reference r in
  let subject := rack_subject (rr_rack incoming) in
  if less (rr_generation incoming) (rr_generation ref) then
    Some (reject_with Rej_StaleRackGeneration ES_ValidateGeneration subject
            ("publication carries generation " +:+ ctr_str (rr_generation incoming) +:+
             " which is older than the authoritative generation " +:+
             ctr_str (rr_generation ref))) else
  if bool_decide (rr_generation incoming = rr_generation ref) && is_placeholder r then
    if both_differ (rr_publisher ref) (rr_publisher incoming) then
      Some (reject_with Rej_Conflict ES_ValidateAuthority subject
              ("registration is owned by publisher " +:+ opt_value (rr_publisher ref)))
    else None
  else if bool_decide (rr_generation incoming = rr_generation ref) then
    if negb (same_authoritative_content ref incoming) then
      Some (reject_code Rej_Conflict ES_ValidateReference subject
              ("publication conflicts with the authoritative record at generation " +:+
               ctr_str (rr_generation incoming)) "conflicting_rack_publication") else
    if duplicate_publication ref incoming then
      Some (accepted_no_change "identical rack publication is idempotent") else
    if bool_decide (rr_boot ref = rr_boot incoming) &&
       (ctr (rr_publication incoming) <=? ctr (rr_publication ref))%N then
      Some (reject_code Rej_StalePublication ES_ValidateGeneration subject
              "dynamic publication is not newer than the accepted publication"
              "stale_publication")
    else None
  else if both_differ (rr_publisher ref) (rr_publisher incoming) then
    Some (reject_with Rej_NotAuthorized ES_ValidateAuthority subject
            "only the owning publisher may advance the rack generation")
  else None.

(** The record stored by an admission, before its membership generation. *)
Definition admitted_record (s : ClusterState) (now : Timestamp) (r : RackRecord)
    (incoming : RackReference) : RackRecord :=
  let ref := incoming
    <| rr_cluster_epoch := cs_epoch s |>
    <| rr_coordinator_epoch := cs_coordinator_epoch s |>
    <| rr_currentness := Cur_Current |> in
  let evidence := rr_evidence ref in
  let evidence :=
    if bool_decide (ev_freshness evidence = Fresh_Unknown) && ts_known (ev_observed_at evidence)
    then refresh now evidence else evidence in
  let ref := ref <| rr_evidence := evidence |> in
  r <| rk_reference := ref |>
    <| rk_membership := Mem_Active |>
    <| rk_accepted_at_generation := cs_generation s |>
    <| rk_membership_evidence := evidence |>
    <| rk_authoritative_current := is_current evidence |>
    <| rk_non_authoritative_reason := if is_current evidence then "" else "evidence_not_current" |>.

(** [std::remove] of one identity followed by [erase]. *)
Definition remove_rack (rack : RackId) (l : list RackId) : list RackId :=
  filter (λ r, r ≠ rack) l.

Definition drop_withdrawn (rack : RackId) : ApplyContext → ApplyContext :=
  set_state (λ s, s <| cs_withdrawn_racks := remove_rack rack (cs_withdrawn_racks s) |>).

(** The construction and storage of the admitted record. *)
Definition admit_rack (ctx : ApplyContext) (incoming : RackReference) : ApplyContext * MutationResult :=
  let s := cx_state ctx in
  let rack := rr_rack incoming in
  let existing := cs_racks s !! rack in
  let r := default no_record existing in
  let new_record := negb (bool_decide (is_Some existing)) in
  let generation_advanced :=
    negb new_record && less (rr_generation (rk_reference r)) (rr_generation incoming) in
  let membership_changed := new_record || bool_decide (rk_membership r ≠ Mem_Active) in
  let r' := admitted_record s (cx_now ctx) r incoming in
  if membership_changed || generation_advanced then
    match bump (cs_membership_generation s) with
    | None => (ctx, membership_overflow)
    | Some g =>
        let ctx := set_state (λ s, s <| cs_membership_generation := g |>) ctx in
        store_rack rack (r' <| rk_membership_generation := g |>) (drop_withdrawn rack ctx)
    end
  else store_rack rack r' (drop_withdrawn rack ctx).

Definition apply_add_rack (ctx : ApplyContext) (request : MutationRequest) :
    ApplyContext * MutationResult :=
  let s := cx_state ctx in
  let incoming := canonicalize (rq_rack_reference request) in
  let validation := validate_rack_reference incoming in
  let rack := rr_rack incoming in
  if negb (rv_ok validation) then
    (ctx, reject_with Rej_Malformed ES_ValidateReference (rv_subject validation)
            (rv_detail validation)) else
  if is_rack_retired s rack then
    (ctx, reject_with Rej_Retired ES_ValidateReference (rack_subject rack)
            "rack identity is retired and cannot be re-admitted") else
  let boot_result := validate_boot ctx request rack in
  if negb (accepted boot_result) then (ctx, boot_result) else
  match cs_racks s !! rack with
  | Some existing =>
      match check_existing_rack existing incoming with
      | Some result => (ctx, result)
      | None => admit_rack ctx incoming
      end
  | None =>
      if (cf_max_racks (cx_config ctx) <=? msize (cs_racks s))%N then
        (ctx, reject_with Rej_LimitExceeded ES_ValidateReference (rack_subject rack)
                "rack count would exceed the configured bound")
      else admit_rack ctx incoming
  end.

(** ** Generation updates *)

Definition updated_record (s : ClusterState) (request : MutationRequest) (r : RackRecord)
    (generation : RackGeneration) : RackRecord :=
  let authority := rq_authority request in
  let incoming := rq_rack_reference request in
  let ref := rk_reference r in
  let current := is_current (rq_evidence request) in
  let ref := ref
    <| rr_generation := generation |>
    <| rr_rack_lifecycle := rr_rack_lifecycle incoming |>
    <| rr_composition := if composition_empty (rr_composition incoming)
                         then rr_composition ref else rr_composition incoming |>
    <| rr_publisher := if bool_decide (is_Some (au_publisher authority))
                       then au_publisher authority else rr_publisher ref |>
    <| rr_publication := au_publication authority |>
    <| rr_boot := default (rr_boot ref) (au_boot authority) |>
    <| rr_evidence := rq_evidence request |>
    <| rr_cluster_epoch := cs_epoch s |>
    <| rr_coordinator_epoch := cs_coordinator_epoch s |>
    <| rr_currentness := Cur_Current |> in
  r <| rk_reference := ref |>
    <| rk_accepted_at_generation := cs_generation s |>
    <| rk_authoritative_current := current |>
    <| rk_non_authoritative_reason := if current then "" else "evidence_not_current" |>.

Definition apply_update_rack_generation (ctx : ApplyContext) (request : MutationRequest) :
    ApplyContext * MutationResult :=
  let s := cx_state ctx in
  let rack := request_rack request in
  let subject := rack_subject rack in
  if is_empty (id_value rack) then
    (ctx, reject_with Rej_Malformed ES_ValidateReference "rack"
            "generation update carries no rack identity") else
  match cs_racks s !! rack with
  | None =>
      (ctx, reject_with Rej_UnknownRack ES_ValidateReference subject
              "rack is not a member of this cluster")
  | Some r =>
    let boot_result := validate_boot ctx request rack in
    if negb (accepted boot_result) then (ctx, boot_result) else
    let current := rr_generation (rk_reference r) in
    if both_differ (rq_expected_rack_generation request) (Some current) then
      (ctx, reject_code Rej_Conflict ES_ValidateGeneration subject
              ("expected generation " +:+ opt_str (rq_expected_rack_generation request) +:+
               " but the authoritative generation is " +:+ ctr_str current)
              "generation_compare_failed") else
    match rq_new_rack_generation request with
    | None =>
        (ctx, reject_with Rej_Malformed ES_ValidateReference subject
                "no new rack generation was supplied")
    | Some generation =>
      if less generation current then
        (ctx, reject_with Rej_StaleRackGeneration ES_ValidateGeneration subject
                ("requested generation " +:+ ctr_str generation +:+
                 " is older than the authoritative generation " +:+ ctr_str current)) else
      if decide (generation = current) then
        (ctx, accepted_no_change "rack generation already authoritative") else
      let r' := updated_record s request r generation in
      match bump (cs_membership_generation s) with
      | None => (ctx, membership_overflow)
      | Some g =>
          let ctx := set_state (λ s, s <| cs_membership_generation := g |>) ctx in
          store_rack rack (r' <| rk_membership_generation := g |>) ctx
      end
    end
  end.

(** ** Membership changes *)

(** The record after a change to [target], before its membership generation. *)
Definition demoted_record (request : MutationRequest) (r : RackRecord)
    (target : RackMembershipState) : RackRecord :=
  let r := r <| rk_membership := target |> <| rk_membership_evidence := rq_evidence request |> in
  if decide (target ≠ Mem_Active) then
    r <| rk_authoritative_current := false |>
      <| rk_reference := (rk_reference r) <| rr_currentness := Cur_RevalidationRequired |> |>
      <| rk_non_authoritative_reason :=
           "membership_" +:+ string_of_rack_membership_state target |>
  else r.

(** The withdrawn list after a change to [target]. *)
Definition withdrawn_after (target : RackMembershipState) (rack : RackId) (l : list RackId) :
    list RackId :=
  if decide (target = Mem_Withdrawn) then
    if decide (rack ∈ l) then l else sort_by less (l ++ [rack])
  else
    match list_find (λ r, r = rack) l with
    | Some (i, _) => delete i l
    | None => l
    end.

Definition retired_lt (x y : RetiredIdentity) : bool := less (ri_rack x) (ri_rack y).

Definition retired_after (s : ClusterState) (request : MutationRequest) (now : Timestamp)
    (rack : RackId) (generation : RackGeneration) : list RetiredIdentity :=
  if is_rack_retired s rack then cs_retired_racks s else
  sort_by retired_lt (cs_retired_racks s ++ [MkRetired rack generation now (rq_reason request)]).

Definition apply_membership_change (ctx : ApplyContext) (request : MutationRequest)
    (target : RackMembershipState) (add_retired_identity : bool) : ApplyContext * MutationResult :=
  let s := cx_state ctx in
  let rack := request_rack request in
  let subject := rack_subject rack in
  if is_empty (id_value rack) then
    (ctx, reject_with Rej_Malformed ES_ValidateReference "rack"
            "membership change carries no rack identity") else
  match cs_racks s !! rack with
  | None =>
      (ctx, reject_with Rej_UnknownRack ES_ValidateReference subject
              "rack is not a member of this cluster")
  | Some r =>
    let boot_result := validate_boot ctx request rack in
    if negb (accepted boot_result) then (ctx, boot_result) else
    if decide (rk_membership r = target) then
      (ctx, accepted_no_change "membership is already in the requested state") else
    if bool_decide (rk_membership r = Mem_Retired) && bool_decide (target ≠ Mem_Retired) then
      (ctx, reject_with Rej_Retired ES_ValidateAuthority subject
              "retired rack identity cannot return to an active membership state") else
    let r' := demoted_record request r target in
    match bump (cs_membership_generation s) with
    | None => (ctx, membership_overflow)
    | Some g =>
        let r' := r' <| rk_membership_generation := g |> in
        let ctx := set_state (λ s, s
          <| cs_membership_generation := g |>
          <| cs_withdrawn_racks := withdrawn_after target rack (cs_withdrawn_racks s) |>) ctx in
        let ctx :=
          if add_retired_identity then
            set_state (λ s, s <| cs_retired_racks :=
              retired_after s request (cx_now ctx) rack (rr_generation (rk_reference r')) |>) ctx
          else ctx in
        store_rack rack r' ctx
    end
  end.

(** ** Recovery under a fresh process incarnation *)

Definition recovered_record (s : ClusterState) (request : MutationRequest) (r : RackRecord)
    (rack : RackId) (boot : RackAgentBootId) (target : RackGeneration) : RackRecord :=
  let authority := rq_authority request in
  let incoming := rq_rack_reference request in
  let ref := rk_reference r in
  let current := is_current (rq_evidence request) in
  let ref := ref
    <| rr_rack := rack |>
    <| rr_generation := target |>
    <| rr_composition := if composition_empty (rr_composition incoming)
                         then rr_composition ref else rr_composition incoming |>
    <| rr_endpoints := if decide (rr_endpoints incoming = [])
                       then rr_endpoints ref else rr_endpoints incoming |>
    <| rr_failure_domain_hints := if decide (rr_failure_domain_hints incoming = [])
         then rr_failure_domain_hints ref else rr_failure_domain_hints incoming |>
    <| rr_rack_lifecycle := rr_rack_lifecycle incoming |>
    <| rr_publisher := if bool_decide (is_Some (au_publisher authority))
                       then au_publisher authority else rr_publisher ref |>
    <| rr_boot := boot |>
    <| rr_publication := au_publication authority |>
    <| rr_evidence := rq_evidence request |>
    <| rr_cluster_epoch := cs_epoch s |>
    <| rr_coordinator_epoch := cs_coordinator_epoch s |>
    <| rr_currentness := Cur_Current |>
    <| rr_health := rr_health incoming |> in
  r <| rk_reference := ref |>
    <| rk_membership := Mem_Active |>
    <| rk_membership_evidence := rq_evidence request |>
    <| rk_accepted_at_generation := cs_generation s |>
    <| rk_authoritative_current := current |>
    <| rk_non_authoritative_reason := if current then "" else "evidence_not_current" |>.

(** The rack a recovery is about. *)
Definition recovery_rack (request : MutationRequest) : RackId :=
  let incoming := canonicalize (rq_rack_reference request) in
  if is_empty (id_value (rr_rack incoming)) then request_rack request else rr_rack incoming.

Definition apply_recover_rack (ctx : ApplyContext) (request : MutationRequest) :
    ApplyContext * MutationResult :=
  let s := cx_state ctx in
  let rack := recovery_rack request in
  let subject := rack_subject rack in
  if is_empty (id_value rack) then
    (ctx, reject_with Rej_Malformed ES_ValidateReference "rack"
            "recovery carries no rack identity") else
  if is_rack_retired s rack then
    (ctx, reject_with Rej_Retired ES_ValidateReference subject
            "retired rack identity cannot be recovered") else
  match cs_racks s !! rack, au_boot (rq_authority request) with
  | None, _ =>
      (ctx, reject_with Rej_UnknownRack ES_ValidateReference subject
              "rack is not a member of this cluster")
  | Some _, None =>
      (ctx, reject_with Rej_NotAuthorized ES_ValidateAuthority subject
              "recovery requires a fresh process incarnation identity")
  | Some r, Some boot =>
    if is_boot_fenced s boot then
      (ctx, reject_with Rej_StaleRackBoot ES_ValidateAuthority subject
              ("process incarnation " +:+ id_value boot +:+ " is permanently fenced")) else
    if bool_decide (rr_boot (rk_reference r) = boot) && negb (rk_authoritative_current r) then
      (ctx, reject_with Rej_StaleRackBoot ES_ValidateAuthority subject
              "recovery must use a fresh process incarnation, not the fenced one") else
    let current := rr_generation (rk_reference r) in
    let target := default current (rq_new_rack_generation request) in
    if less target current then
      (ctx, reject_with Rej_StaleRackGeneration ES_ValidateGeneration subject
              "recovery generation is older than the authoritative generation") else
    let r' := recovered_record s request r rack boot target in
    match bump (cs_membership_generation s) with
    | None => (ctx, membership_overflow)
    | Some g =>
        let ctx := set_state (λ s, s <| cs_membership_generation := g |>) ctx in
        store_rack rack (r' <| rk_membership_generation := g |>) (drop_withdrawn rack ctx)
    end
  end.
