(* ===== verification/EngineTopology.v ===== *)
(** * The commit engine: domains, constraints, topology and evidence

    [publish_domain_record] and the domain validation templates,
    [apply_publish_constraint], [apply_publish_link], [apply_withdraw_link],
    [apply_supersede_topology], [apply_publish_health] and
    [apply_withdraw_evidence] of [src/coordinator_engine.cpp]. *)

From S2P Require Import Prelude Identity Counter Taxonomy Evidence Types State Domains Invariant.
From S2P Require Import RackRef EngineBase EngineRack.

(** ** Domain validation *)

(** [validate_domain_extra<Domain>]: the class-specific checks.  The domain is
    passed by reference: the result carries it back. *)
Class DomainExtra (D : Type) := validate_domain_extra : D → D * MutationResult.

Definition quantity_lt : CapacityQuantity → CapacityQuantity → bool :=
  lex_lt cq_unit less (λ q, q)
    (lex_lt cq_provenance less cq_aggregated (λ x y, negb x && y)).

(** The loop over the sorted quantities; [previous] is the unit of the previous
    one. *)
Fixpoint check_quantities (subject : string) (previous : option string)
    (l : list CapacityQuantity) : MutationResult :=
  match l with
  | [] => gate_ok
  | q :: l' =>
      if is_empty (cq_unit q) || negb (iv_ok (validate_label (cq_unit q))) then
        reject_with Rej_InvalidDomain ES_ValidateReference subject
          "quantity unit is empty or not a valid bounded label" else
      if match cq_value q with Some d => negb (dbl_is_finite d) | None => false end then
        reject_with Rej_InvalidDomain ES_ValidateReference subject
          "quantity value is not a finite number" else
      if bool_decide (previous = Some (cq_unit q)) then
        reject_with Rej_Conflict ES_ValidateReference subject
          ("duplicate quantity for unit " +:+ cq_unit q) else
      check_quantities subject (Some (cq_unit q)) l'
  end.

Definition validate_capacity_extra (domain : CapacityDomain) : CapacityDomain * MutationResult :=
  let subject := "capacity_domain/" +:+ id_value (cd_id domain) in
  if (kMaxCapacityQuantities <? size (cd_quantities domain))%N then
    (domain, reject_with Rej_LimitExceeded ES_ValidateReference subject
               "quantity count exceeds the configured bound") else
  let domain := domain <| cd_quantities := sort_by quantity_lt (cd_quantities domain) |> in
  (domain, check_quantities subject None (cd_quantities domain)).

#[global] Instance capacity_extra : DomainExtra CapacityDomain := validate_capacity_extra.
#[global] Instance placement_extra : DomainExtra PlacementDomain := λ d, (d, gate_ok).
#[global] Instance failure_extra : DomainExtra FailureDomain := λ d, (d, gate_ok).
#[global] Instance network_extra : DomainExtra NetworkDomain := λ d, (d, gate_ok).
#[global] Instance storage_extra : DomainExtra StorageDomain := λ d, (d, gate_ok).
#[global] Instance power_extra : DomainExtra PowerDomain := λ d, (d, gate_ok).
#[global] Instance cooling_extra : DomainExtra CoolingDomain := λ d, (d, gate_ok).
#[global] Instance link_extra : DomainExtra LinkDomain := λ d, (d, gate_ok).

Section domain.
  Context {D : Type} {tag : IdTag} `{DomainTraits D tag} `{!DomainExtra D}.

Definition domain_subject (domain : D) : string := dt_label D +:+ "/" +:+ id_value (dt_id domain).

Definition validate_domain_payload (ctx : ApplyContext) (domain : D) : D * MutationResult :=
  let s := cx_state ctx in
  if (kMaxDomainMembers <? size (dt_racks domain))%N then
    (domain, reject_with Rej_LimitExceeded ES_ValidateReference (dt_label D)
               "domain member count exceeds the configured bound") else
  let domain := domain <| dt_racks := sort_uniq less (dt_racks domain) |> in
  let subject := domain_subject domain in
  match List.find (λ rack, negb (is_rack_member s rack)) (dt_racks domain) with
  | Some rack =>
      (domain, reject_with Rej_UnknownRack ES_ValidateReference subject
                 ("domain references rack " +:+ id_value rack +:+
                  " which is not a member of this cluster"))
  | None =>
    if negb (ctr_known (dh_generation (dt_header domain))) then
      (domain, reject_with Rej_InvalidDomain ES_ValidateGeneration subject
                 "domain generation is zero (unknown)") else
    if bool_decide (dt_klass domain = Some 0%N) then
      (domain, reject_with Rej_InvalidDomain ES_ValidateReference subject
                 "domain class is UNKNOWN") else
    if bool_decide (dt_connectivity domain = Some 0%N) then
      (domain, reject_with Rej_InvalidDomain ES_ValidateReference subject
                 "network domain connectivity class is UNKNOWN") else
    validate_domain_extra domain
  end.

(** The comparison with the record of the same identity: the early return, if
    any. *)
Definition check_existing_domain (ctx : ApplyContext) (domain : D) : option MutationResult :=
  let subject := domain_subject domain in
  let generation := dh_generation (dt_header domain) in
  match dt_member D (cx_state ctx) !! dt_id domain with
  | Some existing =>
      let current := dh_generation (dt_header existing) in
      if (ctr generation <? ctr current)%N then
        Some (reject_code Rej_StalePublication ES_ValidateGeneration subject
                ("domain generation " +:+ ctr_str generation +:+
                 " is older than the authoritative generation " +:+ ctr_str current)
                "stale_domain_generation") else
      if decide (generation = current) then
        if cpp_eqb domain existing
        then Some (accepted_no_change "identical domain publication is idempotent")
        else Some (reject_code Rej_Conflict ES_ValidateReference subject
                     ("publication conflicts with the authoritative record at generation " +:+
                      ctr_str generation) "conflicting_domain_publication")
      else None
  | None =>
      if (cf_max_domains_per_class (cx_config ctx) <=? msize (dt_member D (cx_state ctx)))%N then
        Some (reject_with Rej_LimitExceeded ES_ValidateReference subject
                "domain count would exceed the configured bound")
      else None
  end.

(** [topology_generation] is bumped and copied to the topology record. *)
Definition bump_topology (ctx : ApplyContext) (on_overflow : MutationResult)
    (k : ApplyContext → ApplyContext * MutationResult) : ApplyContext * MutationResult :=
  match bump (cs_topology_generation (cx_state ctx)) with
  | None => (ctx, on_overflow)
  | Some g => k (set_state (λ s, s <| cs_topology_generation := g |>) ctx)
  end.

Definition copy_topology_generation : ApplyContext → ApplyContext :=
  set_state (λ s, s <| cs_topology_record :=
    (cs_topology_record s) <| tr_generation := cs_topology_generation s |> |>).

Definition publish_domain_record (ctx : ApplyContext) (domain : D) :
    ApplyContext * MutationResult :=
  let s := cx_state ctx in
  if is_empty (id_value (dt_id domain)) then
    (ctx, reject_with Rej_InvalidDomain ES_ValidateReference (dt_label D)
            "domain identity is empty") else
  let subject := domain_subject domain in
  let '(domain, payload_result) := validate_domain_payload ctx domain in
  if negb (accepted payload_result) then (ctx, payload_result) else
  match check_existing_domain ctx domain with
  | Some result => (ctx, result)
  | None =>
    let domain := domain <| dt_header := (dt_header domain)
      <| dh_cluster_epoch := cs_epoch s |>
      <| dh_coordinator_epoch := cs_coordinator_epoch s |> |> in
    match advance_aggregate (dt_aggregate D (cs_domain_generations s))
            (dh_generation (dt_header domain)) with
    | None =>
        (ctx, reject_with Rej_LimitExceeded ES_Commit subject "domain class generation overflow")
    | Some aggregate =>
      let ctx := set_state (λ s, s <| cs_domain_generations :=
        upd (dt_aggregate D) (λ _, aggregate) (cs_domain_generations s) |>) ctx in
      let ctx := record_insert (dt_member D) (dt_id domain) domain ctx in
      bump_topology ctx
        (reject_with Rej_LimitExceeded ES_Commit subject "topology generation overflow")
        (λ ctx, (mark_changed (copy_topology_generation ctx), accepted_change))
    end
  end.

End domain.

(** ** Constraints *)

Definition check_existing_constraint (ctx : ApplyContext) (constraint : ClusterConstraint) :
    option MutationResult :=
  let subject := "constraint/" +:+ id_value (cc_id constraint) in
  let generation := dh_generation (cc_header constraint) in
  match cs_constraints (cx_state ctx) !! cc_id constraint with
  | Some existing =>
      if (ctr generation <? ctr (dh_generation (cc_header existing)))%N then
        Some (reject_code Rej_StalePublication ES_ValidateGeneration subject
                "constraint generation is older than the authoritative generation"
                "stale_constraint_generation") else
      if decide (generation = dh_generation (cc_header existing)) then
        if cpp_eqb constraint existing
        then Some (accepted_no_change "identical constraint publication is idempotent")
        else Some (reject_with Rej_Conflict ES_ValidateReference subject
                     "constraint publication conflicts at the same generation")
      else None
  | None =>
      if (cf_max_constraints (cx_config ctx) <=? msize (cs_constraints (cx_state ctx)))%N then
        Some (reject_with Rej_LimitExceeded ES_ValidateReference subject
                "constraint count would exceed the configured bound")
      else None
  end.

Definition apply_publish_constraint (ctx : ApplyContext) (request : MutationRequest) :
    ApplyContext * MutationResult :=
  let s := cx_state ctx in
  match rq_constraint request with
  | None =>
      (ctx, reject_with Rej_Malformed ES_Decode "constraint" "constraint payload is absent")
  | Some constraint =>
    let subject := "constraint/" +:+ id_value (cc_id constraint) in
    if (kMaxDomainMembers <? size (cc_racks constraint))%N then
      (ctx, reject_with Rej_LimitExceeded ES_ValidateReference subject
              "constraint member count exceeds the configured bound") else
    let constraint := constraint <| cc_racks := sort_uniq less (cc_racks constraint) |> in
    match List.find (λ rack, negb (is_rack_member s rack)) (cc_racks constraint) with
    | Some rack =>
        (ctx, reject_with Rej_UnknownRack ES_ValidateReference subject
                ("constraint references rack " +:+ id_value rack +:+ " which is not a member"))
    | None =>
      if decide (cc_kind constraint = CK_Unknown) then
        (ctx, reject_with Rej_InvalidDomain ES_ValidateReference subject
                "constraint kind is UNKNOWN") else
      if negb (ctr_known (dh_generation (cc_header constraint))) then
        (ctx, reject_with Rej_InvalidDomain ES_ValidateGeneration subject
                "constraint generation is zero") else
      match check_existing_constraint ctx constraint with
      | Some result => (ctx, result)
      | None =>
        let constraint := constraint <| cc_header := (cc_header constraint)
          <| dh_cluster_epoch := cs_epoch s |>
          <| dh_coordinator_epoch := cs_coordinator_epoch s |> |> in
        match bump (cs_constraint_generation s) with
        | None =>
            (ctx, reject_with Rej_LimitExceeded ES_Commit subject
                    "constraint generation overflow")
        | Some g =>
            let ctx := set_state (λ s, s <| cs_constraint_generation := g |>) ctx in
            (mark_changed (record_insert cs_constraints (cc_id constraint) constraint ctx),
             accepted_change)
        end
      end
    end
  end.

(** ** Links *)

Definition link_subject (i : InterRackLinkId) : string := "link/" +:+ id_value i.

(** The reference checks on the payload: the early return, if any. *)
Definition check_link_payload (s : ClusterState) (link : InterRackLink) : option MutationResult :=
  let subject := link_subject (lk_id link) in
  if decide (lk_source link = lk_destination link) then
    Some (reject_with Rej_InvalidRelationship ES_ValidateReference subject
            "link connects a rack to itself") else
  if decide (lk_direction link = Dir_Unknown) then
    Some (reject_with Rej_InvalidRelationship ES_ValidateReference subject
            "link direction is UNKNOWN") else
  if negb (is_rack_member s (lk_source link)) then
    Some (reject_with Rej_UnknownRack ES_ValidateReference subject
            ("source rack " +:+ id_value (lk_source link) +:+ " is not a member")) else
  if negb (is_rack_member s (lk_destination link)) then
    Some (reject_with Rej_UnknownRack ES_ValidateReference subject
            ("destination rack " +:+ id_value (lk_destination link) +:+ " is not a member")) else
  if (kMaxFailureDomainRefs <? size (lk_failure_domains link))%N then
    Some (reject_with Rej_LimitExceeded ES_ValidateReference subject
            "link failure domain count exceeds the configured bound") else
  match List.find (λ d, bool_decide (cs_failure_domains s !! d = None))
          (sort_uniq less (lk_failure_domains link)) with
  | Some d =>
      Some (reject_with Rej_UnknownDomain ES_ValidateReference subject
              ("link references unknown failure domain " +:+ id_value d))
  | None =>
    if match lk_network_domain link with
       | Some d => bool_decide (cs_network_domains s !! d = None)
       | None => false
       end then
      Some (reject_with Rej_UnknownDomain ES_ValidateReference subject
              ("link references unknown network domain " +:+ opt_value (lk_network_domain link))) else
    if match lk_link_domain link with
       | Some d => bool_decide (cs_link_domains s !! d = None)
       | None => false
       end then
      Some (reject_with Rej_UnknownDomain ES_ValidateReference subject
              ("link references unknown link domain " +:+ opt_value (lk_link_domain link))) else
    if negb (ctr_known (dh_generation (lk_header link))) then
      Some (reject_with Rej_InvalidRelationship ES_ValidateGeneration subject
              "link generation is zero") else
    None
  end.

(** A link without the fields an idempotent republication may change. *)
Definition comparable_link (link : InterRackLink) : InterRackLink :=
  link <| lk_header := (lk_header link) <| dh_evidence := stamp_unknown |> |>
       <| lk_publication := no_ctr |>.

Definition check_existing_link (ctx : ApplyContext) (link : InterRackLink) : option MutationResult :=
  let subject := link_subject (lk_id link) in
  match cs_links (cx_state ctx) !! lk_id link with
  | Some current =>
      if (ctr (dh_generation (lk_header link)) <? ctr (dh_generation (lk_header current)))%N then
        Some (reject_code Rej_StalePublication ES_ValidateGeneration subject
                "link generation is older than the authoritative generation"
                "stale_link_generation") else
      if decide (dh_generation (lk_header link) = dh_generation (lk_header current)) then
        if cpp_eqb (comparable_link link) (comparable_link current)
        then Some (accepted_no_change "identical link publication is idempotent")
        else Some (reject_code Rej_Conflict ES_ValidateReference subject
                     "link publication conflicts with the authoritative record at the same generation"
                     "conflicting_link_publication")
      else None
  | None =>
      if (cf_max_links (cx_config ctx) <=? msize (cs_links (cx_state ctx)))%N then
        Some (reject_with Rej_LimitExceeded ES_ValidateReference subject
                "link count would exceed the configured bound")
      else None
  end.

(** [connectivity_generation] is bumped. *)
Definition bump_connectivity (ctx : ApplyContext) (on_overflow : MutationResult)
    (k : ApplyContext → ApplyContext * MutationResult) : ApplyContext * MutationResult :=
  match bump (cs_connectivity_generation (cx_state ctx)) with
  | None => (ctx, on_overflow)
  | Some g => k (set_state (λ s, s <| cs_connectivity_generation := g |>) ctx)
  end.

Definition bump_health (ctx : ApplyContext) (on_overflow : MutationResult)
    (k : ApplyContext → ApplyContext * MutationResult) : ApplyContext * MutationResult :=
  match bump (cs_health_generation (cx_state ctx)) with
  | None => (ctx, on_overflow)
  | Some g => k (set_state (λ s, s <| cs_health_generation := g |>) ctx)
  end.

Definition apply_publish_link (ctx : ApplyContext) (request : MutationRequest) :
    ApplyContext * MutationResult :=
  let s := cx_state ctx in
  match rq_link request with
  | None => (ctx, reject_with Rej_Malformed ES_Decode "link" "link payload is absent")
  | Some link =>
    let subject := link_subject (lk_id link) in
    match check_link_payload s link with
    | Some result => (ctx, result)
    | None =>
      let link := link <| lk_failure_domains := sort_uniq less (lk_failure_domains link) |> in
      match check_existing_link ctx link with
      | Some result => (ctx, result)
      | None =>
        if decide (lk_topology_epoch link ≠ cs_topology_epoch s) then
          (ctx, reject_with Rej_StaleTopologyEpoch ES_ValidateGeneration subject
                  ("link carries topology epoch " +:+ ctr_str (lk_topology_epoch link) +:+
                   " but the authoritative epoch is " +:+ ctr_str (cs_topology_epoch s))) else
        let link := link
          <| lk_header := (lk_header link)
               <| dh_cluster_epoch := cs_epoch s |>
               <| dh_coordinator_epoch := cs_coordinator_epoch s |> |>
          <| lk_topology_generation := cs_topology_generation s |> in
        let ctx := record_insert cs_links (lk_id link) link ctx in
        bump_topology ctx
          (reject_with Rej_LimitExceeded ES_Commit subject "topology generation overflow")
          (λ ctx, bump_connectivity ctx
            (reject_with Rej_LimitExceeded ES_Commit subject "connectivity generation overflow")
            (λ ctx, (mark_changed (copy_topology_generation ctx), accepted_change)))
      end
    end
  end.

Definition apply_withdraw_link (ctx : ApplyContext) (request : MutationRequest) :
    ApplyContext * MutationResult :=
  match rq_link_id request with
  | None => (ctx, reject_with Rej_Malformed ES_Decode "link" "link identity is absent")
  | Some i =>
    match cs_links (cx_state ctx) !! i with
    | None => (ctx, accepted_no_change "link is already absent")
    | Some _ =>
        let overflow :=
          reject_with Rej_LimitExceeded ES_Commit (link_subject i) "generation overflow" in
        let ctx := record_erase cs_links i ctx in
        bump_topology ctx overflow (λ ctx, bump_connectivity ctx overflow
          (λ ctx, (mark_changed (copy_topology_generation ctx), accepted_change)))
    end
  end.

(** A loop over the links that records each visited entry and rewrites it in
    place. *)
Definition rewrite_links (visit : InterRackLink → bool) (f : InterRackLink → InterRackLink)
    (ctx : ApplyContext) : ApplyContext :=
  foldl (λ ctx e, if visit e.2 then record_insert cs_links e.1 (f e.2) ctx else ctx) ctx
    (entries (cs_links (cx_state ctx))).

(** What a supersession leaves of a link. *)
Definition superseded_link (link : InterRackLink) : InterRackLink :=
  link <| lk_header := (lk_header link)
            <| dh_evidence := mark_revalidation_required (dh_evidence (lk_header link)) |> |>
       <| lk_reachability := Reach_Unknown |>
       <| lk_health := Health_Unknown |>.

Definition apply_supersede_topology (ctx : ApplyContext) (request : MutationRequest) :
    ApplyContext * MutationResult :=
  let s := cx_state ctx in
  match rq_target_topology_epoch request with
  | None => (ctx, reject_with Rej_Malformed ES_Decode "topology" "target topology epoch is absent")
  | Some target =>
    if (ctr target <=? ctr (cs_topology_epoch s))%N then
      (ctx, reject_with Rej_StaleTopologyEpoch ES_ValidateGeneration "topology"
              ("target epoch " +:+ ctr_str target +:+
               " is not newer than the authoritative epoch " +:+ ctr_str (cs_topology_epoch s))) else
    let ctx := rewrite_links (λ _, true) superseded_link ctx in
    let ctx := set_state (λ s, s <| cs_topology_epoch := target |>) ctx in
    let overflow := reject_with Rej_LimitExceeded ES_Commit "topology" "generation overflow" in
    bump_topology ctx overflow (λ ctx, bump_connectivity ctx overflow (λ ctx,
      let ctx := set_state (λ s, s <| cs_topology_record := MkTopologyRecord
        (cs_topology_epoch s) (cs_topology_generation s) (cx_now ctx)
        (stamp_make Prov_Reported (cx_now ctx) 0)
        (if is_empty (rq_topology_reason request) then "topology_superseded"
         else rq_topology_reason request) |>) ctx in
      (mark_changed ctx, accepted_change)))
  end.

(** ** Evidence *)

(** A link that has the rack at one of its ends. *)
Definition touches (rack : RackId) (link : InterRackLink) : bool :=
  bool_decide (lk_source link = rack) || bool_decide (lk_destination link = rack).

Definition health_record (s : ClusterState) (request : MutationRequest) (r : RackRecord) :
    RackRecord :=
  let current := is_current (rq_evidence request) in
  r <| rk_reference := (rk_reference r)
         <| rr_health := rq_health request |>
         <| rr_evidence := rq_evidence request |>
         <| rr_publication := au_publication (rq_authority request) |>
         <| rr_coordinator_epoch := cs_coordinator_epoch s |> |>
    <| rk_authoritative_current := current |>
    <| rk_non_authoritative_reason := if current then "" else "evidence_not_current" |>.

Definition observed_link (request : MutationRequest) (link : InterRackLink) : InterRackLink :=
  link <| lk_reachability := rq_reachability request |>
       <| lk_header := (lk_header link) <| dh_evidence := rq_evidence request |> |>.

Definition apply_publish_health (ctx : ApplyContext) (request : MutationRequest) :
    ApplyContext * MutationResult :=
  let s := cx_state ctx in
  let rack := request_rack request in
  let subject := rack_subject rack in
  if is_empty (id_value rack) then
    (ctx, reject_with Rej_Malformed ES_ValidateReference "rack"
            "health publication carries no rack identity") else
  match cs_racks s !! rack with
  | None =>
      (ctx, reject_with Rej_UnknownRack ES_ValidateReference subject
              "rack is not a member of this cluster")
  | Some r =>
    if is_rack_retired s rack then
      (ctx, reject_code Rej_Retired ES_ValidateAuthority subject
              "the rack identity is retired and cannot be resurrected" "retired_identity") else
    let boot_result := validate_boot ctx request rack in
    if negb (accepted boot_result) then (ctx, boot_result) else
    if bool_decide (rr_health (rk_reference r) = rq_health request) &&
       bool_decide (ev_observed_at (rr_evidence (rk_reference r)) =
                    ev_observed_at (rq_evidence request)) then
      (ctx, accepted_no_change "health publication is identical") else
    let ctx := record_insert cs_racks rack (health_record s request r) ctx in
    let finish ctx := bump_health ctx
      (reject_with Rej_LimitExceeded ES_Commit subject "health generation overflow")
      (λ ctx, (mark_changed ctx, accepted_change)) in
    if decide (rq_reachability request ≠ Reach_Unknown) then
      let ctx := rewrite_links (touches rack) (observed_link request) ctx in
      bump_connectivity ctx
        (reject_with Rej_LimitExceeded ES_Commit subject "connectivity generation overflow")
        finish
    else finish ctx
  end.

Definition withdrawn_record (r : RackRecord) : RackRecord :=
  r <| rk_reference := (rk_reference r)
         <| rr_evidence := mark_revalidation_required (rr_evidence (rk_reference r)) |>
         <| rr_currentness := Cur_RevalidationRequired |> |>
    <| rk_authoritative_current := false |>
    <| rk_non_authoritative_reason := "evidence_withdrawn" |>.

Definition withdrawn_link (link : InterRackLink) : InterRackLink :=
  link <| lk_reachability := Reach_RevalidationRequired |>
       <| lk_header := (lk_header link)
            <| dh_evidence := mark_revalidation_required (dh_evidence (lk_header link)) |> |>.

Definition apply_withdraw_evidence (ctx : ApplyContext) (request : MutationRequest) :
    ApplyContext * MutationResult :=
  let s := cx_state ctx in
  let rack := request_rack request in
  let subject := rack_subject rack in
  let selector := if is_empty (rq_evidence_selector request) then "rack_evidence"
                  else rq_evidence_selector request in
  if bool_decide (selector ≠ "rack_evidence") && bool_decide (selector ≠ "rack_health") &&
     bool_decide (selector ≠ "reachability") then
    (ctx, reject_with Rej_Malformed ES_ValidateReference "evidence"
            ("unknown evidence selector " +:+ selector)) else
  match cs_racks s !! rack with
  | None =>
      (ctx, reject_with Rej_UnknownRack ES_ValidateReference subject
              "rack is not a member of this cluster")
  | Some r =>
    let ctx := record_insert cs_racks rack (withdrawn_record r) ctx in
    let finish ctx := bump_health ctx
      (reject_with Rej_LimitExceeded ES_Commit subject "health generation overflow")
      (λ ctx, (mark_changed ctx, accepted_change)) in
    if bool_decide (selector = "reachability") || bool_decide (selector = "rack_evidence") then
      let ctx := rewrite_links (touches rack) withdrawn_link ctx in
      bump_connectivity ctx
        (reject_with Rej_LimitExceeded ES_Commit subject "connectivity generation overflow")
        finish
    else finish ctx
  end.
