(* ===== verification/EngineCluster.v ===== *)
(** * The commit engine: cluster-level mutations and dispatch

    [apply_declare_cluster], [apply_retire_cluster], [apply_publish_snapshot],
    [apply_revalidate] and [apply_request] of [src/coordinator_engine.cpp]. *)

From S2P Require Import Prelude Identity Counter Taxonomy Evidence Types State Domains Invariant.
From S2P Require Import RackRef EngineBase EngineRack EngineTopology.

Definition first_ctr {tag} : StrongCounter tag := MkCtr 1.

Definition first_generations : DomainGenerations :=
  MkGenerations first_ctr first_ctr first_ctr first_ctr first_ctr first_ctr first_ctr first_ctr.

(** The assignments of a first declaration. *)
Definition declared_state (request : MutationRequest) (now : Timestamp) (s : ClusterState) :
    ClusterState :=
  let authority := rq_authority request in
  s <| cs_id := rq_cluster request |>
    <| cs_epoch := if ctr_known (au_cluster_epoch authority)
                   then au_cluster_epoch authority else first_ctr |>
    <| cs_coordinator_epoch := if ctr_known (au_coordinator_epoch authority)
                               then au_coordinator_epoch authority else cs_coordinator_epoch s |>
    <| cs_generation := first_ctr |>
    <| cs_membership_generation := first_ctr |>
    <| cs_topology_epoch := first_ctr |>
    <| cs_topology_generation := first_ctr |>
    <| cs_connectivity_generation := first_ctr |>
    <| cs_health_generation := first_ctr |>
    <| cs_constraint_generation := first_ctr |>
    <| cs_domain_generations := first_generations |>
    <| cs_snapshot_generation := first_ctr |>
    <| cs_publication_generation := first_ctr |>
    <| cs_readiness_contract := rq_readiness_contract request |>
    <| cs_lifecycle := CL_Declared |>
    <| cs_declared_at := now |>
    <| cs_last_mutation_at := now |>
    <| cs_topology_record := MkTopologyRecord first_ctr first_ctr now
         (stamp_make Prov_Reported now 0) "cluster_declared" |>.

Definition apply_declare_cluster (ctx : ApplyContext) (request : MutationRequest) :
    ApplyContext * MutationResult :=
  let s := cx_state ctx in
  if ctr_known (cs_epoch s) then
    if bool_decide (rq_readiness_contract request = cs_readiness_contract s) &&
       bool_decide (rq_declared_lifecycle request = cs_lifecycle s) then
      (ctx, accepted_no_change "cluster is already declared with this contract") else
    let ctx := record_scalars ctx in
    let ctx := set_state (λ s, s
      <| cs_readiness_contract := rq_readiness_contract request |>
      <| cs_lifecycle := rq_declared_lifecycle request |>) ctx in
    (mark_changed ctx, accepted_change)
  else
    let ctx := record_scalars ctx in
    let ctx := set_state (declared_state request (cx_now ctx)) ctx in
    (mark_changed ctx, accepted_change).

(** A loop over the racks that records each visited entry and rewrites it in
    place. *)
Definition rewrite_racks (visit : RackRecord → bool) (f : RackRecord → RackRecord)
    (ctx : ApplyContext) : ApplyContext :=
  foldl (λ ctx e, if visit e.2 then record_insert cs_racks e.1 (f e.2) ctx else ctx) ctx
    (entries (cs_racks (cx_state ctx))).

Definition retired_cluster_record (r : RackRecord) : RackRecord :=
  r <| rk_authoritative_current := false |>
    <| rk_reference := (rk_reference r) <| rr_currentness := Cur_RevalidationRequired |> |>
    <| rk_non_authoritative_reason := "cluster_retired" |>.

Definition apply_retire_cluster (ctx : ApplyContext) (request : MutationRequest) :
    ApplyContext * MutationResult :=
  if decide (cs_lifecycle (cx_state ctx) = CL_Retired) then
    (ctx, accepted_no_change "cluster is already retired") else
  let ctx := record_scalars ctx in
  let ctx := set_state (λ s, s <| cs_lifecycle := CL_Retired |>) ctx in
  let ctx := rewrite_racks rk_authoritative_current retired_cluster_record ctx in
  (mark_changed ctx, accepted_change).

Definition apply_publish_snapshot (ctx : ApplyContext) (request : MutationRequest) :
    ApplyContext * MutationResult :=
  let overflow := reject_with Rej_LimitExceeded ES_Commit "snapshot"
                    "snapshot generation overflow" in
  match bump (cs_snapshot_generation (cx_state ctx)) with
  | None => (ctx, overflow)
  | Some g =>
    let ctx := set_state (λ s, s <| cs_snapshot_generation := g |>) ctx in
    match bump (cs_publication_generation (cx_state ctx)) with
    | None => (ctx, overflow)
    | Some g =>
        let ctx := set_state (λ s, s <| cs_publication_generation := g |>) ctx in
        (mark_changed ctx, accepted_change)
    end
  end.

(** A rack whose evidence is current under a live authority. *)
Definition is_fresh_rack (r : RackRecord) : bool :=
  rk_authoritative_current r && is_current (rr_evidence (rk_reference r)) &&
  bool_decide (ev_provenance (rr_evidence (rk_reference r)) ≠ Prov_Reconstructed).

(** The loop over the candidates: an unknown rack, or the racks that still
    require revalidation. *)
Fixpoint still_required (s : ClusterState) (candidates : list RackId) : RackId + list RackId :=
  match candidates with
  | [] => inr []
  | rack :: rest =>
      match cs_racks s !! rack with
      | None => inl rack
      | Some r =>
          match still_required s rest with
          | inl unknown => inl unknown
          | inr l => inr (if is_fresh_rack r then l else rack :: l)
          end
      end
  end.

Definition apply_revalidate (ctx : ApplyContext) (request : MutationRequest) :
    ApplyContext * MutationResult :=
  let s := cx_state ctx in
  let candidates := if decide (rq_racks request = []) then (entries (cs_racks s)).*1
                    else rq_racks request in
  if decide (candidates = []) then
    (ctx, accepted_no_change "cluster has no member rack to revalidate") else
  match still_required s candidates with
  | inl rack =>
      (ctx, reject_with Rej_UnknownRack ES_ValidateReference (rack_subject rack)
              "rack is not a member of this cluster")
  | inr (_ :: _ as l) =>
      (ctx, (rejected Rej_Conflict ES_ValidateReference "cluster"
               (to_decimal (size l) +:+
                " rack(s) still lack current evidence and must republish under fresh authority")
               "revalidation_incomplete") <| mr_outcome := Out_RevalidationRequired |>)
  | inr [] => (mark_changed ctx, accepted_change)
  end.

(** ** Dispatch *)

Definition publish_domain {D tag} `{DomainTraits D tag} `{!DomainExtra D} (ctx : ApplyContext)
    (payload : option D) : ApplyContext * MutationResult :=
  match payload with
  | None => (ctx, reject_with Rej_Malformed ES_Decode (dt_label D) "payload is absent")
  | Some domain => publish_domain_record ctx domain
  end.

(** The switch over the mutation kinds. *)
Definition dispatch (ctx : ApplyContext) (request : MutationRequest) :
    ApplyContext * MutationResult :=
  match rq_kind request with
  | MK_DeclareCluster => apply_declare_cluster ctx request
  | MK_RegisterRackPublisher => apply_register_publisher ctx request
  | MK_AddRack => apply_add_rack ctx request
  | MK_UpdateRackGeneration => apply_update_rack_generation ctx request
  | MK_MarkRackUnavailable => apply_membership_change ctx request Mem_Unavailable false
  | MK_WithdrawRack => apply_membership_change ctx request Mem_Withdrawn false
  | MK_RetireRack => apply_membership_change ctx request Mem_Retired true
  | MK_RecoverRack => apply_recover_rack ctx request
  | MK_PublishInterRackLink => apply_publish_link ctx request
  | MK_WithdrawInterRackLink => apply_withdraw_link ctx request
  | MK_PublishPlacementDomain => publish_domain ctx (rq_placement_domain request)
  | MK_PublishCapacityDomain => publish_domain ctx (rq_capacity_domain request)
  | MK_PublishFailureDomain => publish_domain ctx (rq_failure_domain request)
  | MK_PublishNetworkDomain => publish_domain ctx (rq_network_domain request)
  | MK_PublishStorageDomain => publish_domain ctx (rq_storage_domain request)
  | MK_PublishPowerDomain => publish_domain ctx (rq_power_domain request)
  | MK_PublishCoolingDomain => publish_domain ctx (rq_cooling_domain request)
  | MK_PublishLinkDomain => publish_domain ctx (rq_link_domain request)
  | MK_PublishConstraint => apply_publish_constraint ctx request
  | MK_PublishHealthCurrentness => apply_publish_health ctx request
  | MK_WithdrawEvidence => apply_withdraw_evidence ctx request
  | MK_SupersedeTopology => apply_supersede_topology ctx request
  | MK_PublishSnapshot => apply_publish_snapshot ctx request
  | MK_RevalidateRecoveredState => apply_revalidate ctx request
  | MK_RetireCluster => apply_retire_cluster ctx request
  | MK_Unknown =>
      (ctx, reject_with Rej_Malformed ES_Decode "request" "unsupported mutation kind")
  end.

Definition apply_request (ctx : ApplyContext) (request : MutationRequest) :
    ApplyContext * MutationResult :=
  let common := validate_common ctx request in
  if decide (mr_reason common ≠ Rej_None) then (ctx, common) else dispatch ctx request.
