(* ===== verification/Rollback.v ===== *)
(** * The undo journal restores canonical state

    Every handler of the engine journals what it writes: rolling the journal
    back restores the maps and the scalars of the state the mutation started
    from.  The one field the journal does not cover is the cluster identity. *)

From S2P Require Import Prelude Identity Counter Taxonomy Evidence Types State Domains Invariant.
From S2P Require Import RackRef EngineBase EngineRack EngineTopology EngineCluster.

(** ** States with the same maps *)

Record same_maps (s s' : ClusterState) : Prop := {
  sm_racks : cs_racks s = cs_racks s';
  sm_links : cs_links s = cs_links s';
  sm_placement : cs_placement_domains s = cs_placement_domains s';
  sm_capacity : cs_capacity_domains s = cs_capacity_domains s';
  sm_failure : cs_failure_domains s = cs_failure_domains s';
  sm_network : cs_network_domains s = cs_network_domains s';
  sm_storage : cs_storage_domains s = cs_storage_domains s';
  sm_power : cs_power_domains s = cs_power_domains s';
  sm_cooling : cs_cooling_domains s = cs_cooling_domains s';
  sm_link_domains : cs_link_domains s = cs_link_domains s';
  sm_constraints : cs_constraints s = cs_constraints s'
}.

#[global] Instance same_maps_equiv : Equivalence same_maps.
Proof.
  split.
  - by intros s.
  - intros s s' []. by split.
  - intros s1 s2 s3 [] []. split; congruence.
Qed.

(** A canonical map of the state: reading and writing it is a lens that respects
    [same_maps] and leaves the cluster identity, the cluster generation and the
    fenced list alone. *)
Class MapMember {tag V} (member : ClusterState → gmap (StrongId tag) V) `{!Upd member} : Prop := {
  mm_get f s : member (upd member f s) = f (member s);
  mm_twice f g s : upd member f (upd member g s) = upd member (λ m, f (g m)) s;
  mm_same f : Proper (same_maps ==> same_maps) (upd member f);
  mm_id f s : f (member s) = member s → upd member f s = s;
  mm_cluster f s : cs_id (upd member f s) = cs_id s;
  mm_generation f s : cs_generation (upd member f s) = cs_generation s;
  mm_fenced f s : cs_fenced_authorities (upd member f s) = cs_fenced_authorities s
}.
#[global] Existing Instance mm_same.

Ltac map_member :=
  split; [by intros|by intros
         |intros f s s' []; split; simpl; first [assumption | by f_equal]
         |intros f [] Hf; cbv in Hf |- *; by rewrite Hf
         |by intros|by intros|by intros].

#[global] Instance racks_member : MapMember cs_racks. Proof. map_member. Qed.
#[global] Instance links_member : MapMember cs_links. Proof. map_member. Qed.
#[global] Instance constraints_member : MapMember cs_constraints. Proof. map_member. Qed.
#[global] Instance placement_member : MapMember (dt_member PlacementDomain). Proof. map_member. Qed.
#[global] Instance capacity_member : MapMember (dt_member CapacityDomain). Proof. map_member. Qed.
#[global] Instance failure_member : MapMember (dt_member FailureDomain). Proof. map_member. Qed.
#[global] Instance network_member : MapMember (dt_member NetworkDomain). Proof. map_member. Qed.
#[global] Instance storage_member : MapMember (dt_member StorageDomain). Proof. map_member. Qed.
#[global] Instance power_member : MapMember (dt_member PowerDomain). Proof. map_member. Qed.
#[global] Instance cooling_member : MapMember (dt_member CoolingDomain). Proof. map_member. Qed.
#[global] Instance link_domain_member : MapMember (dt_member LinkDomain). Proof. map_member. Qed.

(** ** Undo actions *)

(** An undo action acts on the maps alone, or on the scalars alone, and never on
    the identity. *)
Record undo_ok (u : Undo) : Prop := {
  uo_proper : Proper (same_maps ==> same_maps) u;
  uo_cluster s : cs_id (u s) = cs_id s
}.

Lemma restore_scalars_ok snapshot : undo_ok (restore_scalars snapshot).
Proof. split; [|done]. intros s s' []. by split. Qed.

Lemma restore_scalars_maps snapshot s : same_maps (restore_scalars snapshot s) s.
Proof. by split. Qed.

Lemma undo_entry_ok {tag V} (member : ClusterState → gmap (StrongId tag) V)
  `{!Upd member, !MapMember member} key previous : undo_ok (undo_entry member key previous).
Proof. split; intros; [apply mm_same|apply mm_cluster]. Qed.

Lemma rollback_proper j : Forall undo_ok j → Proper (same_maps ==> same_maps) (rollback j).
Proof.
  unfold rollback. induction 1 as [|u j Hu _ IH]; intros s s' Hs; simpl; [done|].
  apply IH. by apply (uo_proper u Hu).
Qed.

Lemma rollback_cluster j s : Forall undo_ok j → cs_id (rollback j s) = cs_id s.
Proof.
  unfold rollback. intros Hj. revert s. induction Hj as [|u j Hu _ IH]; intros s; simpl; [done|].
  by rewrite IH, (uo_cluster u Hu).
Qed.

(** ** Journaled contexts *)

(** The journal of the context undoes everything done since [s0]: its oldest
    action restores the scalars of [s0], the others the maps. *)
Definition journaled (s0 : ClusterState) (ctx : ApplyContext) : Prop :=
  ∃ j, cx_journal ctx = j ++ [restore_scalars (capture_scalars s0)] ∧
       Forall undo_ok j ∧ same_maps (rollback j (cx_state ctx)) s0.

Lemma journaled_initial s0 config now :
  journaled s0 (record_scalars (MkCtx s0 config now [] false)).
Proof. by exists []. Qed.

Lemma journaled_record_scalars s0 ctx : journaled s0 ctx → journaled s0 (record_scalars ctx).
Proof.
  intros (j&Hj&Hok&Hs). exists (restore_scalars (capture_scalars (cx_state ctx)) :: j).
  split_and!; simpl; [by rewrite Hj|by constructor; [apply restore_scalars_ok|]|].
  rewrite <- Hs. by apply rollback_proper.
Qed.

Lemma journaled_set_state s0 ctx f :
  (∀ s, same_maps (f s) s) → journaled s0 ctx → journaled s0 (set_state f ctx).
Proof.
  intros Hf (j&Hj&Hok&Hs). exists j. split_and!; [done|done|]. simpl.
  rewrite <- Hs. by apply rollback_proper.
Qed.

Lemma journaled_mark_changed s0 ctx : journaled s0 ctx → journaled s0 (mark_changed ctx).
Proof. done. Qed.

Section member.
  Context {tag : IdTag} {V : Type} (member : ClusterState → gmap (StrongId tag) V).
  Context `{!Upd member, !MapMember member}.

(** Undoing a journaled write to one entry gives the state back. *)
Lemma undo_entry_write ctx key f :
  (∀ m : gmap (StrongId tag) V, match m !! key with
        | None => delete key (f m)
        | Some v => <[key := v]> (f m)
        end = m) →
  undo_entry member key (member (cx_state ctx) !! key) (upd member f (cx_state ctx)) = cx_state ctx.
Proof.
  intros Hf. unfold undo_entry. rewrite mm_twice. apply mm_id.
  specialize (Hf (member (cx_state ctx))). by destruct (member (cx_state ctx) !! key).
Qed.

Lemma insert_undone key v (m : gmap (StrongId tag) V) :
  match m !! key with
  | None => delete key (<[key := v]> m)
  | Some v' => <[key := v']> (<[key := v]> m)
  end = m.
Proof.
  destruct (m !! key) eqn:E.
  - rewrite insert_insert_eq. by apply insert_id.
  - by rewrite delete_insert_eq, delete_id.
Qed.

Lemma journaled_write s0 ctx key f :
  (∀ m : gmap (StrongId tag) V, match m !! key with
        | None => delete key (f m)
        | Some v => <[key := v]> (f m)
        end = m) →
  journaled s0 ctx →
  journaled s0 ((record member key ctx) <| cx_state := upd member f (cx_state ctx) |>).
Proof.
  intros Hf (j&Hj&Hok&Hs).
  exists (undo_entry member key (member (cx_state ctx) !! key) :: j).
  split_and!; simpl; [by rewrite Hj|by constructor; [apply undo_entry_ok|]|].
  rewrite <- Hs. apply rollback_proper; [done|].
  by rewrite (undo_entry_write ctx key f Hf).
Qed.

Lemma journaled_record_insert s0 ctx key v :
  journaled s0 ctx → journaled s0 (record_insert member key v ctx).
Proof.
  intros Hj. apply (journaled_write s0 ctx key (λ m, <[key := v]> m)); [|done].
  apply insert_undone.
Qed.

Lemma journaled_record_erase s0 ctx key :
  journaled s0 ctx → journaled s0 (record_erase member key ctx).
Proof.
  intros Hj. apply (journaled_write s0 ctx key (λ m, delete key m)); [|done].
  intros m. destruct (m !! key) eqn:E.
  - rewrite insert_delete_eq. by apply insert_id.
  - by rewrite !delete_id by (rewrite ?delete_id; done).
Qed.

(** Without writes to scalars the journal gives back the very same state. *)
Lemma rollback_fold ctx (visit : V → bool) (f : V → V) (l : list (StrongId tag * V)) :
  rollback (cx_journal (foldl (λ ctx e, if visit e.2 then record_insert member e.1 (f e.2) ctx
                                        else ctx) ctx l))
    (cx_state (foldl (λ ctx e, if visit e.2 then record_insert member e.1 (f e.2) ctx else ctx)
                 ctx l)) = rollback (cx_journal ctx) (cx_state ctx).
Proof.
  revert ctx. induction l as [|e l IH]; intros ctx; simpl; [done|].
  rewrite IH. destruct (visit e.2); [|done]. unfold rollback. simpl. f_equal.
  apply undo_entry_write, insert_undone.
Qed.

Lemma journaled_fold s0 ctx (visit : V → bool) (f : V → V) (l : list (StrongId tag * V)) :
  journaled s0 ctx →
  journaled s0 (foldl (λ ctx e, if visit e.2 then record_insert member e.1 (f e.2) ctx else ctx)
                  ctx l).
Proof.
  revert ctx. induction l as [|e l IH]; intros ctx Hj; simpl; [done|].
  apply IH. destruct (visit e.2); [|done]. by apply journaled_record_insert.
Qed.

End member.

Lemma journaled_rewrite_links s0 ctx visit f :
  journaled s0 ctx → journaled s0 (rewrite_links visit f ctx).
Proof. apply journaled_fold. apply _. Qed.

Lemma journaled_rewrite_racks s0 ctx visit f :
  journaled s0 ctx → journaled s0 (rewrite_racks visit f ctx).
Proof. apply journaled_fold. apply _. Qed.

Create HintDb journal.
#[export] Hint Resolve journaled_record_scalars journaled_mark_changed journaled_rewrite_links
  journaled_rewrite_racks journaled_record_insert journaled_record_erase : journal.
#[export] Hint Extern 1 (MapMember _) => apply _ : journal.
#[export] Hint Extern 4 (journaled _ (set_state _ _)) =>
  (apply journaled_set_state; [intros; by split|]) : journal.

(** ** What a rollback restores *)

Lemma rollback_journaled s0 ctx :
  journaled s0 ctx →
  rollback (cx_journal ctx) (cx_state ctx) = s0 <| cs_id := cs_id (cx_state ctx) |>.
Proof.
  intros (j&Hj&Hok&Hs). rewrite Hj. unfold rollback. rewrite foldl_app. simpl.
  fold (rollback j (cx_state ctx)). pose proof (rollback_cluster j (cx_state ctx) Hok) as Hid.
  destruct Hs. destruct s0, (rollback j (cx_state ctx)). simpl in *.
  unfold restore_scalars, capture_scalars. simpl. by simplify_eq.
Qed.

(** Assignments to scalars after the handler has returned do not change what the
    rollback restores. *)
Lemma rollback_journaled_after s0 ctx s :
  journaled s0 ctx → same_maps s (cx_state ctx) →
  rollback (cx_journal ctx) s = s0 <| cs_id := cs_id s |>.
Proof.
  intros (j&Hj&Hok&Hs) Hsame.
  pose proof (rollback_journaled s0 (ctx <| cx_state := s |>)) as H. simpl in H. apply H.
  exists j. split_and!; [done|done|]. simpl. rewrite <- Hs. by apply rollback_proper.
Qed.

(** ** Every handler journals what it writes *)

Ltac journal_case :=
  repeat first
    [ progress cbn [fst]
    | case_match
    | progress unfold store_rack, bump_topology, bump_connectivity, bump_health,
        drop_withdrawn, copy_topology_generation ];
  eauto 12 with journal.

Lemma journaled_register s0 ctx req :
  journaled s0 ctx → journaled s0 (fst (apply_register_publisher ctx req)).
Proof. intros. unfold apply_register_publisher. journal_case. Qed.

Lemma journaled_admit s0 ctx incoming :
  journaled s0 ctx → journaled s0 (fst (admit_rack ctx incoming)).
Proof. intros. unfold admit_rack. journal_case. Qed.

Lemma journaled_add_rack s0 ctx req :
  journaled s0 ctx → journaled s0 (fst (apply_add_rack ctx req)).
Proof. intros. unfold apply_add_rack. repeat case_match; simpl; auto using journaled_admit. Qed.

Lemma journaled_update_generation s0 ctx req :
  journaled s0 ctx → journaled s0 (fst (apply_update_rack_generation ctx req)).
Proof. intros. unfold apply_update_rack_generation. journal_case. Qed.

Lemma journaled_membership s0 ctx req target retire :
  journaled s0 ctx → journaled s0 (fst (apply_membership_change ctx req target retire)).
Proof. intros. unfold apply_membership_change. journal_case. Qed.

Lemma journaled_recover s0 ctx req :
  journaled s0 ctx → journaled s0 (fst (apply_recover_rack ctx req)).
Proof. intros. unfold apply_recover_rack. journal_case. Qed.

Lemma journaled_publish_domain_record {D tag} `{DomainTraits D tag} `{!DomainExtra D}
  `{!MapMember (dt_member D)} s0 ctx (d : D) :
  journaled s0 ctx → journaled s0 (fst (publish_domain_record ctx d)).
Proof.
  intros. unfold publish_domain_record.
  destruct (is_empty _); [done|]. destruct (validate_domain_payload ctx d) as [d' r].
  journal_case.
Qed.

Lemma journaled_publish_domain {D tag} `{DomainTraits D tag} `{!DomainExtra D}
  `{!MapMember (dt_member D)} s0 ctx (payload : option D) :
  journaled s0 ctx → journaled s0 (fst (publish_domain ctx payload)).
Proof. destruct payload; simpl; auto using journaled_publish_domain_record. Qed.

Lemma journaled_constraint s0 ctx req :
  journaled s0 ctx → journaled s0 (fst (apply_publish_constraint ctx req)).
Proof. intros. unfold apply_publish_constraint. journal_case. Qed.

Lemma journaled_publish_link s0 ctx req :
  journaled s0 ctx → journaled s0 (fst (apply_publish_link ctx req)).
Proof. intros. unfold apply_publish_link. journal_case. Qed.

Lemma journaled_withdraw_link s0 ctx req :
  journaled s0 ctx → journaled s0 (fst (apply_withdraw_link ctx req)).
Proof. intros. unfold apply_withdraw_link. journal_case. Qed.

Lemma journaled_supersede s0 ctx req :
  journaled s0 ctx → journaled s0 (fst (apply_supersede_topology ctx req)).
Proof. intros. unfold apply_supersede_topology. journal_case. Qed.

Lemma journaled_health s0 ctx req :
  journaled s0 ctx → journaled s0 (fst (apply_publish_health ctx req)).
Proof. intros. unfold apply_publish_health. journal_case. Qed.

Lemma journaled_withdraw_evidence s0 ctx req :
  journaled s0 ctx → journaled s0 (fst (apply_withdraw_evidence ctx req)).
Proof. intros. unfold apply_withdraw_evidence. journal_case. Qed.

Lemma declared_state_maps req now s : same_maps (declared_state req now s) s.
Proof. by split. Qed.

Lemma journaled_declare s0 ctx req :
  journaled s0 ctx → journaled s0 (fst (apply_declare_cluster ctx req)).
Proof.
  intros. unfold apply_declare_cluster. destruct (ctr_known _); [journal_case|].
  simpl. apply journaled_mark_changed, journaled_set_state; [apply declared_state_maps|].
  by apply journaled_record_scalars.
Qed.

Lemma journaled_retire_cluster s0 ctx req :
  journaled s0 ctx → journaled s0 (fst (apply_retire_cluster ctx req)).
Proof. intros. unfold apply_retire_cluster. journal_case. Qed.

Lemma journaled_snapshot s0 ctx req :
  journaled s0 ctx → journaled s0 (fst (apply_publish_snapshot ctx req)).
Proof. intros. unfold apply_publish_snapshot. journal_case. Qed.

Lemma journaled_revalidate s0 ctx req :
  journaled s0 ctx → journaled s0 (fst (apply_revalidate ctx req)).
Proof. intros. unfold apply_revalidate. journal_case. Qed.

Lemma journaled_apply_request s0 ctx req :
  journaled s0 ctx → journaled s0 (fst (apply_request ctx req)).
Proof.
  intros. unfold apply_request, dispatch.
  case_decide; [done|].
  destruct (rq_kind req); eauto using journaled_declare, journaled_register, journaled_add_rack,
    journaled_update_generation, journaled_membership, journaled_recover, journaled_publish_link,
    journaled_withdraw_link, journaled_publish_domain, journaled_constraint, journaled_health,
    journaled_withdraw_evidence, journaled_supersede, journaled_snapshot, journaled_revalidate,
    journaled_retire_cluster with typeclass_instances.
Qed.

(** ** The outcome and the [changed] flag agree, and the identity is stable *)

(** A handler that reports a change has set the flag, and it keeps the
    configuration, the fenced list and, unless it declares the cluster, the
    cluster identity and the cluster generation. *)
Record handled (ctx : ApplyContext) (p : ApplyContext * MutationResult) : Prop := {
  hd_changed : mr_outcome p.2 = Out_Accepted → cx_changed p.1 = true;
  hd_unchanged : mr_outcome p.2 = Out_NoChange → cx_state p.1 = cx_state ctx;
  hd_config : cx_config p.1 = cx_config ctx;
  hd_cluster : cs_id (cx_state p.1) = cs_id (cx_state ctx);
  hd_generation : cs_generation (cx_state p.1) = cs_generation (cx_state ctx);
  hd_fenced : cs_fenced_authorities (cx_state p.1) = cs_fenced_authorities (cx_state ctx)
}.

Section frame.
  Context {A : Type} (f : ApplyContext → A).

Lemma fold_frame {tag V} (member : ClusterState → gmap (StrongId tag) V) `{!Upd member}
    (visit : V → bool) (g : V → V) (l : list (StrongId tag * V)) ctx :
  (∀ ctx k v, f (record_insert member k v ctx) = f ctx) →
  f (foldl (λ ctx e, if visit e.2 then record_insert member e.1 (g e.2) ctx else ctx) ctx l)
  = f ctx.
Proof.
  intros Hf. revert ctx. induction l as [|e l IH]; intros ctx; simpl; [done|].
  rewrite IH. destruct (visit e.2); [apply Hf|done].
Qed.

End frame.

Lemma rewrite_links_config visit g ctx : cx_config (rewrite_links visit g ctx) = cx_config ctx.
Proof. by apply fold_frame. Qed.
Lemma rewrite_racks_config visit g ctx : cx_config (rewrite_racks visit g ctx) = cx_config ctx.
Proof. by apply fold_frame. Qed.
Lemma rewrite_links_cluster visit g ctx :
  cs_id (cx_state (rewrite_links visit g ctx)) = cs_id (cx_state ctx).
Proof. by apply (fold_frame (λ ctx, cs_id (cx_state ctx))). Qed.
Lemma rewrite_racks_cluster visit g ctx :
  cs_id (cx_state (rewrite_racks visit g ctx)) = cs_id (cx_state ctx).
Proof. by apply (fold_frame (λ ctx, cs_id (cx_state ctx))). Qed.

Lemma rewrite_links_generation visit g ctx :
  cs_generation (cx_state (rewrite_links visit g ctx)) = cs_generation (cx_state ctx).
Proof. by apply (fold_frame (λ ctx, cs_generation (cx_state ctx))). Qed.
Lemma rewrite_racks_generation visit g ctx :
  cs_generation (cx_state (rewrite_racks visit g ctx)) = cs_generation (cx_state ctx).
Proof. by apply (fold_frame (λ ctx, cs_generation (cx_state ctx))). Qed.
Lemma rewrite_links_fenced visit g ctx :
  cs_fenced_authorities (cx_state (rewrite_links visit g ctx)) =
  cs_fenced_authorities (cx_state ctx).
Proof. by apply (fold_frame (λ ctx, cs_fenced_authorities (cx_state ctx))). Qed.
Lemma rewrite_racks_fenced visit g ctx :
  cs_fenced_authorities (cx_state (rewrite_racks visit g ctx)) =
  cs_fenced_authorities (cx_state ctx).
Proof. by apply (fold_frame (λ ctx, cs_fenced_authorities (cx_state ctx))). Qed.

Lemma not_accepted_outcome r :
  negb (accepted r) = true → mr_outcome r ≠ Out_Accepted ∧ mr_outcome r ≠ Out_NoChange.
Proof. unfold accepted. destruct (mr_outcome r); done. Qed.

Lemma check_existing_rack_outcome r incoming res :
  check_existing_rack r incoming = Some res → mr_outcome res ≠ Out_Accepted.
Proof. unfold check_existing_rack. repeat case_match; intros; by simplify_eq. Qed.

Lemma check_existing_domain_outcome {D tag} `{DomainTraits D tag} ctx (d : D) res :
  check_existing_domain ctx d = Some res → mr_outcome res ≠ Out_Accepted.
Proof. unfold check_existing_domain. repeat case_match; intros; by simplify_eq. Qed.

Lemma check_existing_constraint_outcome ctx c res :
  check_existing_constraint ctx c = Some res → mr_outcome res ≠ Out_Accepted.
Proof. unfold check_existing_constraint. repeat case_match; intros; by simplify_eq. Qed.

Lemma check_link_payload_outcome s l res :
  check_link_payload s l = Some res → mr_outcome res ≠ Out_Accepted.
Proof. unfold check_link_payload. repeat case_match; intros; by simplify_eq. Qed.

Lemma check_existing_link_outcome ctx l res :
  check_existing_link ctx l = Some res → mr_outcome res ≠ Out_Accepted.
Proof. unfold check_existing_link. repeat case_match; intros; by simplify_eq. Qed.

Lemma handled_early ctx r : mr_outcome r ≠ Out_Accepted → handled ctx (ctx, r).
Proof. by split. Qed.

Lemma handled_refused ctx r : negb (accepted r) = true → handled ctx (ctx, r).
Proof. intros [? ?]%not_accepted_outcome. by apply handled_early. Qed.

#[export] Hint Resolve handled_refused check_existing_rack_outcome check_existing_domain_outcome
  check_existing_constraint_outcome check_link_payload_outcome check_existing_link_outcome : journal.

Ltac handled_case :=
  repeat first
    [ progress cbn [fst snd]
    | by apply handled_early
    | by eauto using handled_early with journal
    | case_match
    | progress unfold store_rack, bump_topology, bump_connectivity, bump_health ];
  try (split; simpl; rewrite ?rewrite_links_config, ?rewrite_racks_config, ?rewrite_links_cluster,
    ?rewrite_racks_cluster, ?rewrite_links_generation, ?rewrite_racks_generation,
    ?rewrite_links_fenced, ?rewrite_racks_fenced; done).

Lemma handled_register ctx req : handled ctx (apply_register_publisher ctx req).
Proof. unfold apply_register_publisher. handled_case. Qed.

Lemma handled_admit ctx incoming : handled ctx (admit_rack ctx incoming).
Proof. unfold admit_rack. handled_case. Qed.

Lemma handled_add_rack ctx req : handled ctx (apply_add_rack ctx req).
Proof.
  unfold apply_add_rack. repeat case_match; eauto using handled_early, handled_admit with journal;
    by apply handled_early.
Qed.

Lemma handled_update_generation ctx req : handled ctx (apply_update_rack_generation ctx req).
Proof. unfold apply_update_rack_generation. handled_case. Qed.

Lemma handled_membership ctx req target retire :
  handled ctx (apply_membership_change ctx req target retire).
Proof. unfold apply_membership_change. handled_case. Qed.

Lemma handled_recover ctx req : handled ctx (apply_recover_rack ctx req).
Proof. unfold apply_recover_rack. handled_case. Qed.

Lemma handled_publish_domain {D tag} `{DomainTraits D tag} `{!DomainExtra D}
  `{!MapMember (dt_member D)} ctx (payload : option D) :
  handled ctx (publish_domain ctx payload).
Proof.
  destruct payload as [d|]; simpl; [|by apply handled_early].
  unfold publish_domain_record. destruct (is_empty _); [by apply handled_early|].
  destruct (validate_domain_payload ctx d) as [d' r].
  handled_case; (split; simpl; rewrite ?mm_cluster, ?mm_generation, ?mm_fenced; done).
Qed.

Lemma handled_constraint ctx req : handled ctx (apply_publish_constraint ctx req).
Proof. unfold apply_publish_constraint. handled_case. Qed.

Lemma handled_publish_link ctx req : handled ctx (apply_publish_link ctx req).
Proof. unfold apply_publish_link. handled_case. Qed.

Lemma handled_withdraw_link ctx req : handled ctx (apply_withdraw_link ctx req).
Proof. unfold apply_withdraw_link. handled_case. Qed.

Lemma handled_supersede ctx req : handled ctx (apply_supersede_topology ctx req).
Proof. unfold apply_supersede_topology. handled_case. Qed.

Lemma handled_health ctx req : handled ctx (apply_publish_health ctx req).
Proof. unfold apply_publish_health. handled_case. Qed.

Lemma handled_withdraw_evidence ctx req : handled ctx (apply_withdraw_evidence ctx req).
Proof. unfold apply_withdraw_evidence. handled_case. Qed.

Lemma handled_retire_cluster ctx req : handled ctx (apply_retire_cluster ctx req).
Proof. unfold apply_retire_cluster. handled_case. Qed.

Lemma handled_snapshot ctx req : handled ctx (apply_publish_snapshot ctx req).
Proof. unfold apply_publish_snapshot. handled_case. Qed.

Lemma handled_revalidate ctx req : handled ctx (apply_revalidate ctx req).
Proof. unfold apply_revalidate. handled_case. Qed.

(** A declaration of an already declared cluster keeps the identity as well. *)
Lemma handled_redeclare ctx req :
  ctr_known (cs_epoch (cx_state ctx)) = true → handled ctx (apply_declare_cluster ctx req).
Proof. intros Hk. unfold apply_declare_cluster. rewrite Hk. handled_case. Qed.

Lemma handled_dispatch ctx req :
  rq_kind req ≠ MK_DeclareCluster ∨ ctr_known (cs_epoch (cx_state ctx)) = true →
  handled ctx (dispatch ctx req).
Proof.
  intros Hk. unfold dispatch.
  destruct (rq_kind req) eqn:E; eauto using handled_register, handled_add_rack,
    handled_update_generation, handled_membership, handled_recover, handled_publish_link,
    handled_withdraw_link, handled_publish_domain, handled_constraint, handled_health,
    handled_withdraw_evidence, handled_supersede, handled_snapshot, handled_revalidate,
    handled_retire_cluster with typeclass_instances.
  - by apply handled_early.
  - apply handled_redeclare. naive_solver.
Qed.

(** The gate rejects, or lets the dispatch decide. *)
Lemma validate_common_outcome ctx req :
  mr_reason (validate_common ctx req) ≠ Rej_None →
  mr_outcome (validate_common ctx req) = Out_Rejected.
Proof. unfold validate_common. repeat case_match; done. Qed.

Lemma handled_apply_request ctx req :
  rq_kind req ≠ MK_DeclareCluster ∨ ctr_known (cs_epoch (cx_state ctx)) = true →
  handled ctx (apply_request ctx req).
Proof.
  intros Hk. unfold apply_request. case_decide as Hr; [|by apply handled_dispatch].
  apply handled_early. by rewrite validate_common_outcome.
Qed.

(** The first declaration: accepted as soon as the gate passes. *)
Lemma apply_request_declare ctx req :
  rq_kind req = MK_DeclareCluster → ctr_known (cs_epoch (cx_state ctx)) = false →
  is_valid_id (id_value (rq_cluster req)) = true →
  apply_request ctx req =
  (mark_changed (set_state (declared_state req (cx_now ctx)) (record_scalars ctx)), accepted_change).
Proof.
  intros Hk He Hv. unfold apply_request, validate_common. rewrite Hk, He, Hv. simpl.
  unfold dispatch. rewrite Hk. unfold apply_declare_cluster. by rewrite He.
Qed.

Lemma apply_request_declare_invalid ctx req :
  rq_kind req = MK_DeclareCluster → is_valid_id (id_value (rq_cluster req)) = false →
  ∃ r, apply_request ctx req = (ctx, r) ∧ mr_outcome r = Out_Rejected.
Proof.
  intros Hk Hv. unfold apply_request, validate_common. rewrite Hk, Hv. simpl. eauto.
Qed.
