(* ===== verification/Explain.v ===== *)
(** * Errors and explanations as text

    [src/error.cpp] and [src/explanation.cpp]: bounded, deterministic
    renderings of a failure and of a decision. *)

From S2P Require Import Prelude Identity Taxonomy Types.

Definition kMaxExplanationFactors : N := 64.
Definition kFactorCapacity : N := kMaxExplanationFactors + 1.

(** ** [StructuredError::describe] *)

Definition append_field (out name value : string) : string :=
  if is_empty value then out else out +:+ " " +:+ name +:+ "=" +:+ bounded value.

Definition error_describe (e : StructuredError) : string :=
  let out := string_of_error_category (er_category e) +:+ "/" +:+
             string_of_error_stage (er_stage e) in
  let out := append_field out "subject" (er_subject e) in
  let out := append_field out "reason" (er_reason e) in
  let out := append_field out "expected" (er_expected e) in
  let out := append_field out "current" (er_current e) in
  if is_empty (er_message e) then out else out +:+ ": " +:+ bounded (er_message e).

(** ** Explanations *)

(** [Explanation::add]: silently dropped beyond the capacity. *)
Definition explanation_add (code subject detail : string) (e : Explanation) : Explanation :=
  if (kFactorCapacity <=? size (ex_factors e))%N then e else
  e <| ex_factors := ex_factors e ++ [MkFactor code subject detail] |>.

Definition factor_lt : ExplanationFactor → ExplanationFactor → bool :=
  lex_lt ef_code less (λ f, f) (lex_lt ef_subject less ef_detail less).

Definition sort_factors (e : Explanation) : Explanation :=
  e <| ex_factors := sort_by factor_lt (ex_factors e) |>.

Definition truncation_marker : ExplanationFactor :=
  MkFactor "truncated" "" "additional factors omitted".

(** [Explanation::bound_factors]: one slot is kept for the truncation marker. *)
Definition bound_factors (e : Explanation) : Explanation :=
  if (size (ex_factors e) <=? kMaxExplanationFactors)%N then e else
  let keep := if (0 <? kMaxExplanationFactors)%N then (kMaxExplanationFactors - 1)%N else 0%N in
  let factors := take (N.to_nat keep) (ex_factors e) in
  e <| ex_factors := if (size factors <? kMaxExplanationFactors)%N
                     then factors ++ [truncation_marker] else factors |>.

Definition append_named (out name value : string) : string :=
  if is_empty value then out else
  (if is_empty out then out else out +:+ " ") +:+ name +:+ "=" +:+ bounded value.

Definition render_factor (f : ExplanationFactor) : string :=
  let line := "  " in
  let line := if is_empty (ef_code f) then line else line +:+ bounded (ef_code f) in
  let wrote := negb (is_empty (ef_code f)) in
  let line := if is_empty (ef_subject f) then line else
              (if wrote then line +:+ " " else line) +:+ bounded (ef_subject f) in
  let wrote := wrote || negb (is_empty (ef_subject f)) in
  if is_empty (ef_detail f) then line else
  (if wrote then line +:+ ": " else line) +:+ bounded (ef_detail f).

Definition newline : string := String "010" EmptyString.

Definition explanation_describe (e : Explanation) : string :=
  let out := append_named "" "code" (ex_code e) in
  let out := append_named out "subject" (ex_subject e) in
  let out := if is_empty (ex_summary e) then out else
             (if is_empty out then out else out +:+ ": ") +:+ bounded (ex_summary e) in
  let rendered := N.to_nat (N.min (size (ex_factors e)) kMaxExplanationFactors) in
  foldl (λ out f, out +:+ newline +:+ render_factor f) out (take rendered (ex_factors e)).

(** ** Bounds *)

Lemma size_take {A} (n : nat) (l : list A) : size (take n l) = N.min (N.of_nat n) (size l).
Proof. unfold size. rewrite length_take. lia. Qed.

(** An explanation is bounded and never hides a truncation: after
    [bound_factors] at most 64 factors remain, and when any were dropped the
    last one is the truncation marker and the kept ones are the first 63 in
    order. *)
Lemma bound_factors_spec e :
  (size (ex_factors (bound_factors e)) <= kMaxExplanationFactors)%N ∧
  ((kMaxExplanationFactors < size (ex_factors e))%N →
   ex_factors (bound_factors e) = take 63 (ex_factors e) ++ [truncation_marker]) ∧
  ((size (ex_factors e) <= kMaxExplanationFactors)%N → bound_factors e = e).
Proof.
  unfold bound_factors. change (0 <? kMaxExplanationFactors)%N with true. cbn iota zeta.
  destruct (N.leb_spec (size (ex_factors e)) kMaxExplanationFactors) as [Hle|Hgt].
  { split_and!; [done|intros; exfalso; lia|done]. }
  rewrite size_take. change (N.to_nat (kMaxExplanationFactors - 1)) with 63.
  rewrite (proj2 (N.ltb_lt _ _)) by (unfold kMaxExplanationFactors in *; lia).
  split_and!; [|done|intros; exfalso; lia].
  cbn [ex_factors]. unfold upd, upd_ex_factors, size, kMaxExplanationFactors. cbn [ex_factors].
  rewrite length_app, length_take. cbn [length]. lia.
Qed.

Lemma strlen_bounded s : (strlen (bounded s) <= kMaxEncodedStringBytes)%N.
Proof.
  unfold bounded. destruct (N.ltb_spec kMaxEncodedStringBytes (strlen s)) as [H|H]; [|done].
  apply strlen_str_take.
Qed.
