(* ===== verification/Durable.v ===== *)
(** * Durable projection and recovery

    [PersistedState] of [include/cluster_fabric/persistence.hpp],
    [to_persisted_state] and [from_persisted_state] of
    [src/coordinator_engine.cpp], and [load_durable_state] of
    [src/coordinator.cpp]: what a coordinator remembers across a restart and what
    it makes of it.  The store itself is a parameter. *)

From S2P Require Import Prelude Identity Counter Taxonomy Evidence Types State Readiness Domains.
From S2P Require Import Invariant EngineBase EngineRack.

(** ** Status of the durable store *)

Inductive PersistenceStatus :=
  | PS_Ok | PS_EmptyInput | PS_MissingFile | PS_BadMagic | PS_UnsupportedVersion
  | PS_TruncatedHeader | PS_TruncatedBody | PS_ChecksumMismatch | PS_TrailingGarbage
  | PS_InvalidEnum | PS_AbsurdCount | PS_BoundsExceeded | PS_DuplicateRackIdentity
  | PS_DanglingReference | PS_InvalidEpoch | PS_InvalidGeneration | PS_InvalidIdentity
  | PS_InvalidState | PS_PayloadTooLarge | PS_IoError | PS_AtomicReplaceFailed
  | PS_TempFileUnavailable.

#[global] Instance PersistenceStatus_eq_dec : EqDecision PersistenceStatus.
Proof. solve_decision. Defined.

#[global] Program Instance PersistenceStatus_enum : Enum PersistenceStatus := {|
  enumerators := [PS_Ok; PS_EmptyInput; PS_MissingFile; PS_BadMagic; PS_UnsupportedVersion;
    PS_TruncatedHeader; PS_TruncatedBody; PS_ChecksumMismatch;
    PS_TrailingGarbage; PS_InvalidEnum; PS_AbsurdCount; PS_BoundsExceeded;
    PS_DuplicateRackIdentity; PS_DanglingReference; PS_InvalidEpoch;
    PS_InvalidGeneration; PS_InvalidIdentity; PS_InvalidState;
    PS_PayloadTooLarge; PS_IoError; PS_AtomicReplaceFailed;
    PS_TempFileUnavailable]
|}.
Next Obligation. enum_complete. Qed.
Next Obligation. enum_nodup. Qed.

Definition string_of_persistence_status (value : PersistenceStatus) : string :=
  match value with
  | PS_Ok => "OK"
  | PS_EmptyInput => "EMPTY_INPUT"
  | PS_MissingFile => "MISSING_FILE"
  | PS_BadMagic => "BAD_MAGIC"
  | PS_UnsupportedVersion => "UNSUPPORTED_VERSION"
  | PS_TruncatedHeader => "TRUNCATED_HEADER"
  | PS_TruncatedBody => "TRUNCATED_BODY"
  | PS_ChecksumMismatch => "CHECKSUM_MISMATCH"
  | PS_TrailingGarbage => "TRAILING_GARBAGE"
  | PS_InvalidEnum => "INVALID_ENUM"
  | PS_AbsurdCount => "ABSURD_COUNT"
  | PS_BoundsExceeded => "BOUNDS_EXCEEDED"
  | PS_DuplicateRackIdentity => "DUPLICATE_RACK_IDENTITY"
  | PS_DanglingReference => "DANGLING_REFERENCE"
  | PS_InvalidEpoch => "INVALID_EPOCH"
  | PS_InvalidGeneration => "INVALID_GENERATION"
  | PS_InvalidIdentity => "INVALID_IDENTITY"
  | PS_InvalidState => "INVALID_STATE"
  | PS_PayloadTooLarge => "PAYLOAD_TOO_LARGE"
  | PS_IoError => "IO_ERROR"
  | PS_AtomicReplaceFailed => "ATOMIC_REPLACE_FAILED"
  | PS_TempFileUnavailable => "TEMP_FILE_UNAVAILABLE"
  end.

(** ** The durable subset of canonical state *)

Record DurableRack := MkDurable {
  du_rack : RackId;
  du_generation : RackGeneration;
  du_membership : RackMembershipState;
  du_publisher : RackPublisherId;
  du_last_accepted_publication : PublicationGeneration;
  du_last_boot : RackAgentBootId;
  du_composition : RackCompositionSummary;
  du_endpoints : list RackEndpoint;
  du_failure_domain_hints : list RackFailureDomainHint;
  du_rack_lifecycle : RackLifecycleState;
  du_membership_generation : MembershipGeneration;
  du_origin_label : string;
  du_declared_at : Timestamp
}.

Record PersistedState := MkPersisted {
  ps_id : ClusterId;
  ps_epoch : ClusterEpoch;
  ps_last_coordinator_epoch : CoordinatorEpoch;
  ps_generation : ClusterGeneration;
  ps_membership_generation : MembershipGeneration;
  ps_topology_epoch : TopologyEpoch;
  ps_topology_generation : TopologyGeneration;
  ps_connectivity_generation : ConnectivityGeneration;
  ps_health_generation : HealthGeneration;
  ps_constraint_generation : ConstraintGeneration;
  ps_domain_generations : DomainGenerations;
  ps_snapshot_generation : SnapshotGeneration;
  ps_publication_generation : PublicationGeneration;
  ps_lifecycle : ClusterLifecycle;
  ps_readiness_contract : ReadinessContract;
  ps_topology_record : TopologyEpochRecord;
  ps_declared_at : Timestamp;
  ps_last_mutation_at : Timestamp;
  ps_racks : list DurableRack;
  ps_placement_domains : list PlacementDomain;
  ps_capacity_domains : list CapacityDomain;
  ps_failure_domains : list FailureDomain;
  ps_network_domains : list NetworkDomain;
  ps_storage_domains : list StorageDomain;
  ps_power_domains : list PowerDomain;
  ps_cooling_domains : list CoolingDomain;
  ps_link_domains : list LinkDomain;
  ps_links : list InterRackLink;
  ps_constraints : list ClusterConstraint;
  ps_retired_racks : list RetiredIdentity;
  ps_withdrawn_racks : list RackId;
  ps_fenced_authorities : list FencedAuthority
}.

Definition unknown_publisher : RackPublisherId := MkId "cluster-fabric-unknown".

Definition durable_rack (e : RackId * RackRecord) : DurableRack :=
  let ref := rk_reference e.2 in
  MkDurable e.1 (rr_generation ref) (rk_membership e.2)
    (default unknown_publisher (rr_publisher ref)) (rr_publication ref) (rr_boot ref)
    (rr_composition ref) (rr_endpoints ref) (rr_failure_domain_hints ref) (rr_rack_lifecycle ref)
    (rk_membership_generation e.2) (rr_origin_label ref) (ev_observed_at (rk_membership_evidence e.2)).

(** The values of a map, in key order. *)
Definition values {K V} `{Countable K} `{!Less K} (m : gmap K V) : list V := (entries m).*2.

Definition to_persisted_state (s : ClusterState) : PersistedState :=
  MkPersisted (cs_id s) (cs_epoch s) (cs_coordinator_epoch s) (cs_generation s)
    (cs_membership_generation s) (cs_topology_epoch s) (cs_topology_generation s)
    (cs_connectivity_generation s) (cs_health_generation s) (cs_constraint_generation s)
    (cs_domain_generations s) (cs_snapshot_generation s) (cs_publication_generation s)
    (cs_lifecycle s) (cs_readiness_contract s) (cs_topology_record s) (cs_declared_at s)
    (cs_last_mutation_at s) (durable_rack <$> entries (cs_racks s))
    (values (cs_placement_domains s)) (values (cs_capacity_domains s))
    (values (cs_failure_domains s)) (values (cs_network_domains s)) (values (cs_storage_domains s))
    (values (cs_power_domains s)) (values (cs_cooling_domains s)) (values (cs_link_domains s))
    (values (cs_links s)) (values (cs_constraints s)) (cs_retired_racks s) (cs_withdrawn_racks s)
    (cs_fenced_authorities s).

(** ** Recovery *)

Definition recovered_rack (p : PersistedState) (epoch : CoordinatorEpoch) (now : Timestamp)
    (d : DurableRack) : RackRecord :=
  MkRackRecord
    (no_reference
       <| rr_rack := du_rack d |>
       <| rr_generation := du_generation d |>
       <| rr_rack_lifecycle := du_rack_lifecycle d |>
       <| rr_currentness := Cur_RevalidationRequired |>
       <| rr_composition := du_composition d |>
       <| rr_endpoints := du_endpoints d |>
       <| rr_failure_domain_hints := du_failure_domain_hints d |>
       <| rr_evidence :=
            MkStamp Prov_Reconstructed (du_declared_at d) Fresh_RevalidationRequired 0 |>
       <| rr_publisher := Some (du_publisher d) |>
       <| rr_publication := du_last_accepted_publication d |>
       <| rr_boot := du_last_boot d |>
       <| rr_cluster_epoch := ps_epoch p |>
       <| rr_coordinator_epoch := epoch |>
       <| rr_health := Health_Unknown |>
       <| rr_origin_label := du_origin_label d |>)
    (du_membership d) (du_membership_generation d) (ps_generation p)
    (MkStamp Prov_Reconstructed now Fresh_RevalidationRequired 0) false
    "recovered_state_requires_revalidation".

(** The entry pushed for the last incarnation of a rack, unless it is fenced
    already. *)
Definition fence_recovered (now : Timestamp) (fenced : list FencedAuthority) (d : DurableRack) :
    list FencedAuthority :=
  if existsb (λ f, bool_decide (fa_boot f = du_last_boot d)) fenced then fenced
  else fenced ++ [MkFenced (du_last_boot d) (du_rack d) "coordinator_restart" now].

Definition boot_lt (x y : FencedAuthority) : bool := less (fa_boot x) (fa_boot y).

Definition recovered_fenced (p : PersistedState) (now : Timestamp) : list FencedAuthority :=
  sort_by boot_lt (foldl (fence_recovered now) (ps_fenced_authorities p) (ps_racks p)).

(** [insert_or_assign] of each element under its identity. *)
Definition insert_all {tag V} (key : V → StrongId tag) (l : list V) : gmap (StrongId tag) V :=
  foldl (λ m v, <[key v := v]> m) ∅ l.

Definition refresh_header (now : Timestamp) (h : DomainHeader) : DomainHeader :=
  h <| dh_evidence := refresh now (dh_evidence h) |>.

Definition recovered_domains {D tag} `{DomainTraits D tag} (now : Timestamp) (l : list D) :
    gmap (StrongId tag) D :=
  insert_all dt_id (upd dt_header (refresh_header now) <$> l).

Definition recovered_link (l : InterRackLink) : InterRackLink :=
  l <| lk_reachability := Reach_Unknown |>
    <| lk_health := Health_Unknown |>
    <| lk_header := (lk_header l)
         <| dh_evidence := mark_revalidation_required (dh_evidence (lk_header l)) |> |>.

Definition recovered_constraint (now : Timestamp) (c : ClusterConstraint) : ClusterConstraint :=
  upd cc_header (refresh_header now) c.

(** The state before its lifecycle is evaluated; the lifecycle field still has
    its default. *)
Definition recovered_state (p : PersistedState) (epoch : CoordinatorEpoch) (now : Timestamp) :
    ClusterState :=
  MkState (ps_id p) (ps_epoch p) epoch (ps_generation p) (ps_membership_generation p)
    (ps_topology_epoch p) (ps_topology_generation p) (ps_connectivity_generation p)
    (ps_health_generation p) (ps_constraint_generation p) (ps_domain_generations p)
    (ps_snapshot_generation p) (ps_publication_generation p) CL_Declared
    (ps_readiness_contract p) (ps_topology_record p)
    (insert_all (λ r, rr_rack (rk_reference r)) (recovered_rack p epoch now <$> ps_racks p))
    (insert_all lk_id (recovered_link <$> ps_links p))
    (recovered_domains now (ps_placement_domains p)) (recovered_domains now (ps_capacity_domains p))
    (recovered_domains now (ps_failure_domains p)) (recovered_domains now (ps_network_domains p))
    (recovered_domains now (ps_storage_domains p)) (recovered_domains now (ps_power_domains p))
    (recovered_domains now (ps_cooling_domains p)) (recovered_domains now (ps_link_domains p))
    (insert_all cc_id (recovered_constraint now <$> ps_constraints p))
    (recovered_fenced p now) (ps_retired_racks p) (ps_withdrawn_racks p)
    (ps_last_mutation_at p) (ps_declared_at p).

Definition from_persisted_state (p : PersistedState) (epoch : CoordinatorEpoch) (now : Timestamp) :
    ClusterState :=
  let s := recovered_state p epoch now in
  s <| cs_lifecycle := re_lifecycle (evaluate_readiness s) |>.

(** ** Start of a coordinator *)

(** The epoch a coordinator starts with: the successor of the last one, which
    saturates. *)
Definition next_coordinator_epoch (previous : CoordinatorEpoch) : CoordinatorEpoch :=
  if ctr_known previous then default previous (next previous) else MkCtr 1.

(** [PersistenceStore::LoadOutcome], and its [ok()]. *)
Record LoadOutcome := MkLoad {
  lo_status : PersistenceStatus;
  lo_state : option PersistedState;
  lo_message : string
}.

Definition lo_ok (o : LoadOutcome) : option PersistedState :=
  if decide (lo_status o = PS_Ok) then lo_state o else None.

Record RecoveryReport := MkReport {
  rp_attempted : bool;
  rp_loaded : bool;
  rp_status : PersistenceStatus;
  rp_racks_recovered : N;
  rp_domains_recovered : N;
  rp_links_recovered : N;
  rp_retired_recovered : N;
  rp_fenced_recovered : N;
  rp_coordinator_epoch_advanced : bool;
  rp_previous_coordinator_epoch : CoordinatorEpoch;
  rp_current_coordinator_epoch : CoordinatorEpoch;
  rp_revalidation_required : bool;
  rp_notes : list string
}.

Definition load_notes (o : LoadOutcome) : list string :=
  match lo_ok o with
  | Some _ => ["durable state loaded: format version 1"]
  | None =>
      if decide (lo_status o = PS_MissingFile)
      then ["no durable container found; starting a fresh cluster"]
      else ["durable container rejected: " +:+ string_of_persistence_status (lo_status o)] ++
           (if is_empty (lo_message o) then [] else [lo_message o])
  end.

(** The report of a successful recovery. *)
Definition recovery_report (o : LoadOutcome) (p : PersistedState) (epoch : CoordinatorEpoch)
    (now : Timestamp) : RecoveryReport :=
  MkReport true true (lo_status o) (size (ps_racks p))
    (size (ps_placement_domains p) + size (ps_capacity_domains p) + size (ps_failure_domains p) +
     size (ps_network_domains p) + size (ps_storage_domains p) + size (ps_power_domains p) +
     size (ps_cooling_domains p) + size (ps_link_domains p))
    (size (ps_links p)) (size (ps_retired_racks p))
    (size (recovered_fenced p now) - size (ps_fenced_authorities p))
    (bool_decide (epoch ≠ ps_last_coordinator_epoch p)) (ps_last_coordinator_epoch p) epoch
    (negb (bool_decide (ps_racks p = []))) (sort_by less (load_notes o)).

(** A coordinator without durable state. *)
Definition fresh_state (config : CoordinatorConfig) : ClusterState :=
  empty_state <| cs_id := cf_cluster config |>
              <| cs_readiness_contract := cf_readiness_contract config |>
              <| cs_coordinator_epoch := next_coordinator_epoch (MkCtr 1) |>.

(** [load_durable_state]: [load] is what the store answered, if a store is
    attached. *)
Definition load_durable_state (config : CoordinatorConfig) (load : option LoadOutcome)
    (now : Timestamp) : ClusterState * RecoveryReport :=
  match load with
  | None =>
      (fresh_state config,
       MkReport false false PS_Ok 0 0 0 0 0 false no_ctr (next_coordinator_epoch (MkCtr 1)) false [])
  | Some o =>
      match lo_ok o with
      | Some p =>
          let epoch := next_coordinator_epoch (ps_last_coordinator_epoch p) in
          (from_persisted_state p epoch now, recovery_report o p epoch now)
      | None =>
          (fresh_state config,
           MkReport true false (lo_status o) 0 0 0 0 0 false no_ctr
             (next_coordinator_epoch (MkCtr 1)) false (sort_by less (load_notes o)))
      end
  end.
