(* ===== verification/Commit.v ===== *)
(** * The commit path

    [persist_now], [touch_state], [apply_and_commit], [apply_fence] and the
    commit loop of [src/coordinator_engine.cpp]. *)

From S2P Require Import Prelude Identity Counter Taxonomy Evidence Types State Readiness Domains.
From S2P Require Import Invariant RackRef Explain EngineBase EngineRack EngineTopology.
From S2P Require Import EngineCluster Durable.

(** ** The coordinator *)

(** [PersistenceStore::SaveOutcome]: the store is another component; what a
    commit needs from it is whether the save succeeded, and otherwise the
    message and the rendered status. *)
Inductive SaveOutcome :=
  | SaveOk
  | SaveFailed (message status : string).

(** The store attached to a coordinator, if any. *)
Definition Store := option (PersistedState → SaveOutcome).

Record Stats := MkStats {
  st_mutations_accepted : N;
  st_mutations_no_change : N;
  st_mutations_rejected : N;
  st_commits : N;
  st_persistence_saves : N;
  st_persistence_failures : N;
  st_fence_events : N;
  st_stale_replays_rejected : N
}.

#[global] Instance eta_Stats : Eta Stats := λ r,
  MkStats (st_mutations_accepted r) (st_mutations_no_change r) (st_mutations_rejected r)
    (st_commits r) (st_persistence_saves r) (st_persistence_failures r) (st_fence_events r)
    (st_stale_replays_rejected r).
#[global] Instance upd_st_mutations_accepted : Upd st_mutations_accepted := ltac:(derive_upd).
#[global] Instance upd_st_mutations_no_change : Upd st_mutations_no_change := ltac:(derive_upd).
#[global] Instance upd_st_mutations_rejected : Upd st_mutations_rejected := ltac:(derive_upd).
#[global] Instance upd_st_commits : Upd st_commits := ltac:(derive_upd).
#[global] Instance upd_st_persistence_saves : Upd st_persistence_saves := ltac:(derive_upd).
#[global] Instance upd_st_persistence_failures : Upd st_persistence_failures := ltac:(derive_upd).
#[global] Instance upd_st_fence_events : Upd st_fence_events := ltac:(derive_upd).
#[global] Instance upd_st_stale_replays_rejected : Upd st_stale_replays_rejected := ltac:(derive_upd).

(** The part of [ClusterCoordinator::Impl] the commit thread owns. *)
Record Coordinator := MkCoordinator {
  co_config : CoordinatorConfig;
  co_store : Store;
  co_canonical : ClusterState;
  co_state_version : N;
  co_indexes_valid : bool;
  co_stats : Stats
}.

#[global] Instance eta_Coordinator : Eta Coordinator := λ r,
  MkCoordinator (co_config r) (co_store r) (co_canonical r) (co_state_version r)
    (co_indexes_valid r) (co_stats r).
#[global] Instance upd_co_canonical : Upd co_canonical := ltac:(derive_upd).
#[global] Instance upd_co_state_version : Upd co_state_version := ltac:(derive_upd).
#[global] Instance upd_co_indexes_valid : Upd co_indexes_valid := ltac:(derive_upd).
#[global] Instance upd_co_stats : Upd co_stats := ltac:(derive_upd).

Definition set_canonical (s : ClusterState) (c : Coordinator) : Coordinator :=
  c <| co_canonical := s |>.

(** [++counter]. *)
Definition count (field : Stats → N) `{!Upd field} (c : Coordinator) : Coordinator :=
  c <| co_stats := upd field (λ n, (n + 1)%N) (co_stats c) |>.

(** ** Results *)

Definition fill_generations (s : ClusterState) (r : MutationResult) : MutationResult :=
  r <| mr_cluster_epoch := cs_epoch s |>
    <| mr_coordinator_epoch := cs_coordinator_epoch s |>
    <| mr_cluster_generation := cs_generation s |>
    <| mr_membership_generation := cs_membership_generation s |>
    <| mr_topology_epoch := cs_topology_epoch s |>
    <| mr_topology_generation := cs_topology_generation s |>
    <| mr_connectivity_generation := cs_connectivity_generation s |>
    <| mr_health_generation := cs_health_generation s |>
    <| mr_constraint_generation := cs_constraint_generation s |>
    <| mr_snapshot_generation := cs_snapshot_generation s |>
    <| mr_publication_generation := cs_publication_generation s |>
    <| mr_lifecycle := cs_lifecycle s |>.

(** [InvariantReport::describe]. *)
Definition report_describe (violations : list InvariantViolation) : string :=
  match violations with
  | [] => "invariants=ok"
  | _ =>
      foldl (λ out v, out +:+ newline +:+ string_of_invariant_id (vi_id v) +:+ " " +:+
                      vi_subject v +:+ ": " +:+ vi_detail v)
        ("invariants=violated count=" +:+ to_decimal (size violations)) violations
  end.

Definition is_stale_reason (reason : RejectionReason) : bool :=
  match reason with
  | Rej_StaleClusterEpoch | Rej_StaleCoordinatorEpoch | Rej_StaleRackBoot
  | Rej_StaleRackGeneration | Rej_StaleTopologyEpoch | Rej_StalePublication => true
  | _ => false
  end.

(** ** Persistence *)

(** [persist_now]: [None] when the commit may proceed, otherwise the result that
    replaces it. *)
Definition persist_now (c : Coordinator) : Coordinator * option MutationResult :=
  match co_store c with
  | None => (c, None)
  | Some save =>
      if negb (cf_persist_on_commit (co_config c)) then (c, None) else
      match save (to_persisted_state (co_canonical c)) with
      | SaveOk => (count st_persistence_saves c, None)
      | SaveFailed message status =>
          (count st_persistence_failures c,
           Some (rejected Rej_PersistenceFailed ES_Persist "cluster"
                   (if is_empty message then "durable state commit failed" else message) status))
      end
  end.

Definition touch_state (c : Coordinator) : Coordinator :=
  c <| co_state_version := (co_state_version c + 1)%N |> <| co_indexes_valid := false |>.

(** ** Committing a mutation *)

(** The common exit: the result reports the generations of canonical state. *)
Definition finish_with (c : Coordinator) (r : MutationResult) : Coordinator * MutationResult :=
  (c, fill_generations (co_canonical c) r).

(** A refusal after the candidate was built: the journal is rolled back. *)
Definition refuse (ctx : ApplyContext) (c : Coordinator) (r : MutationResult) :
    Coordinator * MutationResult :=
  finish_with
    (count st_mutations_rejected
       (set_canonical (rollback (cx_journal ctx) (co_canonical c)) c)) r.

Definition accepted_result (kind : MutationKind) (s : ClusterState) (r : MutationResult) :
    MutationResult :=
  let name := string_of_mutation_kind kind in
  let r := fill_generations s r in
  let explanation := explanation_make "mutation_accepted" "cluster" (name +:+ " accepted") in
  let explanation := explanation_add name (er_subject (mr_error r))
    ("cluster generation " +:+ ctr_str (cs_generation s) +:+ " lifecycle " +:+
     string_of_cluster_lifecycle (cs_lifecycle s)) explanation in
  r <| mr_outcome := Out_Accepted |>
    <| mr_explanation := bound_factors (sort_factors explanation) |>
    <| mr_error := no_error |>.

(** The verification and publication of a changed candidate. *)
Definition commit_candidate (kind : MutationKind) (now : Timestamp) (ctx : ApplyContext)
    (result : MutationResult) (c : Coordinator) : Coordinator * MutationResult :=
  let s := cx_state ctx in
  let s := s <| cs_lifecycle := re_lifecycle (evaluate_readiness s) |> in
  let c := set_canonical s c in
  let report := check_invariants s None in
  if negb (bool_decide (report = [])) then
    refuse ctx c (rejected Rej_InvariantViolation ES_VerifyInvariants "cluster"
      ("candidate state violated an invariant: " +:+ report_describe report)
      "invariant_violation") else
  match bump (cs_generation s) with
  | None =>
      refuse ctx c (rejected Rej_LimitExceeded ES_Commit "cluster" "cluster generation overflow"
        "generation_overflow")
  | Some g =>
      let c := set_canonical (s <| cs_generation := g |> <| cs_last_mutation_at := now |>) c in
      let '(c, failure) := persist_now c in
      match failure with
      | Some failed => refuse ctx c failed
      | None =>
          let c := count st_mutations_accepted (count st_commits (touch_state c)) in
          (c, accepted_result kind (co_canonical c) result)
      end
  end.

(** The context a mutation is applied in: every scalar is journaled first. *)
Definition initial_context (c : Coordinator) (now : Timestamp) : ApplyContext :=
  record_scalars (MkCtx (co_canonical c) (co_config c) now [] false).

Definition apply_and_commit (now : Timestamp) (request : MutationRequest) (c : Coordinator) :
    Coordinator * MutationResult :=
  let '(ctx, result) := apply_request (initial_context c now) request in
  let undone := set_canonical (rollback (cx_journal ctx) (cx_state ctx)) c in
  if decide (mr_outcome result = Out_Rejected) then
    let c := count st_mutations_rejected undone in
    let c := if is_stale_reason (mr_reason result) then count st_stale_replays_rejected c else c in
    finish_with c result
  else if decide (mr_outcome result = Out_RevalidationRequired) then
    finish_with (count st_mutations_rejected undone) result
  else if negb (cx_changed ctx) then
    finish_with (count st_mutations_no_change undone) result
  else commit_candidate (rq_kind request) now ctx result c.

(** ** Fencing a process incarnation *)

Definition fenced_record (reason : string) (r : RackRecord) : RackRecord :=
  r <| rk_authoritative_current := false |>
    <| rk_reference := (rk_reference r)
         <| rr_currentness := Cur_RevalidationRequired |>
         <| rr_evidence := mark_revalidation_required (rr_evidence (rk_reference r)) |> |>
    <| rk_non_authoritative_reason := reason |>.

Definition fenced_link (link : InterRackLink) : InterRackLink :=
  link <| lk_reachability := Reach_Unknown |>
       <| lk_health := Health_Unknown |>
       <| lk_header := (lk_header link)
            <| dh_evidence := mark_revalidation_required (dh_evidence (lk_header link)) |> |>.

Definition rack_of_boot (boot : RackAgentBootId) (r : RackRecord) : bool :=
  bool_decide (rr_boot (rk_reference r) = boot).

Definition link_of_boot (boot : RackAgentBootId) (link : InterRackLink) : bool :=
  bool_decide (lk_boot link = Some boot).

Definition fenced_lt (x y : FencedAuthority) : bool := less (fa_boot x) (fa_boot y).

(** The entry added for a boot: it names the first rack of that boot. *)
Definition fence_entry (s : ClusterState) (boot : RackAgentBootId) (reason : string)
    (now : Timestamp) : FencedAuthority :=
  let rack := match List.find (λ e, rack_of_boot boot e.2) (entries (cs_racks s)) with
              | Some e => e.1
              | None => MkId "unknown-rack"
              end in
  MkFenced boot rack reason now.

Definition fence_boot_entry (boot : RackAgentBootId) (reason : string) (now : Timestamp)
    (ctx : ApplyContext) : ApplyContext :=
  if is_boot_fenced (cx_state ctx) boot then ctx else
  set_state (λ s, s <| cs_fenced_authorities :=
    sort_by fenced_lt (cs_fenced_authorities s ++ [fence_entry s boot reason now]) |>)
    (record_scalars ctx).

(** The two loops of [apply_fence]. *)
Definition fence_records (boot : RackAgentBootId) (reason : string) (ctx : ApplyContext) :
    ApplyContext :=
  rewrite_links (link_of_boot boot) fenced_link
    (rewrite_racks (rack_of_boot boot) (fenced_record reason) ctx).

(** Whether any record was published by the boot. *)
Definition boot_in_use (s : ClusterState) (boot : RackAgentBootId) : bool :=
  existsb (λ e, rack_of_boot boot e.2) (entries (cs_racks s)) ||
  existsb (λ e, link_of_boot boot e.2) (entries (cs_links s)).

(** The lifecycle, counters and save of a fence whose records are rewritten. *)
Definition publish_fence (later : Timestamp) (ctx : ApplyContext) (c : Coordinator) : Coordinator :=
  let ctx := record_scalars ctx in
  let s := cx_state ctx in
  let s := s <| cs_lifecycle := re_lifecycle (evaluate_readiness s) |> in
  match bump (cs_generation s), bump (cs_health_generation s) with
  | Some g, Some h =>
      let c := set_canonical (s <| cs_generation := g |> <| cs_health_generation := h |>
                                <| cs_last_mutation_at := later |>) c in
      let '(c, failure) := persist_now c in
      match failure with
      | Some _ => set_canonical (rollback (cx_journal ctx) (co_canonical c)) c
      | None => count st_fence_events (count st_commits (touch_state c))
      end
  | _, _ => set_canonical (rollback (cx_journal ctx) s) c
  end.

(** [now] and [later] are the two readings of the clock. *)
Definition apply_fence (now later : Timestamp) (boot : RackAgentBootId) (reason : string)
    (c : Coordinator) : Coordinator :=
  if negb (boot_in_use (co_canonical c) boot) then c else
  let ctx := MkCtx (co_canonical c) (co_config c) now [] false in
  publish_fence later (fence_boot_entry boot reason now (fence_records boot reason ctx)) c.

(** ** The commit loop

    The queue holds the submitted mutations and fences in arrival order; one
    thread takes them one at a time, so the canonical state is the fold of the
    items over the initial state. *)

Inductive QueueItem :=
  | QMutation (now : Timestamp) (request : MutationRequest)
  | QFence (now later : Timestamp) (boot : RackAgentBootId) (reason : string)
  | QStop.

Fixpoint run_commit (items : list QueueItem) (c : Coordinator) :
    Coordinator * list MutationResult :=
  match items with
  | [] => (c, [])
  | QStop :: _ => (c, [])
  | QFence now later boot reason :: rest => run_commit rest (apply_fence now later boot reason c)
  | QMutation now request :: rest =>
      let '(c, result) := apply_and_commit now request c in
      let '(c, results) := run_commit rest c in
      (c, result :: results)
  end.
