(* ===== verification/Scenario.v ===== *)
(** * A concrete coordinator run

    A small cluster, built by submitting requests to the model, on which the
    theorems of the development are instantiated. *)

From S2P Require Import Prelude Identity Counter Taxonomy Evidence Types State Readiness Domains.
From S2P Require Import Indexes Invariant RackRef Explain EngineBase EngineRack EngineTopology.
From S2P Require Import EngineCluster Durable Commit.

Definition t0 : Timestamp := MkTs 1000000.
Definition demo_cluster : ClusterId := MkId "demo".
Definition rack_a : RackId := MkId "rack-a".
Definition rack_b : RackId := MkId "rack-b".
Definition boot_a : RackAgentBootId := MkId "boot-a".
Definition boot_b : RackAgentBootId := MkId "boot-b".
Definition boot_c : RackAgentBootId := MkId "boot-c".
Definition owner : RackPublisherId := MkId "owner".
Definition link_ab : InterRackLinkId := MkId "link-ab".
Definition row_1 : FailureDomainId := MkId "row-1".

Definition fresh : EvidenceStamp := stamp_make Prov_Measured t0 30000.

Definition no_authority : MutationAuthority :=
  MkAuthority no_ctr no_ctr no_ctr no_ctr None None None None no_ctr.

Definition request (kind : MutationKind) (authority : MutationAuthority) : MutationRequest :=
  MkRequest kind demo_cluster authority fresh "operator" t0 CL_Declared default_contract
    no_reference Mem_Unknown None None None None None None None None None None None None None
    None "" Health_Unknown Reach_Unknown "" [].

(** The authority of a process: current epochs, a boot and a publication. *)
Definition authority_of (boot : RackAgentBootId) (rack : RackId) (publication : N) :
    MutationAuthority :=
  MkAuthority (MkCtr 1) (MkCtr 2) (MkCtr 1) (MkCtr 1) (Some boot) (Some owner) (Some rack)
    (Some (MkCtr 1)) (MkCtr publication).

Definition operator : MutationAuthority :=
  MkAuthority (MkCtr 1) (MkCtr 2) (MkCtr 1) (MkCtr 1) None None None None no_ctr.

Definition reference_of (rack : RackId) (boot : RackAgentBootId) (publication : N) :
    RackReference :=
  MkReference rack (MkCtr 1) RL_Ready Cur_Unknown no_composition [] [] fresh (Some owner)
    (MkCtr publication) boot (MkCtr 1) (MkCtr 1) Health_Healthy "rack-fabric".

Definition declare : MutationRequest := request MK_DeclareCluster no_authority.

Definition register_rack (rack : RackId) (boot : RackAgentBootId) : MutationRequest :=
  request MK_RegisterRackPublisher (authority_of boot rack 1).

Definition add_rack (rack : RackId) (boot : RackAgentBootId) (publication : N) : MutationRequest :=
  (request MK_AddRack (authority_of boot rack publication))
    <| rq_rack_reference := reference_of rack boot publication |>.

Definition header_of (generation : N) : DomainHeader :=
  MkHeader fresh (MkCtr generation) (Some owner) (MkCtr 1) (MkCtr 1) "".

Definition add_row : MutationRequest :=
  (request MK_PublishFailureDomain operator)
    <| rq_failure_domain := Some (MkFailure row_1 FD_Row [rack_b; rack_a; rack_b] (header_of 1)) |>.

Definition the_link : InterRackLink :=
  MkLink link_ab rack_a rack_b Dir_Bidirectional Conn_SwitchedFabric None None None None
    BW_High None Lat_Low None None Reach_Reachable Health_Healthy [row_1] (header_of 1)
    (MkCtr 1) (MkCtr 1) (MkCtr 1) (Some boot_a).

Definition add_link : MutationRequest :=
  (request MK_PublishInterRackLink operator) <| rq_link := Some the_link |>.

Definition no_stats : Stats := MkStats 0 0 0 0 0 0 0 0.

(** A coordinator that found no durable container. *)
Definition start_state : ClusterState :=
  fst (load_durable_state (default_config demo_cluster default_contract)
         (Some (MkLoad PS_MissingFile None "")) t0).

Definition start : Coordinator :=
  MkCoordinator (default_config demo_cluster default_contract) (Some (λ _, SaveOk)) start_state 0
    false no_stats.

Definition mutate (request : MutationRequest) : QueueItem := QMutation t0 request.

Definition history : list QueueItem :=
  mutate <$> [declare; register_rack rack_a boot_a; add_rack rack_a boot_a 2;
              add_rack rack_b boot_b 1; add_row; add_link].

Definition demo : Coordinator := fst (run_commit history start).
Definition demo_state : ClusterState := co_canonical demo.
