(* ===== verification/Witnesses.v ===== *)
(** * Instances of the state-level theorems

    The theorems about single states, applied at the state of the concrete run:
    two racks that share the failure domain [row-1] and a link between them. *)

From S2P Require Import Prelude Identity Counter Taxonomy Evidence Types State Readiness Domains.
From S2P Require Import Indexes Invariant Queries RackRef Explain EngineBase EngineRack.
From S2P Require Import EngineTopology EngineCluster Durable Commit Scenario.

Lemma rebuild_passes_invariants_witness :
  check_invariants demo_state (Some (rebuild demo_state)) = [].
Proof. refine (rebuild_passes_invariants demo_state _). vm_compute. reflexivity. Defined.

Lemma failure_domain_independence_correct_witness :
  failure_domain_independence demo_state (rebuild demo_state) rack_a rack_b FD_Row = Indep_Shared
  ↔ share_domain demo_state rack_a rack_b FD_Row.
Proof.
  refine (proj1 (failure_domain_independence_correct demo_state rack_a rack_b FD_Row _ _ _ _));
    [vm_compute; reflexivity|discriminate|vm_compute; reflexivity|vm_compute; reflexivity].
Defined.

(** The run's answers, evaluated. *)
Example demo_row_shared :
  failure_domain_independence demo_state (rebuild demo_state) rack_a rack_b FD_Row = Indep_Shared.
Proof. vm_compute. reflexivity. Qed.

Example demo_reachable :
  reachability_between demo_state rack_a rack_b = Reach_Reachable.
Proof. vm_compute. reflexivity. Qed.
