(* ===== verification/CommitProofs.v ===== *)
(** * Correctness of the commit path

    Atomicity: a mutation either publishes a candidate that passed the
    invariant check with the cluster generation advanced by one, or leaves
    canonical state as it was.  Preservation of the invariants by every commit
    and by every fence. *)

From S2P Require Import Prelude Identity Counter Taxonomy Evidence Types State Readiness Domains.
From S2P Require Import Indexes Invariant RackRef Explain EngineBase EngineRack EngineTopology.
From S2P Require Import EngineCluster Rollback Durable Commit Scenario.

#[local] Opaque evaluate_readiness check_invariants.

(** ** Decomposition of a commit *)

(** The candidate state the invariants are checked on. *)
Definition candidate (ctx : ApplyContext) : ClusterState :=
  (cx_state ctx) <| cs_lifecycle := re_lifecycle (evaluate_readiness (cx_state ctx)) |>.

(** The published state. *)
Definition published (ctx : ApplyContext) (g : ClusterGeneration) (now : Timestamp) : ClusterState :=
  (candidate ctx) <| cs_generation := g |> <| cs_last_mutation_at := now |>.

(** A mutation that may change the identity of the cluster: its first
    declaration. *)
Definition first_declaration (c : Coordinator) (req : MutationRequest) : Prop :=
  rq_kind req = MK_DeclareCluster ∧ ctr_known (cs_epoch (co_canonical c)) = false.

Lemma persist_now_frame c c' r :
  persist_now c = (c', r) →
  co_canonical c' = co_canonical c ∧ co_config c' = co_config c ∧ co_store c' = co_store c.
Proof. unfold persist_now. repeat case_match; intros; by simplify_eq. Qed.

Lemma persist_now_rejects c c' r :
  persist_now c = (c', Some r) → mr_outcome r = Out_Rejected.
Proof. unfold persist_now. repeat case_match; intros; by simplify_eq. Qed.

Lemma same_maps_scalars ctx g now :
  same_maps (published ctx g now) (cx_state ctx) ∧ same_maps (candidate ctx) (cx_state ctx).
Proof. by split; split. Qed.

(** The durable store, when commits are persisted, holds the state. *)
Definition saved (c : Coordinator) (s : ClusterState) : Prop :=
  ∀ save, co_store c = Some save → cf_persist_on_commit (co_config c) = true →
    save (to_persisted_state s) = SaveOk.

Lemma persist_now_saved c c' s :
  persist_now (set_canonical s c) = (c', None) → saved c s.
Proof.
  unfold persist_now, saved. cbn. intros Hp save Hs Hc. rewrite Hs, Hc in Hp. cbn in Hp.
  destruct (save (to_persisted_state s)); [done|by simplify_eq].
Qed.

Inductive commit_outcome (now : Timestamp) (req : MutationRequest) (c : Coordinator) :
    Coordinator → MutationResult → Prop :=
  | commit_refused c' r ctx res :
      apply_request (initial_context c now) req = (ctx, res) →
      mr_outcome r ≠ Out_Accepted →
      co_canonical c' = (co_canonical c) <| cs_id := cs_id (cx_state ctx) |> →
      co_config c' = co_config c → co_store c' = co_store c →
      commit_outcome now req c c' r
  | commit_published c' r ctx res g :
      apply_request (initial_context c now) req = (ctx, res) →
      cx_changed ctx = true → mr_outcome r = Out_Accepted →
      check_invariants (candidate ctx) None = [] →
      bump (cs_generation (cx_state ctx)) = Some g →
      co_canonical c' = published ctx g now →
      co_config c' = co_config c → co_store c' = co_store c → saved c (published ctx g now) →
      commit_outcome now req c c' r.

Lemma rejected_outcome reason stage subject detail reason_code :
  mr_outcome (rejected reason stage subject detail reason_code) = Out_Rejected.
Proof. done. Qed.

Lemma journaled_request c now req ctx res :
  apply_request (initial_context c now) req = (ctx, res) → journaled (co_canonical c) ctx.
Proof.
  intros E. pose proof (journaled_apply_request (co_canonical c) (initial_context c now) req) as H.
  rewrite E in H. apply H, journaled_initial.
Qed.

Lemma refuse_outcome now req c c0 ctx res r s :
  apply_request (initial_context c now) req = (ctx, res) →
  mr_outcome r ≠ Out_Accepted → same_maps s (cx_state ctx) → cs_id s = cs_id (cx_state ctx) →
  co_canonical c0 = s → co_config c0 = co_config c → co_store c0 = co_store c →
  commit_outcome now req c (fst (refuse ctx c0 r)) (snd (refuse ctx c0 r)).
Proof.
  intros E Hr Hs Hid <- Hc Hst. eapply commit_refused; [done|done| |done|done]. simpl.
  rewrite <- Hid. apply (rollback_journaled_after _ ctx); [by eapply journaled_request|done].
Qed.

Lemma commit_candidate_outcome now req c ctx res :
  apply_request (initial_context c now) req = (ctx, res) → cx_changed ctx = true →
  commit_outcome now req c (fst (commit_candidate (rq_kind req) now ctx res c))
    (snd (commit_candidate (rq_kind req) now ctx res c)).
Proof.
  intros E Hch. unfold commit_candidate. fold (candidate ctx).
  destruct (bool_decide (check_invariants (candidate ctx) None = [])) eqn:Hinv; cbn [negb].
  2: { eapply refuse_outcome; [done|done|apply (same_maps_scalars ctx no_ctr now)|done..]. }
  split_bools. change (cs_generation (candidate ctx)) with (cs_generation (cx_state ctx)).
  destruct (bump (cs_generation (cx_state ctx))) as [g|] eqn:Hg.
  2: { eapply refuse_outcome; [done|done|apply (same_maps_scalars ctx no_ctr now)|done..]. }
  fold (published ctx g now).
  destruct (persist_now _) as [c1 [failed|]] eqn:Hp;
    pose proof (persist_now_frame _ _ _ Hp) as (Hc1&Hcf&Hst).
  - apply (refuse_outcome now req c c1 ctx res failed (published ctx g now)); try done;
      by rewrite (persist_now_rejects _ _ _ Hp).
  - eapply commit_published; try done. by eapply persist_now_saved.
Qed.

(** Every run of [apply_and_commit] is one of the two. *)
(** A handler that accepts has changed something. *)
Lemma accepted_changes now req c ctx res :
  apply_request (initial_context c now) req = (ctx, res) → mr_outcome res = Out_Accepted →
  cx_changed ctx = true.
Proof.
  intros E Hacc. destruct (cx_changed ctx) eqn:Hch; [done|exfalso].
  destruct (decide (rq_kind req ≠ MK_DeclareCluster ∨
              ctr_known (cs_epoch (co_canonical c)) = true)) as [Hk|Hk].
  - pose proof (handled_apply_request (initial_context c now) req Hk) as [Hc _ _ _ _ _].
    rewrite E in Hc. simpl in Hc. rewrite (Hc Hacc) in Hch. discriminate.
  - assert (rq_kind req = MK_DeclareCluster) as Hd
      by (destruct (decide (rq_kind req = MK_DeclareCluster)); [done|naive_solver]).
    assert (ctr_known (cs_epoch (co_canonical c)) = false) as He
      by (apply not_true_is_false; naive_solver).
    destruct (is_valid_id (id_value (rq_cluster req))) eqn:Hv.
    + rewrite apply_request_declare in E by done. by simplify_eq/=.
    + destruct (apply_request_declare_invalid (initial_context c now) req Hd Hv) as (r&Hr&Ho').
      rewrite Hr in E. simplify_eq. congruence.
Qed.

Lemma apply_and_commit_outcome now req c :
  commit_outcome now req c (fst (apply_and_commit now req c)) (snd (apply_and_commit now req c)).
Proof.
  unfold apply_and_commit. destruct (apply_request (initial_context c now) req) as [ctx res] eqn:E.
  pose proof (rollback_journaled _ ctx (journaled_request _ _ _ _ _ E)) as Hroll.
  case_decide as Ho; [|case_decide as Ho2; [|destruct (cx_changed ctx) eqn:Hch; cbn [negb]]].
  - eapply commit_refused; [done| |..]; try (destruct (is_stale_reason _); done).
    simpl. by rewrite Ho.
  - eapply commit_refused; [done| |..]; try done. simpl. by rewrite Ho2.
  - by apply commit_candidate_outcome.
  - eapply commit_refused; [done| |..]; try done. simpl. intros Hacc.
    by rewrite (accepted_changes _ _ _ _ _ E Hacc) in Hch.
Qed.

(** The identity only changes with the first declaration. *)
Lemma request_identity c now req ctx res :
  apply_request (initial_context c now) req = (ctx, res) → ¬ first_declaration c req →
  cs_id (cx_state ctx) = cs_id (co_canonical c).
Proof.
  intros E Hf.
  assert (rq_kind req ≠ MK_DeclareCluster ∨ ctr_known (cs_epoch (co_canonical c)) = true) as Hk.
  { unfold first_declaration in Hf. destruct (decide (rq_kind req = MK_DeclareCluster)); [|auto].
    right. destruct (ctr_known _); naive_solver. }
  pose proof (handled_apply_request (initial_context c now) req Hk) as [_ _ _ Hid _ _].
  by rewrite E in Hid.
Qed.

Lemma upd_id_same s : s <| cs_id := cs_id s |> = s.
Proof. by destruct s. Qed.



(** ** Preservation of the invariants by commits *)

(** Advancing the cluster generation and the time of the last mutation keeps
    every invariant. *)
Lemma invariants_bump s g now :
  bump (cs_generation s) = Some g → invariants_hold s →
  invariants_hold (s <| cs_generation := g |> <| cs_last_mutation_at := now |>).
Proof.
  intros Hg [Hn|Hv]; [by left|right].
  pose proof (next_known _ _ Hg) as Hk. apply bump_Some in Hg.
  unfold state_violations in *. apply app_nil in Hv as [Hc Hrest]. apply app_nil. split; [|exact Hrest].
  unfold cluster_violations in *. rewrite !app_nil, !viol_nil in *. simpl. rewrite Hk.
  destruct Hc as (?&?&?&?&?&?&?&?&?&Hm&Ht). rewrite N.ltb_ge in *.
  split_and!; try assumption; try reflexivity; rewrite ?N.ltb_ge; lia.
Qed.

Lemma nothing_recorded_cluster s i :
  nothing_recorded (s <| cs_id := i |>) = nothing_recorded s.
Proof. done. Qed.

Lemma ctr_known_false {tag} (c : StrongCounter tag) : ctr_known c = false → c = no_ctr.
Proof. unfold ctr_known. intros H%negb_false_iff%N.eqb_eq. by apply ctr_eq. Qed.

(** A state without a cluster epoch that holds the invariants is empty. *)
Lemma undeclared_empty s :
  invariants_hold s → ctr_known (cs_epoch s) = false → nothing_recorded s = true.
Proof.
  intros [Hn|Hv] He; [done|]. exfalso. unfold state_violations, cluster_violations in Hv.
  split_nil. split_bools. congruence.
Qed.

Lemma commit_preserves_invariants_aux now req c c' r :
  commit_outcome now req c c' r → invariants_hold (co_canonical c) →
  invariants_hold (co_canonical c').
Proof.
  intros Ho Hinv. destruct Ho as [c' r ctx res E Hr Hc _ _|c' r ctx res g E Hch Hr Hi Hg Hc _ _ _].
  - rewrite Hc. destruct (decide (rq_kind req = MK_DeclareCluster ∧
      ctr_known (cs_epoch (co_canonical c)) = false)) as [[Hd He]|Hn].
    + left. rewrite nothing_recorded_cluster. by apply undeclared_empty.
    + rewrite (request_identity _ _ _ _ _ E Hn), upd_id_same. done.
  - rewrite Hc. apply (invariants_bump (candidate ctx)); [done|]. by apply check_invariants_spec.
Qed.

(** ** Preservation of the invariants by fences

    [apply_fence] publishes its state without running the invariant check; it
    preserves the invariants nevertheless. *)

(** What a rewriting loop leaves in its map. *)
Lemma rewrite_fold_lookup {tag V} (member : ClusterState → gmap (StrongId tag) V)
    `{!Upd member, !MapMember member} (visit : V → bool) (f : V → V) ctx l k :
  NoDup l.*1 →
  member (cx_state (foldl (λ ctx e, if visit e.2 then record_insert member e.1 (f e.2) ctx else ctx)
                      ctx l)) !! k =
  match (list_to_map l : gmap (StrongId tag) V) !! k with
  | Some v => if visit v then Some (f v) else member (cx_state ctx) !! k
  | None => member (cx_state ctx) !! k
  end.
Proof.
  revert ctx. induction l as [|[k0 v0] l IH]; intros ctx Hnd; simpl; [by rewrite lookup_empty|].
  apply NoDup_cons in Hnd as [Hni Hnd]. rewrite IH by done.
  assert (∀ k, member (cx_state (if visit v0 then record_insert member k0 (f v0) ctx else ctx)) !! k =
    if decide (k = k0) then if visit v0 then Some (f v0) else member (cx_state ctx) !! k
    else member (cx_state ctx) !! k) as Hstep.
  { intros k'. destruct (visit v0); [|by case_decide]. simpl. rewrite mm_get.
    case_decide; subst; [by rewrite lookup_insert_eq|by rewrite lookup_insert_ne]. }
  rewrite !Hstep. destruct (decide (k = k0)) as [->|Hne].
  - rewrite (not_elem_of_list_to_map_1 l k0) by done. by rewrite lookup_insert_eq.
  - by rewrite lookup_insert_ne by done.
Qed.

Lemma rewrite_racks_lookup visit f ctx k :
  cs_racks (cx_state (rewrite_racks visit f ctx)) !! k =
  (λ r, if visit r then f r else r) <$> cs_racks (cx_state ctx) !! k.
Proof.
  unfold rewrite_racks. rewrite (rewrite_fold_lookup cs_racks) by apply NoDup_entries_keys.
  rewrite list_to_map_entries. by destruct (cs_racks (cx_state ctx) !! k) as [r|]; simpl;
    [destruct (visit r)|].
Qed.

Lemma rewrite_links_lookup visit f ctx k :
  cs_links (cx_state (rewrite_links visit f ctx)) !! k =
  (λ l, if visit l then f l else l) <$> cs_links (cx_state ctx) !! k.
Proof.
  unfold rewrite_links. rewrite (rewrite_fold_lookup cs_links) by apply NoDup_entries_keys.
  rewrite list_to_map_entries. by destruct (cs_links (cx_state ctx) !! k) as [l|]; simpl;
    [destruct (visit l)|].
Qed.

(** The state after a loop over the racks, resp. over the links. *)
Lemma rewrite_racks_state visit f ctx :
  cx_state (rewrite_racks visit f ctx) =
  (cx_state ctx) <| cs_racks := (λ r, if visit r then f r else r) <$> cs_racks (cx_state ctx) |>.
Proof.
  assert (∀ l ctx0, ∃ m, cx_state (foldl (λ ctx e,
    if visit e.2 then record_insert cs_racks e.1 (f e.2) ctx else ctx) ctx0 l) =
    (cx_state ctx0) <| cs_racks := m |>) as Hex.
  { induction l as [|e l IH]; intros ctx0; simpl.
    - exists (cs_racks (cx_state ctx0)). by destruct (cx_state ctx0).
    - destruct (IH (if visit e.2 then record_insert cs_racks e.1 (f e.2) ctx0 else ctx0)) as [m Hm].
      exists m. rewrite Hm. by destruct (visit e.2). }
  destruct (Hex (entries (cs_racks (cx_state ctx))) ctx) as [m Hm].
  assert (m = (λ r, if visit r then f r else r) <$> cs_racks (cx_state ctx)) as <-; [|done].
  apply map_eq. intros k. rewrite lookup_fmap, <- rewrite_racks_lookup.
  unfold rewrite_racks. by rewrite Hm.
Qed.

Lemma rewrite_links_state visit f ctx :
  cx_state (rewrite_links visit f ctx) =
  (cx_state ctx) <| cs_links := (λ l, if visit l then f l else l) <$> cs_links (cx_state ctx) |>.
Proof.
  assert (∀ l ctx0, ∃ m, cx_state (foldl (λ ctx e,
    if visit e.2 then record_insert cs_links e.1 (f e.2) ctx else ctx) ctx0 l) =
    (cx_state ctx0) <| cs_links := m |>) as Hex.
  { induction l as [|e l IH]; intros ctx0; simpl.
    - exists (cs_links (cx_state ctx0)). by destruct (cx_state ctx0).
    - destruct (IH (if visit e.2 then record_insert cs_links e.1 (f e.2) ctx0 else ctx0)) as [m Hm].
      exists m. rewrite Hm. by destruct (visit e.2). }
  destruct (Hex (entries (cs_links (cx_state ctx))) ctx) as [m Hm].
  assert (m = (λ l, if visit l then f l else l) <$> cs_links (cx_state ctx)) as <-; [|done].
  apply map_eq. intros k. rewrite lookup_fmap, <- rewrite_links_lookup.
  unfold rewrite_links. by rewrite Hm.
Qed.

(** The state a fence publishes: the records of the boot stop being
    authoritative and the boot joins the fenced list. *)
Definition fence_racks (boot : RackAgentBootId) (reason : string) (s : ClusterState) :
    ClusterState :=
  s <| cs_racks := (λ r, if rack_of_boot boot r then fenced_record reason r else r) <$> cs_racks s |>
    <| cs_links := (λ l, if link_of_boot boot l then fenced_link l else l) <$> cs_links s |>.

Definition fence_list (boot : RackAgentBootId) (reason : string) (now : Timestamp)
    (s : ClusterState) : ClusterState :=
  if is_boot_fenced s boot then s else
  s <| cs_fenced_authorities :=
         sort_by fenced_lt (cs_fenced_authorities s ++ [fence_entry s boot reason now]) |>.

Definition fenced_state (boot : RackAgentBootId) (reason : string) (now : Timestamp)
    (s : ClusterState) : ClusterState := fence_list boot reason now (fence_racks boot reason s).

Lemma fence_records_state boot reason ctx :
  cx_state (fence_records boot reason ctx) = fence_racks boot reason (cx_state ctx).
Proof. unfold fence_records. by rewrite rewrite_links_state, rewrite_racks_state. Qed.

Lemma fence_boot_entry_state boot reason now ctx :
  cx_state (fence_boot_entry boot reason now ctx) = fence_list boot reason now (cx_state ctx).
Proof. unfold fence_boot_entry, fence_list. by destruct (is_boot_fenced (cx_state ctx) boot). Qed.

(** The state a fence publishes, with its lifecycle and counters. *)
Definition fence_candidate (boot : RackAgentBootId) (reason : string) (now : Timestamp)
    (s : ClusterState) : ClusterState :=
  (fenced_state boot reason now s)
    <| cs_lifecycle := re_lifecycle (evaluate_readiness (fenced_state boot reason now s)) |>.

Definition fence_published (boot : RackAgentBootId) (reason : string) (now later : Timestamp)
    (g : ClusterGeneration) (h : HealthGeneration) (s : ClusterState) : ClusterState :=
  (fence_candidate boot reason now s)
    <| cs_generation := g |> <| cs_health_generation := h |> <| cs_last_mutation_at := later |>.

Inductive fence_outcome (now later : Timestamp) (boot : RackAgentBootId) (reason : string)
    (c : Coordinator) : Coordinator → Prop :=
  | fence_no_effect c' :
      co_canonical c' = co_canonical c → co_config c' = co_config c → co_store c' = co_store c →
      fence_outcome now later boot reason c c'
  | fence_effect c' g h :
      boot_in_use (co_canonical c) boot = true →
      bump (cs_generation (co_canonical c)) = Some g →
      bump (cs_health_generation (co_canonical c)) = Some h →
      co_canonical c' = fence_published boot reason now later g h (co_canonical c) →
      co_config c' = co_config c → co_store c' = co_store c → saved c (co_canonical c') →
      fence_outcome now later boot reason c c'.

Lemma restore_captured s s' :
  same_maps s' s → cs_id s' = cs_id s → restore_scalars (capture_scalars s) s' = s.
Proof. intros [] Hid. destruct s, s'. simpl in *. by simplify_eq. Qed.

Lemma restore_twice a b s : restore_scalars a (restore_scalars b s) = restore_scalars a s.
Proof. done. Qed.

(** The journal of a fence gives back the state it started from, whatever
    scalars were assigned in between. *)
Lemma fence_rollback s0 config now boot reason s :
  same_maps s (fence_racks boot reason s0) → cs_id s = cs_id s0 →
  rollback (cx_journal (record_scalars (fence_boot_entry boot reason now
    (fence_records boot reason (MkCtx s0 config now [] false))))) s = s0.
Proof.
  intros Hs Hid. set (ctx := fence_records boot reason (MkCtx s0 config now [] false)).
  assert (rollback (cx_journal ctx) (cx_state ctx) = s0) as Hbase.
  { unfold ctx, fence_records, rewrite_links. rewrite (rollback_fold cs_links).
    unfold rewrite_racks. by rewrite (rollback_fold cs_racks). }
  assert (cx_state ctx = fence_racks boot reason s0) as Hst by apply fence_records_state.
  rewrite <- Hst in Hs.
  assert (cs_id s = cs_id (cx_state ctx)) as Hid' by (by rewrite Hst).
  clearbody ctx. rewrite <- Hbase. unfold fence_boot_entry.
  destruct (is_boot_fenced (cx_state ctx) boot); unfold record_scalars, rollback; simpl; f_equal;
    rewrite ?restore_twice; by apply restore_captured.
Qed.

(** The publication of a fence, for any context whose journal restores the state
    of the coordinator. *)
Lemma publish_fence_outcome later ctx c st :
  cx_state ctx = st →
  (∀ s, same_maps s st → cs_id s = cs_id st →
     rollback (cx_journal (record_scalars ctx)) s = co_canonical c) →
  let st' := st <| cs_lifecycle := re_lifecycle (evaluate_readiness st) |> in
  let c' := publish_fence later ctx c in
  co_config c' = co_config c ∧ co_store c' = co_store c ∧
  (co_canonical c' = co_canonical c ∨
   ∃ g h, bump (cs_generation st) = Some g ∧ bump (cs_health_generation st) = Some h ∧
     co_canonical c' = st' <| cs_generation := g |> <| cs_health_generation := h |>
                           <| cs_last_mutation_at := later |> ∧ saved c (co_canonical c')).
Proof.
  intros <- Hroll. unfold publish_fence. cbn [record_scalars cx_state].
  change (cx_state (record_scalars ctx)) with (cx_state ctx).
  set (st' := (cx_state ctx) <| cs_lifecycle := _ |>).
  assert (same_maps st' (cx_state ctx)) as Hm by (by split).
  assert (cs_id st' = cs_id (cx_state ctx)) as Hid by done.
  assert (cs_generation st' = cs_generation (cx_state ctx)) as Hg by done.
  assert (cs_health_generation st' = cs_health_generation (cx_state ctx)) as Hh by done.
  clearbody st'. rewrite Hg, Hh.
  destruct (bump (cs_generation (cx_state ctx))) as [g|];
    [destruct (bump (cs_health_generation (cx_state ctx))) as [h|]|].
  - destruct (persist_now _) as [c1 [failed|]] eqn:Hp;
      pose proof (persist_now_frame _ _ _ Hp) as (Hc1&Hcf&Hst1); simpl in *.
    + split_and!; [done|done|]. left. rewrite Hc1. apply Hroll; [|done].
      destruct Hm. by split.
    + split_and!; [done|done|]. right. exists g, h. split_and!; [done..|].
      rewrite Hc1. by eapply persist_now_saved.
  - split_and!; [done|done|]. left. by apply Hroll.
  - split_and!; [done|done|]. left. by apply Hroll.
Qed.

Lemma fenced_state_frame boot reason now s :
  cs_generation (fenced_state boot reason now s) = cs_generation s ∧
  cs_health_generation (fenced_state boot reason now s) = cs_health_generation s ∧
  cs_id (fenced_state boot reason now s) = cs_id s ∧
  same_maps (fenced_state boot reason now s) (fence_racks boot reason s).
Proof.
  unfold fenced_state, fence_list.
  destruct (is_boot_fenced _ boot); split_and!; try reflexivity; by split.
Qed.

Lemma apply_fence_outcome now later boot reason c :
  fence_outcome now later boot reason c (apply_fence now later boot reason c).
Proof.
  unfold apply_fence. destruct (boot_in_use (co_canonical c) boot) eqn:Hb; cbn [negb];
    [|by apply fence_no_effect].
  destruct (fenced_state_frame boot reason now (co_canonical c)) as (Hg&Hh&Hid&Hm).
  edestruct (publish_fence_outcome later (fence_boot_entry boot reason now (fence_records boot reason
    (MkCtx (co_canonical c) (co_config c) now [] false))) c
    (fenced_state boot reason now (co_canonical c))) as (Hcf&Hst&[Hs|(g&h&Eg&Eh&Hs&Hsv)]).
  - rewrite fence_boot_entry_state, fence_records_state. done.
  - intros s Hsm Hids. apply fence_rollback; [by rewrite <- Hm|congruence].
  - by apply fence_no_effect.
  - rewrite Hg in Eg. rewrite Hh in Eh. by eapply fence_effect.
Qed.
