(* ===== verification/FenceProofs.v ===== *)
(** * Fences preserve the invariants

    [apply_fence] of [src/coordinator_engine.cpp] publishes its state without
    running the invariant check.  The check would pass: this file shows, group
    of checks by group of checks, that the state a fence publishes holds every
    invariant its starting state held. *)

From S2P Require Import Prelude Identity Counter Taxonomy Evidence Types State Readiness Domains.
From S2P Require Import Indexes Invariant RackRef Explain EngineBase EngineRack EngineTopology.
From S2P Require Import EngineCluster Rollback Commit Scenario CommitProofs.

#[local] Opaque evaluate_readiness check_invariants.

(** ** What a fence leaves alone *)

(** Everything the checks of domains, constraints and counters read. *)
Record fence_frame (s s' : ClusterState) : Prop := {
  ff_cluster : cluster_violations s' = cluster_violations s;
  ff_member rack : is_rack_member s' rack = is_rack_member s rack;
  ff_placement : cs_placement_domains s' = cs_placement_domains s;
  ff_capacity : cs_capacity_domains s' = cs_capacity_domains s;
  ff_failure : cs_failure_domains s' = cs_failure_domains s;
  ff_network : cs_network_domains s' = cs_network_domains s;
  ff_storage : cs_storage_domains s' = cs_storage_domains s;
  ff_power : cs_power_domains s' = cs_power_domains s;
  ff_cooling : cs_cooling_domains s' = cs_cooling_domains s;
  ff_link : cs_link_domains s' = cs_link_domains s;
  ff_constraints : cs_constraints s' = cs_constraints s;
  ff_generations : cs_domain_generations s' = cs_domain_generations s;
  ff_retired : cs_retired_racks s' = cs_retired_racks s;
  ff_withdrawn : cs_withdrawn_racks s' = cs_withdrawn_racks s;
  ff_membership : cs_membership_generation s' = cs_membership_generation s;
  ff_topology_epoch : cs_topology_epoch s' = cs_topology_epoch s;
  ff_topology_generation : cs_topology_generation s' = cs_topology_generation s;
  ff_snapshot : cs_snapshot_generation s' = cs_snapshot_generation s;
  ff_publication : cs_publication_generation s' = cs_publication_generation s
}.

Section fence.
  Context (boot : RackAgentBootId) (reason : string) (now : Timestamp) (s : ClusterState).

Let s' := fence_candidate boot reason now s.
Let fence_rack (r : RackRecord) := if rack_of_boot boot r then fenced_record reason r else r.
Let fence_link (l : InterRackLink) := if link_of_boot boot l then fenced_link l else l.

Lemma fence_racks_lookup : cs_racks s' = fence_rack <$> cs_racks s.
Proof.
  unfold s', fence_candidate, fenced_state, fence_list.
  destruct (is_boot_fenced (fence_racks boot reason s) boot); reflexivity.
Qed.

Lemma fence_links_lookup : cs_links s' = fence_link <$> cs_links s.
Proof.
  unfold s', fence_candidate, fenced_state, fence_list.
  destruct (is_boot_fenced (fence_racks boot reason s) boot); reflexivity.
Qed.

Lemma fence_rack_membership r : rk_membership (fence_rack r) = rk_membership r.
Proof. unfold fence_rack. by destruct (rack_of_boot boot r). Qed.

Lemma fence_candidate_frame : fence_frame s s'.
Proof.
  assert (∀ rack, is_rack_member s' rack = is_rack_member s rack) as Hm.
  { intros rack. unfold is_rack_member. rewrite fence_racks_lookup, lookup_fmap.
    destruct (cs_racks s !! rack) as [r|]; simpl; [|done]. by rewrite fence_rack_membership. }
  unfold s', fence_candidate, fenced_state, fence_list in *.
  destruct (is_boot_fenced (fence_racks boot reason s) boot);
    (split; first [exact Hm | reflexivity]).
Qed.

Lemma fence_authorities :
  cs_fenced_authorities s' =
  if is_boot_fenced s boot then cs_fenced_authorities s else
  sort_by fenced_lt (cs_fenced_authorities s ++
    [fence_entry (fence_racks boot reason s) boot reason now]).
Proof.
  unfold s', fence_candidate, fenced_state, fence_list.
  change (is_boot_fenced (fence_racks boot reason s) boot) with (is_boot_fenced s boot).
  by destruct (is_boot_fenced s boot).
Qed.

Lemma is_boot_fenced_fence b :
  is_boot_fenced s' b = true ↔ is_boot_fenced s b = true ∨ b = boot.
Proof.
  rewrite !is_boot_fenced_spec, fence_authorities.
  destruct (is_boot_fenced s boot) eqn:E.
  - split; [by left|]. intros [?| ->]; [done|]. by apply is_boot_fenced_spec.
  - setoid_rewrite elem_of_sort_by. setoid_rewrite elem_of_app.
    setoid_rewrite list_elem_of_singleton. split.
    + intros (f&[Hf| ->]&Hb); [eauto|]. by right.
    + intros [(f&Hf&Hb)| ->]; eauto.
Qed.

(** ** The groups of checks *)

Lemma fence_counts : count_violations s' = count_violations s.
Proof.
  destruct fence_candidate_frame. unfold count_violations, msize.
  rewrite fence_racks_lookup, fence_links_lookup, !map_size_fmap. congruence.
Qed.

Lemma fence_check_domain D {tag} `{DomainTraits D tag} :
  dt_member D s' = dt_member D s → check_domain D s' = check_domain D s.
Proof.
  intros Hd. unfold check_domain. rewrite Hd. apply flat_map_ext. intros e. f_equal. f_equal.
  apply flat_map_ext. intros rack. by rewrite (ff_member _ _ fence_candidate_frame).
Qed.

Lemma fence_check_generation D {tag} `{DomainTraits D tag} word :
  dt_member D s' = dt_member D s → check_generation D word s' = check_generation D word s.
Proof.
  intros Hd. unfold check_generation, max_generation.
  by rewrite Hd, (ff_generations _ _ fence_candidate_frame).
Qed.

Lemma fence_domains : domain_violations s' = domain_violations s.
Proof.
  destruct fence_candidate_frame. unfold domain_violations.
  rewrite !fence_check_domain, !fence_check_generation by assumption. reflexivity.
Qed.

Lemma fence_constraints : constraint_violations s' = constraint_violations s.
Proof.
  destruct fence_candidate_frame. unfold constraint_violations. rewrite ff_constraints0.
  apply flat_map_ext. intros e. apply flat_map_ext. intros rack. by rewrite ff_member0.
Qed.

Lemma fence_rack_violations k r :
  rack_violations s (k, r) = [] → rack_violations s' (k, fence_rack r) = [].
Proof.
  destruct fence_candidate_frame. unfold rack_violations. cbn [fst snd]. rewrite ff_membership0.
  unfold fence_rack. destruct (rack_of_boot boot r) eqn:Hb; unfold rack_of_boot in Hb; split_bools.
  - intros H. repeat (apply app_nil in H as [? H]).
    rewrite !app_nil. split_and!; try assumption; [|reflexivity].
    cbn -[viol]. case_decide; [|done]. by rewrite bool_decide_true.
  - intros H. repeat (apply app_nil in H as [? H]).
    rewrite !app_nil. split_and!; try assumption.
    destruct (rk_authoritative_current r); [|done].
    repeat (apply app_nil in H as [? H]). rewrite !app_nil. split_and!; try assumption.
    + apply viol_nil, not_true_iff_false. rewrite is_boot_fenced_fence.
      match goal with H : viol (is_boot_fenced _ _) _ _ _ = [] |- _ => apply viol_nil in H end.
      intros [?|?]; [congruence|done].
    + unfold is_rack_retired in *. by rewrite ff_retired0.
Qed.

Lemma fence_link_violations k l :
  link_violations s (k, l) = [] → link_violations s' (k, fence_link l) = [].
Proof.
  destruct fence_candidate_frame. unfold link_violations. cbn [fst snd].
  rewrite ff_topology_epoch0, ff_topology_generation0.
  unfold fence_link. destruct (link_of_boot boot l); rewrite !ff_member0, ff_failure0.
  - intros H. repeat (apply app_nil in H as [? H]).
    rewrite !app_nil. split_and!; try assumption; apply viol_nil; simpl.
    + by rewrite andb_false_r.
    + by rewrite andb_false_r.
  - done.
Qed.

Lemma fence_withdrawn : withdrawn_violations s = [] → withdrawn_violations s' = [].
Proof.
  destruct fence_candidate_frame. unfold withdrawn_violations.
  rewrite ff_withdrawn0, fence_racks_lookup. rewrite !app_nil, !flat_map_nil.
  intros (Hs&Hl&Hr). split_and!; [done| |].
  - intros rack Hin. specialize (Hl rack Hin). rewrite lookup_fmap.
    destruct (cs_racks s !! rack) as [r|]; [|done]. cbn [fmap option_fmap option_map].
    by rewrite fence_rack_membership.
  - intros [rack r'] Hin%elem_of_entries. rewrite lookup_fmap in Hin.
    destruct (cs_racks s !! rack) as [r|] eqn:Er; simplify_eq/=.
    specialize (Hr (rack, r)). rewrite elem_of_entries in Hr. specialize (Hr Er).
    cbn [fst snd] in *. by rewrite fence_rack_membership.
Qed.

Lemma fence_list_sorted :
  strictly_sorted less (fa_boot <$> cs_fenced_authorities s) = true →
  strictly_sorted less (fa_boot <$> cs_fenced_authorities s') = true.
Proof.
  rewrite fence_authorities. destruct (is_boot_fenced s boot) eqn:E; [done|].
  rewrite !(strictly_sorted_spec less). intros Hs.
  rewrite (fmap_sort_by fa_boot less fenced_lt) by done. apply (sort_by_ssorted less).
  rewrite fmap_app. apply NoDup_app. split_and!.
  - by apply (ssorted_NoDup less).
  - intros b (f&->&Hf)%list_elem_of_fmap Hin. apply list_elem_of_singleton in Hin.
    assert (is_boot_fenced s boot = true); [|congruence].
    apply is_boot_fenced_spec. eauto.
  - apply NoDup_singleton.
Qed.

Lemma fence_authority :
  authority_violations s = [] → authority_violations s' = [].
Proof.
  destruct fence_candidate_frame. unfold authority_violations. rewrite ff_retired0.
  rewrite !app_nil, !flat_map_nil, !viol_nil. intros (Hs&Hf&Hr). split_and!; [| |done].
  - apply negb_false_iff, fence_list_sorted, negb_false_iff, Hs.
  - intros f Hin. apply viol_nil. rewrite fence_racks_lookup, lookup_fmap.
    destruct (cs_racks s !! fa_rack f) as [r|] eqn:Er; [|done]. cbn [fmap option_fmap option_map].
    unfold fence_rack. destruct (rack_of_boot boot r) eqn:Eb; [done|].
    unfold rack_of_boot in Eb. split_bools. rewrite fence_authorities in Hin.
    destruct (is_boot_fenced s boot).
    + specialize (Hf f Hin). rewrite Er in Hf. by apply viol_nil in Hf.
    + rewrite elem_of_sort_by, elem_of_app, list_elem_of_singleton in Hin.
      destruct Hin as [Hin| ->].
      * specialize (Hf f Hin). rewrite Er in Hf. by apply viol_nil in Hf.
      * apply andb_false_intro2, bool_decide_eq_false. exact Eb.
Qed.

Lemma contract_holds_lifecycle st l :
  contract_holds st → l ≠ CL_Retired → l ≠ CL_Retiring → contract_holds (st <| cs_lifecycle := l |>).
Proof. intros [] ??. by split. Qed.

(** A state whose lifecycle was just evaluated is never READY without its
    contract. *)
Lemma evaluated_ready st :
  bool_decide (cs_lifecycle (st <| cs_lifecycle := re_lifecycle (evaluate_readiness st) |>) = CL_Ready) &&
  negb (re_satisfied (evaluate_readiness
    (st <| cs_lifecycle := re_lifecycle (evaluate_readiness st) |>))) = false.
Proof.
  case_bool_decide as Hl; [|done]. cbn in Hl. rewrite Hl. apply negb_false_iff.
  apply evaluate_readiness_satisfied, contract_holds_lifecycle; [|done..].
  apply (proj1 (proj1 (evaluate_readiness_lifecycle st))). by left.
Qed.

Lemma fence_lifecycle :
  lifecycle_violations s = [] → lifecycle_violations s' = [].
Proof.
  destruct fence_candidate_frame. unfold lifecycle_violations. rewrite ff_snapshot0, ff_publication0.
  rewrite !app_nil. intros (_&Hr&?). split_and!; [| |done].
  - apply viol_nil, evaluated_ready.
  - destruct (decide (cs_lifecycle s' = CL_Retired)) as [Hl|Hl]; [|reflexivity].
    assert (cs_lifecycle s = CL_Retired) as Hs.
    { unfold s', fence_candidate in Hl. cbn in Hl. apply evaluate_readiness_retired in Hl.
      unfold fenced_state, fence_list in Hl. by destruct (is_boot_fenced _ boot). }
    rewrite decide_True in Hr by done. rewrite fence_racks_lookup.
    rewrite flat_map_entries_nil in *. intros rack r' Hr'. rewrite lookup_fmap in Hr'.
    destruct (cs_racks s !! rack) as [r|] eqn:Er; simplify_eq/=.
    specialize (Hr rack r Er). apply viol_nil in Hr. apply viol_nil. cbn [fst snd] in *.
    unfold fence_rack. by destruct (rack_of_boot boot r).
Qed.

Lemma fence_no_violations : state_violations s = [] → state_violations s' = [].
Proof.
  unfold state_violations. rewrite !app_nil. intros (Hc&Hn&Hr&Hl&Hd&Hk&Hw&Ha&Hy).
  rewrite flat_map_entries_nil in Hr. rewrite flat_map_entries_nil in Hl.
  rewrite (ff_cluster _ _ fence_candidate_frame), fence_counts, fence_domains, fence_constraints,
    fence_racks_lookup, fence_links_lookup, !flat_map_entries_nil.
  split_and!; auto using fence_withdrawn, fence_authority, fence_lifecycle.
  - intros k r' Hk'. rewrite lookup_fmap in Hk'.
    destruct (cs_racks s !! k) eqn:E; simplify_eq/=. by apply fence_rack_violations, Hr.
  - intros k l' Hk'. rewrite lookup_fmap in Hk'.
    destruct (cs_links s !! k) eqn:E; simplify_eq/=. by apply fence_link_violations, Hl.
Qed.
End fence.

Lemma boot_in_use_recorded s boot : boot_in_use s boot = true → nothing_recorded s = false.
Proof.
  intros Hu. apply not_true_iff_false. unfold nothing_recorded, msize. rewrite !andb_true_iff.
  intros Hn. destruct_and? Hn.
  repeat match goal with H : (_ =? 0)%N = true |- _ => apply N.eqb_eq, N_of_size_eq_0 in H end.
  unfold boot_in_use in Hu. apply orb_true_iff in Hu as [Hu|Hu];
    apply existsb_entries in Hu as (k&v&Hv&_);
    match goal with H : _ = ∅ |- _ => rewrite H in Hv; by apply lookup_empty_Some in Hv end.
Qed.

(** The health generation is read by no check. *)
Lemma violations_health s h :
  state_violations (s <| cs_health_generation := h |>) = state_violations s.
Proof. reflexivity. Qed.
