(* ===== verification/Monotone.v ===== *)
(** * Canonical state only advances

    Generations never decrease, fenced process incarnations and retired rack
    identities are never forgotten, and no rack or domain record is lost or
    moved back to an older generation, whatever mutation a handler applies to a
    declared cluster. *)

From S2P Require Import Prelude Identity Counter Taxonomy Evidence Types State Readiness Domains.
From S2P Require Import Indexes Invariant RackRef Explain EngineBase EngineRack EngineTopology.
From S2P Require Import EngineCluster Rollback Commit Scenario CommitProofs.

Definition ctr_le {tag} (x y : StrongCounter tag) : Prop := (ctr x <= ctr y)%N.

#[global] Instance ctr_le_preorder {tag} : PreOrder (@ctr_le tag).
Proof. split; [by intros ?; unfold ctr_le|unfold ctr_le; intros ???; lia]. Qed.

(** Every record of [m] is kept, at the same or a newer generation. *)
Definition records_advance {K V tag} `{Countable K} (generation : V → StrongCounter tag)
    (m m' : gmap K V) : Prop :=
  ∀ k v, m !! k = Some v → ∃ v', m' !! k = Some v' ∧ ctr_le (generation v) (generation v').

#[global] Instance records_advance_preorder {K V tag} `{Countable K} (g : V → StrongCounter tag) :
  PreOrder (records_advance (K:=K) g).
Proof.
  split.
  - intros m k v ?. by exists v.
  - intros m1 m2 m3 H12 H23 k v (v'&Hv'&Hg)%H12. destruct (H23 _ _ Hv') as (v''&?&?).
    exists v''. split; [done|]. by etrans.
Qed.

Lemma records_advance_insert {K V tag} `{Countable K} (g : V → StrongCounter tag) (m : gmap K V) k v :
  (∀ v0, m !! k = Some v0 → ctr_le (g v0) (g v)) → records_advance g m (<[k := v]> m).
Proof.
  intros Hv k' v' Hk. destruct (decide (k = k')) as [->|Hne].
  - exists v. rewrite lookup_insert_eq. auto.
  - exists v'. by rewrite lookup_insert_ne.
Qed.

Definition rack_generation_of (r : RackRecord) : RackGeneration := rr_generation (rk_reference r).

Definition domain_generation_of {D tag} `{DomainTraits D tag} (d : D) : DomainGeneration :=
  dh_generation (dt_header d).

(** One domain class: its aggregate generation and its records. *)
Definition domain_advances (D : Type) {tag} `{DomainTraits D tag} (s s' : ClusterState) : Prop :=
  ctr_le (dt_aggregate D (cs_domain_generations s)) (dt_aggregate D (cs_domain_generations s')) ∧
  records_advance (domain_generation_of (D:=D)) (dt_member D s) (dt_member D s').

#[global] Instance domain_advances_preorder D {tag} `{DomainTraits D tag} :
  PreOrder (domain_advances D).
Proof.
  split; [by intros s; split|]. intros s1 s2 s3 [] []. split; by etrans.
Qed.

Record advances (s s' : ClusterState) : Prop := {
  ad_epoch : cs_epoch s' = cs_epoch s;
  ad_coordinator_epoch : cs_coordinator_epoch s' = cs_coordinator_epoch s;
  ad_generation : ctr_le (cs_generation s) (cs_generation s');
  ad_membership : ctr_le (cs_membership_generation s) (cs_membership_generation s');
  ad_topology_epoch : ctr_le (cs_topology_epoch s) (cs_topology_epoch s');
  ad_topology : ctr_le (cs_topology_generation s) (cs_topology_generation s');
  ad_connectivity : ctr_le (cs_connectivity_generation s) (cs_connectivity_generation s');
  ad_health : ctr_le (cs_health_generation s) (cs_health_generation s');
  ad_constraint : ctr_le (cs_constraint_generation s) (cs_constraint_generation s');
  ad_snapshot : ctr_le (cs_snapshot_generation s) (cs_snapshot_generation s');
  ad_publication : ctr_le (cs_publication_generation s) (cs_publication_generation s');
  ad_fenced boot : is_boot_fenced s boot = true → is_boot_fenced s' boot = true;
  ad_retired rack : is_rack_retired s rack = true → is_rack_retired s' rack = true;
  ad_racks : records_advance rack_generation_of (cs_racks s) (cs_racks s');
  ad_placement : domain_advances PlacementDomain s s';
  ad_capacity : domain_advances CapacityDomain s s';
  ad_failure : domain_advances FailureDomain s s';
  ad_network : domain_advances NetworkDomain s s';
  ad_storage : domain_advances StorageDomain s s';
  ad_power : domain_advances PowerDomain s s';
  ad_cooling : domain_advances CoolingDomain s s';
  ad_link : domain_advances LinkDomain s s'
}.

#[global] Instance advances_preorder : PreOrder advances.
Proof.
  split.
  - by intros s; split.
  - intros s1 s2 s3 [] []. split; auto; try congruence; by etrans.
Qed.

(** ** Primitive writes *)

(** An assignment of scalars: compare field by field. *)
Ltac advance_scalars :=
  split; intros; cbn in *;
  repeat match goal with H : bump _ = Some _ |- _ => apply bump_Some in H end;
  try first [done | unfold ctr_le in *; lia].

Section writes.
  Context (s0 : ClusterState).

Lemma advances_set_state ctx f :
  advances (cx_state ctx) (f (cx_state ctx)) → advances s0 (cx_state ctx) →
  advances s0 (cx_state (set_state f ctx)).
Proof. intros H1 H2. by etrans. Qed.

Lemma advances_insert_rack ctx k r :
  (∀ r0, cs_racks (cx_state ctx) !! k = Some r0 →
    ctr_le (rack_generation_of r0) (rack_generation_of r)) →
  advances s0 (cx_state ctx) → advances s0 (cx_state (record_insert cs_racks k r ctx)).
Proof.
  intros Hr H. etrans; [exact H|]. split; try done. by apply records_advance_insert.
Qed.

Lemma advances_insert_link ctx k l :
  advances s0 (cx_state ctx) → advances s0 (cx_state (record_insert cs_links k l ctx)).
Proof. intros H. etrans; [exact H|]. by split. Qed.

Lemma advances_erase_link ctx k :
  advances s0 (cx_state ctx) → advances s0 (cx_state (record_erase cs_links k ctx)).
Proof. intros H. etrans; [exact H|]. by split. Qed.

Lemma advances_insert_constraint ctx k c :
  advances s0 (cx_state ctx) → advances s0 (cx_state (record_insert cs_constraints k c ctx)).
Proof. intros H. etrans; [exact H|]. by split. Qed.

Lemma advances_record_scalars ctx :
  advances s0 (cx_state ctx) → advances s0 (cx_state (record_scalars ctx)).
Proof. done. Qed.

Lemma advances_mark_changed ctx :
  advances s0 (cx_state ctx) → advances s0 (cx_state (mark_changed ctx)).
Proof. done. Qed.

Lemma advances_rewrite_links visit f ctx :
  advances s0 (cx_state ctx) → advances s0 (cx_state (rewrite_links visit f ctx)).
Proof. intros H. etrans; [exact H|]. rewrite rewrite_links_state. by split. Qed.

(** A rewrite of the racks that keeps their generations. *)
Lemma advances_rewrite_racks visit f ctx :
  (∀ r, rack_generation_of (f r) = rack_generation_of r) →
  advances s0 (cx_state ctx) → advances s0 (cx_state (rewrite_racks visit f ctx)).
Proof.
  intros Hf H. etrans; [exact H|]. rewrite rewrite_racks_state. split; try done. simpl.
  intros k r Hr. rewrite lookup_fmap, Hr. eexists. split; [reflexivity|].
  destruct (visit r); [by rewrite Hf|done].
Qed.
End writes.

(** What the templates over the domain classes need: writes to a class advance
    the state. *)
Class DomainAdvance (D : Type) (tag : IdTag) `{DomainTraits D tag} : Prop := {
  da_insert s k d :
    (∀ d0, dt_member D s !! k = Some d0 →
       ctr_le (domain_generation_of d0) (domain_generation_of d)) →
    advances s (upd (dt_member D) (λ m, <[k := d]> m) s);
  da_aggregate s g :
    ctr_le (dt_aggregate D (cs_domain_generations s)) g →
    advances s (s <| cs_domain_generations :=
      upd (dt_aggregate D) (λ _, g) (cs_domain_generations s) |>);
  da_frame s g : dt_member D (s <| cs_domain_generations := g |>) = dt_member D s
}.

Ltac domain_advance :=
  split; intros; [| |done]; split; try done;
  (split; [done|]); by apply records_advance_insert.

#[global] Instance placement_advance : DomainAdvance PlacementDomain PlacementDomainIdTag.
Proof. domain_advance. Qed.
#[global] Instance capacity_advance : DomainAdvance CapacityDomain CapacityDomainIdTag.
Proof. domain_advance. Qed.
#[global] Instance failure_advance : DomainAdvance FailureDomain FailureDomainIdTag.
Proof. domain_advance. Qed.
#[global] Instance network_advance : DomainAdvance NetworkDomain NetworkDomainIdTag.
Proof. domain_advance. Qed.
#[global] Instance storage_advance : DomainAdvance StorageDomain StorageDomainIdTag.
Proof. domain_advance. Qed.
#[global] Instance power_advance : DomainAdvance PowerDomain PowerDomainIdTag.
Proof. domain_advance. Qed.
#[global] Instance cooling_advance : DomainAdvance CoolingDomain CoolingDomainIdTag.
Proof. domain_advance. Qed.
#[global] Instance link_advance : DomainAdvance LinkDomain LinkDomainIdTag.
Proof. domain_advance. Qed.

(** ** Every handler advances the state *)

Create HintDb advance.
#[export] Hint Resolve advances_insert_link advances_erase_link advances_insert_constraint
  advances_record_scalars advances_mark_changed advances_rewrite_links : advance.
#[export] Hint Extern 4 (advances _ (cx_state (set_state _ _))) =>
  (apply advances_set_state; [advance_scalars|]) : advance.
#[export] Hint Extern 8 (advances ?s ?s) => reflexivity : advance.

Ltac advance_case :=
  repeat first
    [ progress cbn [fst]
    | reflexivity
    | case_match
    | progress unfold store_rack, bump_topology, bump_connectivity, bump_health,
        drop_withdrawn, copy_topology_generation ];
  eauto 12 with advance.

Lemma advances_register ctx req :
  advances (cx_state ctx) (cx_state (fst (apply_register_publisher ctx req))).
Proof.
  unfold apply_register_publisher. advance_case.
  apply advances_mark_changed, advances_insert_rack; [|done].
  intros r0 Hr0. simplify_eq/=.
Qed.

Lemma advances_admit ctx incoming :
  (∀ r, cs_racks (cx_state ctx) !! rr_rack incoming = Some r →
    ctr_le (rack_generation_of r) (rr_generation incoming)) →
  advances (cx_state ctx) (cx_state (fst (admit_rack ctx incoming))).
Proof.
  intros Hg. unfold admit_rack.
  advance_case; apply advances_mark_changed, advances_insert_rack; eauto 8 with advance.
Qed.

Lemma less_ctr_false {tag} (x y : StrongCounter tag) : less x y = false → ctr_le y x.
Proof. unfold ctr_le. intros H%N.ltb_ge. done. Qed.

Lemma check_existing_rack_None r incoming :
  check_existing_rack r incoming = None → ctr_le (rack_generation_of r) (rr_generation incoming).
Proof.
  unfold check_existing_rack. destruct (less _ _) eqn:E; [done|]. intros _. by apply less_ctr_false.
Qed.

Lemma advances_add_rack ctx req :
  advances (cx_state ctx) (cx_state (fst (apply_add_rack ctx req))).
Proof.
  unfold apply_add_rack. repeat (case_match; cbn [fst]; try reflexivity); apply advances_admit.
  - intros r0 Hr0. simplify_eq. by apply check_existing_rack_None.
  - intros r0 Hr0. simplify_eq.
Qed.

Lemma advances_update_generation ctx req :
  advances (cx_state ctx) (cx_state (fst (apply_update_rack_generation ctx req))).
Proof.
  unfold apply_update_rack_generation. advance_case.
  apply advances_mark_changed, advances_insert_rack; [|eauto with advance].
  intros r0 Hr0. simplify_eq/=. by apply less_ctr_false.
Qed.

Lemma is_rack_retired_after s req now rack g rack' :
  is_rack_retired s rack' = true →
  existsb (λ retired, bool_decide (ri_rack retired = rack')) (retired_after s req now rack g) = true.
Proof.
  unfold retired_after. destruct (is_rack_retired s rack); [done|].
  unfold is_rack_retired. rewrite !existsb_elem. setoid_rewrite elem_of_sort_by. set_solver.
Qed.

Lemma advances_retired s req now rack g :
  advances s (s <| cs_retired_racks := retired_after s req now rack g |>).
Proof. split; try done. intros rack'. apply is_rack_retired_after. Qed.

Lemma demoted_generation req r target g :
  ctr_le (rack_generation_of r)
    (rack_generation_of ((demoted_record req r target) <| rk_membership_generation := g |>)).
Proof. unfold demoted_record. destruct (decide (target ≠ Mem_Active)); by unfold ctr_le. Qed.

Lemma advances_membership ctx req target retire :
  advances (cx_state ctx) (cx_state (fst (apply_membership_change ctx req target retire))).
Proof.
  unfold apply_membership_change.
  repeat (case_match; cbn [fst]; try reflexivity); unfold store_rack; cbn [fst];
    apply advances_mark_changed, advances_insert_rack.
  - intros r0 Hr0. cbn in Hr0. simplify_eq. by apply demoted_generation.
  - apply advances_set_state; [apply advances_retired|]. eauto with advance.
  - intros r0 Hr0. cbn in Hr0. simplify_eq. by apply demoted_generation.
  - eauto with advance.
Qed.

Lemma advances_recover ctx req :
  advances (cx_state ctx) (cx_state (fst (apply_recover_rack ctx req))).
Proof.
  unfold apply_recover_rack. advance_case.
  apply advances_mark_changed, advances_insert_rack; [|eauto 8 with advance].
  intros r0 Hr0. cbn in Hr0. simplify_eq. by apply less_ctr_false.
Qed.

Lemma advance_aggregate_le a r a' : advance_aggregate a r = Some a' → ctr_le a a'.
Proof.
  unfold advance_aggregate, ctr_le. destruct (_ || _) eqn:E; [done|]. intros [= <-]. simpl.
  apply orb_false_elim in E as [E%N.ltb_ge _]. done.
Qed.

Lemma check_existing_domain_None {D tag} `{DomainTraits D tag} ctx (d d0 : D) :
  check_existing_domain ctx d = None → dt_member D (cx_state ctx) !! dt_id d = Some d0 →
  ctr_le (domain_generation_of d0) (domain_generation_of d).
Proof.
  unfold check_existing_domain. intros Hc Hd. rewrite Hd in Hc.
  destruct (_ <? _)%N eqn:E; [done|]. by apply N.ltb_ge in E.
Qed.

Lemma advances_publish_domain {D tag} `{DomainTraits D tag} `{!DomainExtra D}
  `{!MapMember (dt_member D), !DomainLaws D tag, !DomainAdvance D tag} ctx (payload : option D) :
  advances (cx_state ctx) (cx_state (fst (publish_domain ctx payload))).
Proof.
  destruct payload as [d|]; [|reflexivity]. unfold publish_domain, publish_domain_record.
  destruct (is_empty _); [reflexivity|].
  destruct (validate_domain_payload ctx d) as [d' r]. destruct (negb _); [reflexivity|].
  destruct (check_existing_domain ctx d') as [res|] eqn:Ec; [reflexivity|].
  destruct (advance_aggregate _ _) as [a|] eqn:Ea; [|reflexivity].
  apply advance_aggregate_le in Ea.
  match goal with |- context [bump_topology ?x] => set (ctx' := x) end.
  assert (advances (cx_state ctx) (cx_state ctx')) as Hadv.
  { unfold ctx'. etrans; [apply (da_aggregate (D:=D) _ a), Ea|]. apply da_insert.
    intros d0 Hd0. unfold domain_generation_of. rewrite dl_header_get. cbn.
    rewrite dl_header_id in Hd0. apply (check_existing_domain_None ctx d' d0 Ec).
    rewrite <- (da_frame (cx_state ctx)
      (upd (dt_aggregate D) (λ _, a) (cs_domain_generations (cx_state ctx)))). exact Hd0. }
  clearbody ctx'. unfold bump_topology. destruct (bump _) as [g|] eqn:Eg; [|done].
  unfold copy_topology_generation. cbn [fst]. eauto with advance.
Qed.

Lemma advances_constraint ctx req :
  advances (cx_state ctx) (cx_state (fst (apply_publish_constraint ctx req))).
Proof. unfold apply_publish_constraint. advance_case. Qed.

Lemma advances_publish_link ctx req :
  advances (cx_state ctx) (cx_state (fst (apply_publish_link ctx req))).
Proof. unfold apply_publish_link. advance_case. Qed.

Lemma advances_withdraw_link ctx req :
  advances (cx_state ctx) (cx_state (fst (apply_withdraw_link ctx req))).
Proof. unfold apply_withdraw_link. advance_case. Qed.

Lemma advances_epoch_target ctx target :
  (ctr target <=? ctr (cs_topology_epoch (cx_state ctx)))%N = false →
  advances (cx_state ctx) (cx_state (set_state (λ s, s <| cs_topology_epoch := target |>)
    (rewrite_links (λ _, true) superseded_link ctx))).
Proof.
  intros Ht%N.leb_gt. unfold set_state. cbn [cx_state].
  change (advances (cx_state ctx) ((cx_state (rewrite_links (λ _, true) superseded_link ctx))
    <| cs_topology_epoch := target |>)).
  rewrite rewrite_links_state. split; try done. unfold ctr_le. cbn. lia.
Qed.

Lemma advances_supersede ctx req :
  advances (cx_state ctx) (cx_state (fst (apply_supersede_topology ctx req))).
Proof.
  unfold apply_supersede_topology. destruct (rq_target_topology_epoch req) as [target|]; [|done].
  destruct (_ <=? _)%N eqn:Et; [done|].
  match goal with |- context [bump_topology ?x] => set (ctx' := x) end.
  assert (advances (cx_state ctx) (cx_state ctx')) as Hadv by (by apply advances_epoch_target).
  clearbody ctx'. advance_case.
Qed.

Lemma advances_health ctx req :
  advances (cx_state ctx) (cx_state (fst (apply_publish_health ctx req))).
Proof.
  unfold apply_publish_health. repeat (case_match; try reflexivity);
    match goal with |- context [record_insert cs_racks ?k ?r ctx] =>
      assert (advances (cx_state ctx) (cx_state (record_insert cs_racks k r ctx))) as Hadv by
        (apply advances_insert_rack; [|done]; intros r0 Hr0; by simplify_eq)
    end; generalize dependent (record_insert cs_racks (request_rack req)
      (health_record (cx_state ctx) req r) ctx); intros; advance_case.
Qed.

Lemma advances_withdraw_evidence ctx req :
  advances (cx_state ctx) (cx_state (fst (apply_withdraw_evidence ctx req))).
Proof.
  unfold apply_withdraw_evidence. repeat (case_match; try reflexivity);
    match goal with |- context [record_insert cs_racks ?k ?r ctx] =>
      assert (advances (cx_state ctx) (cx_state (record_insert cs_racks k r ctx))) as Hadv by
        (apply advances_insert_rack; [|done]; intros r0 Hr0; by simplify_eq)
    end; generalize dependent (record_insert cs_racks (request_rack req)
      (withdrawn_record r) ctx); intros; advance_case.
Qed.

Lemma advances_redeclare ctx req :
  ctr_known (cs_epoch (cx_state ctx)) = true →
  advances (cx_state ctx) (cx_state (fst (apply_declare_cluster ctx req))).
Proof. intros Hk. unfold apply_declare_cluster. rewrite Hk. advance_case. Qed.

Lemma advances_retire_cluster ctx req :
  advances (cx_state ctx) (cx_state (fst (apply_retire_cluster ctx req))).
Proof.
  unfold apply_retire_cluster. case_decide; [reflexivity|]. cbn [fst].
  apply advances_mark_changed, advances_rewrite_racks; [done|]. eauto with advance.
Qed.

Lemma advances_snapshot ctx req :
  advances (cx_state ctx) (cx_state (fst (apply_publish_snapshot ctx req))).
Proof. unfold apply_publish_snapshot. advance_case. Qed.

Lemma advances_revalidate ctx req :
  advances (cx_state ctx) (cx_state (fst (apply_revalidate ctx req))).
Proof. unfold apply_revalidate. advance_case. Qed.

(** A declared cluster only advances. *)
Lemma advances_apply_request ctx req :
  ctr_known (cs_epoch (cx_state ctx)) = true →
  advances (cx_state ctx) (cx_state (fst (apply_request ctx req))).
Proof.
  intros Hk. unfold apply_request. case_decide; [reflexivity|]. unfold dispatch.
  destruct (rq_kind req); eauto using advances_redeclare, advances_register, advances_add_rack,
    advances_update_generation, advances_membership, advances_recover, advances_publish_link,
    advances_withdraw_link, advances_publish_domain, advances_constraint, advances_health,
    advances_withdraw_evidence, advances_supersede, advances_snapshot, advances_revalidate,
    advances_retire_cluster with typeclass_instances.
  reflexivity.
Qed.
