(* ===== verification/Reachable.v ===== *)
(** * Histories of a coordinator

    The commit thread as a step relation: every step commits one mutation or
    applies one fence.  The invariants hold after every history, canonical
    state only advances, and fencing and retirement are permanent. *)

From S2P Require Import Prelude Identity Counter Taxonomy Evidence Types State Readiness Domains.
From S2P Require Import Indexes Invariant RackRef Explain EngineBase EngineRack EngineTopology.
From S2P Require Import EngineCluster Rollback Commit Scenario CommitProofs FenceProofs Monotone.

#[local] Opaque evaluate_readiness check_invariants apply_request apply_fence apply_and_commit.

(** ** The step relation *)

Inductive commit_step : Coordinator → Coordinator → Prop :=
  | step_mutation now req c : commit_step c (fst (apply_and_commit now req c))
  | step_fence now later boot reason c : commit_step c (apply_fence now later boot reason c).

(** The commit loop performs a sequence of steps. *)
Lemma run_commit_steps items c : rtc commit_step c (fst (run_commit items c)).
Proof.
  revert c. induction items as [|[now req|now later boot reason|] items IH]; intros c; simpl.
  - done.
  - destruct (apply_and_commit now req c) as [c' r] eqn:E.
    destruct (run_commit items c') as [c'' l] eqn:E2. simpl.
    eapply rtc_l; [apply (step_mutation now req)|]. rewrite E. simpl.
    specialize (IH c'). by rewrite E2 in IH.
  - eapply rtc_l; [apply step_fence|]. apply IH.
  - done.
Qed.

Lemma run_commit_invariant (P : Coordinator → Prop) items c :
  (∀ c c', commit_step c c' → P c → P c') → P c → P (fst (run_commit items c)).
Proof.
  intros Hstep Hc. pose proof (run_commit_steps items c) as Hs.
  induction Hs as [|c1 c2 c3 H12 _ IH]; eauto.
Qed.

Definition declared (s : ClusterState) : Prop := ctr_known (cs_epoch s) = true.

(** ** Invariants *)

Lemma fence_preserves_invariants now later boot reason c c' :
  fence_outcome now later boot reason c c' → invariants_hold (co_canonical c) →
  invariants_hold (co_canonical c').
Proof.
  intros [c'' Hc _ _|c'' g h Hb Hg Hh Hc _ _ _] Hinv; rewrite Hc; [done|].
  destruct Hinv as [Hn|Hv]; [by rewrite (boot_in_use_recorded _ _ Hb) in Hn|].
  apply (fence_no_violations boot reason now) in Hv.
  assert (invariants_hold ((fence_candidate boot reason now (co_canonical c))
    <| cs_health_generation := h |>)) as Hi by (right; by rewrite violations_health).
  apply (invariants_bump _ g later) in Hi; [exact Hi|].
  change (bump (cs_generation (fenced_state boot reason now (co_canonical c))) = Some g).
  destruct (fenced_state_frame boot reason now (co_canonical c)) as (->&_). done.
Qed.

Lemma step_invariants c c' :
  commit_step c c' → invariants_hold (co_canonical c) → invariants_hold (co_canonical c').
Proof.
  intros [now req c0|now later boot reason c0].
  - eapply commit_preserves_invariants_aux, apply_and_commit_outcome.
  - eapply fence_preserves_invariants, apply_fence_outcome.
Qed.

(** ** Monotonicity *)

Lemma commit_advances now req c c' r :
  commit_outcome now req c c' r → declared (co_canonical c) →
  advances (co_canonical c) (co_canonical c') ∧
  (mr_outcome r = Out_Accepted →
   ctr (cs_generation (co_canonical c')) = (ctr (cs_generation (co_canonical c)) + 1)%N).
Proof.
  intros Ho Hd. destruct Ho as [c' r ctx res E Hr Hc _ _|c' r ctx res g E Hch Hr Hi Hg Hc _ _ _].
  - rewrite Hc, (request_identity _ _ _ _ _ E), upd_id_same; [done|].
    intros [_ He]. unfold declared in Hd. congruence.
  - pose proof (handled_apply_request (initial_context c now) req (or_intror Hd)) as Hh.
    pose proof (advances_apply_request (initial_context c now) req Hd) as Ha.
    rewrite E in Hh, Ha. destruct Hh as [_ _ _ _ Hgen _]. cbn [fst snd] in *.
    change (cx_state (initial_context c now)) with (co_canonical c) in *.
    apply bump_Some in Hg. rewrite Hgen in Hg. rewrite Hc. split; [|intros _; exact Hg].
    etrans; [exact Ha|]. split; try done. unfold ctr_le. cbn. rewrite Hgen. lia.
Qed.

Lemma fence_candidate_advances boot reason now s :
  advances s (fence_candidate boot reason now s).
Proof.
  destruct (fence_candidate_frame boot reason now s).
  pose proof (fence_racks_lookup boot reason now s) as Hracks.
  pose proof (is_boot_fenced_fence boot reason now s) as Hf.
  assert (∀ D tag (H : DomainTraits D tag),
    dt_member D (fence_candidate boot reason now s) = dt_member D s →
    domain_advances D s (fence_candidate boot reason now s)) as Hdom.
  { intros D tag H Hm. split; [by rewrite ff_generations|by rewrite Hm]. }
  assert (∀ g : ClusterState → N, (∀ l s, g (s <| cs_lifecycle := l |>) = g s) → 
    (∀ l s, g (s <| cs_fenced_authorities := l |>) = g s) →
    g (fence_candidate boot reason now s) = g (fence_racks boot reason s)) as Hsc.
  { intros g H1 H2. unfold fence_candidate, fenced_state, fence_list. rewrite H1.
    destruct (is_boot_fenced _ boot); [done|]. apply H2. }
  split; auto.
  - unfold fence_candidate, fenced_state, fence_list. by destruct (is_boot_fenced _ boot).
  - unfold fence_candidate, fenced_state, fence_list. by destruct (is_boot_fenced _ boot).
  - unfold ctr_le. by rewrite (Hsc (λ s, ctr (cs_generation s))).
  - unfold ctr_le. by rewrite ff_membership.
  - unfold ctr_le. by rewrite ff_topology_epoch.
  - unfold ctr_le. by rewrite ff_topology_generation.
  - unfold ctr_le. by rewrite (Hsc (λ s, ctr (cs_connectivity_generation s))).
  - unfold ctr_le. by rewrite (Hsc (λ s, ctr (cs_health_generation s))).
  - unfold ctr_le. by rewrite (Hsc (λ s, ctr (cs_constraint_generation s))).
  - unfold ctr_le. by rewrite ff_snapshot.
  - unfold ctr_le. by rewrite ff_publication.
  - intros b Hb. apply Hf. by left.
  - intros rack. unfold is_rack_retired. by rewrite ff_retired.
  - rewrite Hracks. intros k r Hr. rewrite lookup_fmap, Hr. eexists. split; [reflexivity|].
    by destruct (rack_of_boot boot r).
Qed.

Lemma fence_advances now later boot reason c c' :
  fence_outcome now later boot reason c c' → advances (co_canonical c) (co_canonical c').
Proof.
  intros [c'' Hc _ _|c'' g h Hb Hg Hh Hc _ _ _]; rewrite Hc; [done|].
  etrans; [apply (fence_candidate_advances boot reason now)|].
  destruct (fenced_state_frame boot reason now (co_canonical c)) as (Eg&Eh&_).
  apply bump_Some in Hg. apply bump_Some in Hh.
  split; try done; unfold ctr_le; cbn.
  - change (ctr (cs_generation (fenced_state boot reason now (co_canonical c))) <= ctr g)%N.
    rewrite Eg. lia.
  - change (ctr (cs_health_generation (fenced_state boot reason now (co_canonical c))) <= ctr h)%N.
    rewrite Eh. lia.
Qed.

Lemma step_advances c c' :
  commit_step c c' → declared (co_canonical c) →
  declared (co_canonical c') ∧ advances (co_canonical c) (co_canonical c').
Proof.
  intros Hs Hd. assert (advances (co_canonical c) (co_canonical c')) as Ha.
  { destruct Hs as [now req c0|now later boot reason c0].
    - eapply (commit_advances now req); [apply apply_and_commit_outcome|done].
    - eapply fence_advances, apply_fence_outcome. }
  split; [|done]. unfold declared. by rewrite (ad_epoch _ _ Ha).
Qed.

Lemma run_commit_advances items c :
  declared (co_canonical c) →
  declared (co_canonical (fst (run_commit items c))) ∧
  advances (co_canonical c) (co_canonical (fst (run_commit items c))).
Proof.
  intros Hd. apply (run_commit_invariant (λ c', declared (co_canonical c') ∧
    advances (co_canonical c) (co_canonical c'))); [|done].
  intros c1 c2 Hs [Hd1 Ha1]. destruct (step_advances _ _ Hs Hd1). split; [done|]. by etrans.
Qed.

(** ** What the invariants say about authority *)

Lemma authoritative_rack s rack r :
  invariants_hold s → cs_racks s !! rack = Some r → rk_authoritative_current r = true →
  is_boot_fenced s (rr_boot (rk_reference r)) = false ∧ is_rack_retired s rack = false.
Proof.
  intros [Hn|Hv] Hr Ha.
  - rewrite (nothing_recorded_racks s Hn) in Hr. by apply lookup_empty_Some in Hr.
  - unfold state_violations in Hv. apply app_nil in Hv as [_ Hv]. apply app_nil in Hv as [_ Hv].
    apply app_nil in Hv as [Hk _]. rewrite flat_map_entries_nil in Hk.
    specialize (Hk rack r Hr). unfold rack_violations in Hk. cbn [fst snd] in Hk.
    rewrite Ha in Hk. repeat (apply app_nil in Hk as [? Hk]).
    repeat match goal with H : viol _ _ _ _ = [] |- _ => apply viol_nil in H end. done.
Qed.

(** C2: every history of the coordinator keeps the invariants: starting from a
    state that passes [check_invariants], whatever mutations and fences the
    commit thread takes from its queue, in whatever order, and whichever saves
    fail, the state it ends in passes [check_invariants].  Fences are covered
    although the code publishes them without running the check. *)
Theorem run_commit_preserves_invariants items c :
  check_invariants (co_canonical c) None = [] →
  check_invariants (co_canonical (fst (run_commit items c))) None = [].
Proof.
  rewrite !check_invariants_spec.
  apply (run_commit_invariant (λ c, invariants_hold (co_canonical c))), step_invariants.
Qed.

(** A history that starts at the undeclared state and ends with a fence of the
    boot that publishes [rack_a]. *)
Lemma run_commit_preserves_invariants_witness :
  check_invariants (co_canonical (fst (run_commit (history ++ [QFence t0 t0 boot_a "lost"]) start)))
    None = [] ∧
  is_boot_fenced (co_canonical (fst (run_commit (history ++ [QFence t0 t0 boot_a "lost"]) start)))
    boot_a = true.
Proof.
  split; [|vm_compute; reflexivity].
  apply run_commit_preserves_invariants. vm_compute. reflexivity.
Defined.


(** The withdrawal of a member rack. *)
Definition withdraw_a : MutationRequest :=
  (request MK_WithdrawRack operator) <| rq_rack_reference := no_reference <| rr_rack := rack_a |> |>.


(** Generations are monotone over every history: from a declared cluster,
    no sequence of mutations and fences ever decreases a generation or an
    epoch, forgets a fenced incarnation or a retired identity, or drops or
    regresses a rack or domain record. *)
Theorem history_advances items c :
  declared (co_canonical c) → advances (co_canonical c) (co_canonical (fst (run_commit items c))).
Proof. intros Hd. by apply run_commit_advances. Qed.

Lemma history_advances_witness :
  advances demo_state (co_canonical (fst (run_commit [QFence t0 t0 boot_a "lost"; mutate withdraw_a]
    demo))).
Proof. apply history_advances. vm_compute. reflexivity. Defined.

Definition retire_a : MutationRequest :=
  (request MK_RetireRack operator) <| rq_rack_reference := no_reference <| rr_rack := rack_a |> |>.
