(* ===== verification/Idempotent.v ===== *)
(** * Admission and its idempotence

    What an accepted [AddRack] leaves in canonical state, and that delivering
    the same publication again is answered without a change. *)

From S2P Require Import Prelude Identity Counter Taxonomy Evidence Types State Readiness Domains.
From S2P Require Import Indexes Invariant RackRef Explain EngineBase EngineRack EngineTopology.
From S2P Require Import EngineCluster Rollback Commit Scenario CommitProofs FenceProofs Monotone.
From S2P Require Import Reachable Gates.

#[local] Opaque evaluate_readiness check_invariants canonicalize.

(** A publication whose authority is the one its reference names. *)
Definition self_consistent (req : MutationRequest) : Prop :=
  let reference := rq_rack_reference req in
  let authority := rq_authority req in
  (au_boot authority = None ∨ au_boot authority = Some (rr_boot reference)) ∧
  au_publisher authority = rr_publisher reference ∧
  au_publication authority = rr_publication reference.

(** ** The admitted record *)

(** [s'] is [s] with the rack admitted; nothing a later validation reads has
    changed otherwise. *)
Record admitted (incoming : RackReference) (now : Timestamp) (s s' : ClusterState) : Prop := {
  am_record : ∃ r0 r, cs_racks s' !! rr_rack incoming = Some r ∧
    rk_reference r = rk_reference (admitted_record s now r0 incoming) ∧
    rk_membership r = Mem_Active ∧
    rk_authoritative_current r = is_current (rr_evidence (rk_reference r));
  am_others rack : rack ≠ rr_rack incoming → cs_racks s' !! rack = cs_racks s !! rack;
  am_links : cs_links s' = cs_links s;
  am_id : cs_id s' = cs_id s;
  am_epoch : cs_epoch s' = cs_epoch s;
  am_coordinator : cs_coordinator_epoch s' = cs_coordinator_epoch s;
  am_lifecycle : cs_lifecycle s' = cs_lifecycle s;
  am_fenced : cs_fenced_authorities s' = cs_fenced_authorities s;
  am_retired : cs_retired_racks s' = cs_retired_racks s
}.

Lemma admit_changed ctx incoming ctx' res :
  admit_rack ctx incoming = (ctx', res) → mr_outcome res = Out_Accepted →
  admitted incoming (cx_now ctx) (cx_state ctx) (cx_state ctx').
Proof.
  unfold admit_rack, store_rack. intros E Ha.
  destruct (_ || _); [destruct (bump _) as [g|]|]; simplify_eq/=;
    (split; [|intros; cbn; by rewrite lookup_insert_ne|done..]);
    exists (default no_record (cs_racks (cx_state ctx) !! rr_rack incoming)); eexists; cbn;
    (split; [apply lookup_insert_eq|]); done.
Qed.

Lemma add_rack_accepted ctx req ctx' res :
  apply_add_rack ctx req = (ctx', res) → mr_outcome res = Out_Accepted →
  let incoming := canonicalize (rq_rack_reference req) in
  rv_ok (validate_rack_reference incoming) = true ∧
  is_rack_retired (cx_state ctx) (rr_rack incoming) = false ∧
  accepted (validate_boot ctx req (rr_rack incoming)) = true ∧
  admitted incoming (cx_now ctx) (cx_state ctx) (cx_state ctx').
Proof.
  unfold apply_add_rack. set (incoming := canonicalize _). intros E Ha.
  destruct (rv_ok _) eqn:Ev; cbn [negb] in E; [|by simplify_eq].
  destruct (is_rack_retired _ _) eqn:Er; [by simplify_eq|].
  destruct (accepted (validate_boot ctx req (rr_rack incoming))) eqn:Eb; cbn [negb] in E.
  2: { simplify_eq. unfold accepted in Eb. by rewrite Ha in Eb. }
  split_and!; [done..|].
  destruct (cs_racks (cx_state ctx) !! rr_rack incoming) as [r|].
  - destruct (check_existing_rack r incoming) as [res'|] eqn:Ec.
    + simplify_eq. by apply check_existing_rack_outcome in Ec.
    + by apply (admit_changed _ _ _ _ E).
  - destruct (_ <=? _)%N; [by simplify_eq|]. by apply (admit_changed _ _ _ _ E).
Qed.

(** Admission changes only what the comparison of publications ignores. *)
Lemma admitted_same_content s now r0 incoming :
  same_authoritative_content (rk_reference (admitted_record s now r0 incoming)) incoming = true.
Proof.
  unfold same_authoritative_content. apply bool_decide_eq_true.
  unfold normalized_for_compare, admitted_record. with_strategy transparent [canonicalize] reflexivity.
Qed.

Lemma admitted_fields s now r0 incoming :
  let ref := rk_reference (admitted_record s now r0 incoming) in
  rr_boot ref = rr_boot incoming ∧ rr_publisher ref = rr_publisher incoming ∧
  rr_publication ref = rr_publication incoming ∧ rr_generation ref = rr_generation incoming ∧
  rr_currentness ref = Cur_Current.
Proof. done. Qed.

Lemma canonicalize_fields r :
  rr_boot (canonicalize r) = rr_boot r ∧ rr_publisher (canonicalize r) = rr_publisher r ∧
  rr_publication (canonicalize r) = rr_publication r ∧ rr_rack (canonicalize r) = rr_rack r ∧
  rr_generation (canonicalize r) = rr_generation r.
Proof. with_strategy transparent [canonicalize] done. Qed.

(** ** Delivering the publication again *)

(** What the second delivery finds: the record the first one stored. *)
Record stored (incoming : RackReference) (r : RackRecord) : Prop := {
  so_same : same_authoritative_content (rk_reference r) incoming = true;
  so_boot : rr_boot (rk_reference r) = rr_boot incoming;
  so_publisher : rr_publisher (rk_reference r) = rr_publisher incoming;
  so_publication : rr_publication (rk_reference r) = rr_publication incoming;
  so_generation : rr_generation (rk_reference r) = rr_generation incoming;
  so_membership : rk_membership r = Mem_Active
}.

Lemma admitted_stored incoming now s s' :
  admitted incoming now s s' →
  ∃ r, cs_racks s' !! rr_rack incoming = Some r ∧ stored incoming r.
Proof.
  intros [(r0&r&Hr&Href&Hm&_) _ _ _ _ _ _ _ _]. exists r. split; [done|].
  split; rewrite ?Href; try done. apply admitted_same_content.
Qed.

Lemma both_differ_same {A} `{EqDecision A} (x : option A) : both_differ x x = false.
Proof. destruct x; [|done]. apply bool_decide_eq_false. naive_solver. Qed.

Lemma stored_validate_boot ctx req r :
  let incoming := canonicalize (rq_rack_reference req) in
  self_consistent req → cs_racks (cx_state ctx) !! rr_rack incoming = Some r → stored incoming r →
  (∀ boot, au_boot (rq_authority req) = Some boot → is_boot_fenced (cx_state ctx) boot = false) →
  accepted (validate_boot ctx req (rr_rack incoming)) = true.
Proof.
  intros incoming (Hb&Hp&Hn) Hr [] Hf. unfold validate_boot.
  destruct (au_boot (rq_authority req)) as [boot|] eqn:Eb; [|done]. rewrite Hf, Hr by done.
  destruct Hb as [?|[= ->]]; [done|].
  destruct (canonicalize_fields (rq_rack_reference req)) as (Cb&Cp&Cn&Cr&_). fold incoming in Cb, Cp, Cn, Cr.
  rewrite so_boot0, Cb, (bool_decide_false (_ ≠ _)), andb_false_r by naive_solver.
  rewrite Hp, so_publisher0, Cp, both_differ_same.
  unfold identical_duplicate. fold incoming. rewrite so_same0, so_publication0, Cn, Hn, N.eqb_refl.
  rewrite <- Cr, !bool_decide_true by done. cbn. by rewrite andb_false_r.
Qed.

Lemma less_ctr_irrefl {tag} (x : StrongCounter tag) : less x x = false.
Proof. apply N.ltb_irrefl. Qed.

Lemma stored_check_existing incoming r :
  stored incoming r →
  check_existing_rack r incoming = Some (accepted_no_change "identical rack publication is idempotent").
Proof.
  intros []. unfold check_existing_rack, is_placeholder, duplicate_publication.
  rewrite so_generation0, less_ctr_irrefl, so_membership0.
  rewrite so_same0, so_boot0, so_publisher0, so_publication0, (bool_decide_true (rr_generation _ = _)),
    (bool_decide_true (rr_boot _ = _)), (bool_decide_true (rr_publisher _ = _)),
    (bool_decide_true (rr_publication _ = _)), (bool_decide_false (Mem_Active = Mem_Unknown)) by done.
  cbn [andb negb]. rewrite orb_true_r. reflexivity.
Qed.

Lemma resubmitted_add_rack ctx req r :
  let incoming := canonicalize (rq_rack_reference req) in
  self_consistent req → cs_racks (cx_state ctx) !! rr_rack incoming = Some r → stored incoming r →
  (∀ boot, au_boot (rq_authority req) = Some boot → is_boot_fenced (cx_state ctx) boot = false) →
  rv_ok (validate_rack_reference incoming) = true →
  is_rack_retired (cx_state ctx) (rr_rack incoming) = false →
  apply_add_rack ctx req = (ctx, accepted_no_change "identical rack publication is idempotent").
Proof.
  intros incoming Hs Hr Hst Hf Hv Hret. unfold apply_add_rack. fold incoming.
  pose proof (stored_validate_boot ctx req r Hs Hr Hst Hf) as Hb. fold incoming in Hb.
  rewrite Hv, Hret, Hb. cbn [negb].
  by rewrite Hr, (stored_check_existing incoming r).
Qed.

(** A request that passed the gate passes it again. *)
Lemma validate_common_again ctx ctx' req :
  rq_kind req ≠ MK_DeclareCluster →
  cs_id (cx_state ctx') = cs_id (cx_state ctx) → cs_epoch (cx_state ctx') = cs_epoch (cx_state ctx) →
  cs_coordinator_epoch (cx_state ctx') = cs_coordinator_epoch (cx_state ctx) →
  (cs_lifecycle (cx_state ctx') = CL_Retired → cs_lifecycle (cx_state ctx) = CL_Retired) →
  mr_reason (validate_common ctx req) = Rej_None → mr_reason (validate_common ctx' req) = Rej_None.
Proof.
  intros Hk Hi He Hc Hl. unfold validate_common. rewrite Hi, He, Hc, (decide_False _ _ Hk).
  repeat case_decide; try done. destruct (negb (is_valid_id _)); [done|].
  destruct (negb (ctr_known _)); [done|]. unfold accepts_mutations.
  repeat case_decide; repeat case_bool_decide; naive_solver.
Qed.

Lemma validate_boot_not_fenced ctx req rack boot :
  accepted (validate_boot ctx req rack) = true → au_boot (rq_authority req) = Some boot →
  is_boot_fenced (cx_state ctx) boot = false.
Proof.
  unfold validate_boot. intros Ha Hb. rewrite Hb in Ha. by destruct (is_boot_fenced _ boot).
Qed.

Lemma add_rack_changed ctx req ctx' res :
  apply_add_rack ctx req = (ctx', res) → cx_changed ctx = false → cx_changed ctx' = true →
  mr_outcome res = Out_Accepted.
Proof.
  intros E Hf Ht. unfold apply_add_rack, admit_rack, store_rack in E.
  repeat case_match; simplify_eq; try congruence; done.
Qed.

(** The state an accepted admission publishes. *)
Lemma accepted_add_rack now req c :
  rq_kind req = MK_AddRack → mr_outcome (snd (apply_and_commit now req c)) = Out_Accepted →
  ∃ ctx g, let incoming := canonicalize (rq_rack_reference req) in
  co_canonical (fst (apply_and_commit now req c)) = published ctx g now ∧
  mr_reason (validate_common (initial_context c now) req) = Rej_None ∧
  rv_ok (validate_rack_reference incoming) = true ∧
  is_rack_retired (co_canonical c) (rr_rack incoming) = false ∧
  accepted (validate_boot (initial_context c now) req (rr_rack incoming)) = true ∧
  admitted incoming now (co_canonical c) (cx_state ctx).
Proof.
  intros Hk Ha. destruct (apply_and_commit_outcome now req c) as [|c' r ctx res g E Hch Hr Hi Hg Hc _ _ _];
    [done|]. exists ctx, g. intros incoming. split; [done|].
  unfold apply_request in E. case_decide as Hv; [by simplify_eq|].
  unfold dispatch in E. rewrite Hk in E. assert (mr_outcome res = Out_Accepted) as Hres
    by (by apply (add_rack_changed _ _ _ _ E)).
  destruct (add_rack_accepted _ _ _ _ E Hres) as (?&?&?&?).
  split_and!; done.
Qed.

Lemma published_lifecycle ctx g now :
  cs_lifecycle (published ctx g now) = CL_Retired ↔ cs_lifecycle (cx_state ctx) = CL_Retired.
Proof. apply evaluate_readiness_retired. Qed.

(** The second delivery runs on the published state and answers NO_CHANGE. *)
Lemma no_change_commit now req c :
  apply_request (initial_context c now) req =
    (initial_context c now, accepted_no_change "identical rack publication is idempotent") →
  co_canonical (fst (apply_and_commit now req c)) = co_canonical c ∧
  mr_outcome (snd (apply_and_commit now req c)) = Out_NoChange.
Proof.
  intros E. unfold apply_and_commit. rewrite E.
  rewrite decide_False, decide_False by done. cbn [initial_context record_scalars cx_changed upd].
  pose proof (rollback_journaled _ _ (journaled_request _ _ _ _ _ E)) as Hroll.
  split; [|done]. cbn. etrans; [exact Hroll|]. apply upd_id_same.
Qed.

(** Admission is idempotent.  After an accepted [AddRack] whose authority
    is the one its reference names, delivering the same request again, at any
    later time, is answered NO_CHANGE and leaves canonical state exactly as it
    was: a retry is never rejected as stale or conflicting and never advances a
    generation. *)
Theorem add_rack_idempotent now now' req c :
  rq_kind req = MK_AddRack → self_consistent req →
  mr_outcome (snd (apply_and_commit now req c)) = Out_Accepted →
  let c' := fst (apply_and_commit now req c) in
  co_canonical (fst (apply_and_commit now' req c')) = co_canonical c' ∧
  mr_outcome (snd (apply_and_commit now' req c')) = Out_NoChange.
Proof.
  intros Hk Hs Ha c'. destruct (accepted_add_rack now req c Hk Ha) as (ctx&g&Hc&Hg&Hv&Hr&Hb&Hadm).
  fold c' in Hc. clearbody c'. pose proof Hadm as [_ _ _ Hi He Hce Hl Hf Hrt].
  destruct (admitted_stored _ _ _ _ Hadm) as (r&Hrr&Hst).
  apply no_change_commit. unfold apply_request. rewrite decide_False.
  - unfold dispatch. rewrite Hk. apply (resubmitted_add_rack _ _ r); try done.
    + cbn. by rewrite Hc.
    + intros boot Hboot. apply (validate_boot_not_fenced _ _ _ boot Hb) in Hboot.
      unfold is_boot_fenced in *. cbn. rewrite Hc. cbn. rewrite Hf. exact Hboot.
    + unfold is_rack_retired in *. cbn. rewrite Hc. cbn. rewrite Hrt. exact Hr.
  - intros Hn. apply Hn, (validate_common_again (initial_context c now)); try done.
    + by rewrite Hk.
    + cbn. by rewrite Hc.
    + cbn. by rewrite Hc.
    + cbn. by rewrite Hc.
    + cbn. rewrite Hc, published_lifecycle, Hl. done.
Qed.

(** A third rack joins, and its publication is delivered twice. *)
Definition join_c : MutationRequest := add_rack (MkId "rack-c") boot_c 1.

Lemma add_rack_idempotent_witness :
  mr_outcome (snd (apply_and_commit t0 join_c (fst (apply_and_commit t0 join_c demo)))) =
  Out_NoChange.
Proof.
  refine (proj2 (add_rack_idempotent t0 t0 join_c demo _ _ _)).
  - reflexivity.
  - split; [right; reflexivity|split; reflexivity].
  - vm_compute. reflexivity.
Defined.
