(* ===== verification/Effects.v ===== *)
(** * What fences and supersessions do

    The effect on canonical state of the two operations that invalidate
    evidence on a large scale: a fence of a process incarnation and the
    supersession of the topology. *)

From S2P Require Import Prelude Identity Counter Taxonomy Evidence Types State Readiness Domains.
From S2P Require Import Indexes Invariant RackRef Explain EngineBase EngineRack EngineTopology.
From S2P Require Import EngineCluster Rollback Commit Scenario CommitProofs FenceProofs Monotone.
From S2P Require Import Reachable Gates.

#[local] Opaque evaluate_readiness check_invariants.

(** ** Fences *)

(** The store, if there is one, does not fail. *)
Definition store_succeeds (c : Coordinator) : Prop :=
  match co_store c with Some save => ∀ s, save s = SaveOk | None => True end.

Lemma persist_now_ok c c' s :
  store_succeeds c → co_store c' = co_store c → (persist_now (set_canonical s c')).2 = None.
Proof.
  unfold persist_now, store_succeeds, set_canonical. cbn. intros Hok ->.
  destruct (co_store c) as [save|]; [|done]. destruct (negb _); [done|]. by rewrite Hok.
Qed.

Lemma publish_fence_published later ctx c g h :
  store_succeeds c → bump (cs_generation (cx_state ctx)) = Some g →
  bump (cs_health_generation (cx_state ctx)) = Some h →
  co_canonical (publish_fence later ctx c) =
  (cx_state ctx) <| cs_lifecycle := re_lifecycle (evaluate_readiness (cx_state ctx)) |>
    <| cs_generation := g |> <| cs_health_generation := h |> <| cs_last_mutation_at := later |>.
Proof.
  intros Hok Hg Hh. unfold publish_fence. cbn [record_scalars cx_state].
  change (cx_state (record_scalars ctx)) with (cx_state ctx).
  set (st := (cx_state ctx) <| cs_lifecycle := _ |>).
  change (cs_generation st) with (cs_generation (cx_state ctx)).
  change (cs_health_generation st) with (cs_health_generation (cx_state ctx)).
  rewrite Hg, Hh. clearbody st.
  destruct (persist_now _) as [c1 [failed|]] eqn:Hp.
  - pose proof (persist_now_ok c c (st <| cs_generation := g |> <| cs_health_generation := h |>
      <| cs_last_mutation_at := later |>) Hok eq_refl) as Hn. rewrite Hp in Hn. done.
  - pose proof (persist_now_frame _ _ _ Hp) as (Hc1&_). exact Hc1.
Qed.

Lemma apply_fence_published now later boot reason c g h :
  store_succeeds c → boot_in_use (co_canonical c) boot = true →
  bump (cs_generation (co_canonical c)) = Some g →
  bump (cs_health_generation (co_canonical c)) = Some h →
  co_canonical (apply_fence now later boot reason c) =
  fence_published boot reason now later g h (co_canonical c).
Proof.
  intros Hok Hb Hg Hh. unfold apply_fence. rewrite Hb. cbn [negb].
  destruct (fenced_state_frame boot reason now (co_canonical c)) as (Eg&Eh&_).
  assert (cx_state (fence_boot_entry boot reason now (fence_records boot reason
    (MkCtx (co_canonical c) (co_config c) now [] false))) =
    fenced_state boot reason now (co_canonical c)) as Hst
    by (by rewrite fence_boot_entry_state, fence_records_state).
  rewrite (publish_fence_published _ _ _ g h) by (rewrite ?Hst, ?Eg, ?Eh; done). by rewrite Hst.
Qed.

(** C10: a fence takes effect.  When the boot published a rack or a link, no
    generation is exhausted and the save succeeds, the boot is recorded as
    fenced; every rack record it published loses its authority and requires
    revalidation, every link it published becomes unknown; the other records are
    left as they were; and the cluster and health generations advance by one. *)
Theorem fence_takes_effect now later boot reason c :
  let s := co_canonical c in
  let s' := co_canonical (apply_fence now later boot reason c) in
  store_succeeds c → boot_in_use s boot = true →
  (ctr (cs_generation s) < u64_max)%N → (ctr (cs_health_generation s) < u64_max)%N →
  is_boot_fenced s' boot = true ∧
  (∀ rack, cs_racks s' !! rack =
     (λ r, if rack_of_boot boot r then fenced_record reason r else r) <$> cs_racks s !! rack) ∧
  (∀ link, cs_links s' !! link =
     (λ l, if link_of_boot boot l then fenced_link l else l) <$> cs_links s !! link) ∧
  (∀ rack r, cs_racks s' !! rack = Some r → rr_boot (rk_reference r) = boot →
     rk_authoritative_current r = false ∧
     requires_revalidation (rr_evidence (rk_reference r)) = true) ∧
  ctr (cs_generation s') = (ctr (cs_generation s) + 1)%N ∧
  ctr (cs_health_generation s') = (ctr (cs_health_generation s) + 1)%N.
Proof.
  intros s s' Hok Hb Hg Hh.
  destruct (next_below (cs_generation s) Hg) as (g&Eg&Vg).
  destruct (next_below (cs_health_generation s) Hh) as (h&Eh&Vh).
  assert (s' = fence_published boot reason now later g h s) as -> by (by apply apply_fence_published).
  clearbody s. clear Hok c.
  pose proof (fence_racks_lookup boot reason now s) as Hr.
  pose proof (fence_links_lookup boot reason now s) as Hl.
  assert (∀ rack, cs_racks (fence_published boot reason now later g h s) !! rack =
    (λ r, if rack_of_boot boot r then fenced_record reason r else r) <$> cs_racks s !! rack) as Hrack.
  { intros rack. rewrite <- lookup_fmap, <- Hr. reflexivity. }
  split_and!; [|exact Hrack| | |exact Vg|exact Vh].
  - apply (is_boot_fenced_fence boot reason now s). by right.
  - intros link. rewrite <- lookup_fmap, <- Hl. reflexivity.
  - intros rack r Hr' Hbr. rewrite Hrack in Hr'.
    destruct (cs_racks s !! rack) as [r0|]; [|done]. cbn in Hr'. injection Hr' as <-.
    destruct (rack_of_boot boot r0) eqn:E; [done|]. unfold rack_of_boot in E. by split_bools.
Qed.

Lemma fence_takes_effect_witness :
  is_boot_fenced (co_canonical (apply_fence t0 t0 boot_a "lost" demo)) boot_a = true.
Proof.
  refine (proj1 (fence_takes_effect t0 t0 boot_a "lost" demo _ _ _ _)).
  - assert (co_store demo = Some (λ _, SaveOk)) as H by (vm_compute; reflexivity).
    unfold store_succeeds. rewrite H. intros s. reflexivity.
  - vm_compute. reflexivity.
  - vm_compute. reflexivity.
  - vm_compute. reflexivity.
Defined.

(** ** Supersession of the topology *)

Lemma supersede_changed ctx req ctx' res :
  apply_supersede_topology ctx req = (ctx', res) → cx_changed ctx = false → cx_changed ctx' = true →
  ∃ target, rq_target_topology_epoch req = Some target ∧
    (ctr (cs_topology_epoch (cx_state ctx)) < ctr target)%N ∧
    cs_topology_epoch (cx_state ctx') = target ∧
    cs_links (cx_state ctx') = superseded_link <$> cs_links (cx_state ctx) ∧
    cs_racks (cx_state ctx') = cs_racks (cx_state ctx).
Proof.
  unfold apply_supersede_topology. intros E Hf Ht.
  destruct (rq_target_topology_epoch req) as [target|]; [|by simplify_eq; congruence].
  destruct (_ <=? _)%N eqn:El; [by simplify_eq; congruence|]. apply N.leb_gt in El.
  exists target. split; [done|]. split; [done|].
  pose proof (rewrite_links_state (λ _, true) superseded_link ctx) as Hs.
  assert (cx_changed (rewrite_links (λ _, true) superseded_link ctx) = cx_changed ctx) as Hc
    by (by apply (fold_frame cx_changed)).
  revert E Hs Hc. generalize (rewrite_links (λ _, true) superseded_link ctx) as ctx0.
  intros ctx0 E Hs Hc. unfold bump_topology, bump_connectivity in E.
  destruct (bump _) as [g1|]; [destruct (bump _) as [g2|]|]; simplify_eq.
  - cbn. rewrite Hs. done.
  - cbn in Ht. congruence.
  - cbn in Ht. congruence.
Qed.

(** A supersession invalidates every link.  When a topology supersession
    is accepted, the cluster is at the requested, strictly newer topology epoch;
    the set of links is unchanged, but each of them lost its reachability and
    health and requires revalidation, so no link counts as current evidence; and
    no rack record changes. *)
Theorem supersede_invalidates_links now req c :
  rq_kind req = MK_SupersedeTopology →
  mr_outcome (snd (apply_and_commit now req c)) = Out_Accepted →
  let s := co_canonical c in
  let s' := co_canonical (fst (apply_and_commit now req c)) in
  Some (cs_topology_epoch s') = rq_target_topology_epoch req ∧
  (ctr (cs_topology_epoch s) < ctr (cs_topology_epoch s'))%N ∧
  cs_links s' = superseded_link <$> cs_links s ∧ live_links s' = ∅ ∧ cs_racks s' = cs_racks s.
Proof.
  intros Hk Ha s s'. destruct (apply_and_commit_outcome now req c) as [|c' r ctx res g E Hch _ _ _ Hc _ _ _];
    [done|]. unfold apply_request in E. case_decide as Hv; [by simplify_eq|].
  unfold dispatch in E. rewrite Hk in E.
  destruct (supersede_changed _ _ _ _ E eq_refl Hch) as (target&Ht&Hlt&He&Hl&Hr).
  subst s'. rewrite Hc. cbn [initial_context record_scalars cx_state] in *.
  change (cs_topology_epoch (published ctx g now)) with (cs_topology_epoch (cx_state ctx)).
  change (cs_links (published ctx g now)) with (cs_links (cx_state ctx)).
  change (cs_racks (published ctx g now)) with (cs_racks (cx_state ctx)).
  rewrite He, Ht. split_and!; try done.
  unfold live_links. change (cs_links (published ctx g now)) with (cs_links (cx_state ctx)).
  rewrite Hl. apply map_empty_filter. intros k l Hkl. rewrite lookup_fmap in Hkl.
  destruct (cs_links _ !! k) as [l0|]; [|done]. cbn in Hkl. injection Hkl as <-.
  cbn. rewrite marked_not_current. discriminate.
Qed.

Definition supersede_to (epoch : N) : MutationRequest :=
  (request MK_SupersedeTopology operator) <| rq_target_topology_epoch := Some (MkCtr epoch) |>.

Lemma supersede_invalidates_links_witness :
  live_links (co_canonical (fst (apply_and_commit t0 (supersede_to 2) demo))) = ∅ ∧
  live_links demo_state ≠ ∅.
Proof.
  split.
  - refine (proj1 (proj2 (proj2 (proj2
      (supersede_invalidates_links t0 (supersede_to 2) demo _ _))))); vm_compute; reflexivity.
  - intros H. assert (base.size (live_links demo_state) = 1%nat) as Hs by (vm_compute; reflexivity).
    rewrite H in Hs. discriminate Hs.
Defined.
