(* ===== verification/RecoveryProofs.v ===== *)
(** * Restarting a coordinator

    What survives a restart: projecting a canonical state to its durable form
    and recovering it.  Counters, identities and records survive; live authority
    does not; the invariants hold afterwards. *)

From S2P Require Import Prelude Identity Counter Taxonomy Evidence Types State Readiness Domains.
From S2P Require Import Indexes Invariant Queries RackRef Explain EngineBase EngineRack.
From S2P Require Import EngineTopology EngineCluster Rollback Durable Commit Scenario.
From S2P Require Import CommitProofs FenceProofs Monotone Reachable.

#[local] Opaque evaluate_readiness check_invariants.

(** ** Rebuilding a map from its values *)

Section insert_all.
  Context {tag : IdTag} {V : Type} (key : V → StrongId tag).

Lemma insert_all_snoc l v : insert_all key (l ++ [v]) = <[key v := v]> (insert_all key l).
Proof. unfold insert_all. by rewrite foldl_app. Qed.

Lemma insert_all_lookup l k v :
  NoDup (key <$> l) → insert_all key l !! k = Some v ↔ v ∈ l ∧ key v = k.
Proof.
  induction l as [|w l IH] using rev_ind; intros Hnd.
  - unfold insert_all. cbn. rewrite lookup_empty. set_solver.
  - rewrite fmap_app in Hnd. apply NoDup_app in Hnd as (Hnd&Hdis&_).
    rewrite insert_all_snoc, lookup_insert_Some, IH, elem_of_app, list_elem_of_singleton by done.
    split; [naive_solver|]. intros [[Hv| ->] <-]; [|auto]. right. split; [|done].
    intros Heq. apply (Hdis (key w)); [|set_solver]. rewrite Heq. by apply list_elem_of_fmap_2.
Qed.

(** The values of a well-keyed map, rewritten by a function that keeps the key,
    give the rewritten map. *)
Lemma insert_all_values (m : gmap (StrongId tag) V) f :
  (∀ k v, m !! k = Some v → key v = k) → (∀ v, key (f v) = key v) →
  insert_all key (f <$> values m) = f <$> m.
Proof.
  intros Hk Hf.
  assert (key <$> (f <$> values m) = (entries m).*1) as Hkeys.
  { unfold values. rewrite <- !list_fmap_compose. apply list_fmap_ext. intros i [k v] Hi. cbn.
    rewrite Hf. apply Hk, elem_of_entries. by eapply list_elem_of_lookup_2. }
  apply map_eq. intros k. apply option_eq. intros v.
  rewrite insert_all_lookup by (rewrite Hkeys; apply NoDup_entries_keys).
  rewrite lookup_fmap_Some. unfold values. split.
  - intros [(w&->&([k' w']&->&Hin%elem_of_entries)%list_elem_of_fmap)%list_elem_of_fmap Hkv].
    cbn in *. exists w'. split; [done|]. rewrite Hf, (Hk _ _ Hin) in Hkv. by subst.
  - intros (w&<-&Hw). rewrite Hf, (Hk _ _ Hw). split; [|done].
    apply list_elem_of_fmap_2, list_elem_of_fmap. exists (k, w). split; [done|]. by apply elem_of_entries.
Qed.
End insert_all.

(** ** States whose records are stored under their own identity *)

Definition domain_keyed (D : Type) {tag} `{DomainTraits D tag} (s : ClusterState) : Prop :=
  ∀ i d, dt_member D s !! i = Some d → dt_id d = i.

Record keyed (s : ClusterState) : Prop := {
  ke_racks k r : cs_racks s !! k = Some r → rr_rack (rk_reference r) = k;
  ke_links k l : cs_links s !! k = Some l → lk_id l = k;
  ke_constraints k c : cs_constraints s !! k = Some c → cc_id c = k;
  ke_placement : domain_keyed PlacementDomain s;
  ke_capacity : domain_keyed CapacityDomain s;
  ke_failure : domain_keyed FailureDomain s;
  ke_network : domain_keyed NetworkDomain s;
  ke_storage : domain_keyed StorageDomain s;
  ke_power : domain_keyed PowerDomain s;
  ke_cooling : domain_keyed CoolingDomain s;
  ke_link : domain_keyed LinkDomain s
}.

(** ** The recovered state *)

(** A restart: the last saved state is the canonical one. *)
Definition restart_epoch (s : ClusterState) : CoordinatorEpoch :=
  next_coordinator_epoch (cs_coordinator_epoch s).

Definition restart (now : Timestamp) (s : ClusterState) : ClusterState :=
  from_persisted_state (to_persisted_state s) (restart_epoch s) now.

Definition restart_rack (now : Timestamp) (s : ClusterState) (r : RackRecord) : RackRecord :=
  recovered_rack (to_persisted_state s) (restart_epoch s) now
    (durable_rack (rr_rack (rk_reference r), r)).

(** The record awaits revalidation. *)
Definition pending_rack (r : RackRecord) : bool :=
  bool_decide (rr_currentness (rk_reference r) = Cur_RevalidationRequired) &&
  requires_revalidation (rr_evidence (rk_reference r)).

Definition restart_domain {D tag} `{DomainTraits D tag} (now : Timestamp) (d : D) : D :=
  upd dt_header (refresh_header now) d.

Section restart.
  Context (now : Timestamp) (s : ClusterState).
  Hypothesis Hkeyed : keyed s.

Let s' := restart now s.

Lemma restart_racks : cs_racks s' = restart_rack now s <$> cs_racks s.
Proof.
  change (insert_all (λ r, rr_rack (rk_reference r))
    (recovered_rack (to_persisted_state s) (restart_epoch s) now <$>
       (durable_rack <$> entries (cs_racks s))) = restart_rack now s <$> cs_racks s).
  assert (recovered_rack (to_persisted_state s) (restart_epoch s) now <$>
      (durable_rack <$> entries (cs_racks s)) = restart_rack now s <$> values (cs_racks s)) as ->.
  { unfold values. rewrite <- !list_fmap_compose. apply list_fmap_ext. intros i [k r] Hi.
    change (recovered_rack (to_persisted_state s) (restart_epoch s) now (durable_rack (k, r)) =
            restart_rack now s r).
    unfold restart_rack. rewrite (ke_racks s Hkeyed k r); [done|].
    apply elem_of_entries. by eapply list_elem_of_lookup_2. }
  apply insert_all_values; [apply (ke_racks s Hkeyed)|intros r; reflexivity].
Qed.

Lemma restart_links : cs_links s' = recovered_link <$> cs_links s.
Proof. apply (insert_all_values lk_id); [apply (ke_links s Hkeyed)|done]. Qed.

Lemma restart_constraints : cs_constraints s' = recovered_constraint now <$> cs_constraints s.
Proof. apply (insert_all_values cc_id); [apply (ke_constraints s Hkeyed)|done]. Qed.

Lemma recovered_domains_values {D tag} `{DomainTraits D tag} `{!DomainLaws D tag} :
  domain_keyed D s →
  recovered_domains now (values (dt_member D s)) = restart_domain now <$> dt_member D s.
Proof.
  intros Hk. unfold recovered_domains. apply insert_all_values; [done|]. intros v. apply dl_header_id.
Qed.

Lemma restart_member rack : is_rack_member s' rack = is_rack_member s rack.
Proof.
  unfold is_rack_member. rewrite restart_racks, lookup_fmap. by destruct (cs_racks s !! rack).
Qed.

(** The fenced list: the old entries, and the last incarnation of every rack. *)
Lemma fence_fold_elem l fenced b :
  (∃ f, f ∈ foldl (fence_recovered now) fenced l ∧ fa_boot f = b) ↔
  (∃ f, f ∈ fenced ∧ fa_boot f = b) ∨ ∃ d, d ∈ l ∧ du_last_boot d = b.
Proof.
  revert fenced. induction l as [|d l IH]; intros fenced; cbn [foldl]; [set_solver|].
  rewrite IH. unfold fence_recovered.
  destruct (existsb _ fenced) eqn:E.
  - apply existsb_elem in E as (f&Hf&Hb). split_bools. set_solver.
  - setoid_rewrite elem_of_app. setoid_rewrite list_elem_of_singleton. set_solver.
Qed.

Lemma fence_fold_nodup l fenced :
  NoDup (fa_boot <$> fenced) → NoDup (fa_boot <$> foldl (fence_recovered now) fenced l).
Proof.
  revert fenced. induction l as [|d l IH]; intros fenced Hnd; [done|]. cbn [foldl].
  apply IH. unfold fence_recovered. destruct (existsb _ fenced) eqn:E; [done|].
  rewrite fmap_app. apply NoDup_app. split_and!; [done| |apply NoDup_singleton].
  intros b (f&->&Hf)%list_elem_of_fmap Hin%list_elem_of_singleton.
  assert (existsb (λ f, bool_decide (fa_boot f = du_last_boot d)) fenced = true); [|congruence].
  apply existsb_elem. exists f. split; [done|]. by apply bool_decide_eq_true.
Qed.

Lemma restart_fenced b :
  is_boot_fenced s' b = true ↔
  is_boot_fenced s b = true ∨ ∃ rack r, cs_racks s !! rack = Some r ∧ rr_boot (rk_reference r) = b.
Proof.
  rewrite !is_boot_fenced_spec.
  change (cs_fenced_authorities s') with (recovered_fenced (to_persisted_state s) now).
  unfold recovered_fenced. setoid_rewrite elem_of_sort_by. rewrite fence_fold_elem. cbn.
  apply or_iff_compat_l. split.
  - intros (d&([rack r]&->&Hin%elem_of_entries)%list_elem_of_fmap&<-). by exists rack, r.
  - intros (rack&r&Hr&<-). exists (durable_rack (rack, r)). split; [|done].
    apply list_elem_of_fmap_2. by apply elem_of_entries.
Qed.

Lemma restart_fenced_sorted :
  strictly_sorted less (fa_boot <$> cs_fenced_authorities s) = true →
  strictly_sorted less (fa_boot <$> cs_fenced_authorities s') = true.
Proof.
  rewrite !(strictly_sorted_spec less). intros Hs.
  change (cs_fenced_authorities s') with (recovered_fenced (to_persisted_state s) now).
  unfold recovered_fenced. rewrite (fmap_sort_by fa_boot less boot_lt) by done.
  apply (sort_by_ssorted less), fence_fold_nodup. by apply (ssorted_NoDup less).
Qed.

Lemma restart_retired rack : is_rack_retired s' rack = is_rack_retired s rack.
Proof. done. Qed.

(** ** The checks on the recovered state *)

Lemma restart_epoch_known : ctr_known (cs_coordinator_epoch s') = true.
Proof.
  change (ctr_known (next_coordinator_epoch (cs_coordinator_epoch s)) = true).
  unfold next_coordinator_epoch. destruct (ctr_known (cs_coordinator_epoch s)) eqn:E; [|done].
  destruct (next (cs_coordinator_epoch s)) eqn:En; [by eapply next_known|done].
Qed.

Lemma restart_cluster : cluster_violations s = [] → cluster_violations s' = [].
Proof.
  unfold cluster_violations. rewrite !app_nil, !viol_nil, restart_epoch_known. intros H.
  destruct H as (?&?&?&?&?&?&?&?&?&?&?). split_and!; done.
Qed.

Lemma restart_rack_violations k r :
  rack_violations s (k, r) = [] → rack_violations s' (k, restart_rack now s r) = [].
Proof.
  unfold rack_violations. cbn [fst snd]. rewrite !app_nil. intros H.
  destruct H as (?&?&?&?&?&?&?). split_and!; try assumption; [|reflexivity].
  change (rk_membership (restart_rack now s r)) with (rk_membership r).
  destruct (decide (rk_membership r = Mem_Unknown)); reflexivity.
Qed.

Lemma restart_link_violations k l :
  cs_failure_domains s' = restart_domain now <$> cs_failure_domains s →
  link_violations s (k, l) = [] → link_violations s' (k, recovered_link l) = [].
Proof.
  intros Hf. unfold link_violations. cbn [fst snd]. rewrite !app_nil, !flat_map_nil. intros H.
  change (lk_source (recovered_link l)) with (lk_source l).
  change (lk_destination (recovered_link l)) with (lk_destination l). rewrite !restart_member.
  destruct H as (?&?&?&?&?&?&?&?&Hd). split_and!; try assumption.
  - apply viol_nil. cbn. by rewrite andb_false_r.
  - apply viol_nil. cbn. by rewrite andb_false_r.
  - intros d Hin. specialize (Hd d Hin). rewrite viol_nil, bool_decide_eq_false in *.
    rewrite Hf, lookup_fmap. by destruct (cs_failure_domains s !! d).
Qed.

(** What the checks read of a domain does not change with its evidence. *)
Lemma restart_check_domain D {tag} `{DomainTraits D tag} `{!DomainLaws D tag} :
  (∀ d : D, class_of (restart_domain now d) = class_of d) →
  dt_member D s' = restart_domain now <$> dt_member D s →
  check_domain D s = [] → check_domain D s' = [].
Proof.
  intros Hc Hm. unfold check_domain. rewrite Hm, !flat_map_entries_nil. intros Hall k d' Hd'.
  rewrite lookup_fmap in Hd'. destruct (dt_member D s !! k) as [d|] eqn:Ed; [|done].
  cbn in Hd'. injection Hd' as <-. specialize (Hall k d Ed). cbn [fst snd] in *.
  unfold restart_domain in *. rewrite dl_header_racks, Hc. rewrite !app_nil, !flat_map_nil in *.
  setoid_rewrite restart_member. done.
Qed.

Lemma max_generation_le D {tag} `{DomainTraits D tag} st n :
  (max_generation D st <= n)%N ↔
  ∀ k d, dt_member D st !! k = Some d → (ctr (dh_generation (dt_header d)) <= n)%N.
Proof.
  unfold max_generation. setoid_rewrite <- elem_of_entries.
  assert (∀ l a, (foldl (λ value (e : StrongId tag * D), N.max value (ctr (dh_generation (dt_header e.2)))) a l <= n)%N
    ↔ (a <= n)%N ∧ ∀ k d, (k, d) ∈ l → (ctr (dh_generation (dt_header d)) <= n)%N) as Hl.
  { induction l as [|[k d] l IH]; intros a; cbn [foldl]; [set_solver|]. rewrite IH. cbn.
    setoid_rewrite elem_of_cons. split.
    - intros [??]. split; [lia|]. intros k' d' [[= -> ->]|?]; [lia|eauto].
    - intros [? Hall]. split; [|eauto]. specialize (Hall k d (or_introl eq_refl)). lia. }
  rewrite Hl. split; [by intros [_ ?]|]. intros Hall. split; [lia|done].
Qed.

Lemma restart_check_generation D {tag} `{DomainTraits D tag} `{!DomainLaws D tag} word :
  dt_member D s' = restart_domain now <$> dt_member D s →
  check_generation D word s = [] → check_generation D word s' = [].
Proof.
  intros Hm. unfold check_generation. rewrite !viol_nil, !N.ltb_ge, !max_generation_le.
  intros Hall k d' Hd'. rewrite Hm, lookup_fmap in Hd'.
  destruct (dt_member D s !! k) as [d|] eqn:Ed; [|done]. cbn in Hd'. injection Hd' as <-.
  unfold restart_domain. rewrite dl_header_get. exact (Hall k d Ed).
Qed.

Lemma restart_domain_maps :
  dt_member PlacementDomain s' = restart_domain now <$> dt_member PlacementDomain s ∧
  dt_member CapacityDomain s' = restart_domain now <$> dt_member CapacityDomain s ∧
  dt_member FailureDomain s' = restart_domain now <$> dt_member FailureDomain s ∧
  dt_member NetworkDomain s' = restart_domain now <$> dt_member NetworkDomain s ∧
  dt_member StorageDomain s' = restart_domain now <$> dt_member StorageDomain s ∧
  dt_member PowerDomain s' = restart_domain now <$> dt_member PowerDomain s ∧
  dt_member CoolingDomain s' = restart_domain now <$> dt_member CoolingDomain s ∧
  dt_member LinkDomain s' = restart_domain now <$> dt_member LinkDomain s.
Proof.
  destruct Hkeyed. split_and!.
  - exact (recovered_domains_values (D:=PlacementDomain) ke_placement0).
  - exact (recovered_domains_values (D:=CapacityDomain) ke_capacity0).
  - exact (recovered_domains_values (D:=FailureDomain) ke_failure0).
  - exact (recovered_domains_values (D:=NetworkDomain) ke_network0).
  - exact (recovered_domains_values (D:=StorageDomain) ke_storage0).
  - exact (recovered_domains_values (D:=PowerDomain) ke_power0).
  - exact (recovered_domains_values (D:=CoolingDomain) ke_cooling0).
  - exact (recovered_domains_values (D:=LinkDomain) ke_link0).
Qed.

Lemma restart_domains : domain_violations s = [] → domain_violations s' = [].
Proof.
  destruct restart_domain_maps as (H1&H2&H3&H4&H5&H6&H7&H8).
  unfold domain_violations. rewrite !app_nil.
  intros (?&?&?&?&?&?&?&?&?&?&?&?&?&?&?&?).
  split_and!.
  - by apply (restart_check_domain PlacementDomain).
  - by apply (restart_check_domain CapacityDomain).
  - by apply (restart_check_domain FailureDomain).
  - by apply (restart_check_domain NetworkDomain).
  - by apply (restart_check_domain StorageDomain).
  - by apply (restart_check_domain PowerDomain).
  - by apply (restart_check_domain CoolingDomain).
  - by apply (restart_check_domain LinkDomain).
  - by apply (restart_check_generation PlacementDomain).
  - by apply (restart_check_generation CapacityDomain).
  - by apply (restart_check_generation FailureDomain).
  - by apply (restart_check_generation NetworkDomain).
  - by apply (restart_check_generation StorageDomain).
  - by apply (restart_check_generation PowerDomain).
  - by apply (restart_check_generation CoolingDomain).
  - by apply (restart_check_generation LinkDomain).
Qed.

Lemma restart_counts : count_violations s = [] → count_violations s' = [].
Proof.
  destruct restart_domain_maps as (H1&H2&H3&H4&H5&H6&H7&H8). cbn [dt_member placement_traits
    capacity_traits failure_traits network_traits storage_traits power_traits cooling_traits
    link_traits] in *.
  unfold count_violations, msize.
  by rewrite restart_racks, restart_links, restart_constraints, H1, H2, H3, H4, H5, H6, H7, H8,
    !map_size_fmap.
Qed.

Lemma restart_constraint_violations : constraint_violations s = [] → constraint_violations s' = [].
Proof.
  unfold constraint_violations. rewrite restart_constraints, !flat_map_entries_nil.
  intros Hall k c' Hc'. rewrite lookup_fmap in Hc'.
  destruct (cs_constraints s !! k) as [c|] eqn:Ec; [|done]. cbn in Hc'. injection Hc' as <-.
  specialize (Hall k c Ec). cbn [fst snd] in *. rewrite flat_map_nil in *.
  setoid_rewrite restart_member. exact Hall.
Qed.

Lemma restart_withdrawn : withdrawn_violations s = [] → withdrawn_violations s' = [].
Proof.
  unfold withdrawn_violations. change (cs_withdrawn_racks s') with (cs_withdrawn_racks s).
  rewrite restart_racks, !app_nil, !flat_map_nil. intros (Hs&Hl&Hr). split_and!; [done| |].
  - intros rack Hin. specialize (Hl rack Hin). rewrite lookup_fmap.
    by destruct (cs_racks s !! rack).
  - intros [rack r'] Hin%elem_of_entries. rewrite lookup_fmap in Hin.
    destruct (cs_racks s !! rack) as [r|] eqn:Er; [|done]. cbn in Hin. injection Hin as <-.
    specialize (Hr (rack, r)). rewrite elem_of_entries in Hr. exact (Hr Er).
Qed.

Lemma restart_not_authoritative rack r :
  cs_racks s' !! rack = Some r → rk_authoritative_current r = false ∧ pending_rack r = true.
Proof.
  rewrite restart_racks, lookup_fmap. intros H.
  destruct (cs_racks s !! rack); [|done]. cbn in H. injection H as <-. done.
Qed.

Lemma restart_authority : authority_violations s = [] → authority_violations s' = [].
Proof.
  unfold authority_violations. rewrite !app_nil, !flat_map_nil, !viol_nil.
  intros (Hs&_&Hr). split_and!; [| |done].
  - apply negb_false_iff, restart_fenced_sorted, negb_false_iff, Hs.
  - intros f _. apply viol_nil. destruct (cs_racks s' !! fa_rack f) as [r|] eqn:Er; [|done].
    by destruct (restart_not_authoritative _ _ Er) as [-> _].
Qed.

Lemma restart_lifecycle_not_retired : cs_lifecycle s' ≠ CL_Retired.
Proof.
  change (re_lifecycle (evaluate_readiness (recovered_state (to_persisted_state s) (restart_epoch s) now))
    ≠ CL_Retired). rewrite evaluate_readiness_retired. discriminate.
Qed.

Lemma restart_lifecycle : lifecycle_violations s = [] → lifecycle_violations s' = [].
Proof.
  unfold lifecycle_violations. rewrite !app_nil. intros (_&_&Hp). split_and!; [| |done].
  - apply viol_nil, evaluated_ready.
  - destruct (decide (cs_lifecycle s' = CL_Retired)) as [Hl|_]; [|reflexivity].
    by destruct restart_lifecycle_not_retired.
Qed.

Lemma restart_no_violations : state_violations s = [] → state_violations s' = [].
Proof.
  unfold state_violations. rewrite !app_nil. intros (Hc&Hn&Hr&Hl&Hd&Hk&Hw&Ha&Hy).
  rewrite flat_map_entries_nil in Hr. rewrite flat_map_entries_nil in Hl.
  rewrite restart_racks, restart_links, !flat_map_entries_nil.
  split_and!; auto using restart_cluster, restart_counts, restart_domains,
    restart_constraint_violations, restart_withdrawn, restart_authority, restart_lifecycle.
  - intros k r' Hk'. rewrite lookup_fmap in Hk'.
    destruct (cs_racks s !! k) eqn:E; simplify_eq/=. by apply restart_rack_violations, Hr.
  - intros k l' Hk'. rewrite lookup_fmap in Hk'.
    destruct (cs_links s !! k) eqn:E; simplify_eq/=. apply restart_link_violations; [|by apply Hl].
    apply restart_domain_maps.
Qed.

Lemma restart_keyed_state : keyed s'.
Proof.
  destruct restart_domain_maps as (H1&H2&H3&H4&H5&H6&H7&H8). pose proof Hkeyed as [].
  assert (∀ D tag (HD : DomainTraits D tag) (HL : DomainLaws D tag),
    dt_member D s' = restart_domain now <$> dt_member D s → domain_keyed D s → domain_keyed D s')
    as Hdom.
  { intros D tag HD HL Hm Hk i d' Hd'. rewrite Hm, lookup_fmap in Hd'.
    destruct (dt_member D s !! i) as [d|] eqn:Ed; [|done]. cbn in Hd'. injection Hd' as <-.
    unfold restart_domain. rewrite dl_header_id. by apply Hk. }
  split; auto with typeclass_instances.
  - intros k r'. rewrite restart_racks, lookup_fmap. destruct (cs_racks s !! k) as [r|] eqn:E; [|done].
    intros [= <-]. exact (ke_racks0 k r E).
  - intros k l'. rewrite restart_links, lookup_fmap. destruct (cs_links s !! k) as [l|] eqn:E; [|done].
    intros [= <-]. exact (ke_links0 k l E).
  - intros k c'. rewrite restart_constraints, lookup_fmap.
    destruct (cs_constraints s !! k) as [c|] eqn:E; [|done]. intros [= <-]. exact (ke_constraints0 k c E).
Qed.

(** Nothing comes back from an empty state. *)
Lemma restart_nothing : nothing_recorded s = true → nothing_recorded s' = true.
Proof.
  unfold nothing_recorded. rewrite !andb_true_iff, !bool_decide_eq_true. intros H.
  destruct H as [[[[[[[[[[[[[Hr Hl] H1] H2] H3] H4] H5] H6] H7] H8] Hc] Ht] Hw] Hf].
  destruct restart_domain_maps as (M1&M2&M3&M4&M5&M6&M7&M8). cbn [dt_member placement_traits
    capacity_traits failure_traits network_traits storage_traits power_traits cooling_traits
    link_traits] in *. unfold msize in *.
  rewrite restart_racks, restart_links, restart_constraints, M1, M2, M3, M4, M5, M6, M7, M8,
    !map_size_fmap.
  assert (cs_fenced_authorities s' = []) as ->.
  { apply N.eqb_eq, N_of_size_eq_0 in Hr.
    change (recovered_fenced (to_persisted_state s) now = []). unfold recovered_fenced.
    cbn [to_persisted_state ps_fenced_authorities ps_racks]. rewrite Hr, Hf. reflexivity. }
  split_and!; done.
Qed.
End restart.

Lemma restart_invariants now s :
  keyed s → invariants_hold s → invariants_hold (restart now s).
Proof.
  intros Hk [Hn|Hv]; [left; by apply restart_nothing|right; by apply restart_no_violations].
Qed.

Lemma restart_keyed now s : keyed s → keyed (restart now s).
Proof. apply restart_keyed_state. Qed.
