(* ===== verification/Keyed.v ===== *)
(** * Records are stored under their own identity

    Every handler and every fence files each record under the identity the
    record carries, so the durable form of the state, which keeps the records
    without their keys, loses nothing. *)

From S2P Require Import Prelude Identity Counter Taxonomy Evidence Types State Readiness Domains.
From S2P Require Import Indexes Invariant Queries RackRef Explain EngineBase EngineRack.
From S2P Require Import EngineTopology EngineCluster Rollback Durable Commit Scenario.
From S2P Require Import CommitProofs FenceProofs Monotone Reachable RecoveryProofs.

#[local] Opaque evaluate_readiness check_invariants.

Lemma keyed_same_maps s s' : same_maps s' s → keyed s → keyed s'.
Proof.
  intros [] []. split; unfold domain_keyed in *; intros *; cbn in *; rewrite ?sm_racks, ?sm_links,
    ?sm_constraints, ?sm_placement, ?sm_capacity, ?sm_failure, ?sm_network, ?sm_storage, ?sm_power,
    ?sm_cooling, ?sm_link_domains; eauto.
Qed.

Definition rack_key (r : RackRecord) : RackId := rr_rack (rk_reference r).

(** Every entry of the map is filed under its key. *)
Definition map_keyed {tag V} (key : V → StrongId tag) (m : gmap (StrongId tag) V) : Prop :=
  ∀ k v, m !! k = Some v → key v = k.

Lemma map_keyed_insert {tag V} (key : V → StrongId tag) m k v :
  map_keyed key m → key v = k → map_keyed key (<[k := v]> m).
Proof. intros Hm Hv k' v' [[<- <-]|[_ H]]%lookup_insert_Some; [done|by apply Hm]. Qed.

Lemma map_keyed_delete {tag V} (key : V → StrongId tag) m k :
  map_keyed key m → map_keyed key (delete k m).
Proof. intros Hm k' v' [_ H]%lookup_delete_Some. by apply Hm. Qed.

Lemma map_keyed_fmap {tag V} (key : V → StrongId tag) m f :
  map_keyed key m → (∀ v, key (f v) = key v) → map_keyed key (f <$> m).
Proof.
  intros Hm Hf k v Hv. rewrite lookup_fmap in Hv. destruct (m !! k) eqn:E; simplify_eq/=.
  rewrite Hf. by apply Hm.
Qed.

(** ** Primitive writes *)

Lemma keyed_set_state ctx f :
  (∀ s, same_maps (f s) s) → keyed (cx_state ctx) → keyed (cx_state (set_state f ctx)).
Proof. intros Hf. by apply keyed_same_maps, Hf. Qed.

Lemma keyed_record_scalars ctx : keyed (cx_state ctx) → keyed (cx_state (record_scalars ctx)).
Proof. done. Qed.

Lemma keyed_mark_changed ctx : keyed (cx_state ctx) → keyed (cx_state (mark_changed ctx)).
Proof. done. Qed.

Lemma keyed_insert_rack ctx k r :
  rack_key r = k → keyed (cx_state ctx) → keyed (cx_state (record_insert cs_racks k r ctx)).
Proof. intros Hk []. split; try assumption. by apply (map_keyed_insert rack_key). Qed.

Lemma keyed_insert_link ctx k l :
  lk_id l = k → keyed (cx_state ctx) → keyed (cx_state (record_insert cs_links k l ctx)).
Proof. intros Hk []. split; try assumption. by apply (map_keyed_insert lk_id). Qed.

Lemma keyed_erase_link ctx k :
  keyed (cx_state ctx) → keyed (cx_state (record_erase cs_links k ctx)).
Proof. intros []. split; try assumption. by apply (map_keyed_delete lk_id). Qed.

Lemma keyed_insert_constraint ctx k c :
  cc_id c = k → keyed (cx_state ctx) → keyed (cx_state (record_insert cs_constraints k c ctx)).
Proof. intros Hk []. split; try assumption. by apply (map_keyed_insert cc_id). Qed.

Lemma keyed_rewrite_links visit f ctx :
  (∀ l, lk_id (f l) = lk_id l) → keyed (cx_state ctx) → keyed (cx_state (rewrite_links visit f ctx)).
Proof.
  intros Hf []. rewrite rewrite_links_state. split; try assumption.
  apply (map_keyed_fmap lk_id); [done|]. intros l. by destruct (visit l).
Qed.

Lemma keyed_rewrite_racks visit f ctx :
  (∀ r, rack_key (f r) = rack_key r) → keyed (cx_state ctx) →
  keyed (cx_state (rewrite_racks visit f ctx)).
Proof.
  intros Hf []. rewrite rewrite_racks_state. split; try assumption.
  apply (map_keyed_fmap rack_key); [done|]. intros r. by destruct (visit r).
Qed.

(** What the templates over the domain classes need. *)
Class DomainFiled (D : Type) (tag : IdTag) `{DomainTraits D tag} : Prop :=
  keyed_insert_domain ctx k (d : D) :
    dt_id d = k → keyed (cx_state ctx) → keyed (cx_state (record_insert (dt_member D) k d ctx)).

Ltac domain_filed :=
  intros ????[]; split; try assumption;
  match goal with |- domain_keyed ?D _ => by apply (map_keyed_insert (dt_id (D:=D))) end.

#[global] Instance placement_filed : DomainFiled PlacementDomain PlacementDomainIdTag.
Proof. domain_filed. Qed.
#[global] Instance capacity_filed : DomainFiled CapacityDomain CapacityDomainIdTag.
Proof. domain_filed. Qed.
#[global] Instance failure_filed : DomainFiled FailureDomain FailureDomainIdTag.
Proof. domain_filed. Qed.
#[global] Instance network_filed : DomainFiled NetworkDomain NetworkDomainIdTag.
Proof. domain_filed. Qed.
#[global] Instance storage_filed : DomainFiled StorageDomain StorageDomainIdTag.
Proof. domain_filed. Qed.
#[global] Instance power_filed : DomainFiled PowerDomain PowerDomainIdTag.
Proof. domain_filed. Qed.
#[global] Instance cooling_filed : DomainFiled CoolingDomain CoolingDomainIdTag.
Proof. domain_filed. Qed.
#[global] Instance link_filed : DomainFiled LinkDomain LinkDomainIdTag.
Proof. domain_filed. Qed.

(** ** Handlers *)

Create HintDb keyed.
#[export] Hint Resolve keyed_record_scalars keyed_mark_changed keyed_insert_rack keyed_insert_link
  keyed_erase_link keyed_insert_constraint keyed_rewrite_links keyed_rewrite_racks : keyed.
#[export] Hint Extern 4 (keyed (cx_state (set_state _ _))) =>
  (apply keyed_set_state; [intros; by split|]) : keyed.
#[export] Hint Extern 2 (_ = _) => reflexivity : keyed.
(** The record found under a key carries it. *)
#[export] Hint Extern 3 (rack_key _ = _) =>
  match goal with Hk : keyed ?s, H : cs_racks ?s !! _ = Some _ |- _ => exact (ke_racks s Hk _ _ H) end
  : keyed.

Ltac keyed_case :=
  repeat first
    [ progress cbn [fst]
    | assumption
    | case_match
    | progress unfold store_rack, bump_topology, bump_connectivity, bump_health,
        drop_withdrawn, copy_topology_generation ];
  eauto 12 with keyed.

Section handlers.
  Context (ctx : ApplyContext) (req : MutationRequest).
  Hypothesis Hk : keyed (cx_state ctx).

Lemma keyed_register : keyed (cx_state (fst (apply_register_publisher ctx req))).
Proof. unfold apply_register_publisher. keyed_case. Qed.

Lemma keyed_admit incoming : keyed (cx_state (fst (admit_rack ctx incoming))).
Proof. unfold admit_rack. keyed_case. Qed.

Lemma keyed_add_rack : keyed (cx_state (fst (apply_add_rack ctx req))).
Proof. unfold apply_add_rack. repeat case_match; cbn [fst]; auto using keyed_admit. Qed.

Lemma keyed_update_generation : keyed (cx_state (fst (apply_update_rack_generation ctx req))).
Proof. unfold apply_update_rack_generation. keyed_case. Qed.

Lemma demoted_key r target g :
  rack_key ((demoted_record req r target) <| rk_membership_generation := g |>) = rack_key r.
Proof. unfold demoted_record. by destruct (decide (target ≠ Mem_Active)). Qed.

Lemma keyed_membership target retire :
  keyed (cx_state (fst (apply_membership_change ctx req target retire))).
Proof.
  unfold apply_membership_change. repeat (case_match; cbn [fst]; try assumption);
    unfold store_rack; cbn [fst]; apply keyed_mark_changed, keyed_insert_rack;
    rewrite ?demoted_key; eauto 8 with keyed.
Qed.

Lemma keyed_recover : keyed (cx_state (fst (apply_recover_rack ctx req))).
Proof. unfold apply_recover_rack. keyed_case. Qed.

Lemma keyed_publish_domain {D tag} `{DomainTraits D tag} `{!DomainExtra D} `{!DomainFiled D tag}
    (payload : option D) : keyed (cx_state (fst (publish_domain ctx payload))).
Proof.
  destruct payload as [d|]; [|done]. unfold publish_domain, publish_domain_record.
  destruct (is_empty _); [done|]. destruct (validate_domain_payload ctx d) as [d' r].
  destruct (negb _); [done|]. destruct (check_existing_domain ctx d'); [done|].
  destruct (advance_aggregate _ _) as [a|]; [|done].
  match goal with |- context [bump_topology ?x] => set (ctx' := x) end.
  assert (keyed (cx_state ctx')) as Hk' by (apply keyed_insert_domain; [done|eauto with keyed]).
  clearbody ctx'. keyed_case.
Qed.

Lemma keyed_constraint : keyed (cx_state (fst (apply_publish_constraint ctx req))).
Proof. unfold apply_publish_constraint. keyed_case. Qed.

Lemma keyed_publish_link : keyed (cx_state (fst (apply_publish_link ctx req))).
Proof. unfold apply_publish_link. keyed_case. Qed.

Lemma keyed_withdraw_link : keyed (cx_state (fst (apply_withdraw_link ctx req))).
Proof. unfold apply_withdraw_link. keyed_case. Qed.

Lemma keyed_supersede : keyed (cx_state (fst (apply_supersede_topology ctx req))).
Proof. unfold apply_supersede_topology. keyed_case. Qed.

Lemma keyed_health : keyed (cx_state (fst (apply_publish_health ctx req))).
Proof. unfold apply_publish_health. keyed_case. Qed.

Lemma keyed_withdraw_evidence : keyed (cx_state (fst (apply_withdraw_evidence ctx req))).
Proof. unfold apply_withdraw_evidence. keyed_case. Qed.

Lemma keyed_declare : keyed (cx_state (fst (apply_declare_cluster ctx req))).
Proof. unfold apply_declare_cluster. keyed_case. Qed.

Lemma keyed_retire_cluster : keyed (cx_state (fst (apply_retire_cluster ctx req))).
Proof. unfold apply_retire_cluster. keyed_case. Qed.

Lemma keyed_snapshot : keyed (cx_state (fst (apply_publish_snapshot ctx req))).
Proof. unfold apply_publish_snapshot. keyed_case. Qed.

Lemma keyed_revalidate : keyed (cx_state (fst (apply_revalidate ctx req))).
Proof. unfold apply_revalidate. keyed_case. Qed.

Lemma keyed_apply_request : keyed (cx_state (fst (apply_request ctx req))).
Proof.
  unfold apply_request. case_decide; [done|]. unfold dispatch.
  destruct (rq_kind req); eauto using keyed_declare, keyed_register, keyed_add_rack,
    keyed_update_generation, keyed_membership, keyed_recover, keyed_publish_link,
    keyed_withdraw_link, keyed_publish_domain, keyed_constraint, keyed_health,
    keyed_withdraw_evidence, keyed_supersede, keyed_snapshot, keyed_revalidate,
    keyed_retire_cluster with typeclass_instances.
Qed.
End handlers.
