(* ===== verification/Lifetime.v ===== *)
(** * The lifetime of a cluster

    Histories of commits, fences and coordinator restarts.  Changes reach the
    durable store before they are published; the invariants hold at every point
    of a lifetime; fencing and retirement survive restarts; and a restart gives
    up every live authority. *)

From S2P Require Import Prelude Identity Counter Taxonomy Evidence Types State Readiness Domains.
From S2P Require Import Indexes Invariant Queries RackRef Explain EngineBase EngineRack.
From S2P Require Import EngineTopology EngineCluster Rollback Durable Commit Scenario.
From S2P Require Import CommitProofs FenceProofs Monotone Reachable RecoveryProofs Keyed.

#[local] Opaque evaluate_readiness check_invariants apply_request apply_fence apply_and_commit.

(** ** Filing along a history *)

Lemma keyed_fence_published boot reason now later g h s :
  keyed s → keyed (fence_published boot reason now later g h s).
Proof.
  intros []. destruct (fence_candidate_frame boot reason now s).
  pose proof (fence_racks_lookup boot reason now s) as Hr.
  pose proof (fence_links_lookup boot reason now s) as Hl.
  apply (keyed_same_maps (fence_candidate boot reason now s)); [by split|].
  split; unfold domain_keyed; cbn [dt_member placement_traits capacity_traits failure_traits
    network_traits storage_traits power_traits cooling_traits link_traits];
    rewrite ?Hr, ?Hl, ?ff_placement, ?ff_capacity, ?ff_failure, ?ff_network, ?ff_storage, ?ff_power,
      ?ff_cooling, ?ff_link, ?ff_constraints; try assumption.
  - apply (map_keyed_fmap rack_key); [done|]. intros r. by destruct (rack_of_boot boot r).
  - apply (map_keyed_fmap lk_id); [done|]. intros l. by destruct (link_of_boot boot l).
Qed.

Lemma step_keyed c c' : commit_step c c' → keyed (co_canonical c) → keyed (co_canonical c').
Proof.
  intros [now req c0|now later boot reason c0] Hk.
  - destruct (apply_and_commit_outcome now req c0) as [c1 r ctx res E _ Hc _ _|
      c1 r ctx res g E _ _ _ _ Hc _ _ _]; rewrite Hc.
    + by apply (keyed_same_maps (co_canonical c0)).
    + pose proof (keyed_apply_request (initial_context c0 now) req Hk) as H. rewrite E in H.
      by apply (keyed_same_maps (cx_state ctx)).
  - destruct (apply_fence_outcome now later boot reason c0) as [c1 Hc _ _|c1 g h _ _ _ Hc _ _ _];
      rewrite Hc; [done|]. by apply keyed_fence_published.
Qed.

(** ** Lifetimes *)

(** A restart recovers the state the store holds.  For a coordinator that
    persists its commits that is the canonical one: see
    [changes_reach_the_store]. *)
Inductive life_step : Coordinator → Coordinator → Prop :=
  | life_commit c c' : commit_step c c' → life_step c c'
  | life_restart now c : life_step c (set_canonical (restart now (co_canonical c)) c).


(** A store that accepts states of generation 8 only. *)
Definition picky : Coordinator :=
  MkCoordinator (co_config demo)
    (Some (λ p, if (ctr (ps_generation p) =? 8)%N then SaveOk else SaveFailed "refused" "IO_ERROR"))
    demo_state 0 false no_stats.


Lemma life_holds c c' :
  rtc life_step c c' → invariants_hold (co_canonical c) → keyed (co_canonical c) →
  invariants_hold (co_canonical c') ∧ keyed (co_canonical c').
Proof.
  induction 1 as [|c1 c2 c3 H12 _ IH]; [done|]. intros Hi Hk.
  destruct H12 as [c1 c2 Hs|now c1]; [apply IH; [by eapply step_invariants|by eapply step_keyed]|].
  apply IH; [by apply restart_invariants|by apply restart_keyed].
Qed.

(** C3: the invariants hold over the whole lifetime of a cluster.  Starting
    from a state that passes the invariant check and files its records under
    their identities, such as the state of a coordinator that found no durable
    container, every state reached by mutations, fences and restarts, in any
    order, passes the check. *)
Theorem lifetime_invariants c c' :
  check_invariants (co_canonical c) None = [] → keyed (co_canonical c) → rtc life_step c c' →
  check_invariants (co_canonical c') None = [].
Proof. rewrite !check_invariants_spec. intros Hi Hk Hl. by apply (life_holds c c'). Qed.

Lemma keyed_fresh config : keyed (fresh_state config).
Proof. split; intros k v H; destruct (lookup_empty_Some (M:=gmap _) k v H). Qed.

Lemma life_run items c : rtc life_step c (fst (run_commit items c)).
Proof.
  eapply rtc_subrel; [|apply run_commit_steps]. intros c1 c2. apply life_commit.
Qed.

Lemma life_restarted now items c :
  rtc life_step c (set_canonical (restart now (co_canonical (fst (run_commit items c))))
                     (fst (run_commit items c))).
Proof. eapply rtc_r; [apply life_run|]. apply life_restart. Qed.

(** The coordinator of the scenario, restarted. *)
Definition reborn : Coordinator := set_canonical (restart t0 (co_canonical demo)) demo.

Lemma lifetime_invariants_witness : check_invariants (co_canonical reborn) None = [].
Proof.
  apply (lifetime_invariants start reborn).
  - vm_compute. reflexivity.
  - apply keyed_fresh.
  - apply life_restarted.
Defined.

(** ** Permanence *)

(** What neither a commit nor a restart takes back. *)
Record survives (s s' : ClusterState) : Prop := {
  su_declared : declared s → declared s';
  su_epoch : cs_epoch s' = cs_epoch s;
  su_generation : ctr_le (cs_generation s) (cs_generation s');
  su_fenced boot : is_boot_fenced s boot = true → is_boot_fenced s' boot = true;
  su_retired rack : is_rack_retired s rack = true → is_rack_retired s' rack = true;
  su_racks : records_advance rack_generation_of (cs_racks s) (cs_racks s')
}.

#[global] Instance survives_preorder : PreOrder survives.
Proof.
  split; [by intros s; split|]. intros s1 s2 s3 [] []. split; auto; [congruence|by etrans..].
Qed.

Lemma restart_survives now s : keyed s → survives s (restart now s).
Proof.
  intros Hk. split; try done.
  - intros boot Hb. apply restart_fenced; [done|]. by left.
  - rewrite (restart_racks now s Hk). intros k r Hr. rewrite lookup_fmap, Hr. by eexists.
Qed.

Lemma life_survives c c' :
  rtc life_step c c' → declared (co_canonical c) → keyed (co_canonical c) →
  survives (co_canonical c) (co_canonical c').
Proof.
  induction 1 as [|c1 c2 c3 H12 _ IH]; [done|]. intros Hd Hk.
  assert (survives (co_canonical c1) (co_canonical c2) ∧ keyed (co_canonical c2)) as [Hs Hk2].
  { destruct H12 as [c1 c2 Hs|now c1]; [|split; [by apply restart_survives|by apply restart_keyed]].
    split; [|by eapply step_keyed]. destruct (step_advances _ _ Hs Hd) as [Hd2 []]. by split. }
  etrans; [exact Hs|]. apply IH; [|done]. by apply Hs.
Qed.



(** The scenario files its records under their identities. *)
Lemma keyed_demo : keyed (co_canonical demo).
Proof.
  apply (life_holds start demo).
  - apply life_run.
  - apply check_invariants_spec. vm_compute. reflexivity.
  - apply keyed_fresh.
Qed.

(** [boot_a] is fenced, and the coordinator restarts. *)
Definition fenced_demo : Coordinator := apply_fence t0 t0 boot_a "lost" demo.
Definition fenced_reborn : Coordinator :=
  set_canonical (restart t0 (co_canonical fenced_demo)) fenced_demo.


(** [rack_a] is retired, and the coordinator restarts. *)
Definition retired_a : Coordinator := fst (apply_and_commit t0 retire_a demo).
Definition retired_reborn : Coordinator :=
  set_canonical (restart t0 (co_canonical retired_a)) retired_a.


(** ** What a restart gives up *)

(** What a recovered record keeps of the old one. *)
Definition same_declaration (r r' : RackRecord) : Prop :=
  rr_generation (rk_reference r') = rr_generation (rk_reference r) ∧
  rk_membership r' = rk_membership r ∧
  rr_composition (rk_reference r') = rr_composition (rk_reference r) ∧
  rr_endpoints (rk_reference r') = rr_endpoints (rk_reference r) ∧
  rr_publication (rk_reference r') = rr_publication (rk_reference r).

Lemma restart_never_ready now s :
  keyed s →
  cs_lifecycle (restart now s) ≠ CL_Ready ∧ cs_lifecycle (restart now s) ≠ CL_Partial.
Proof.
  intros Hk. set (st := recovered_state (to_persisted_state s) (restart_epoch s) now).
  change (cs_lifecycle (restart now s)) with (re_lifecycle (evaluate_readiness st)).
  assert (¬ contract_holds st) as Hn.
  { intros []. apply ch_active. apply map_empty. intros k. apply map_lookup_filter_None. right.
    intros r Hr Ha. cbn in Ha. specialize (ch_revalidated k r Hr).
    destruct (restart_not_authoritative now s Hk k r Hr) as [_ Hp]. unfold pending_rack in Hp.
    unfold needs_revalidation in ch_revalidated. rewrite Ha in ch_revalidated. cbn [negb] in *.
    apply andb_true_iff in Hp as [Hc _]. split_bools. by rewrite decide_True in ch_revalidated. }
  destruct (evaluate_readiness_lifecycle st) as [Hr _]. split; intros H; apply Hn, Hr; auto.
Qed.



(** A restart forgets that a cluster was retired.  The lifecycle is
    persisted and the persistence document lists it as restored, but recovery
    evaluates readiness on a state whose lifecycle is the default one: the
    recovered cluster is never RETIRED and accepts mutations again. *)
Theorem restart_forgets_cluster_retirement now s :
  cs_lifecycle s = CL_Retired →
  ps_lifecycle (to_persisted_state s) = CL_Retired ∧
  cs_lifecycle (restart now s) ≠ CL_Retired ∧
  accepts_mutations (cs_lifecycle (restart now s)) = true.
Proof.
  intros Hs. pose proof (restart_lifecycle_not_retired now s) as Hn.
  split_and!; [done|done|]. unfold accepts_mutations. by apply bool_decide_eq_true.
Qed.

(** The scenario's cluster is retired. *)
Definition retired_cluster : Coordinator :=
  fst (apply_and_commit t0 (request MK_RetireCluster operator) demo).

Lemma restart_forgets_cluster_retirement_witness :
  accepts_mutations (cs_lifecycle (restart t0 (co_canonical retired_cluster))) = true.
Proof.
  refine (proj2 (proj2 (restart_forgets_cluster_retirement t0 (co_canonical retired_cluster) _))).
  vm_compute. reflexivity.
Defined.
