(* ===== verification/Snapshot.v ===== *)
(** * Snapshots

    [include/cluster_fabric/snapshot.hpp] and [src/snapshot.cpp]: the semantic
    digest of a canonical state, the snapshot captured from it and the validation
    of a snapshot against current authority; and the wire form of both,
    [SnapshotView::from_snapshot] of [src/protocol.cpp] and [validate_view] of
    [src/coordinator_network.cpp]. *)

From Stdlib Require Import SpecFloat.
From stdpp Require Import pretty.
From S2P Require Import Prelude Identity Counter Taxonomy Evidence Types State Readiness Domains.
From S2P Require Import Invariant Queries Explain.

(** ** The digest *)

Definition fnv_prime : N := 1099511628211.
Definition fnv_offset : N := 1469598103934665603.

(** [hash ^= byte; hash *= prime], at 64 bits. *)
Definition fnv_byte (hash byte : N) : N :=
  (N.lxor hash byte * fnv_prime) mod (u64_max + 1).

(** [DigestBuilder::text]: the bytes, then the separator. *)
Definition fnv_text (hash : N) (text : string) : N :=
  fnv_byte (foldl (λ h c, fnv_byte h (code c)) hash (chars text)) 124.

Definition fnv_tokens (tokens : list string) : N := foldl fnv_text fnv_offset tokens.

Definition to_hex (value : N) : string :=
  of_chars ((λ i : nat, hex_digit (N.land (N.shiftr value (4 * N.of_nat (15 - i))) 15)) <$> seq 0 16).

(** [builder.number]: a 64-bit value as text; a signed value is converted. *)
Definition num (n : N) : string := to_decimal n.
Definition num_signed (z : Z) : string := to_decimal (Z.to_N (z mod 18446744073709551616)).
Definition num_enum {A} `{Enum A} (a : A) : string := num (raw a).
Definition num_bool (b : bool) : string := num (if b then 1 else 0).
Definition num_opt (x : option N) : list string := [num (default 0%N x); num_bool (bool_decide (is_Some x))].

(** [std::to_string] of a signed value. *)
Definition ts_text (t : Timestamp) : string := pretty (unix_millis t).

(** Pads to [n] digits with leading zeros. *)
Definition pad_zeros (n : nat) (s : string) : string :=
  of_chars (replicate (n - String.length s) "0"%char ++ chars s).

(** [m * 2 ^ e] rounded to the nearest integer, ties to even. *)
Definition scale_round (m : N) (e : Z) : N :=
  if (0 <=? e)%Z then m * 2 ^ Z.to_N e else
  let d := (2 ^ Z.to_N (- e))%N in
  let q := (m / d)%N in
  let r := (2 * (m mod d))%N in
  if (d <? r)%N || ((d =? r)%N && N.odd q) then q + 1 else q.

(** [std::to_string(double)], the [%f] format. *)
Definition dbl_text (d : double) : string :=
  let sign (s : bool) (t : string) := (if s then "-" else "") +:+ t in
  let fixed (s : bool) (micros : N) :=
    sign s (pretty (micros / 1000000)%N +:+ "." +:+ pad_zeros 6 (pretty (micros mod 1000000)%N)) in
  match dbl_to_spec d with
  | S754_zero s => fixed s 0%N
  | S754_infinity s => sign s "inf"
  | S754_nan => sign (dbl_sign d) "nan"
  | S754_finite s m e => fixed s (scale_round (Npos m * 1000000) e)
  end.

Definition generation_pair (h : DomainHeader) : string :=
  "g" +:+ ctr_str (dh_generation h) +:+ "/p" +:+
  string_of_evidence_provenance (ev_provenance (dh_evidence h)) +:+ "/f" +:+
  string_of_freshness (ev_freshness (dh_evidence h)) +:+ "/e" +:+
  ts_text (ev_observed_at (dh_evidence h)).

Definition digest_header (h : DomainHeader) : list string := [generation_pair h; dh_label h].

Definition digest_racks (racks : list RackId) : list string := id_value <$> racks.

Definition digest_scalars (s : ClusterState) : list string :=
  let g := cs_domain_generations s in
  ["cluster_fabric/snapshot/v1"; id_value (cs_id s); num (ctr (cs_epoch s));
   num (ctr (cs_coordinator_epoch s)); num (ctr (cs_generation s));
   num (ctr (cs_membership_generation s)); num (ctr (cs_topology_epoch s));
   num (ctr (cs_topology_generation s)); num (ctr (cs_connectivity_generation s));
   num (ctr (cs_health_generation s)); num (ctr (cs_constraint_generation s));
   num (ctr (dg_placement g)); num (ctr (dg_capacity g)); num (ctr (dg_failure g));
   num (ctr (dg_network g)); num (ctr (dg_storage g)); num (ctr (dg_power g));
   num (ctr (dg_cooling g)); num (ctr (dg_link g)); num (ctr (cs_snapshot_generation s));
   num (ctr (cs_publication_generation s)); num_enum (cs_lifecycle s);
   tr_reason (cs_topology_record s);
   num_signed (unix_millis (tr_established_at (cs_topology_record s)))].

Definition digest_rack (e : RackId * RackRecord) : list string :=
  let r := e.2 in
  let ref := rk_reference r in
  ["rack"; id_value e.1; num (ctr (rr_generation ref)); num_enum (rk_membership r);
   num_enum (rr_rack_lifecycle ref); num_enum (rr_currentness ref); num_enum (rr_health ref);
   num_bool (rk_authoritative_current r); num_enum (ev_provenance (rr_evidence ref));
   num_enum (ev_freshness (rr_evidence ref)); num_signed (unix_millis (ev_observed_at (rr_evidence ref)));
   rc_composition_label (rr_composition ref)] ++
  flat_map (λ a, [num_enum (ac_vendor a); ac_family a] ++ num_opt (ac_device_count a))
    (rc_accelerators (rr_composition ref)) ++
  flat_map (λ p, [id_value (ep_id p); num_enum (ep_connectivity p)]) (rr_endpoints ref) ++
  flat_map (λ h, [num_enum (fh_klass h); id_value (fh_id h)]) (rr_failure_domain_hints ref).

Definition digest_link (e : InterRackLinkId * InterRackLink) : list string :=
  let l := e.2 in
  ["link"; id_value e.1; id_value (lk_source l); id_value (lk_destination l);
   num_enum (lk_direction l); num_enum (lk_connectivity l); num_enum (lk_reachability l);
   num_enum (lk_health l); num_enum (lk_bandwidth_class l)] ++
  num_opt (lk_nominal_bandwidth_bps l) ++ [num_enum (lk_latency_class l)] ++
  num_opt (lk_nominal_latency_nanos l) ++
  [num (ctr (lk_topology_epoch l)); num (ctr (lk_topology_generation l))] ++
  digest_header (lk_header l) ++ (id_value <$> lk_failure_domains l).

Definition digest_quantity (q : CapacityQuantity) : list string :=
  [cq_unit q; num_bool (bool_decide (is_Some (cq_value q)))] ++
  (match cq_value q with Some v => [dbl_text v] | None => [] end) ++
  [num_enum (cq_provenance q); num_bool (cq_aggregated q)].

Definition digest_placement (e : PlacementDomainId * PlacementDomain) : list string :=
  ["placement_domain"; id_value e.1; num_enum (pd_klass e.2)] ++ digest_racks (pd_racks e.2) ++
  digest_header (pd_header e.2).
Definition digest_capacity (e : CapacityDomainId * CapacityDomain) : list string :=
  ["capacity_domain"; id_value e.1; num_enum (cd_klass e.2)] ++ digest_racks (cd_racks e.2) ++
  flat_map digest_quantity (cd_quantities e.2) ++ digest_header (cd_header e.2).
Definition digest_failure (e : FailureDomainId * FailureDomain) : list string :=
  ["failure_domain"; id_value e.1; num_enum (fd_klass e.2)] ++ digest_racks (fd_racks e.2) ++
  digest_header (fd_header e.2).
Definition digest_network (e : NetworkDomainId * NetworkDomain) : list string :=
  ["network_domain"; id_value e.1; num_enum (nd_connectivity e.2)] ++ digest_racks (nd_racks e.2) ++
  digest_header (nd_header e.2).
Definition digest_storage (e : StorageDomainId * StorageDomain) : list string :=
  ["storage_domain"; id_value e.1] ++ digest_racks (sd_racks e.2) ++ digest_header (sd_header e.2).
Definition digest_power (e : PowerDomainId * PowerDomain) : list string :=
  ["power_domain"; id_value e.1] ++ digest_racks (pw_racks e.2) ++
  [default "" (id_value <$> pw_parent e.2)] ++ digest_header (pw_header e.2).
Definition digest_cooling (e : CoolingDomainId * CoolingDomain) : list string :=
  ["cooling_domain"; id_value e.1] ++ digest_racks (co_racks e.2) ++
  [default "" (id_value <$> co_parent e.2)] ++ digest_header (co_header e.2).
Definition digest_link_domain (e : LinkDomainId * LinkDomain) : list string :=
  ["link_domain"; id_value e.1] ++ digest_racks (ld_racks e.2) ++ digest_header (ld_header e.2).
Definition digest_constraint (e : ConstraintId * ClusterConstraint) : list string :=
  ["constraint"; id_value e.1; num_enum (cc_kind e.2); cc_domain_ref e.2; cc_statement e.2] ++
  digest_racks (cc_racks e.2) ++ digest_header (cc_header e.2).

(** The deterministic rendering the digest hashes. *)
Definition digest_tokens (s : ClusterState) : list string :=
  digest_scalars s ++ flat_map digest_rack (entries (cs_racks s)) ++
  flat_map digest_link (entries (cs_links s)) ++
  flat_map digest_placement (entries (cs_placement_domains s)) ++
  flat_map digest_capacity (entries (cs_capacity_domains s)) ++
  flat_map digest_failure (entries (cs_failure_domains s)) ++
  flat_map digest_network (entries (cs_network_domains s)) ++
  flat_map digest_storage (entries (cs_storage_domains s)) ++
  flat_map digest_power (entries (cs_power_domains s)) ++
  flat_map digest_cooling (entries (cs_cooling_domains s)) ++
  flat_map digest_link_domain (entries (cs_link_domains s)) ++
  flat_map digest_constraint (entries (cs_constraints s)) ++
  flat_map (λ r, ["retired"; id_value (ri_rack r); num (ctr (ri_last_generation r))])
    (cs_retired_racks s) ++
  flat_map (λ rack, ["withdrawn"; id_value rack]) (cs_withdrawn_racks s) ++
  flat_map (λ f, ["fenced"; id_value (fa_boot f); id_value (fa_rack f); fa_reason f])
    (cs_fenced_authorities s).

Definition semantic_digest_of (s : ClusterState) : string := to_hex (fnv_tokens (digest_tokens s)).

(** ** Reasons *)

Inductive SnapshotStaleReason :=
  | Stale_None | Stale_ClusterEpochAdvanced | Stale_CoordinatorEpochAdvanced
  | Stale_ClusterGenerationAdvanced | Stale_MembershipChanged | Stale_TopologyEpochSuperseded
  | Stale_TopologyGenerationAdvanced | Stale_RackGenerationSuperseded | Stale_RackWithdrawn
  | Stale_RackRetired | Stale_RackBootFenced | Stale_RackRevalidationRequired
  | Stale_PlacementDomainSuperseded | Stale_CapacityDomainSuperseded
  | Stale_FailureDomainSuperseded | Stale_NetworkDomainSuperseded
  | Stale_StorageDomainSuperseded | Stale_PowerDomainSuperseded
  | Stale_CoolingDomainSuperseded | Stale_LinkDomainSuperseded | Stale_ConnectivitySuperseded
  | Stale_HealthSuperseded | Stale_LifecycleNotConsumable | Stale_WrongCluster.

#[global] Instance SnapshotStaleReason_eq_dec : EqDecision SnapshotStaleReason.
Proof. solve_decision. Defined.

#[global] Program Instance SnapshotStaleReason_enum : Enum SnapshotStaleReason := {|
  enumerators := [Stale_None; Stale_ClusterEpochAdvanced; Stale_CoordinatorEpochAdvanced;
    Stale_ClusterGenerationAdvanced; Stale_MembershipChanged;
    Stale_TopologyEpochSuperseded; Stale_TopologyGenerationAdvanced;
    Stale_RackGenerationSuperseded; Stale_RackWithdrawn; Stale_RackRetired;
    Stale_RackBootFenced; Stale_RackRevalidationRequired;
    Stale_PlacementDomainSuperseded; Stale_CapacityDomainSuperseded;
    Stale_FailureDomainSuperseded; Stale_NetworkDomainSuperseded;
    Stale_StorageDomainSuperseded; Stale_PowerDomainSuperseded;
    Stale_CoolingDomainSuperseded; Stale_LinkDomainSuperseded;
    Stale_ConnectivitySuperseded; Stale_HealthSuperseded;
    Stale_LifecycleNotConsumable; Stale_WrongCluster]
|}.
Next Obligation. enum_complete. Qed.
Next Obligation. enum_nodup. Qed.

Definition string_of_stale_reason (value : SnapshotStaleReason) : string :=
  match value with
  | Stale_None => "NONE"
  | Stale_ClusterEpochAdvanced => "CLUSTER_EPOCH_ADVANCED"
  | Stale_CoordinatorEpochAdvanced => "COORDINATOR_EPOCH_ADVANCED"
  | Stale_ClusterGenerationAdvanced => "CLUSTER_GENERATION_ADVANCED"
  | Stale_MembershipChanged => "MEMBERSHIP_CHANGED"
  | Stale_TopologyEpochSuperseded => "TOPOLOGY_EPOCH_SUPERSEDED"
  | Stale_TopologyGenerationAdvanced => "TOPOLOGY_GENERATION_ADVANCED"
  | Stale_RackGenerationSuperseded => "RACK_GENERATION_SUPERSEDED"
  | Stale_RackWithdrawn => "RACK_WITHDRAWN"
  | Stale_RackRetired => "RACK_RETIRED"
  | Stale_RackBootFenced => "RACK_BOOT_FENCED"
  | Stale_RackRevalidationRequired => "RACK_REVALIDATION_REQUIRED"
  | Stale_PlacementDomainSuperseded => "PLACEMENT_DOMAIN_SUPERSEDED"
  | Stale_CapacityDomainSuperseded => "CAPACITY_DOMAIN_SUPERSEDED"
  | Stale_FailureDomainSuperseded => "FAILURE_DOMAIN_SUPERSEDED"
  | Stale_NetworkDomainSuperseded => "NETWORK_DOMAIN_SUPERSEDED"
  | Stale_StorageDomainSuperseded => "STORAGE_DOMAIN_SUPERSEDED"
  | Stale_PowerDomainSuperseded => "POWER_DOMAIN_SUPERSEDED"
  | Stale_CoolingDomainSuperseded => "COOLING_DOMAIN_SUPERSEDED"
  | Stale_LinkDomainSuperseded => "LINK_DOMAIN_SUPERSEDED"
  | Stale_ConnectivitySuperseded => "CONNECTIVITY_SUPERSEDED"
  | Stale_HealthSuperseded => "HEALTH_SUPERSEDED"
  | Stale_LifecycleNotConsumable => "LIFECYCLE_NOT_CONSUMABLE"
  | Stale_WrongCluster => "WRONG_CLUSTER"
  end.

(** ** Snapshots *)

Record RackGenerationBinding := MkBinding {
  rb_rack : RackId;
  rb_generation : RackGeneration;
  rb_membership : RackMembershipState;
  rb_currentness : RackCurrentness;
  rb_authoritative_current : bool;
  rb_boot : RackAgentBootId
}.

#[global] Instance RackGenerationBinding_eq_dec : EqDecision RackGenerationBinding.
Proof. solve_decision. Defined.

(** A snapshot that holds a state; the default-constructed snapshot is [None]
    where a snapshot may be empty. *)
Record ClusterSnapshot := MkSnapshot {
  sn_state : ClusterState;
  sn_bindings : list RackGenerationBinding;
  sn_digest : string
}.

Definition binding_of (e : RackId * RackRecord) : RackGenerationBinding :=
  MkBinding e.1 (rr_generation (rk_reference e.2)) (rk_membership e.2)
    (rr_currentness (rk_reference e.2)) (rk_authoritative_current e.2) (rr_boot (rk_reference e.2)).

Definition rebuild_bindings (s : ClusterState) : list RackGenerationBinding :=
  binding_of <$> entries (cs_racks s).

(** [ClusterSnapshot::capture]. *)
Definition capture (s : ClusterState) : ClusterSnapshot :=
  MkSnapshot s (rebuild_bindings s) (semantic_digest_of s).

Definition rack_generation (snapshot : option ClusterSnapshot) (rack : RackId) :
    option RackGeneration :=
  snapshot ← snapshot; r ← cs_racks (sn_state snapshot) !! rack;
  Some (rr_generation (rk_reference r)).

(** ** Validation *)

Record SnapshotValidation := MkValidation {
  sv_current : bool;
  sv_consumable : bool;
  sv_reasons : list SnapshotStaleReason;
  sv_subjects : list string;
  sv_explanation : Explanation
}.

Definition sv_ok (v : SnapshotValidation) : bool := sv_current v && sv_consumable v.

Definition sv_requires_revalidation (v : SnapshotValidation) : bool :=
  existsb (λ r, match r with
    | Stale_ClusterEpochAdvanced | Stale_CoordinatorEpochAdvanced | Stale_RackBootFenced
    | Stale_RackRevalidationRequired | Stale_LifecycleNotConsumable => true
    | _ => false
    end) (sv_reasons v).

(** A reason with its subject, appended to both vectors. *)
Abbreviation Reason := (SnapshotStaleReason * string)%type.

Definition describe_validation (current consumable : bool) (reasons : list Reason) : string :=
  foldl (λ out r, out +:+ " " +:+ string_of_stale_reason r.1 +:+
           (if is_empty r.2 then "" else "(" +:+ r.2 +:+ ")"))
    ((if current then "snapshot=current" else "snapshot=stale") +:+
     (if consumable then " consumable=true" else " consumable=false") +:+
     " reasons=" +:+ to_decimal (size reasons)) reasons.

Definition explain_validation (current consumable : bool) (reasons : list Reason) (detail : string) :
    Explanation :=
  let e := explanation_make (if current then "snapshot_current" else "snapshot_stale") "snapshot"
             (describe_validation current consumable reasons) in
  bound_factors (sort_factors
    (foldl (λ e r, explanation_add (string_of_stale_reason r.1) r.2 detail e) e reasons)).

Definition stale (cond : bool) (reason : SnapshotStaleReason) (subject : string) : list Reason :=
  if cond then [(reason, subject)] else [].

Definition differ {A} `{EqDecision A} (x y : A) : bool := bool_decide (x ≠ y).

(** [bound=... current=...] *)
Definition bound_current {tag} (b c : StrongCounter tag) : string :=
  "bound=" +:+ ctr_str b +:+ " current=" +:+ ctr_str c.

Definition domain_reasons (b c : DomainGenerations) : list Reason :=
  stale (differ (dg_placement b) (dg_placement c)) Stale_PlacementDomainSuperseded "placement_domain" ++
  stale (differ (dg_capacity b) (dg_capacity c)) Stale_CapacityDomainSuperseded "capacity_domain" ++
  stale (differ (dg_failure b) (dg_failure c)) Stale_FailureDomainSuperseded "failure_domain" ++
  stale (differ (dg_network b) (dg_network c)) Stale_NetworkDomainSuperseded "network_domain" ++
  stale (differ (dg_storage b) (dg_storage c)) Stale_StorageDomainSuperseded "storage_domain" ++
  stale (differ (dg_power b) (dg_power c)) Stale_PowerDomainSuperseded "power_domain" ++
  stale (differ (dg_cooling b) (dg_cooling c)) Stale_CoolingDomainSuperseded "cooling_domain" ++
  stale (differ (dg_link b) (dg_link c)) Stale_LinkDomainSuperseded "link_domain".

(** The comparison of identities and counters. *)
Definition scalar_reasons (b c : ClusterState) : list Reason :=
  stale (differ (cs_id b) (cs_id c)) Stale_WrongCluster
    ("snapshot/" +:+ id_value (cs_id b) +:+ " current/" +:+ id_value (cs_id c)) ++
  stale (differ (cs_epoch b) (cs_epoch c)) Stale_ClusterEpochAdvanced
    (bound_current (cs_epoch b) (cs_epoch c)) ++
  stale (differ (cs_coordinator_epoch b) (cs_coordinator_epoch c)) Stale_CoordinatorEpochAdvanced
    (bound_current (cs_coordinator_epoch b) (cs_coordinator_epoch c)) ++
  stale (differ (cs_generation b) (cs_generation c)) Stale_ClusterGenerationAdvanced
    (bound_current (cs_generation b) (cs_generation c)) ++
  stale (differ (cs_membership_generation b) (cs_membership_generation c) ||
         negb (msize (cs_racks b) =? msize (cs_racks c))%N) Stale_MembershipChanged
    (bound_current (cs_membership_generation b) (cs_membership_generation c)) ++
  (if differ (cs_topology_epoch b) (cs_topology_epoch c) then
     [(Stale_TopologyEpochSuperseded, bound_current (cs_topology_epoch b) (cs_topology_epoch c))]
   else stale (differ (cs_topology_generation b) (cs_topology_generation c))
          Stale_TopologyGenerationAdvanced
          (bound_current (cs_topology_generation b) (cs_topology_generation c))) ++
  domain_reasons (cs_domain_generations b) (cs_domain_generations c) ++
  stale (differ (cs_connectivity_generation b) (cs_connectivity_generation c))
    Stale_ConnectivitySuperseded
    (bound_current (cs_connectivity_generation b) (cs_connectivity_generation c)) ++
  stale (differ (cs_health_generation b) (cs_health_generation c)) Stale_HealthSuperseded
    (bound_current (cs_health_generation b) (cs_health_generation c)).

Definition pending_record (r : RackRecord) : bool :=
  bool_decide (rr_currentness (rk_reference r) = Cur_RevalidationRequired) ||
  requires_revalidation (rr_evidence (rk_reference r)).

(** One iteration of the loop over the bindings. *)
Definition binding_reasons (c : ClusterState) (b : RackGenerationBinding) : list Reason :=
  let subject := "rack/" +:+ id_value (rb_rack b) in
  match cs_racks c !! rb_rack b with
  | None => [(Stale_RackWithdrawn, subject +:+ " is no longer a member")]
  | Some r =>
      if is_rack_retired c (rb_rack b) then [(Stale_RackRetired, subject)] else
      stale (differ (rr_generation (rk_reference r)) (rb_generation b)) Stale_RackGenerationSuperseded
        (subject +:+ " " +:+ bound_current (rb_generation b) (rr_generation (rk_reference r))) ++
      stale (differ (rk_membership r) (rb_membership b)) Stale_RackWithdrawn
        (subject +:+ " membership=" +:+ string_of_rack_membership_state (rk_membership r)) ++
      stale (is_boot_fenced c (rb_boot b)) Stale_RackBootFenced
        (subject +:+ " boot=" +:+ id_value (rb_boot b)) ++
      stale (pending_record r) Stale_RackRevalidationRequired subject
  end.

Definition bound_rack (bindings : list RackGenerationBinding) (rack : RackId) : bool :=
  existsb (λ b, bool_decide (rb_rack b = rack)) bindings.

Definition added_reasons (c : ClusterState) (bindings : list RackGenerationBinding) : list Reason :=
  flat_map (λ e : RackId * RackRecord,
    stale (negb (bound_rack bindings e.1)) Stale_MembershipChanged
      ("rack/" +:+ id_value e.1 +:+ " was added after the snapshot")) (entries (cs_racks c)).

Definition match_reasons (snapshot : ClusterSnapshot) (c : ClusterState) : list Reason :=
  scalar_reasons (sn_state snapshot) c ++ flat_map (binding_reasons c) (sn_bindings snapshot) ++
  added_reasons c (sn_bindings snapshot).

Definition lifecycle_reasons (c : ClusterState) : list Reason :=
  stale (negb (is_consumable_lifecycle (cs_lifecycle c))) Stale_LifecycleNotConsumable
    (string_of_cluster_lifecycle (cs_lifecycle c)).

(** [ClusterSnapshot::validate]. *)
Definition validate (snapshot : option ClusterSnapshot) (c : ClusterState) : SnapshotValidation :=
  match snapshot with
  | None => MkValidation false false [] []
              (explanation_make "snapshot_invalid" "snapshot" "the snapshot holds no state")
  | Some snapshot =>
      let reasons := match_reasons snapshot c in
      let current := bool_decide (reasons = []) in
      let consumable := current && is_consumable_lifecycle (cs_lifecycle c) in
      let reasons := reasons ++ lifecycle_reasons c in
      MkValidation current consumable reasons.*1 reasons.*2
        (explain_validation current consumable reasons
           "bound snapshot no longer matches current authority")
  end.

(** [ClusterSnapshot::validate(const ClusterSnapshot&)]. *)
Definition validate_against (snapshot current : option ClusterSnapshot) : SnapshotValidation :=
  match current with
  | None => MkValidation false false [] []
              (explanation_make "snapshot_invalid" "snapshot" "the comparison snapshot is empty")
  | Some current => validate snapshot (sn_state current)
  end.

(** ** The wire form *)

Record SnapshotView := MkView {
  vw_cluster : ClusterId;
  vw_cluster_epoch : ClusterEpoch;
  vw_coordinator_epoch : CoordinatorEpoch;
  vw_cluster_generation : ClusterGeneration;
  vw_membership_generation : MembershipGeneration;
  vw_topology_epoch : TopologyEpoch;
  vw_topology_generation : TopologyGeneration;
  vw_connectivity_generation : ConnectivityGeneration;
  vw_health_generation : HealthGeneration;
  vw_constraint_generation : ConstraintGeneration;
  vw_domain_generations : DomainGenerations;
  vw_snapshot_generation : SnapshotGeneration;
  vw_publication_generation : PublicationGeneration;
  vw_lifecycle : ClusterLifecycle;
  vw_rack_bindings : list RackGenerationBinding;
  vw_semantic_digest : string;
  vw_rack_count : N;
  vw_link_count : N;
  vw_domain_count : N
}.

Definition domain_count (s : ClusterState) : N :=
  msize (cs_placement_domains s) + msize (cs_capacity_domains s) + msize (cs_failure_domains s) +
  msize (cs_network_domains s) + msize (cs_storage_domains s) + msize (cs_power_domains s) +
  msize (cs_cooling_domains s) + msize (cs_link_domains s).

(** [SnapshotView::from_snapshot]; an empty snapshot gives the default view. *)
Definition from_snapshot (snapshot : option ClusterSnapshot) : SnapshotView :=
  match snapshot with
  | None => MkView no_id no_ctr no_ctr no_ctr no_ctr no_ctr no_ctr no_ctr no_ctr no_ctr
              no_generations no_ctr no_ctr CL_Declared [] "" 0 0 0
  | Some snapshot =>
      let s := sn_state snapshot in
      MkView (cs_id s) (cs_epoch s) (cs_coordinator_epoch s) (cs_generation s)
        (cs_membership_generation s) (cs_topology_epoch s) (cs_topology_generation s)
        (cs_connectivity_generation s) (cs_health_generation s) (cs_constraint_generation s)
        (cs_domain_generations s) (cs_snapshot_generation s) (cs_publication_generation s)
        (cs_lifecycle s) (sn_bindings snapshot) (sn_digest snapshot) (msize (cs_racks s))
        (msize (cs_links s)) (domain_count s)
  end.

Definition view_scalar_reasons (v : SnapshotView) (c : ClusterState) : list Reason :=
  stale (differ (vw_cluster v) (cs_id c)) Stale_WrongCluster
    ("snapshot/" +:+ id_value (vw_cluster v)) ++
  stale (differ (vw_cluster_epoch v) (cs_epoch c)) Stale_ClusterEpochAdvanced
    (bound_current (vw_cluster_epoch v) (cs_epoch c)) ++
  stale (differ (vw_coordinator_epoch v) (cs_coordinator_epoch c)) Stale_CoordinatorEpochAdvanced
    (bound_current (vw_coordinator_epoch v) (cs_coordinator_epoch c)) ++
  stale (differ (vw_cluster_generation v) (cs_generation c)) Stale_ClusterGenerationAdvanced
    (bound_current (vw_cluster_generation v) (cs_generation c)) ++
  stale (differ (vw_membership_generation v) (cs_membership_generation c)) Stale_MembershipChanged
    (bound_current (vw_membership_generation v) (cs_membership_generation c)) ++
  (if differ (vw_topology_epoch v) (cs_topology_epoch c) then
     [(Stale_TopologyEpochSuperseded, bound_current (vw_topology_epoch v) (cs_topology_epoch c))]
   else stale (differ (vw_topology_generation v) (cs_topology_generation c))
          Stale_TopologyGenerationAdvanced
          (bound_current (vw_topology_generation v) (cs_topology_generation c))) ++
  domain_reasons (vw_domain_generations v) (cs_domain_generations c) ++
  stale (differ (vw_connectivity_generation v) (cs_connectivity_generation c))
    Stale_ConnectivitySuperseded
    (bound_current (vw_connectivity_generation v) (cs_connectivity_generation c)) ++
  stale (differ (vw_health_generation v) (cs_health_generation c)) Stale_HealthSuperseded
    (bound_current (vw_health_generation v) (cs_health_generation c)).

Definition view_binding_reasons (c : ClusterState) (b : RackGenerationBinding) : list Reason :=
  let subject := "rack/" +:+ id_value (rb_rack b) in
  match cs_racks c !! rb_rack b with
  | None => [(Stale_RackWithdrawn, subject)]
  | Some r =>
      if is_rack_retired c (rb_rack b) then [(Stale_RackRetired, subject)] else
      stale (differ (rr_generation (rk_reference r)) (rb_generation b)) Stale_RackGenerationSuperseded
        (subject +:+ " " +:+ bound_current (rb_generation b) (rr_generation (rk_reference r))) ++
      stale (differ (rk_membership r) (rb_membership b)) Stale_RackWithdrawn subject ++
      stale (is_boot_fenced c (rb_boot b)) Stale_RackBootFenced subject ++
      stale (pending_record r) Stale_RackRevalidationRequired subject
  end.

(** [validate_view]. *)
Definition validate_view (v : SnapshotView) (c : ClusterState) : SnapshotValidation :=
  let reasons :=
    view_scalar_reasons v c ++ flat_map (view_binding_reasons c) (vw_rack_bindings v) ++
    flat_map (λ e : RackId * RackRecord,
      stale (negb (bound_rack (vw_rack_bindings v) e.1)) Stale_MembershipChanged
        ("rack/" +:+ id_value e.1)) (entries (cs_racks c)) ++
    lifecycle_reasons c in
  let current := bool_decide (reasons = []) in
  let consumable := current && is_consumable_lifecycle (cs_lifecycle c) in
  MkValidation current consumable reasons.*1 reasons.*2
    (explain_validation current consumable reasons
       "supplied snapshot view no longer matches current authority").

(** ** When a snapshot is current *)

Lemma stale_nil b r t : stale b r t = [] ↔ b = false.
Proof. by destruct b. Qed.

Lemma differ_false {A} `{EqDecision A} (x y : A) : differ x y = false ↔ x = y.
Proof. unfold differ. rewrite bool_decide_eq_false. destruct (decide (x = y)); naive_solver. Qed.

(** The bound state and the current one agree on every identity and counter that
    a validation compares. *)
Record same_counters (b c : ClusterState) : Prop := {
  sc_id : cs_id b = cs_id c;
  sc_epoch : cs_epoch b = cs_epoch c;
  sc_coordinator : cs_coordinator_epoch b = cs_coordinator_epoch c;
  sc_generation : cs_generation b = cs_generation c;
  sc_membership : cs_membership_generation b = cs_membership_generation c;
  sc_topology_epoch : cs_topology_epoch b = cs_topology_epoch c;
  sc_topology : cs_topology_generation b = cs_topology_generation c;
  sc_domains : cs_domain_generations b = cs_domain_generations c;
  sc_connectivity : cs_connectivity_generation b = cs_connectivity_generation c;
  sc_health : cs_health_generation b = cs_health_generation c
}.

(** A rack record that a bound record still describes and that needs nothing. *)
Definition binding_holds (c : ClusterState) (rack : RackId) (bound r : RackRecord) : Prop :=
  is_rack_retired c rack = false ∧
  rr_generation (rk_reference r) = rr_generation (rk_reference bound) ∧
  rk_membership r = rk_membership bound ∧
  is_boot_fenced c (rr_boot (rk_reference bound)) = false ∧ pending_record r = false.

Definition bindings_hold (b c : ClusterState) : Prop :=
  (∀ rack, is_Some (cs_racks b !! rack) ↔ is_Some (cs_racks c !! rack)) ∧
  ∀ rack bound r, cs_racks b !! rack = Some bound → cs_racks c !! rack = Some r →
    binding_holds c rack bound r.

Lemma domain_reasons_nil b c : domain_reasons b c = [] ↔ b = c.
Proof.
  unfold domain_reasons. rewrite !app_nil, !stale_nil, !differ_false.
  destruct b, c; cbn. split; [|by intros [= -> -> -> -> -> -> -> ->]].
  intros (->&->&->&->&->&->&->&->). done.
Qed.

Lemma bound_rack_spec s rack :
  bound_rack (rebuild_bindings s) rack = true ↔ is_Some (cs_racks s !! rack).
Proof.
  unfold bound_rack, rebuild_bindings. rewrite existsb_elem. setoid_rewrite bool_decide_eq_true. split.
  - intros (b&(e&->&He)%list_elem_of_fmap&<-). destruct e as [k r].
    apply elem_of_entries in He. cbn. by exists r.
  - intros [r Hr]. exists (binding_of (rack, r)). split; [|done].
    apply list_elem_of_fmap. exists (rack, r). split; [done|]. by apply elem_of_entries.
Qed.

Lemma added_nil b c :
  added_reasons c (rebuild_bindings b) = [] ↔
  ∀ rack, is_Some (cs_racks c !! rack) → is_Some (cs_racks b !! rack).
Proof.
  unfold added_reasons. rewrite flat_map_entries_nil. setoid_rewrite stale_nil.
  setoid_rewrite negb_false_iff. setoid_rewrite bound_rack_spec. cbn. split.
  - intros H rack [r Hr]. eauto.
  - intros H rack r Hr. apply H. eauto.
Qed.

Lemma binding_reasons_nil c rack bound :
  binding_reasons c (binding_of (rack, bound)) = [] ↔
  ∃ r, cs_racks c !! rack = Some r ∧ binding_holds c rack bound r.
Proof.
  unfold binding_reasons, binding_holds. cbn [binding_of rb_rack rb_generation rb_membership rb_boot fst snd].
  destruct (cs_racks c !! rack) as [r|] eqn:Er.
  2: { split; [done|]. intros (r&?&_). congruence. }
  destruct (is_rack_retired c rack) eqn:Et.
  { split; [done|]. intros (r'&[= <-]&?&_). congruence. }
  rewrite !app_nil, !stale_nil, !differ_false. split.
  - intros (?&?&?&?). exists r. by split_and!.
  - by intros (r'&[= <-]&_&?&?&?&?).
Qed.

Lemma bindings_nil b c :
  flat_map (binding_reasons c) (rebuild_bindings b) = [] ↔
  ∀ rack bound, cs_racks b !! rack = Some bound →
    ∃ r, cs_racks c !! rack = Some r ∧ binding_holds c rack bound r.
Proof.
  rewrite flat_map_nil. unfold rebuild_bindings. split.
  - intros H rack bound Hb. apply binding_reasons_nil, H, list_elem_of_fmap.
    exists (rack, bound). split; [done|]. by apply elem_of_entries.
  - intros H b' ([rack bound]&->&Hin%elem_of_entries)%list_elem_of_fmap.
    by apply binding_reasons_nil, H.
Qed.

Lemma same_size_of_domains (b c : ClusterState) :
  (∀ rack, is_Some (cs_racks b !! rack) ↔ is_Some (cs_racks c !! rack)) →
  msize (cs_racks b) = msize (cs_racks c).
Proof.
  intros H. unfold msize. f_equal. rewrite <- !size_dom. f_equal. apply set_eq.
  intros rack. by rewrite !elem_of_dom.
Qed.

(** The reasons a validation collects, before the lifecycle. *)
Lemma match_reasons_nil b c :
  match_reasons (capture b) c = [] ↔ same_counters b c ∧ bindings_hold b c.
Proof.
  unfold match_reasons. cbn [capture sn_state sn_bindings].
  rewrite !app_nil, bindings_nil, added_nil. unfold scalar_reasons.
  rewrite !app_nil, !stale_nil, domain_reasons_nil, !differ_false, orb_false_iff, differ_false,
    negb_false_iff, N.eqb_eq. split.
  - intros ((Hi&He&Hc&Hg&(Hm&Hn)&Ht&Hd&Hco&Hh)&Hb&Ha).
    assert (cs_topology_epoch b = cs_topology_epoch c ∧
      cs_topology_generation b = cs_topology_generation c) as [Hte Htg].
    { destruct (differ (cs_topology_epoch b) _) eqn:E; [done|].
      rewrite differ_false in E. rewrite stale_nil, differ_false in Ht. done. }
    split; [by split|]. split.
    + intros rack. split; [|apply Ha]. intros [bound Hbound]. destruct (Hb _ _ Hbound) as (r&?&_). eauto.
    + intros rack bound r Hbound Hr. destruct (Hb _ _ Hbound) as (r'&?&?). congruence.
  - intros ([] & Hd & Hb). rewrite (same_size_of_domains b c Hd).
    split_and!; try done.
    + rewrite (proj2 (differ_false _ _)) by done. by apply stale_nil, differ_false.
    + intros rack bound Hbound. destruct (proj1 (Hd rack)) as [r Hr]; [eauto|]. eauto.
    + intros rack. apply Hd.
Qed.
