(* ===== verification/SnapshotProofs.v ===== *)
(** * Snapshots and the history of the coordinator

    A snapshot that validates as current is the current state; the wire form
    agrees with the in-process form on what may be consumed; and where snapshot
    validation departs from its documentation. *)

From S2P Require Import Prelude Identity Counter Taxonomy Evidence Types State Readiness Domains.
From S2P Require Import Indexes Invariant Queries RackRef Explain EngineBase EngineRack.
From S2P Require Import EngineTopology EngineCluster Rollback Commit Scenario CommitProofs.
From S2P Require Import FenceProofs Monotone Reachable Effects Snapshot.

#[local] Opaque evaluate_readiness check_invariants apply_request apply_fence apply_and_commit
  semantic_digest_of explain_validation.

(** Snapshot validation decides currentness.  The snapshot of a state [b]
    validates as current against a state [c] exactly when the two agree on the
    cluster identity and on every epoch and generation compared, record the same
    racks, and each rack is neither retired nor bound to a fenced incarnation,
    has the bound generation and membership and awaits no revalidation.  It is
    consumable exactly when, in addition, the lifecycle of [c] allows it. *)
Theorem validate_correct b c :
  let v := validate (Some (capture b)) c in
  (sv_current v = true ↔ same_counters b c ∧ bindings_hold b c) ∧
  (sv_consumable v = true ↔
     same_counters b c ∧ bindings_hold b c ∧ is_consumable_lifecycle (cs_lifecycle c) = true).
Proof.
  cbn zeta. unfold validate. cbn [sv_current sv_consumable].
  rewrite andb_true_iff, bool_decide_eq_true, match_reasons_nil. naive_solver.
Qed.

(** ** Current snapshots along a history *)

(** A step either leaves canonical state alone or advances its generation. *)
Lemma step_generation c c' :
  commit_step c c' → declared (co_canonical c) →
  co_canonical c' = co_canonical c ∨
  (ctr (cs_generation (co_canonical c)) < ctr (cs_generation (co_canonical c')))%N.
Proof.
  intros [now req c0|now later boot reason c0] Hd.
  - pose proof (apply_and_commit_outcome now req c0) as Ho.
    destruct (commit_advances _ _ _ _ _ Ho Hd) as [_ Hg].
    destruct Ho as [c1 r ctx res E Hr Hc _ _|c1 r ctx res g E _ Hr _ _ _ _ _ _].
    + left. rewrite Hc, (request_identity _ _ _ _ _ E), upd_id_same; [done|].
      intros [_ He]. unfold declared in Hd. congruence.
    + right. specialize (Hg Hr). lia.
  - destruct (apply_fence_outcome now later boot reason c0) as [c1 Hc _ _|c1 g h Hb Hg _ Hc _ _ _];
      [by left|]. right. rewrite Hc. apply bump_Some in Hg. cbn. lia.
Qed.

Lemma history_generation items c :
  declared (co_canonical c) →
  let c' := fst (run_commit items c) in
  co_canonical c' = co_canonical c ∨
  (ctr (cs_generation (co_canonical c)) < ctr (cs_generation (co_canonical c')))%N.
Proof.
  intros Hd c'. assert (declared (co_canonical c') ∧ (co_canonical c' = co_canonical c ∨
    (ctr (cs_generation (co_canonical c)) < ctr (cs_generation (co_canonical c')))%N)) as [_ H]; [|done].
  unfold c'. apply (run_commit_invariant (λ x, declared (co_canonical x) ∧
    (co_canonical x = co_canonical c ∨
     (ctr (cs_generation (co_canonical c)) < ctr (cs_generation (co_canonical x)))%N))); [|auto].
  intros c1 c2 Hs [Hd1 H1]. destruct (step_advances _ _ Hs Hd1) as [Hd2 _]. split; [done|].
  destruct (step_generation _ _ Hs Hd1) as [->|Hlt]; [done|]. destruct H1 as [<-|?]; right; lia.
Qed.

(** C34: a current snapshot is the current state.  If a snapshot taken from a
    declared cluster still validates as current after any history of mutations
    and fences, then canonical state is exactly the state the snapshot holds:
    no accepted mutation and no fence, however small, leaves an earlier snapshot
    current. *)
Theorem current_snapshot_is_state items c :
  declared (co_canonical c) →
  let s := co_canonical c in
  let s' := co_canonical (fst (run_commit items c)) in
  sv_current (validate (Some (capture s)) s') = true → s' = s.
Proof.
  intros Hd s s' Hv. unfold validate in Hv. cbn [sv_current] in Hv.
  apply bool_decide_eq_true, match_reasons_nil in Hv as [[] _].
  destruct (history_generation items c Hd) as [?|Hlt]; [done|].
  exfalso. fold s s' in Hlt. rewrite sc_generation in Hlt. lia.
Qed.

(** The history is a rejected mutation. *)
Lemma current_snapshot_is_state_witness :
  co_canonical (fst (run_commit [mutate (add_rack rack_a boot_c 1)] demo)) = demo_state.
Proof.
  refine (current_snapshot_is_state [mutate (add_rack rack_a boot_c 1)] demo _ _);
    vm_compute; reflexivity.
Defined.

(** ** The wire form *)

Lemma view_binding_nil c b : view_binding_reasons c b = [] ↔ binding_reasons c b = [].
Proof.
  unfold view_binding_reasons, binding_reasons. destruct (cs_racks c !! rb_rack b); [|done].
  destruct (is_rack_retired c (rb_rack b)); [done|]. rewrite !app_nil, !stale_nil. done.
Qed.

Lemma view_scalar_nil b c :
  view_scalar_reasons (from_snapshot (Some (capture b))) c = [] ↔ same_counters b c.
Proof.
  unfold view_scalar_reasons. cbn [from_snapshot capture sn_state vw_cluster vw_cluster_epoch
    vw_coordinator_epoch vw_cluster_generation vw_membership_generation vw_topology_epoch
    vw_topology_generation vw_connectivity_generation vw_health_generation vw_domain_generations].
  rewrite !app_nil, !stale_nil, domain_reasons_nil, !differ_false. split.
  - intros (Hi&He&Hc&Hg&Hm&Ht&Hd&Hco&Hh).
    destruct (differ (cs_topology_epoch b) (cs_topology_epoch c)) eqn:E; [done|].
    rewrite differ_false in E. rewrite stale_nil, differ_false in Ht. by split.
  - intros []. rewrite (proj2 (differ_false (cs_topology_epoch b) _)) by done.
    rewrite stale_nil, differ_false. by split_and!.
Qed.

(** The wire validation counts the lifecycle as a mismatch. *)
Lemma validate_view_current b c :
  sv_current (validate_view (from_snapshot (Some (capture b))) c) = true ↔
  same_counters b c ∧ bindings_hold b c ∧ is_consumable_lifecycle (cs_lifecycle c) = true.
Proof.
  unfold validate_view. cbn [sv_current]. rewrite bool_decide_eq_true, !app_nil, view_scalar_nil.
  cbn [from_snapshot vw_rack_bindings capture sn_bindings].
  assert (flat_map (view_binding_reasons c) (rebuild_bindings b) = [] ↔
    flat_map (binding_reasons c) (rebuild_bindings b) = []) as ->.
  { rewrite !flat_map_nil. by setoid_rewrite view_binding_nil. }
  assert (flat_map (λ e : RackId * RackRecord, stale (negb (bound_rack (rebuild_bindings b) e.1))
    Stale_MembershipChanged ("rack/" +:+ id_value e.1)) (entries (cs_racks c)) = [] ↔
    added_reasons c (rebuild_bindings b) = []) as ->.
  { unfold added_reasons. rewrite !flat_map_nil. by setoid_rewrite stale_nil. }
  unfold lifecycle_reasons. rewrite stale_nil, negb_false_iff, bindings_nil, added_nil.
  unfold bindings_hold. split.
  - intros (?&Hb&Ha&?). split_and!; try done.
    + intros rack. split; [|apply Ha]. intros [x Hx]. destruct (Hb _ _ Hx) as (r&?&_). eauto.
    + intros rack x r Hx Hr. destruct (Hb _ _ Hx) as (r'&?&?). congruence.
  - intros (?&[Hd Hb]&?). split_and!; try done.
    + intros rack x Hx. destruct (proj1 (Hd rack)) as [r Hr]; [eauto|]. eauto.
    + intros rack. apply Hd.
Qed.

(** The wire form of a snapshot is consumable exactly when the snapshot is.
    A consumer that validates the compact view over the wire is told it may act
    on the composition in exactly the cases in which in-process validation of the
    snapshot itself says so. *)
Theorem validate_view_agrees b c :
  sv_consumable (validate_view (from_snapshot (Some (capture b))) c) =
  sv_consumable (validate (Some (capture b)) c).
Proof.
  apply eq_true_iff_eq. unfold validate. cbn [sv_consumable].
  rewrite andb_true_iff, bool_decide_eq_true, match_reasons_nil.
  pose proof (validate_view_current b c) as Hv.
  assert (sv_consumable (validate_view (from_snapshot (Some (capture b))) c) =
    sv_current (validate_view (from_snapshot (Some (capture b))) c) &&
    is_consumable_lifecycle (cs_lifecycle c)) as -> by done.
  rewrite andb_true_iff, Hv. naive_solver.
Qed.

(** The wire validation reports a matching view as stale.  The protocol
    document says that a lifecycle that may not be consumed is reported as a
    reason but does not by itself make a generationally correct view stale; the
    in-process validation does that, the wire validation does not: a view
    captured from the current state of a cluster that was only just declared is
    answered as not current. *)
Theorem validate_view_lifecycle_stale :
  let s := co_canonical (fst (apply_and_commit t0 declare start)) in
  sv_current (validate (Some (capture s)) s) = true ∧
  sv_current (validate_view (from_snapshot (Some (capture s))) s) = false.
Proof. vm_compute. auto. Qed.

(** Retirement makes every later snapshot stale.  The record of a retired
    rack is never removed, and validation reports a bound rack that is retired
    as stale: once a rack is retired, a snapshot captured from any later state
    does not validate as current even against the very state it was captured
    from, so no snapshot of the cluster is ever consumable again. *)
Theorem retirement_stales_every_snapshot items c rack :
  declared (co_canonical c) → is_rack_retired (co_canonical c) rack = true →
  is_Some (cs_racks (co_canonical c) !! rack) →
  let s := co_canonical (fst (run_commit items c)) in
  sv_current (validate (Some (capture s)) s) = false ∧
  sv_consumable (validate (Some (capture s)) s) = false.
Proof.
  intros Hd Hret [r0 Hr0] s. destruct (run_commit_advances items c Hd) as [_ Ha]. fold s in Ha.
  destruct (ad_racks _ _ Ha _ _ Hr0) as (r&Hr&_). pose proof (ad_retired _ _ Ha _ Hret) as Hret'.
  assert (bool_decide (match_reasons (capture s) s = []) = false) as Hn.
  { apply bool_decide_eq_false. rewrite match_reasons_nil. intros [_ [_ Hb]].
    destruct (Hb rack r r Hr Hr) as [Hf _]. congruence. }
  unfold validate. cbn [sv_current sv_consumable]. by rewrite Hn.
Qed.

Definition retired_demo : Coordinator := fst (apply_and_commit t0 retire_a demo).

(** The other rack is current and the contract is satisfied. *)
Lemma retirement_stales_every_snapshot_witness :
  cs_lifecycle (co_canonical retired_demo) = CL_Ready ∧
  sv_current (validate (Some (capture (co_canonical (fst (run_commit [] retired_demo)))))
    (co_canonical (fst (run_commit [] retired_demo)))) = false.
Proof.
  split; [vm_compute; reflexivity|].
  refine (proj1 (retirement_stales_every_snapshot [] retired_demo rack_a _ _ _)).
  - vm_compute. reflexivity.
  - vm_compute. reflexivity.
  - assert (bool_decide (is_Some (cs_racks (co_canonical retired_demo) !! rack_a)) = true) as H
      by (vm_compute; reflexivity).
    exact (bool_decide_eq_true_1 _ H).
Defined.
