(* ===== verification/Divergences.v ===== *)
(** * Where the engine departs from its documentation

    Concrete runs of the model that show behaviour a comment or a document of
    the repository rules out. *)

From S2P Require Import Prelude Identity Counter Taxonomy Evidence Types State Readiness Domains.
From S2P Require Import Indexes Invariant RackRef Explain EngineBase EngineRack EngineTopology.
From S2P Require Import EngineCluster Rollback Commit Scenario CommitProofs Reachable.

(** A coordinator whose durable store is full. *)
Definition full_disk : Coordinator :=
  MkCoordinator (default_config demo_cluster default_contract)
    (Some (λ _, SaveFailed "disk full" "IO_ERROR")) start_state 0 false no_stats.

Definition declare_other : MutationRequest := declare <| rq_cluster := MkId "other" |>.

(** The identity is not journaled.  [StateJournal] is documented to restore
    canonical state exactly after a failed save, but the scalars it records omit
    the cluster identity: a first declaration whose save fails is rejected and
    still renames the cluster. *)
Theorem refused_declaration_renames_cluster :
  mr_outcome (snd (apply_and_commit t0 declare_other full_disk)) = Out_Rejected ∧
  mr_reason (snd (apply_and_commit t0 declare_other full_disk)) = Rej_PersistenceFailed ∧
  cs_id (co_canonical full_disk) = demo_cluster ∧
  cs_id (co_canonical (fst (apply_and_commit t0 declare_other full_disk))) = MkId "other".
Proof. vm_compute. auto. Qed.

(** The fenced incarnation withdraws the evidence of a rack it never published. *)
Definition withdraw_b_as_a : MutationRequest :=
  request MK_WithdrawEvidence (authority_of boot_a rack_b 5).

(** A fenced incarnation can still mutate.  A fenced boot identity is
    documented never to mutate canonical state again, but the handlers of
    evidence withdrawal, links, domains, constraints and supersession do not
    consult the fenced list: the fenced boot of one rack takes the authority of
    another rack away. *)
Theorem fenced_boot_withdraws_evidence :
  let c := apply_fence t0 t0 boot_a "lost" demo in
  let p := apply_and_commit t0 withdraw_b_as_a c in
  is_boot_fenced (co_canonical c) boot_a = true ∧
  au_boot (rq_authority withdraw_b_as_a) = Some boot_a ∧
  mr_outcome (snd p) = Out_Accepted ∧
  rk_authoritative_current <$> cs_racks (co_canonical c) !! rack_b = Some true ∧
  rk_authoritative_current <$> cs_racks (co_canonical (fst p)) !! rack_b = Some false.
Proof. vm_compute. auto 10. Qed.

Definition retire_cluster : MutationRequest := request MK_RetireCluster operator.

Definition redeclare : MutationRequest :=
  (request MK_DeclareCluster operator) <| rq_declared_lifecycle := CL_Forming |>.

(** A retired cluster can be declared again.  The gate says a RETIRED
    cluster accepts no further mutations, but a declaration returns from the
    gate before that test and overwrites the lifecycle: the cluster leaves
    RETIRED and accepts mutations again. *)
Theorem redeclaration_resurrects_cluster :
  let c := fst (apply_and_commit t0 retire_cluster demo) in
  let p := apply_and_commit t0 redeclare c in
  cs_lifecycle (co_canonical c) = CL_Retired ∧
  mr_outcome (snd p) = Out_Accepted ∧
  cs_lifecycle (co_canonical (fst p)) ≠ CL_Retired ∧
  mr_outcome (snd (apply_and_commit t0 (register_rack (MkId "rack-c") boot_c) (fst p))) =
    Out_Accepted.
Proof.
  set (c := fst _). set (p := apply_and_commit t0 redeclare c).
  split_and!; try (vm_compute; reflexivity). vm_compute. discriminate.
Qed.

(** A fence of an unknown incarnation is lost.  The public fence operation
    is documented to fence an incarnation permanently, but a boot that has not
    published a rack or a link yet is not recorded: it publishes afterwards. *)
Theorem early_fence_is_lost :
  let c := apply_fence t0 t0 boot_c "revoked" demo in
  co_canonical c = demo_state ∧
  mr_outcome (snd (apply_and_commit t0 (add_rack (MkId "rack-c") boot_c 1) c)) = Out_Accepted.
Proof. vm_compute. auto. Qed.
