(* ===== verification/Wire.v ===== *)
(** * Bytes on the wire

    The bounded little-endian writer and reader of [src/protocol.cpp]: the
    writer records its first failure and then ignores every write; the reader
    checks every length before it consumes a byte.  The views they hold are
    lists of characters; the reader's data and position are represented by the
    bytes that remain. *)

From S2P Require Import Prelude Identity Counter Taxonomy Types.

(** ** Statuses and message types *)

Inductive ProtocolStatus :=
  | Wire_Ok | Wire_BadMagic | Wire_UnsupportedVersion | Wire_TruncatedHeader
  | Wire_TruncatedPayload | Wire_OversizedFrame | Wire_ChecksumMismatch | Wire_UnknownMessage
  | Wire_MalformedPayload | Wire_AbsurdLength | Wire_TrailingGarbage | Wire_InvalidEnum
  | Wire_InvalidIdentity | Wire_ConnectionClosed | Wire_IoError | Wire_NotConnected
  | Wire_AlreadyRunning | Wire_NotRunning | Wire_ShutdownInProgress | Wire_Rejected.

#[global] Instance ProtocolStatus_eq_dec : EqDecision ProtocolStatus.
Proof. solve_decision. Defined.

#[global] Program Instance ProtocolStatus_enum : Enum ProtocolStatus := {|
  enumerators := [Wire_Ok; Wire_BadMagic; Wire_UnsupportedVersion; Wire_TruncatedHeader;
    Wire_TruncatedPayload; Wire_OversizedFrame; Wire_ChecksumMismatch;
    Wire_UnknownMessage; Wire_MalformedPayload; Wire_AbsurdLength;
    Wire_TrailingGarbage; Wire_InvalidEnum; Wire_InvalidIdentity;
    Wire_ConnectionClosed; Wire_IoError; Wire_NotConnected;
    Wire_AlreadyRunning; Wire_NotRunning; Wire_ShutdownInProgress;
    Wire_Rejected]
|}.
Next Obligation. enum_complete. Qed.
Next Obligation. enum_nodup. Qed.

Definition string_of_protocol_status (value : ProtocolStatus) : string :=
  match value with
  | Wire_Ok => "OK"
  | Wire_BadMagic => "BAD_MAGIC"
  | Wire_UnsupportedVersion => "UNSUPPORTED_VERSION"
  | Wire_TruncatedHeader => "TRUNCATED_HEADER"
  | Wire_TruncatedPayload => "TRUNCATED_PAYLOAD"
  | Wire_OversizedFrame => "OVERSIZED_FRAME"
  | Wire_ChecksumMismatch => "CHECKSUM_MISMATCH"
  | Wire_UnknownMessage => "UNKNOWN_MESSAGE"
  | Wire_MalformedPayload => "MALFORMED_PAYLOAD"
  | Wire_AbsurdLength => "ABSURD_LENGTH"
  | Wire_TrailingGarbage => "TRAILING_GARBAGE"
  | Wire_InvalidEnum => "INVALID_ENUM"
  | Wire_InvalidIdentity => "INVALID_IDENTITY"
  | Wire_ConnectionClosed => "CONNECTION_CLOSED"
  | Wire_IoError => "IO_ERROR"
  | Wire_NotConnected => "NOT_CONNECTED"
  | Wire_AlreadyRunning => "ALREADY_RUNNING"
  | Wire_NotRunning => "NOT_RUNNING"
  | Wire_ShutdownInProgress => "SHUTDOWN_IN_PROGRESS"
  | Wire_Rejected => "REJECTED"
  end.

Inductive MessageType :=
  | Msg_Invalid | Msg_Hello | Msg_HelloAck | Msg_RegisterPublisher | Msg_RegisterAck
  | Msg_PublishRequest | Msg_PublishResult | Msg_Heartbeat | Msg_HeartbeatAck
  | Msg_SnapshotRequest | Msg_SnapshotResponse | Msg_ValidateSnapshotRequest
  | Msg_ValidateSnapshotResponse | Msg_RevalidateRequest | Msg_RevalidateResponse
  | Msg_Shutdown | Msg_Error.

#[global] Instance MessageType_eq_dec : EqDecision MessageType.
Proof. solve_decision. Defined.

#[global] Program Instance MessageType_enum : Enum MessageType := {|
  enumerators := [Msg_Invalid; Msg_Hello; Msg_HelloAck; Msg_RegisterPublisher;
    Msg_RegisterAck; Msg_PublishRequest; Msg_PublishResult; Msg_Heartbeat;
    Msg_HeartbeatAck; Msg_SnapshotRequest; Msg_SnapshotResponse;
    Msg_ValidateSnapshotRequest; Msg_ValidateSnapshotResponse;
    Msg_RevalidateRequest; Msg_RevalidateResponse; Msg_Shutdown; Msg_Error]
|}.
Next Obligation. enum_complete. Qed.
Next Obligation. enum_nodup. Qed.

Definition kMessageTypeNames : list (MessageType * string) :=
  [(Msg_Invalid, "INVALID"); (Msg_Hello, "HELLO"); (Msg_HelloAck, "HELLO_ACK");
   (Msg_RegisterPublisher, "REGISTER_PUBLISHER"); (Msg_RegisterAck, "REGISTER_ACK");
   (Msg_PublishRequest, "PUBLISH_REQUEST"); (Msg_PublishResult, "PUBLISH_RESULT");
   (Msg_Heartbeat, "HEARTBEAT"); (Msg_HeartbeatAck, "HEARTBEAT_ACK");
   (Msg_SnapshotRequest, "SNAPSHOT_REQUEST"); (Msg_SnapshotResponse, "SNAPSHOT_RESPONSE");
   (Msg_ValidateSnapshotRequest, "VALIDATE_SNAPSHOT_REQUEST");
   (Msg_ValidateSnapshotResponse, "VALIDATE_SNAPSHOT_RESPONSE");
   (Msg_RevalidateRequest, "REVALIDATE_REQUEST");
   (Msg_RevalidateResponse, "REVALIDATE_RESPONSE"); (Msg_Shutdown, "SHUTDOWN");
   (Msg_Error, "ERROR")].

Definition string_of_message_type (value : MessageType) : string :=
  match List.find (λ e, bool_decide (e.1 = value)) kMessageTypeNames with
  | Some e => e.2
  | None => "UNKNOWN"
  end.

Definition message_type_from_string (text : string) : option MessageType :=
  fst <$> List.find (λ e, bool_decide (e.2 = text)) kMessageTypeNames.

(** ** The writer *)

Notation bytes := (list ascii) (only parsing).

Definition kMaxWriterBytes : N := 268435456.

(** [static_cast<char>(value)] of an unsigned byte. *)
Definition char_of (value : N) : ascii := Ascii.ascii_of_N value.

Record ByteWriter := MkWriter { bw_data : bytes; bw_status : ProtocolStatus }.

#[global] Instance eta_ByteWriter : Eta ByteWriter := λ r, MkWriter (bw_data r) (bw_status r).
#[global] Instance upd_bw_data : Upd bw_data := ltac:(derive_upd).
#[global] Instance upd_bw_status : Upd bw_status := ltac:(derive_upd).

Definition empty_writer : ByteWriter := MkWriter [] Wire_Ok.

Definition bw_ok (w : ByteWriter) : bool := bool_decide (bw_status w = Wire_Ok).

Definition bw_fail (status : ProtocolStatus) (w : ByteWriter) : ByteWriter :=
  if bw_ok w then w <| bw_status := status |> else w.

Definition w_u8 (value : N) (w : ByteWriter) : ByteWriter :=
  if negb (bw_ok w) then w else
  if (kMaxWriterBytes <? size (bw_data w) + 1)%N then bw_fail Wire_AbsurdLength w else
  w <| bw_data := bw_data w ++ [char_of value] |>.

Definition w_boolean (value : bool) (w : ByteWriter) : ByteWriter := w_u8 (if value then 1 else 0) w.

(** The loop of [u16], [u32] and [u64]: bytes [index], [index + 1], ... *)
Fixpoint w_le (count : nat) (index : N) (value : N) (w : ByteWriter) : ByteWriter :=
  match count with
  | O => w
  | S count => w_le count (index + 1) value
                 (w_u8 (N.land (N.shiftr value (index * 8)) 255) w)
  end.

Definition w_u16 (value : N) : ByteWriter → ByteWriter := w_le 2 0 value.
Definition w_u32 (value : N) : ByteWriter → ByteWriter := w_le 4 0 value.
Definition w_u64 (value : N) : ByteWriter → ByteWriter := w_le 8 0 value.

(** [static_cast<std::uint64_t>] of a signed value. *)
Definition u64_of_i64 (value : Z) : N := Z.to_N (value mod 18446744073709551616).

Definition w_i64 (value : Z) : ByteWriter → ByteWriter := w_u64 (u64_of_i64 value).
Definition w_f64 (value : double) : ByteWriter → ByteWriter := w_u64 (dbl_bits value).

Definition w_bytes (value : bytes) (w : ByteWriter) : ByteWriter :=
  if negb (bw_ok w) then w else
  if (kMaxEncodedStringBytes <? size value)%N then bw_fail Wire_AbsurdLength w else
  let w := w_u32 (size value) w in
  if negb (bw_ok w) || bool_decide (value = []) then w else
  if (kMaxWriterBytes <? size (bw_data w) + size value)%N then bw_fail Wire_AbsurdLength w else
  w <| bw_data := bw_data w ++ value |>.

Definition w_text (value : string) : ByteWriter → ByteWriter := w_bytes (chars value).

Definition w_optional_present (present : bool) : ByteWriter → ByteWriter :=
  w_u8 (if present then 1 else 0).

(** ** The reader *)

Record ByteReader := MkReader { br_rest : bytes; br_status : ProtocolStatus }.

#[global] Instance eta_ByteReader : Eta ByteReader := λ r, MkReader (br_rest r) (br_status r).
#[global] Instance upd_br_rest : Upd br_rest := ltac:(derive_upd).
#[global] Instance upd_br_status : Upd br_status := ltac:(derive_upd).

(** A reader at the front of the given bytes. *)
Definition reader_of (data : bytes) : ByteReader := MkReader data Wire_Ok.

Definition br_ok (r : ByteReader) : bool := bool_decide (br_status r = Wire_Ok).

Definition br_fail (status : ProtocolStatus) (r : ByteReader) : ByteReader :=
  if br_ok r then r <| br_status := status |> else r.

Definition mark_invalid : ProtocolStatus → ByteReader → ByteReader := br_fail.

Definition remaining (r : ByteReader) : N := size (br_rest r).
Definition exhausted (r : ByteReader) : bool := bool_decide (br_rest r = []).

(** A read of a reader of type [R] yields a value or stops. *)
Definition Rd (R A : Type) : Type := R → option A * R.

#[global] Instance Rd_ret R : MRet (Rd R) := λ A a r, (Some a, r).
#[global] Instance Rd_bind R : MBind (Rd R) := λ A B k m r,
  match m r with
  | (Some a, r') => k a r'
  | (None, r') => (None, r')
  end.

Abbreviation Read := (Rd ByteReader).

Definition need (count : N) (r : ByteReader) : bool * ByteReader :=
  if negb (br_ok r) then (false, r) else
  if (remaining r <? count)%N then (false, br_fail Wire_TruncatedPayload r) else (true, r).

Definition r_u8 : Read N := λ r,
  let '(available, r) := need 1 r in
  if negb available then (None, r) else
  match br_rest r with
  | c :: rest => (Some (code c), r <| br_rest := rest |>)
  | [] => (None, r)
  end.

Definition r_boolean : Read bool := λ r,
  match r_u8 r with
  | (Some value, r) =>
      if (1 <? value)%N then (None, br_fail Wire_MalformedPayload r) else (Some (value =? 1)%N, r)
  | (None, r) => (None, r)
  end.

(** The loop of [u16], [u32] and [u64]. *)
Fixpoint r_le (count : nat) (index : N) (value : N) : Read N :=
  match count with
  | O => mret value
  | S count => byte ← r_u8;
               r_le count (index + 1) (N.lor value (N.shiftl byte (index * 8)))
  end.

Definition r_u16 : Read N := r_le 2 0 0.
Definition r_u32 : Read N := r_le 4 0 0.
Definition r_u64 : Read N := r_le 8 0 0.

(** [static_cast<std::int64_t>] of an unsigned value. *)
Definition i64_of_u64 (value : N) : Z :=
  if (value <? 9223372036854775808)%N then Z.of_N value
  else (Z.of_N value - 18446744073709551616)%Z.

Definition r_i64 : Read Z := value ← r_u64; mret (i64_of_u64 value).
Definition r_f64 : Read double := value ← r_u64; mret (MkDouble value).

Definition r_bytes : Read bytes := λ r,
  match r_u32 r with
  | (None, r) => (None, r)
  | (Some length, r) =>
      if (kMaxEncodedStringBytes <? length)%N then (None, br_fail Wire_AbsurdLength r) else
      if (remaining r <? length)%N then (None, br_fail Wire_TruncatedPayload r) else
      (Some (take (N.to_nat length) (br_rest r)),
       r <| br_rest := drop (N.to_nat length) (br_rest r) |>)
  end.

Definition r_text : Read string := value ← r_bytes; mret (of_chars value).
