(* ===== verification/Codec.v ===== *)
(** * Codecs

    What it means for a writer and a reader to be inverse to each other, stated
    once for the plain byte streams and for the wire streams built on them.  A
    sink collects bytes until it fails; a source is consumed from its front.
    [Codec] is the contract of a write function and a read function: what is
    written is read back whatever follows it, and what can be read is exactly
    what the writer would have written. *)

From Stdlib Require Import NArith ZArith Lia.
From S2P Require Import Prelude Identity Counter Taxonomy Types Wire.

(** ** Streams *)

Class Sink (W : Type) := { sink_data : W → bytes; sink_good : W → bool }.
Class Source (R : Type) := { start : bytes → R }.

#[global] Instance byte_sink : Sink ByteWriter := {| sink_data := bw_data; sink_good := bw_ok |}.
#[global] Instance byte_source : Source ByteReader := {| start := reader_of |}.

(** Write steps in order. *)
Fixpoint steps {W} (l : list (W → W)) (w : W) : W :=
  match l with [] => w | f :: l => steps l (f w) end.

Section codec.
  Context {W R : Type} `{!Sink W} `{!Source R}.

(** From [w] to [w'] at least [n] bytes were written, and [rd] reads them as [a]. *)
Definition emits (n : nat) (w w' : W) {A} (rd : Rd R A) (a : A) : Prop :=
  sink_good w' = true →
  sink_good w = true ∧
  ∃ bs : bytes, n ≤ length bs ∧ sink_data w' = sink_data w ++ bs ∧
    ∀ rest, rd (start (bs ++ rest)) = (Some a, start rest).

(** [f] writes [bs] whenever there is room for it. *)
Definition writes (f : W → W) (bs : bytes) : Prop :=
  ∀ w, sink_good w = true → (size (sink_data w) + size bs <= kMaxWriterBytes)%N →
    sink_good (f w) = true ∧ sink_data (f w) = sink_data w ++ bs.

(** A read that took [data] to [r] consumed exactly what [f] writes. *)
Definition consumed (data : bytes) (r : R) (f : W → W) : Prop :=
  ∃ bs rest : bytes, data = bs ++ rest ∧ r = start rest ∧ writes f bs.

Class Codec {A} (wr : A → W → W) (rd : Rd R A) (ok : A → Prop) (n : nat) := {
  codec_emits a w : ok a → emits n w (wr a w) rd a;
  codec_consumed data a r : rd (start data) = (Some a, r) → ok a ∧ consumed data r (wr a)
}.

(** ** Composition *)

Lemma emits_ret {A} (a : A) w : emits 0 w w (mret a) a.
Proof. intros Hg. split; [done|]. exists []. rewrite app_nil_r. split_and!; [simpl; lia|done..]. Qed.

Lemma emits_bind {A B} n1 n2 w w1 w2 (rd : Rd R A) a (k : A → Rd R B) b :
  emits n1 w w1 rd a → emits n2 w1 w2 (k a) b → emits (n1 + n2) w w2 (rd ≫= k) b.
Proof.
  intros H1 H2 Hg. destruct (H2 Hg) as (Hg1&bs2&Hn2&Hd2&Hr2).
  destruct (H1 Hg1) as (Hg0&bs1&Hn1&Hd1&Hr1). split; [done|]. exists (bs1 ++ bs2).
  rewrite length_app. split_and!; [lia|by rewrite Hd2, Hd1, (assoc_L (++))|].
  intros rest. unfold mbind, Rd_bind. by rewrite <-(assoc_L (++)), Hr1, Hr2.
Qed.

Lemma emits_weaken {A} n m w w' (rd : Rd R A) a : emits n w w' rd a → m ≤ n → emits m w w' rd a.
Proof.
  intros H Hm Hg. destruct (H Hg) as (?&bs&?&?&?). split; [done|]. exists bs.
  split_and!; [lia|done..].
Qed.

(** A read of a value that does not depend on what follows, then its image. *)
Lemma emits_map {A B} n w w' (rd : Rd R A) a (f : A → B) :
  emits n w w' rd a → emits n w w' (x ← rd; mret (f x)) (f a).
Proof.
  intros H. apply (emits_weaken (n + 0)); [|lia]. eapply emits_bind; [done|apply emits_ret].
Qed.

Lemma Rd_bind_Some {A B} (m : Rd R A) (k : A → Rd R B) r b r' :
  (m ≫= k) r = (Some b, r') → ∃ a r1, m r = (Some a, r1) ∧ k a r1 = (Some b, r').
Proof. unfold mbind, Rd_bind. destruct (m r) as [[a|] r1]; [|done]. eauto. Qed.

Lemma Rd_ret_Some {A} (a b : A) (r r' : R) : mret (M:=Rd R) a r = (Some b, r') → b = a ∧ r' = r.
Proof. unfold mret, Rd_ret. naive_solver. Qed.

Lemma consumed_nil data : consumed data (start data) (steps []).
Proof. exists [], data. split_and!; [done..|]. intros w Hg _. by rewrite app_nil_r. Qed.

Lemma consumed_cons data r1 r2 f l :
  consumed data r1 f → (∀ rest, r1 = start rest → consumed rest r2 (steps l)) →
  consumed data r2 (steps (f :: l)).
Proof.
  intros (bs1&rest1&->&->&H1) H2. destruct (H2 rest1 eq_refl) as (bs2&rest2&->&->&Hw2).
  exists (bs1 ++ bs2), rest2. split_and!; [by rewrite (assoc_L (++))|done|].
  intros w Hg Hs. unfold size in *. rewrite length_app in Hs.
  destruct (H1 w Hg) as [Hg1 Hd1]; [unfold size; lia|].
  destruct (Hw2 (f w) Hg1) as [Hg2 Hd2]; [unfold size; rewrite Hd1, length_app; lia|].
  cbn [steps]. split; [done|]. by rewrite Hd2, Hd1, (assoc_L (++)).
Qed.

Lemma consumed_ext data r f g : (∀ w, f w = g w) → consumed data r f → consumed data r g.
Proof.
  intros He (bs&rest&?&?&Hw). exists bs, rest. split_and!; [done..|].
  intros w Hg Hs. rewrite <-He. by apply Hw.
Qed.

Lemma consumed_start data r f : consumed data r f → ∃ rest, r = start rest.
Proof. intros (?&rest&_&->&_). eauto. Qed.

(** A one-step list is the step. *)
Lemma consumed_one data r f : consumed data r f → consumed data r (steps [f]).
Proof. apply consumed_ext. done. Qed.
End codec.

Arguments Codec {W R _ _ A} wr rd ok n.
Arguments codec_emits {W R _ _ A wr rd ok n} _ a w _.
Arguments codec_consumed {W R _ _ A wr rd ok n} _ data a r _.

(** ** Bytes and little-endian integers *)

Definition fits (width : N) (value : N) : Prop := (value < 2 ^ width)%N.
Definition always {A} (_ : A) : Prop := True.

Lemma code_char_of v : (v < 256)%N → code (char_of v) = v.
Proof. intros. by apply Ascii.N_ascii_embedding. Qed.

Lemma char_of_code c : char_of (code c) = c.
Proof. apply Ascii.ascii_N_embedding. Qed.

Lemma code_lt c : (code c < 256)%N.
Proof. apply Ascii.N_ascii_bounded. Qed.

Lemma bw_ok_spec w : bw_ok w = true ↔ bw_status w = Wire_Ok.
Proof. unfold bw_ok. by rewrite bool_decide_eq_true. Qed.

Lemma bw_fail_bad s w : s ≠ Wire_Ok → bw_ok (bw_fail s w) = false.
Proof.
  intros Hs. unfold bw_fail. destruct (bw_ok w) eqn:E; [|done].
  unfold bw_ok. by apply bool_decide_eq_false.
Qed.

Lemma w_u8_good v w :
  bw_ok (w_u8 v w) = true → bw_ok w = true ∧ bw_data (w_u8 v w) = bw_data w ++ [char_of v].
Proof.
  unfold w_u8. destruct (bw_ok w) eqn:E; cbn [negb]; [|intros; congruence].
  destruct (_ <? _)%N; [|done]. by rewrite bw_fail_bad.
Qed.

Lemma w_u8_room v w :
  bw_ok w = true → (size (bw_data w) + 1 <= kMaxWriterBytes)%N →
  bw_ok (w_u8 v w) = true ∧ bw_data (w_u8 v w) = bw_data w ++ [char_of v].
Proof.
  intros Hg Hs. unfold w_u8. rewrite Hg. cbn [negb].
  destruct (N.ltb_spec kMaxWriterBytes (size (bw_data w) + 1)); [lia|]. done.
Qed.

Lemma w_u8_writes v : writes (w_u8 v) [char_of v].
Proof. intros w Hg Hs. by apply w_u8_room. Qed.

Lemma r_u8_cons c rest : r_u8 (reader_of (c :: rest)) = (Some (code c), reader_of rest).
Proof.
  unfold r_u8, need, br_ok, remaining, size. cbn [br_status reader_of br_rest length].
  rewrite bool_decide_true by done. cbn [negb]. rewrite (proj2 (N.ltb_ge _ _)) by lia. done.
Qed.

Lemma r_u8_Some data v r :
  r_u8 (reader_of data) = (Some v, r) → ∃ c rest, data = c :: rest ∧ v = code c ∧ r = reader_of rest.
Proof.
  destruct data as [|c rest]; [done|]. rewrite r_u8_cons. intros [= <- <-]. eauto.
Qed.

#[global] Instance codec_u8 : Codec w_u8 r_u8 (fits 8) 1.
Proof.
  split.
  - intros v w Hv [Hg Hd]%w_u8_good. split; [done|]. exists [char_of v].
    split_and!; [simpl; lia|done|]. intros rest. cbn [app]. setoid_rewrite r_u8_cons.
    by rewrite code_char_of.
  - intros data v r (c&rest&->&->&->)%r_u8_Some. split; [apply code_lt|].
    exists [c], rest. split_and!; [done..|]. rewrite <-(char_of_code c) at 2. apply w_u8_writes.
Qed.

(** The value of little-endian bytes, and the bytes of a value. *)
Fixpoint le_value (l : bytes) : N :=
  match l with [] => 0 | c :: l => code c + 256 * le_value l end.

Fixpoint le_bytes (count : nat) (value : N) : bytes :=
  match count with
  | O => []
  | S count => char_of (value mod 256) :: le_bytes count (value / 256)
  end.

Lemma length_le_bytes k v : length (le_bytes k v) = k.
Proof. revert v. induction k; intros; simpl; auto. Qed.

Lemma le_value_bytes k v : (v < 256 ^ N.of_nat k)%N → le_value (le_bytes k v) = v.
Proof.
  revert v. induction k as [|k IH]; intros v Hv; [simpl in *; lia|].
  cbn [le_bytes le_value]. rewrite code_char_of by (apply N.mod_lt; lia).
  rewrite IH; [pose proof (N.div_mod v 256); lia|].
  apply N.Div0.div_lt_upper_bound. by rewrite <-N.pow_succ_r', <-Nat2N.inj_succ.
Qed.

Lemma le_bytes_value l : le_bytes (length l) (le_value l) = l.
Proof.
  induction l as [|c l IH]; [done|]. cbn [length le_bytes le_value].
  pose proof (code_lt c).
  replace ((code c + 256 * le_value l) mod 256)%N with (code c)
    by (rewrite (N.mul_comm 256), N.Div0.mod_add, N.mod_small; lia).
  replace ((code c + 256 * le_value l) / 256)%N with (le_value l)
    by (rewrite (N.mul_comm 256), N.div_add, N.div_small by lia; lia).
  by rewrite char_of_code, IH.
Qed.

Lemma le_value_lt l : (le_value l < 256 ^ N.of_nat (length l))%N.
Proof.
  induction l as [|c l IH]; [simpl; lia|]. cbn [length le_value].
  rewrite Nat2N.inj_succ, N.pow_succ_r'. pose proof (code_lt c). lia.
Qed.

Lemma land_255 v : N.land v 255 = (v mod 256)%N.
Proof. change 255%N with (N.ones 8). by rewrite N.land_ones. Qed.

Lemma w_le_S k i v w :
  w_le (S k) i v w = w_le k (i + 1) v (w_u8 (v / 2 ^ (8 * i) mod 256) w).
Proof. cbn [w_le]. by rewrite land_255, N.shiftr_div_pow2, (N.mul_comm i). Qed.

Lemma div_shift v i : (v / 2 ^ (8 * i) / 256 = v / 2 ^ (8 * (i + 1)))%N.
Proof.
  change 256%N with (2 ^ 8)%N. rewrite N.Div0.div_div, <-N.pow_add_r. f_equal. f_equal. lia.
Qed.

Lemma w_le_good k i v w :
  bw_ok (w_le k i v w) = true →
  bw_ok w = true ∧ bw_data (w_le k i v w) = bw_data w ++ le_bytes k (v / 2 ^ (8 * i)).
Proof.
  revert i w. induction k as [|k IH]; intros i w.
  { intros. split; [done|]. simpl. by rewrite app_nil_r. }
  rewrite w_le_S. intros [Hg Hd]%IH. apply w_u8_good in Hg as [Hg Hd']. split; [done|].
  cbn [le_bytes]. by rewrite Hd, Hd', <-(assoc_L (++)), div_shift.
Qed.

Lemma w_le_writes k i v : writes (w_le k i v) (le_bytes k (v / 2 ^ (8 * i))).
Proof.
  revert i. induction k as [|k IH]; intros i w Hg Hs.
  { simpl. by rewrite app_nil_r. }
  cbn [le_bytes] in *. unfold size in Hs. cbn [length] in Hs. cbn [sink_data byte_sink] in Hs.
  destruct (w_u8_room (v / 2 ^ (8 * i) mod 256) w Hg) as [Hg' Hd']; [unfold size; lia|].
  destruct (IH (i + 1)%N (w_u8 (v / 2 ^ (8 * i) mod 256) w) Hg') as [Hg2 Hd2].
  { cbn [sink_data byte_sink]. rewrite Hd'. unfold size. rewrite length_app, <-div_shift. simpl. lia. }
  rewrite w_le_S. split; [done|]. rewrite Hd2. cbn [sink_data byte_sink].
  by rewrite Hd', <-(assoc_L (++)), div_shift.
Qed.

Lemma lor_shift a b n : (a < 2 ^ n)%N → N.lor a (N.shiftl b n) = (a + b * 2 ^ n)%N.
Proof.
  intros Ha. rewrite <-N.shiftl_mul_pow2, N.add_nocarry_lxor, N.lxor_lor; [done|..].
  all: apply N.bits_inj; intros m; rewrite N.land_spec, N.bits_0;
    destruct (N.lt_ge_cases m n) as [Hm|Hm].
  all: try by rewrite N.shiftl_spec_low, andb_false_r.
  all: rewrite <-(N.mod_small a (2 ^ n)) by done; by rewrite N.mod_pow2_bits_high.
Qed.

Lemma r_le_app k i v bs rest :
  length bs = k → (v < 2 ^ (8 * i))%N →
  r_le k i v (reader_of (bs ++ rest)) = (Some (v + 2 ^ (8 * i) * le_value bs)%N, reader_of rest).
Proof.
  revert i v bs. induction k as [|k IH]; intros i v bs Hl Hv.
  { apply length_zero_iff_nil in Hl as ->. simpl. by rewrite N.mul_0_r, N.add_0_r. }
  destruct bs as [|c bs]; [done|]. injection Hl as Hl. cbn [r_le app le_value].
  unfold mbind, Rd_bind. rewrite r_u8_cons, (N.mul_comm i), lor_shift by done.
  pose proof (code_lt c). assert (2 ^ (8 * (i + 1)) = 256 * 2 ^ (8 * i))%N as E.
  { replace (8 * (i + 1))%N with (8 + 8 * i)%N by lia. by rewrite N.pow_add_r. }
  rewrite IH; [do 2 f_equal; rewrite E; nia|done|rewrite E; nia].
Qed.

Lemma r_le_Some k i v data value r :
  (v < 2 ^ (8 * i))%N → r_le k i v (reader_of data) = (Some value, r) →
  ∃ bs rest, data = bs ++ rest ∧ length bs = k ∧ r = reader_of rest ∧
    value = (v + 2 ^ (8 * i) * le_value bs)%N.
Proof.
  intros Hv Hr. destruct (decide (k ≤ length data)) as [Hk|Hk].
  - rewrite <-(take_drop k data), r_le_app in Hr by (rewrite ?length_take; lia || done).
    injection Hr as <- <-. exists (take k data), (drop k data).
    rewrite take_drop, length_take. split_and!; [done|lia|done..].
  - exfalso. clear Hv. revert i v data Hr Hk.
    induction k as [|k IH]; intros i v data Hr Hk; [lia|].
    apply Rd_bind_Some in Hr as (b&r1&(c&rest&->&->&->)%r_u8_Some&Hr).
    apply IH in Hr; [done|]. simpl in Hk. lia.
Qed.

Lemma codec_le k :
  Codec (w_le k 0) (r_le k 0 0) (fits (8 * N.of_nat k)) k.
Proof.
  assert (∀ v, fits (8 * N.of_nat k) v ↔ (v < 256 ^ N.of_nat k)%N) as Hf.
  { intros v. unfold fits. by rewrite N.pow_mul_r. }
  split.
  - intros v w Hv%Hf [Hg Hd]%w_le_good. split; [done|]. exists (le_bytes k v).
    rewrite N.mul_0_r, N.pow_0_r, N.div_1_r in Hd.
    split_and!; [by rewrite length_le_bytes|done|]. intros rest. setoid_rewrite r_le_app;
      [|apply length_le_bytes|done].
    rewrite le_value_bytes by done. do 2 f_equal. rewrite N.mul_0_r, N.pow_0_r. lia.
  - intros data v r (bs&rest&->&Hl&->&->)%r_le_Some; [|done].
    rewrite N.mul_0_r, N.pow_0_r, N.mul_1_l, N.add_0_l. split.
    + apply Hf. rewrite <-Hl. apply le_value_lt.
    + exists bs, rest. split_and!; [done..|].
      pose proof (w_le_writes k 0 (le_value bs)) as Hw.
      rewrite N.mul_0_r, N.pow_0_r, N.div_1_r, <-Hl, le_bytes_value in Hw. by rewrite <-Hl.
Qed.

#[global] Instance codec_u16 : Codec w_u16 r_u16 (fits 16) 2 := codec_le 2.
#[global] Instance codec_u32 : Codec w_u32 r_u32 (fits 32) 4 := codec_le 4.
#[global] Instance codec_u64 : Codec w_u64 r_u64 (fits 64) 8 := codec_le 8.

(** ** Codecs through a partial inverse *)

(** A read that interprets what another read yields and fails when it cannot. *)
Lemma codec_partial {W R} `{!Sink W} `{!Source R} {A B} (wr : A → W → W) (rd : Rd R A) ok n
    `{!Codec wr rd ok n} (g : B → A) (p : A → option B) (rd' : Rd R B) (ok' : B → Prop) :
  (∀ r, match rd r with
        | (Some a, r1) => match p a with
                          | Some b => rd' r = (Some b, r1)
                          | None => fst (rd' r) = None
                          end
        | (None, _) => fst (rd' r) = None
        end) →
  (∀ b, ok' b → ok (g b) ∧ p (g b) = Some b) →
  (∀ a b, ok a → p a = Some b → ok' b ∧ a = g b) →
  Codec (λ b, wr (g b)) rd' ok' n.
Proof.
  intros Hrd Hg Hp. split.
  - intros b w Hb Hw. destruct (Hg b Hb) as [Ho Hpb].
    destruct (codec_emits _ (g b) w Ho Hw) as (?&bs&?&?&Hr). split; [done|]. exists bs.
    split_and!; [done..|]. intros rest. specialize (Hrd (start (bs ++ rest))).
    rewrite Hr, Hpb in Hrd. done.
  - intros data b r Hr. specialize (Hrd (start data)). rewrite Hr in Hrd.
    destruct (rd (start data)) as [[a|] r1] eqn:E; [|done]. destruct (p a) as [b'|] eqn:Epb; [|done].
    injection Hrd as <- <-. destruct (codec_consumed _ data a r E) as [Ho Hc].
    destruct (Hp a b Ho Epb) as [Hb ->]. done.
Qed.

Lemma codec_iso {W R} `{!Sink W} `{!Source R} {A B} (wr : A → W → W) (rd : Rd R A) ok n
    `{!Codec wr rd ok n} (g : B → A) (f : A → B) (ok' : B → Prop) :
  (∀ b, ok' b → ok (g b) ∧ f (g b) = b) → (∀ a, ok a → ok' (f a) ∧ g (f a) = a) →
  Codec (λ b, wr (g b)) (x ← rd; mret (f x)) ok' n.
Proof.
  intros Hg Hf. apply (codec_partial wr rd ok n g (λ a, Some (f a))).
  - intros r. unfold mbind, Rd_bind. by destruct (rd r) as [[]].
  - intros b Hb. destruct (Hg b Hb). split; [done|]. by f_equal.
  - intros a b Ha [= <-]. destruct (Hf a Ha). done.
Qed.

#[global] Instance codec_boolean : Codec w_boolean r_boolean always 1.
Proof.
  apply (codec_partial w_u8 r_u8 (fits 8) 1 (λ b : bool, if b then 1 else 0)%N
    (λ v, if (1 <? v)%N then None else Some (v =? 1)%N)).
  - intros r. unfold r_boolean. destruct (r_u8 r) as [[v|] r1]; [|done]. by destruct (1 <? v)%N.
  - intros [] _; done.
  - intros v b _. destruct (N.ltb_spec 1 v); [done|]. intros [= <-]. split; [done|].
    destruct (N.eqb_spec v 1); lia.
Qed.

Lemma i64_u64 z : in_i64 z = true → i64_of_u64 (u64_of_i64 z) = z.
Proof.
  unfold in_i64, i64_min, i64_max, i64_of_u64, u64_of_i64. intros Hz. split_bools.
  rewrite ?Z.leb_le in *.
  pose proof (Z.mod_pos_bound z 18446744073709551616 ltac:(lia)).
  destruct (Z.le_gt_cases 0 z).
  - rewrite Z.mod_small by lia. destruct (N.ltb_spec (Z.to_N z) 9223372036854775808); lia.
  - replace (z mod 18446744073709551616)%Z with (z + 18446744073709551616)%Z.
    + destruct (N.ltb_spec (Z.to_N (z + 18446744073709551616)) 9223372036854775808); lia.
    + rewrite <-(Z.mod_small (z + 18446744073709551616) 18446744073709551616) by lia.
      replace (z + 18446744073709551616)%Z with (z + 1 * 18446744073709551616)%Z by lia.
      by rewrite Z.mod_add.
Qed.

Lemma u64_i64 v : fits 64 v → in_i64 (i64_of_u64 v) = true ∧ u64_of_i64 (i64_of_u64 v) = v.
Proof.
  unfold fits, in_i64, i64_min, i64_max, i64_of_u64, u64_of_i64.
  change (2 ^ 64)%N with 18446744073709551616%N. intros Hv.
  rewrite andb_true_iff, !Z.leb_le. destruct (N.ltb_spec v 9223372036854775808); (split; [lia|]).
  - rewrite Z.mod_small; lia.
  - rewrite <-(Z.mod_add _ 1) by lia. rewrite Z.mod_small; lia.
Qed.

Definition is_i64 (z : Z) : Prop := in_i64 z = true.

#[global] Instance codec_i64 : Codec w_i64 r_i64 is_i64 8.
Proof.
  apply (codec_iso w_u64 r_u64 (fits 64) 8 u64_of_i64 i64_of_u64).
  - intros z Hz. split; [|by apply i64_u64]. unfold fits, u64_of_i64.
    pose proof (Z.mod_pos_bound z 18446744073709551616 ltac:(lia)).
    change (2 ^ 64)%N with 18446744073709551616%N. lia.
  - intros v Hv. by apply u64_i64.
Qed.

Definition is_double (d : double) : Prop := fits 64 (dbl_bits d).

#[global] Instance codec_f64 : Codec w_f64 r_f64 is_double 8.
Proof. by apply (codec_iso w_u64 r_u64 (fits 64) 8 dbl_bits MkDouble); [intros []|]. Qed.

(** ** Length-prefixed bytes *)

Lemma kMax_u32 n : (n <= kMaxEncodedStringBytes)%N → fits 32 n.
Proof. unfold kMaxEncodedStringBytes, fits. lia. Qed.

Lemma w_bytes_good v w :
  bw_ok (w_bytes v w) = true →
  bw_ok w = true ∧ (size v <= kMaxEncodedStringBytes)%N ∧
  bw_ok (w_u32 (size v) w) = true ∧ bw_data (w_bytes v w) = bw_data (w_u32 (size v) w) ++ v.
Proof.
  unfold w_bytes. destruct (bw_ok w) eqn:Hg; cbn [negb]; [|intros; congruence].
  destruct (N.ltb_spec kMaxEncodedStringBytes (size v)); [by rewrite bw_fail_bad|].
  destruct (bw_ok (w_u32 (size v) w)) eqn:Hg'; cbn [negb orb]; [|intros; congruence].
  case_bool_decide; [subst; by rewrite app_nil_r|].
  destruct (_ <? _)%N; [by rewrite bw_fail_bad|]. done.
Qed.

Lemma r_bytes_app (v rest : bytes) l :
  r_u32 l = (Some (size v), reader_of (v ++ rest)) → (size v <= kMaxEncodedStringBytes)%N →
  r_bytes l = (Some v, reader_of rest).
Proof.
  intros Hl Hs. unfold r_bytes. rewrite Hl.
  rewrite (proj2 (N.ltb_ge _ _)) by done. unfold remaining, size. cbn [br_rest reader_of].
  rewrite (proj2 (N.ltb_ge _ _)) by (rewrite length_app; lia).
  rewrite Nat2N.id, take_app_length, drop_app_length. done.
Qed.

#[global] Instance codec_bytes : Codec w_bytes r_bytes always 4.
Proof.
  split.
  - intros v w _ (Hg&Hs&Hg'&Hd)%w_bytes_good. split; [done|].
    destruct (codec_emits codec_u32 (size v) w (kMax_u32 _ Hs) Hg') as (_&bs&Hn&Hd'&Hr).
    exists (bs ++ v). rewrite length_app. split_and!; [lia|..].
    + cbn [sink_data byte_sink] in *. by rewrite Hd, Hd', (assoc_L (++)).
    + intros rest. apply r_bytes_app; [|done]. rewrite <-(assoc_L (++)). apply Hr.
  - intros data v r Hr. split; [done|]. unfold r_bytes in Hr.
    destruct (r_u32 (start data)) as [[n|] r1] eqn:E; [|done].
    destruct (codec_consumed codec_u32 _ _ _ E) as [_ (bs&rest&->&->&Hw)].
    destruct (N.ltb_spec kMaxEncodedStringBytes n) as [|Hn]; [done|].
    destruct (N.ltb_spec (remaining (start rest)) n) as [|Hrem]; [done|].
    injection Hr as <- <-. unfold remaining, size in Hrem. cbn [start byte_source br_rest reader_of] in *.
    exists (bs ++ take (N.to_nat n) rest), (drop (N.to_nat n) rest).
    split_and!; [by rewrite <-(assoc_L (++)), take_drop|done|].
    intros w Hg Hs. unfold size in Hs. rewrite length_app, length_take in Hs.
    cbn [sink_good sink_data byte_sink] in *.
    assert (size (take (N.to_nat n) rest) = n) as En by (unfold size; rewrite length_take; lia).
    destruct (Hw w Hg) as [Hg' Hd']; [unfold size; simpl; lia|].
    unfold w_bytes. rewrite Hg, En. cbn [negb]. rewrite (proj2 (N.ltb_ge _ _)) by done.
    cbn [sink_good sink_data byte_sink] in *. rewrite Hg'. cbn [negb orb].
    case_bool_decide as Hnil; [by rewrite Hnil, app_nil_r|].
    rewrite (proj2 (N.ltb_ge _ _)) by (rewrite Hd'; unfold size; rewrite length_app; lia).
    split; [done|]. cbn [bw_data upd upd_bw_data]. by rewrite Hd', (assoc_L (++)).
Qed.

#[global] Instance codec_text : Codec w_text r_text always 4.
Proof.
  apply (codec_iso w_bytes r_bytes always 4 (λ s, chars s) (λ l, of_chars l)).
  - intros s _. split; [done|]. apply chars_inj, chars_of_chars.
  - intros l _. split; [done|]. apply chars_of_chars.
Qed.
