(* ===== verification/WireStream.v ===== *)
(** * Wire streams

    The bounded helpers of [src/protocol.cpp] that every message codec is built
    from: [WireWriter] adds to the byte writer the one failure it cannot express,
    a count above its bound, and [WireReader] remembers the first field that was
    rejected and why.  Each pair of helpers is an instance of [Codec]. *)

From Stdlib Require Import NArith ZArith Lia.
From S2P Require Import Prelude Identity Counter Taxonomy Evidence Types Wire Codec.

(** ** Bounds *)

Definition kProtocolVersion : N := 1.

Definition kMaxEvidenceProvenanceRaw : N := 6.
Definition kMaxFreshnessRaw : N := 3.
Definition kMaxClusterLifecycleRaw : N := 7.
Definition kMaxRackMembershipStateRaw : N := 4.
Definition kMaxRackLifecycleStateRaw : N := 6.
Definition kMaxRackCurrentnessRaw : N := 3.
Definition kMaxFailureDomainClassRaw : N := 9.
Definition kMaxPlacementDomainClassRaw : N := 7.
Definition kMaxCapacityDomainClassRaw : N := 5.
Definition kMaxConnectivityClassRaw : N := 5.
Definition kMaxLinkDirectionRaw : N := 2.
Definition kMaxReachabilityRaw : N := 3.
Definition kMaxBandwidthClassRaw : N := 4.
Definition kMaxLatencyClassRaw : N := 4.
Definition kMaxAcceleratorVendorRaw : N := 4.
Definition kMaxHealthStateRaw : N := 3.
Definition kMaxConstraintKindRaw : N := 5.
Definition kMaxErrorCategoryRaw : N := 10.
Definition kMaxErrorStageRaw : N := 13.
Definition kMaxMutationKindRaw : N := 25.
Definition kMaxMutationOutcomeRaw : N := 3.
Definition kMaxRejectionReasonRaw : N := 21.
Definition kMaxSnapshotStaleReasonRaw : N := 24.

Definition kMaxRequiredPlacementClasses : N := kMaxPlacementDomainClassRaw + 1.
Definition kMaxRequiredFailureClasses : N := kMaxFailureDomainClassRaw + 1.
Definition kMaxStaleReasons : N := kMaxSnapshotStaleReasonRaw + 1.
Definition kMaxDecodedRecords : N := 262144.

(** ** Writer context *)

Record WireWriter := MkWireWriter { ww_writer : ByteWriter; ww_ok : bool }.

#[global] Instance eta_WireWriter : Eta WireWriter := λ r, MkWireWriter (ww_writer r) (ww_ok r).
#[global] Instance upd_ww_writer : Upd ww_writer := ltac:(derive_upd).
#[global] Instance upd_ww_ok : Upd ww_ok := ltac:(derive_upd).

Definition good (w : WireWriter) : bool := ww_ok w && bw_ok (ww_writer w).
Definition reject (w : WireWriter) : WireWriter := w <| ww_ok := false |>.

(** A call of a [w.writer] operation. *)
Definition on_writer (f : ByteWriter → ByteWriter) (w : WireWriter) : WireWriter :=
  w <| ww_writer := f (ww_writer w) |>.

Definition write_u64 (value : N) : WireWriter → WireWriter := on_writer (w_u64 value).
Definition write_u16 (value : N) : WireWriter → WireWriter := on_writer (w_u16 value).
Definition write_bool (value : bool) : WireWriter → WireWriter := on_writer (w_boolean value).
Definition write_text (value : string) : WireWriter → WireWriter := on_writer (w_text value).
Definition write_i64 (value : Z) : WireWriter → WireWriter := on_writer (w_i64 value).

Definition write_enum {E} `{Enum E} (value : E) : WireWriter → WireWriter :=
  on_writer (w_u8 (raw value)).

Definition write_identity {tag} (value : StrongId tag) : WireWriter → WireWriter :=
  write_text (id_value value).

Definition write_counter {tag} (value : StrongCounter tag) : WireWriter → WireWriter :=
  write_u64 (ctr value).

Definition write_timestamp (value : Timestamp) : WireWriter → WireWriter :=
  write_i64 (unix_millis value).

(** The presence marker, then the value when there is one. *)
Definition write_optional {A} (write_one : A → WireWriter → WireWriter) (value : option A)
    (w : WireWriter) : WireWriter :=
  let w := on_writer (w_optional_present (bool_decide (is_Some value))) w in
  match value with
  | Some a => write_one a w
  | None => w
  end.

Definition write_optional_identity {tag} (value : option (StrongId tag)) :=
  write_optional write_identity value.
Definition write_optional_counter {tag} (value : option (StrongCounter tag)) :=
  write_optional write_counter value.
Definition write_optional_u32 (value : option N) :=
  write_optional (λ v, on_writer (w_u32 v)) value.
Definition write_optional_u64 (value : option N) :=
  write_optional (λ v, on_writer (w_u64 v)) value.
Definition write_optional_f64 (value : option double) :=
  write_optional (λ v, on_writer (w_f64 v)) value.
Definition write_optional_record {A} (write_one : A → WireWriter → WireWriter)
    (value : option A) := write_optional write_one value.

Definition write_count (count bound : N) (w : WireWriter) : WireWriter :=
  if negb (good w) then w else
  if (bound <? count)%N then reject w else on_writer (w_u32 count) w.

(** The loop of [write_vector]: it stops at the first failure. *)
Fixpoint write_each {A} (write_one : A → WireWriter → WireWriter) (values : list A)
    (w : WireWriter) : WireWriter :=
  match values with
  | [] => w
  | value :: values =>
      let w := write_one value w in
      if negb (good w) then w else write_each write_one values w
  end.

Definition write_vector {A} (bound : N) (write_one : A → WireWriter → WireWriter)
    (values : list A) (w : WireWriter) : WireWriter :=
  let w := write_count (size values) bound w in
  if negb (good w) then w else write_each write_one values w.

Definition write_identity_vector {tag} (bound : N) (values : list (StrongId tag))
    (w : WireWriter) : WireWriter :=
  let w := write_count (size values) bound w in
  if negb (good w) then w else foldl (λ w value, write_identity value w) w values.

(** The bytes of the enumerators of a list, given by their underlying values. *)
Definition write_raw_vector (bound : N) (values : list N) (w : WireWriter) : WireWriter :=
  let w := write_count (size values) bound w in
  if negb (good w) then w else foldl (λ w value, on_writer (w_u8 value) w) w values.

Definition write_enum_vector {E} `{Enum E} (bound : N) (values : list E) :
    WireWriter → WireWriter := write_raw_vector bound (raw <$> values).

Definition write_version_tag : WireWriter → WireWriter := on_writer (w_u16 kProtocolVersion).

(** ** Reader context *)

Record WireReader := MkWireReader {
  wr_reader : ByteReader;
  wr_status : ProtocolStatus;
  wr_field : string
}.

#[global] Instance eta_WireReader : Eta WireReader := λ r,
  MkWireReader (wr_reader r) (wr_status r) (wr_field r).
#[global] Instance upd_wr_reader : Upd wr_reader := ltac:(derive_upd).
#[global] Instance upd_wr_status : Upd wr_status := ltac:(derive_upd).
#[global] Instance upd_wr_field : Upd wr_field := ltac:(derive_upd).

Definition fail_field (status : ProtocolStatus) (name : string) (w : WireReader) : WireReader :=
  let w := if decide (wr_status w = Wire_Ok)
           then w <| wr_status := status |> <| wr_field := name |> else w in
  w <| wr_reader := mark_invalid status (wr_reader w) |>.

Abbreviation WRead := (Rd WireReader).

(** A call of a [w.reader] operation: a failed read names its field. *)
Definition field {A} (m : Read A) (name : string) : WRead A := λ w,
  match m (wr_reader w) with
  | (Some value, r) => (Some value, w <| wr_reader := r |>)
  | (None, r) => (None, fail_field (br_status r) name (w <| wr_reader := r |>))
  end.

Definition read_u8 : string → WRead N := field r_u8.
Definition read_u16 : string → WRead N := field r_u16.
Definition read_u32 : string → WRead N := field r_u32.
Definition read_u64 : string → WRead N := field r_u64.
Definition read_i64 : string → WRead Z := field r_i64.
Definition read_f64 : string → WRead double := field r_f64.
Definition read_bool : string → WRead bool := field r_boolean.
Definition read_string : string → WRead string := field r_text.

(** A check of a value that was read. *)
Definition checked {A B} (m : WRead A) (check : A → option B) (status : ProtocolStatus)
    (name : string) : WRead B := λ w,
  match m w with
  | (Some a, w) => match check a with
                   | Some b => (Some b, w)
                   | None => (None, fail_field status name w)
                   end
  | (None, w) => (None, w)
  end.

(** [std::size_t] has 64 bits. *)
Definition u64_fits_size_t (value : N) : bool := (value <=? u64_max)%N.

Definition read_size (name : string) : WRead N :=
  checked (read_u64 name) (λ v, if u64_fits_size_t v then Some v else None) Wire_AbsurdLength name.

Definition read_present (name : string) : WRead bool :=
  checked (read_u8 name) (λ marker, if (1 <? marker)%N then None else Some (marker =? 1)%N)
    Wire_MalformedPayload name.

(** The underlying value of an enumerator. *)
Definition read_raw (max_raw : N) (name : string) : WRead N :=
  checked (read_u8 name) (λ v, if (max_raw <? v)%N then None else Some v) Wire_InvalidEnum name.

(** An enumerator: [static_cast] of an underlying value that has one. *)
Definition read_enum {E} `{Enum E} (max_raw : N) (name : string) : WRead E :=
  checked (read_u8 name) (λ v, if (max_raw <? v)%N then None else of_raw v) Wire_InvalidEnum name.

Definition read_identity_value {tag} (name : string) : WRead (StrongId tag) :=
  checked (read_string name) parse_id Wire_InvalidIdentity name.

Definition read_optional {A} (read_one : string → WRead A) (name : string) : WRead (option A) :=
  present ← read_present name;
  if (present : bool) then value ← read_one name; mret (Some value) else mret None.

Definition read_counter {tag} (name : string) : WRead (StrongCounter tag) :=
  value ← read_u64 name; mret (MkCtr value).

Definition read_timestamp (name : string) : WRead Timestamp :=
  value ← read_i64 name; mret (MkTs value).

Definition read_optional_identity {tag} : string → WRead (option (StrongId tag)) :=
  read_optional read_identity_value.
Definition read_optional_counter {tag} : string → WRead (option (StrongCounter tag)) :=
  read_optional read_counter.
Definition read_optional_u32 : string → WRead (option N) := read_optional read_u32.
Definition read_optional_u64 : string → WRead (option N) := read_optional read_u64.
Definition read_optional_f64 : string → WRead (option double) := read_optional read_f64.
Definition read_optional_record {A} (read_one : string → WRead A) (name : string) :
    WRead (option A) := read_optional read_one name.

Definition read_count (bound : N) (name : string) : WRead N := λ w,
  match read_u32 name w with
  | (None, w) => (None, w)
  | (Some count, w) =>
      if (bound <? count)%N then (None, fail_field Wire_AbsurdLength name w) else
      if (remaining (wr_reader w) <? count)%N then (None, fail_field Wire_AbsurdLength name w) else
      (Some count, w)
  end.

Fixpoint read_each {A} (count : nat) (read_one : WRead A) : WRead (list A) :=
  match count with
  | O => mret []
  | S count => entry ← read_one; rest ← read_each count read_one; mret (entry :: rest)
  end.

Definition read_vector {A} (bound : N) (name : string) (read_one : string → WRead A) :
    WRead (list A) :=
  count ← read_count bound name; read_each (N.to_nat count) (read_one name).

Definition read_identity_vector {tag} (bound : N) (name : string) : WRead (list (StrongId tag)) :=
  read_vector bound name read_identity_value.
Definition read_enum_vector {E} `{Enum E} (max_raw bound : N) (name : string) : WRead (list E) :=
  read_vector bound name (read_enum max_raw).
Definition read_raw_vector (max_raw bound : N) (name : string) : WRead (list N) :=
  read_vector bound name (read_raw max_raw).
Definition read_string_vector (bound : N) (name : string) : WRead (list string) :=
  read_vector bound name read_string.

Definition read_version_tag (name : string) : WRead unit :=
  checked (read_u16 name) (λ v, if (v =? kProtocolVersion)%N then Some () else None)
    Wire_UnsupportedVersion name.

(** ** Codecs of the helpers *)

#[global] Instance wire_sink : Sink WireWriter :=
  {| sink_data := λ w, bw_data (ww_writer w); sink_good := good |}.
#[global] Instance wire_source : Source WireReader :=
  {| start := λ data, MkWireReader (reader_of data) Wire_Ok "" |}.

Lemma codec_on_writer {A} (wr : A → ByteWriter → ByteWriter) (rd : Read A) ok n name :
  Codec wr rd ok n → Codec (λ a, on_writer (wr a)) (field rd name) ok n.
Proof.
  intros Hc. split.
  - intros a w Ha Hg. cbn [sink_good wire_sink] in *. unfold good, on_writer in Hg.
    cbn [ww_ok ww_writer upd upd_ww_writer] in Hg. apply andb_true_iff in Hg as [Ho Hg].
    destruct (codec_emits Hc a (ww_writer w) Ha Hg) as (Hg0&bs&Hn&Hd&Hr).
    unfold good. cbn [sink_good byte_sink] in Hg0. rewrite Ho, Hg0. split; [done|]. exists bs.
    split_and!; [done..|]. intros rest. unfold field. cbn [start wire_source wr_reader].
    setoid_rewrite Hr. done.
  - intros data a r Hr. unfold field in Hr. cbn [start wire_source wr_reader] in Hr.
    destruct (rd (reader_of data)) as [[v|] r1] eqn:E; [|done]. injection Hr as -> <-.
    destruct (codec_consumed Hc data a r1 E) as [Ha (bs&rest&->&->&Hw)]. split; [done|].
    exists bs, rest. split_and!; [done..|]. intros w Hg Hs.
    cbn [sink_good sink_data wire_sink] in *. unfold good in *. apply andb_true_iff in Hg as [Ho Hg].
    destruct (Hw (ww_writer w) Hg Hs) as [Hg' Hd']. unfold on_writer.
    cbn [ww_ok ww_writer upd upd_ww_writer]. cbn [sink_good byte_sink] in Hg'.
    by rewrite Ho, Hg'.
Qed.

Lemma codec_checked {A B} (wr : A → WireWriter → WireWriter) (rd : WRead A) ok n
    `{!Codec wr rd ok n} (g : B → A) (check : A → option B) status name (ok' : B → Prop) :
  (∀ b, ok' b → ok (g b) ∧ check (g b) = Some b) →
  (∀ a b, ok a → check a = Some b → ok' b ∧ a = g b) →
  Codec (λ b, wr (g b)) (checked rd check status name) ok' n.
Proof.
  intros Hg Hc. apply (codec_partial wr rd ok n g check); [|done..].
  intros r. unfold checked. destruct (rd r) as [[a|] r1]; [|done]. by destruct (check a).
Qed.

Section instances.
  Context (name : string).

#[global] Instance codec_write_u8 : Codec (λ v, on_writer (w_u8 v)) (read_u8 name) (fits 8) 1.
Proof. apply codec_on_writer, _. Qed.
#[global] Instance codec_write_u16 : Codec write_u16 (read_u16 name) (fits 16) 2.
Proof. apply codec_on_writer, _. Qed.
#[global] Instance codec_write_u32 : Codec (λ v, on_writer (w_u32 v)) (read_u32 name) (fits 32) 4.
Proof. apply codec_on_writer, _. Qed.
#[global] Instance codec_write_u64 : Codec write_u64 (read_u64 name) (fits 64) 8.
Proof. apply codec_on_writer, _. Qed.
#[global] Instance codec_write_i64 : Codec write_i64 (read_i64 name) is_i64 8.
Proof. apply codec_on_writer, _. Qed.
#[global] Instance codec_write_f64 : Codec (λ v, on_writer (w_f64 v)) (read_f64 name) is_double 8.
Proof. apply codec_on_writer, _. Qed.
#[global] Instance codec_write_bool : Codec write_bool (read_bool name) always 1.
Proof. apply codec_on_writer, _. Qed.
#[global] Instance codec_write_text : Codec write_text (read_string name) always 4.
Proof. apply codec_on_writer, _. Qed.

#[global] Instance codec_write_size : Codec write_u64 (read_size name) (fits 64) 8.
Proof.
  apply (codec_checked write_u64 (read_u64 name) (fits 64) 8 (λ v, v)).
  - intros v Hv. split; [done|]. unfold u64_fits_size_t. rewrite (proj2 (N.leb_le _ _)); [done|].
    unfold fits, u64_max in *. lia.
  - intros a b Ha. destruct (u64_fits_size_t a); naive_solver.
Qed.

Definition known_id {tag} (i : StrongId tag) : Prop := is_valid_id (id_value i) = true.

#[global] Instance codec_write_identity {tag} :
  Codec (write_identity (tag:=tag)) (read_identity_value name) known_id 4.
Proof.
  apply (codec_checked write_text (read_string name) always 4 id_value parse_id).
  - intros [v] Hv. split; [done|]. by apply parse_id_Some.
  - intros s i _ [Hv ->]%parse_id_Some. done.
Qed.

Definition counter_fits {tag} (c : StrongCounter tag) : Prop := fits 64 (ctr c).

#[global] Instance codec_write_counter {tag} :
  Codec (write_counter (tag:=tag)) (read_counter name) counter_fits 8.
Proof.
  refine (codec_iso write_u64 (read_u64 name) (fits 64) 8 ctr (MkCtr (tag:=tag)) counter_fits _ _).
  - intros [v] Hv. split; [exact Hv|reflexivity].
  - intros v Hv. split; [exact Hv|reflexivity].
Qed.

Definition timestamp_fits (t : Timestamp) : Prop := is_i64 (unix_millis t).

#[global] Instance codec_write_timestamp :
  Codec write_timestamp (read_timestamp name) timestamp_fits 8.
Proof.
  apply (codec_iso write_i64 (read_i64 name) is_i64 8 unix_millis MkTs).
  - intros [v] Hv. split; [exact Hv|reflexivity].
  - intros v Hv. split; [exact Hv|reflexivity].
Qed.

#[global] Instance codec_write_present :
  Codec (λ b, on_writer (w_optional_present b)) (read_present name) always 1.
Proof.
  apply (codec_checked (λ v, on_writer (w_u8 v)) (read_u8 name) (fits 8) 1
    (λ b : bool, if b then 1 else 0)%N).
  - intros [] _; done.
  - intros v b _. destruct (N.ltb_spec 1 v); [done|]. intros [= <-]. split; [done|].
    destruct (N.eqb_spec v 1); lia.
Qed.

Lemma codec_write_raw max_raw :
  (max_raw < 256)%N →
  Codec (λ v, on_writer (w_u8 v)) (read_raw max_raw name) (λ v, (v <= max_raw)%N) 1.
Proof.
  intros Hm. apply (codec_checked (λ v, on_writer (w_u8 v)) (read_u8 name) (fits 8) 1 (λ v, v)).
  - intros v Hv. split; [unfold fits; change (2 ^ 8)%N with 256%N; lia|].
    by rewrite (proj2 (N.ltb_ge _ _)).
  - intros a b _. destruct (N.ltb_spec max_raw a); naive_solver.
Qed.

(** The declared maximum of an enumeration is its last enumerator. *)
Class MaxRaw (E : Type) `{Enum E} (max_raw : N) :=
  max_raw_last : size (enumerators (E:=E)) = (max_raw + 1)%N ∧ (max_raw < 256)%N.

#[global] Instance codec_write_enum {E} `{Enum E} max_raw `{!MaxRaw E max_raw} :
  Codec (write_enum (E:=E)) (read_enum max_raw name) always 1.
Proof.
  destruct max_raw_last as [Hs Hm].
  apply (codec_checked (λ v, on_writer (w_u8 v)) (read_u8 name) (fits 8) 1 raw).
  - intros e _. pose proof (raw_lt e). split; [unfold fits; change (2 ^ 8)%N with 256%N; lia|].
    rewrite (proj2 (N.ltb_ge _ _)) by lia. apply of_raw_raw.
  - intros v e _. destruct (_ <? _)%N; [done|]. intros He%of_raw_Some. done.
Qed.
End instances.

(** ** Optional values and vectors *)

Class FitsU32 (n : N) := fits_u32 : fits 32 n.
#[global] Hint Extern 0 (FitsU32 _) => (vm_compute; reflexivity) : typeclass_instances.
#[global] Hint Extern 0 (MaxRaw _ _) => (split; vm_compute; reflexivity) : typeclass_instances.

Definition opt_ok {A} (ok : A → Prop) (o : option A) : Prop :=
  match o with Some a => ok a | None => True end.

#[global] Instance codec_optional {A} (wr : A → WireWriter → WireWriter) (rd : string → WRead A) ok
    n name :
  Codec wr (rd name) ok n → Codec (write_optional wr) (read_optional rd name) (opt_ok ok) 1.
Proof.
  intros Hc. split.
  - intros [a|] w Ha.
    + apply (emits_weaken (1 + (n + 0))); [|lia].
      eapply emits_bind; [by apply (codec_emits (codec_write_present name) true)|].
      eapply emits_bind; [by apply (codec_emits Hc)|apply emits_ret].
    + apply (emits_weaken (1 + 0)); [|lia].
      eapply emits_bind; [by apply (codec_emits (codec_write_present name) false)|apply emits_ret].
  - intros data o r (b&r1&H1&Hr)%Rd_bind_Some.
    destruct (codec_consumed (codec_write_present name) _ _ _ H1) as [_ Hp].
    destruct (consumed_start _ _ _ Hp) as [rest ->]. destruct b.
    + apply Rd_bind_Some in Hr as (a&r2&H2&[-> ->]%Rd_ret_Some).
      destruct (codec_consumed Hc _ _ _ H2) as [Ha Hca]. split; [done|].
      apply (consumed_ext _ _ (steps [on_writer (w_optional_present true); wr a])); [done|].
      eapply consumed_cons; [done|]. intros rest' [= <-]. by apply consumed_one.
    + apply Rd_ret_Some in Hr as [-> ->]. split; [done|].
      apply (consumed_ext _ _ (steps [on_writer (w_optional_present false)])); [done|].
      by apply consumed_one.
Qed.

Section vector.
  Context {A : Type} (wr : A → WireWriter → WireWriter) (rd : WRead A) (ok : A → Prop) (n : nat).
  Context `{!Codec wr rd ok (S n)}.
  Context (loop : list A → WireWriter → WireWriter).
  Hypothesis loop_nil : ∀ w, loop [] w = w.
  Hypothesis loop_cons : ∀ a l w, good (loop (a :: l) w) = true → good (wr a w) = true.
  Hypothesis loop_step : ∀ a l w, good (wr a w) = true → loop (a :: l) w = loop l (wr a w).

Lemma loop_emits l w : Forall ok l → emits (List.length l) w (loop l w) (read_each (length l) rd) l.
Proof using All.
  intros Hl. revert w. induction Hl as [|a l Ha Hl IH]; intros w.
  - rewrite loop_nil. apply emits_ret.
  - intros Hg. assert (good (wr a w) = true) as Hg1 by (by apply (loop_cons a l)).
    revert Hg. rewrite loop_step by done.
    apply (emits_weaken (S n + (length l + 0))); [|simpl; lia].
    eapply emits_bind; [by apply (codec_emits _)|].
    eapply emits_bind; [apply IH|apply emits_ret].
Qed.

Lemma loop_consumed count data l r :
  read_each count rd (start data) = (Some l, r) →
  Forall ok l ∧ length l = count ∧ consumed data r (loop l).
Proof using All.
  revert data l. induction count as [|count IH]; intros data l.
  - intros [-> ->]%Rd_ret_Some. split_and!; [done..|]. exists [], data. split_and!; [done..|].
    intros w Hg _. by rewrite loop_nil, app_nil_r.
  - intros (a&r1&H1&(l'&r2&H2&[-> ->]%Rd_ret_Some)%Rd_bind_Some)%Rd_bind_Some.
    destruct (codec_consumed _ _ _ _ H1) as [Ha (bs1&rest1&->&->&Hw1)].
    destruct (IH _ _ H2) as (Hf&Hl&bs2&rest2&->&->&Hw2).
    split_and!; [by constructor|simpl; lia|]. exists (bs1 ++ bs2), rest2.
    split_and!; [by rewrite (assoc_L (++))|done|]. intros w Hg Hs.
    unfold size in *. rewrite length_app in Hs.
    destruct (Hw1 w Hg) as [Hg1 Hd1]; [unfold size; lia|]. rewrite loop_step by done.
    destruct (Hw2 (wr a w) Hg1) as [Hg2 Hd2]; [unfold size; rewrite Hd1, length_app; lia|].
    split; [done|]. by rewrite Hd2, Hd1, (assoc_L (++)).
Qed.

Context (name : string) (bound : N).
Hypothesis bound_fits : fits 32 bound.

Definition with_count (l : list A) (w : WireWriter) : WireWriter :=
  let w := write_count (size l) bound w in if negb (good w) then w else loop l w.

Lemma write_count_good c w :
  good (write_count c bound w) = true →
  good w = true ∧ (c <= bound)%N ∧ write_count c bound w = on_writer (w_u32 c) w.
Proof using.
  unfold write_count. destruct (good w) eqn:Hg; cbn [negb]; [|intros; congruence].
  destruct (N.ltb_spec bound c); [done|]. done.
Qed.

Lemma read_count_Some data c r :
  read_count bound name (start data) = (Some c, r) →
  read_u32 name (start data) = (Some c, r) ∧ (c <= bound)%N.
Proof using.
  unfold read_count. destruct (read_u32 name (start data)) as [[v|] r1]; [|done].
  destruct (N.ltb_spec bound v); [done|]. destruct (_ <? _)%N; [done|]. by intros [= <- <-].
Qed.

Lemma codec_with_count :
  Codec with_count (count ← read_count bound name; read_each (N.to_nat count) rd) (Forall ok) 4.
Proof using All.
  split.
  - intros l w Hl Hg. cbn [sink_good wire_sink] in Hg. unfold with_count in Hg.
    destruct (good (write_count (size l) bound w)) eqn:Hg1; cbn [negb] in Hg; [|congruence].
    destruct (write_count_good _ _ Hg1) as (Hg0&Hb&Ew). unfold with_count. rewrite Hg1. cbn [negb].
    destruct (loop_emits l _ Hl Hg) as (_&bs2&Hn2&Hd2&Hr2).
    assert (fits 32 (size l)) as Hs by (unfold fits in *; lia).
    rewrite Ew in Hg1, Hd2 |- *.
    destruct (codec_emits (codec_write_u32 name) (size l) w Hs Hg1) as (_&bs1&Hn1&Hd1&Hr1).
    split; [done|]. exists (bs1 ++ bs2). rewrite length_app.
    split_and!; [lia|by rewrite Hd2, Hd1, (assoc_L (++))|]. intros rest.
    unfold mbind, Rd_bind, read_count. rewrite <-(assoc_L (++)), Hr1.
    rewrite (proj2 (N.ltb_ge _ _)) by done.
    cbn [start wire_source wr_reader]. unfold remaining. cbn [br_rest reader_of].
    rewrite (proj2 (N.ltb_ge _ _)) by (unfold size in *; rewrite length_app; lia).
    unfold size at 1. rewrite Nat2N.id. apply Hr2.
  - intros data l r (c&r1&[H1 Hb]%read_count_Some&H2)%Rd_bind_Some.
    destruct (codec_consumed (codec_write_u32 name) _ _ _ H1) as [_ (bs1&rest1&->&->&Hw1)].
    destruct (loop_consumed _ _ _ _ H2) as (Hf&Hl&bs2&rest2&->&->&Hw2). split; [done|].
    exists (bs1 ++ bs2), rest2. split_and!; [by rewrite (assoc_L (++))|done|].
    intros w Hg Hs. unfold size in Hs. rewrite length_app in Hs.
    destruct (Hw1 w Hg) as [Hg1 Hd1]; [unfold size; lia|].
    assert (write_count (size l) bound w = on_writer (w_u32 c) w) as Ew.
    { unfold write_count. cbn [sink_good wire_sink] in Hg. rewrite Hg. cbn [negb].
      assert (size l = c) as -> by (unfold size; lia). by rewrite (proj2 (N.ltb_ge _ _)). }
    unfold with_count. rewrite Ew. cbn [sink_good wire_sink] in Hg1 |- *. rewrite Hg1. cbn [negb].
    destruct (Hw2 _ Hg1) as [Hg2 Hd2]; [unfold size; rewrite Hd1, length_app; lia|].
    split; [done|]. by rewrite Hd2, Hd1, (assoc_L (++)).
Qed.
End vector.

#[global] Instance codec_vector {A} (wr : A → WireWriter → WireWriter) (rd : string → WRead A) ok n
    name bound :
  Codec wr (rd name) ok (S n) → FitsU32 bound →
  Codec (write_vector bound wr) (read_vector bound name rd) (Forall ok) 4.
Proof.
  intros Hc Hb. apply (codec_with_count wr (rd name) ok n (write_each wr)); [done|..|done].
  - intros a l w Hg. cbn [write_each] in Hg. destruct (good (wr a w)) eqn:E; [done|].
    cbn [negb] in Hg. congruence.
  - intros a l w Hg. cbn [write_each]. by rewrite Hg.
Qed.

(** A loop that goes on after a failure: what is lost stays lost. *)
Lemma codec_fold_vector {A} (wr : A → WireWriter → WireWriter) (rd : string → WRead A) ok n name
    bound :
  Codec wr (rd name) ok (S n) → (∀ a w, good (wr a w) = true → good w = true) → fits 32 bound →
  Codec (with_count (λ l w, foldl (λ w a, wr a w) w l) bound) (read_vector bound name rd)
    (Forall ok) 4.
Proof.
  intros Hc Hg Hb. apply (codec_with_count wr (rd name) ok n); [done|..|done].
  - intros a l w. cbn [foldl]. generalize (wr a w). clear a w.
    induction l as [|a l IH]; intros w; cbn [foldl]; [done|]. by intros ?%IH%Hg.
  - done.
Qed.

Lemma good_on_writer f w :
  (bw_ok (f (ww_writer w)) = true → bw_ok (ww_writer w) = true) →
  good (on_writer f w) = true → good w = true.
Proof.
  unfold good, on_writer. cbn [ww_ok ww_writer upd upd_ww_writer].
  rewrite !andb_true_iff. naive_solver.
Qed.

Lemma good_write_identity {tag} (i : StrongId tag) w :
  good (write_identity i w) = true → good w = true.
Proof. apply good_on_writer. by intros (?&_)%w_bytes_good. Qed.

#[global] Instance codec_identity_vector {tag} bound name :
  FitsU32 bound →
  Codec (write_identity_vector (tag:=tag) bound) (read_identity_vector bound name)
    (Forall known_id) 4.
Proof.
  intros Hb. apply (codec_fold_vector write_identity read_identity_value known_id 3); [apply _| |done].
  apply good_write_identity.
Qed.

Lemma codec_raw_vector max_raw bound name :
  (max_raw < 256)%N → FitsU32 bound →
  Codec (write_raw_vector bound) (read_raw_vector max_raw bound name)
    (Forall (λ v, (v <= max_raw)%N)) 4.
Proof.
  intros Hm Hb. apply (codec_fold_vector (λ v, on_writer (w_u8 v)) (read_raw max_raw) _ 0);
    [by apply codec_write_raw| |done].
  intros v w. apply good_on_writer. by intros [??]%w_u8_good.
Qed.

Lemma write_enum_vector_fold {E} `{Enum E} (l : list E) bound w :
  write_enum_vector bound l w = with_count (λ l w, foldl (λ w e, write_enum e w) w l) bound l w.
Proof.
  unfold write_enum_vector, write_raw_vector, with_count, size. rewrite length_fmap.
  destruct (good _); [|done]. cbn [negb]. generalize (write_count (N.of_nat (length l)) bound w).
  induction l; intros w'; [done|]. cbn [fmap list_fmap foldl]. apply IHl.
Qed.

#[global] Instance codec_enum_vector {E} `{Enum E} max_raw `{!MaxRaw E max_raw} bound name :
  FitsU32 bound →
  Codec (write_enum_vector (E:=E) bound) (read_enum_vector max_raw bound name)
    (Forall always) 4.
Proof.
  intros Hb. assert (Codec (with_count (λ l w, foldl (λ w (e : E), write_enum e w) w l) bound)
    (read_vector bound name (read_enum max_raw)) (Forall always) 4) as Hc.
  { apply (codec_fold_vector write_enum (read_enum max_raw) always 0); [apply _| |done].
    intros e w. apply good_on_writer. by intros [??]%w_u8_good. }
  split.
  - intros l w Hl. rewrite write_enum_vector_fold. by apply (codec_emits Hc).
  - intros data l r Hr. destruct (codec_consumed Hc _ _ _ Hr) as [Ho Hw]. split; [done|].
    revert Hw. apply consumed_ext. intros w. by rewrite write_enum_vector_fold.
Qed.

#[global] Instance codec_optional_identity {tag} name :
  Codec (write_optional_identity (tag:=tag)) (read_optional_identity name) (opt_ok known_id) 1.
Proof. apply (codec_optional _ _ _ 4%nat), _. Qed.
#[global] Instance codec_optional_counter {tag} name :
  Codec (write_optional_counter (tag:=tag)) (read_optional_counter name) (opt_ok counter_fits) 1.
Proof. apply (codec_optional _ _ _ 8%nat), _. Qed.
#[global] Instance codec_optional_u32 name :
  Codec write_optional_u32 (read_optional_u32 name) (opt_ok (fits 32)) 1.
Proof. apply (codec_optional _ _ _ 4%nat), _. Qed.
#[global] Instance codec_optional_u64 name :
  Codec write_optional_u64 (read_optional_u64 name) (opt_ok (fits 64)) 1.
Proof. apply (codec_optional _ _ _ 8%nat), codec_write_u64. Qed.
#[global] Instance codec_optional_f64 name :
  Codec write_optional_f64 (read_optional_f64 name) (opt_ok is_double) 1.
Proof. apply (codec_optional _ _ _ 8%nat), _. Qed.
#[global] Instance codec_optional_record {A} (wr : A → WireWriter → WireWriter)
    (rd : string → WRead A) ok n name :
  Codec wr (rd name) ok n →
  Codec (write_optional_record wr) (read_optional_record rd name) (opt_ok ok) 1.
Proof. apply codec_optional. Qed.
#[global] Instance codec_string_vector bound name :
  FitsU32 bound →
  Codec (write_vector bound write_text) (read_string_vector bound name) (Forall always) 4.
Proof. intros. apply (codec_vector write_text read_string always 3); apply _. Qed.

(** ** Records

    A record is written field by field and read field by field in the same
    order.  [wire_record] proves its codec from the codecs of its fields. *)

Create HintDb wire.

Lemma always_intro {A} (a : A) : always a.
Proof. exact I. Qed.
Lemma Forall_always {A} (l : list A) : Forall always l.
Proof. by apply Forall_true. Qed.
#[export] Hint Resolve always_intro Forall_always : wire.

Lemma emit {A} {wr : A → WireWriter → WireWriter} {rd : WRead A} {ok n} `{!Codec wr rd ok n} a w :
  ok a → emits n w (wr a w) rd a.
Proof. apply codec_emits, _. Qed.

Lemma absorb {A} {wr : A → WireWriter → WireWriter} {rd : WRead A} {ok n} `{!Codec wr rd ok n}
    data a r :
  rd (start data) = (Some a, r) →
  ∃ rest, r = start rest ∧ ok a ∧ consumed data (start rest) (wr a).
Proof.
  intros Hr. destruct (codec_consumed _ _ _ _ Hr) as [Ha Hc].
  destruct (consumed_start _ _ _ Hc) as [rest ->]. eauto.
Qed.

Lemma emits_cons {A B} n1 n2 w f l (rd : WRead A) a (k : A → WRead B) b :
  emits n1 w (f w) rd a → emits n2 (f w) (steps l (f w)) (k a) b →
  emits (n1 + n2) w (steps (f :: l) w) (rd ≫= k) b.
Proof. apply emits_bind. Qed.

Lemma emits_nil {A} (a : A) (w : WireWriter) : emits 0 w (steps [] w) (mret a) a.
Proof. apply emits_ret. Qed.

Ltac emit_fields :=
  repeat (eapply emits_cons; [eapply emit; solve [assumption | auto with wire]|]);
  apply emits_nil.

Ltac absorb_fields H :=
  repeat match type of H with
  | mbind _ _ _ = _ =>
      let H1 := fresh "Hread" in let Hok := fresh "Hok" in let Hc := fresh "Hcons" in
      apply Rd_bind_Some in H as (?&?&H1&H);
      apply absorb in H1 as (?&->&Hok&Hc)
  end;
  apply Rd_ret_Some in H as [-> ->].

Ltac write_fields :=
  repeat match goal with
  | H : consumed ?data _ _ |- consumed ?data _ (steps (_ :: _)) =>
      eapply consumed_cons; [exact H|intros ? [= <-]]
  end; apply consumed_nil.

#[global] Typeclasses Opaque write_u64 write_u16 write_bool write_text write_i64 write_enum
  write_identity write_counter write_timestamp write_optional write_optional_identity
  write_optional_counter write_optional_u32 write_optional_u64 write_optional_f64
  write_optional_record write_vector write_identity_vector write_raw_vector write_enum_vector
  on_writer w_u8 w_u16 w_u32 w_u64 w_i64 w_f64 w_bytes w_text w_boolean w_optional_present
  r_u8 r_u16 r_u32 r_u64 r_i64 r_f64 r_bytes r_text r_boolean field checked
  read_u8 read_u16 read_u32 read_u64 read_i64 read_f64 read_bool read_string read_size
  read_present read_raw read_enum read_identity_value read_optional read_counter read_timestamp
  read_optional_identity read_optional_counter read_optional_u32 read_optional_u64
  read_optional_f64 read_optional_record read_vector read_identity_vector read_enum_vector
  read_raw_vector read_string_vector.

#[global] Opaque emits consumed counter_fits timestamp_fits fits is_i64 known_id is_double always.

Ltac wire_record wr rd ok :=
  split;
  [ let a := fresh in let w := fresh in let Ha := fresh in
    intros a w Ha; destruct a; unfold ok in Ha; destruct_and? Ha;
    unfold wr, rd; eapply emits_weaken; [emit_fields|cbn; lia]
  | let data := fresh in let a := fresh in let r := fresh in let Hr := fresh in
    intros data a r Hr; unfold rd in Hr; absorb_fields Hr;
    split; [unfold ok; split_and?; first [assumption|exact I]|unfold wr; write_fields] ].
