(* ===== verification/WireRecords.v ===== *)
(** * Records on the wire

    The encoders and decoders of [src/protocol.cpp] for evidence, errors,
    domains, links, rack references, requests, results and snapshot views.  Each
    pair is proved to be a codec for the values that fit the wire: identities
    that parse and integers of their width. *)

From Stdlib Require Import NArith ZArith Lia.
From S2P Require Import Prelude Identity Counter Taxonomy Evidence Types Invariant Explain Snapshot.
From S2P Require Import Wire Codec WireStream.

Definition kMaxAcceleratorClasses : N := kMaxCapacityQuantities.
Definition kMaxSnapshotRackRefs : N := kMaxRacksPerCluster.

Definition write_evidence_stamp (r : EvidenceStamp) : WireWriter → WireWriter :=
  steps [
    write_enum (ev_provenance r); write_timestamp (ev_observed_at r);
    write_enum (ev_freshness r); write_i64 (ev_ttl_millis r)].

Definition read_evidence_stamp (name : string) : WRead EvidenceStamp :=
  provenance ← read_enum kMaxEvidenceProvenanceRaw name;
  observed_at ← read_timestamp name;
  freshness ← read_enum kMaxFreshnessRaw name;
  ttl_millis ← read_i64 name;
  mret (MkStamp provenance observed_at freshness ttl_millis).

Definition evidence_stamp_ok (r : EvidenceStamp) : Prop :=
  timestamp_fits (ev_observed_at r) ∧ is_i64 (ev_ttl_millis r).

#[global] Instance codec_evidence_stamp name :
  Codec write_evidence_stamp (read_evidence_stamp name) evidence_stamp_ok 1.
Proof. wire_record write_evidence_stamp read_evidence_stamp evidence_stamp_ok. Qed.

Definition write_structured_error (r : StructuredError) : WireWriter → WireWriter :=
  steps [
    write_enum (er_category r); write_enum (er_stage r); write_text (er_subject r);
    write_text (er_reason r); write_text (er_expected r); write_text (er_current r);
    write_text (er_message r)].

Definition read_structured_error (name : string) : WRead StructuredError :=
  category ← read_enum kMaxErrorCategoryRaw name;
  stage ← read_enum kMaxErrorStageRaw name;
  subject ← read_string name;
  reason ← read_string name;
  expected ← read_string name;
  current ← read_string name;
  message ← read_string name;
  mret (MkError category stage subject reason expected current message).

Definition structured_error_ok (r : StructuredError) : Prop := True.

#[global] Instance codec_structured_error name :
  Codec write_structured_error (read_structured_error name) structured_error_ok 1.
Proof. wire_record write_structured_error read_structured_error structured_error_ok. Qed.

Definition write_explanation_factor (r : ExplanationFactor) : WireWriter → WireWriter :=
  steps [
    write_text (ef_code r); write_text (ef_subject r); write_text (ef_detail r)].

Definition read_explanation_factor (name : string) : WRead ExplanationFactor :=
  code ← read_string name;
  subject ← read_string name;
  detail ← read_string name;
  mret (MkFactor code subject detail).

Definition explanation_factor_ok (r : ExplanationFactor) : Prop := True.

#[global] Instance codec_explanation_factor name :
  Codec write_explanation_factor (read_explanation_factor name) explanation_factor_ok 1.
Proof. wire_record write_explanation_factor read_explanation_factor explanation_factor_ok. Qed.

Definition write_explanation (r : Explanation) : WireWriter → WireWriter :=
  steps [
    write_text (ex_code r); write_text (ex_subject r); write_text (ex_summary r);
    write_vector kMaxExplanationFactors write_explanation_factor (ex_factors r)].

Definition read_explanation (name : string) : WRead Explanation :=
  code ← read_string name;
  subject ← read_string name;
  summary ← read_string name;
  factors ← read_vector kMaxExplanationFactors name read_explanation_factor;
  mret (MkExplanation code subject summary factors).

Definition explanation_ok (r : Explanation) : Prop :=
  Forall explanation_factor_ok (ex_factors r).

#[global] Instance codec_explanation name :
  Codec write_explanation (read_explanation name) explanation_ok 1.
Proof. wire_record write_explanation read_explanation explanation_ok. Qed.

Definition write_readiness_contract (r : ReadinessContract) : WireWriter → WireWriter :=
  steps [
    write_u64 (ct_minimum_current_racks r);
    write_identity_vector kMaxRacksPerCluster (ct_mandatory_racks r);
    write_bool (ct_require_all_active_racks_current r);
    write_bool (ct_require_connectivity_evidence r); write_u64 (ct_minimum_current_links r);
    write_enum_vector kMaxRequiredPlacementClasses (ct_required_placement_domain_classes r);
    write_enum_vector kMaxRequiredFailureClasses (ct_required_failure_domain_classes r);
    write_bool (ct_allow_partial r); write_bool (ct_allow_degraded r);
    write_bool (ct_require_no_conflicts r)].

Definition read_readiness_contract (name : string) : WRead ReadinessContract :=
  minimum_current_racks ← read_size name;
  mandatory_racks ← read_identity_vector kMaxRacksPerCluster name;
  require_all_active_racks_current ← read_bool name;
  require_connectivity_evidence ← read_bool name;
  minimum_current_links ← read_size name;
  required_placement_domain_classes ← read_enum_vector kMaxPlacementDomainClassRaw kMaxRequiredPlacementClasses name;
  required_failure_domain_classes ← read_enum_vector kMaxFailureDomainClassRaw kMaxRequiredFailureClasses name;
  allow_partial ← read_bool name;
  allow_degraded ← read_bool name;
  require_no_conflicts ← read_bool name;
  mret (MkContract minimum_current_racks mandatory_racks require_all_active_racks_current
    require_connectivity_evidence minimum_current_links required_placement_domain_classes
    required_failure_domain_classes allow_partial allow_degraded require_no_conflicts).

Definition readiness_contract_ok (r : ReadinessContract) : Prop :=
  fits 64 (ct_minimum_current_racks r) ∧ Forall known_id (ct_mandatory_racks r) ∧
  fits 64 (ct_minimum_current_links r).

#[global] Instance codec_readiness_contract name :
  Codec write_readiness_contract (read_readiness_contract name) readiness_contract_ok 1.
Proof. wire_record write_readiness_contract read_readiness_contract readiness_contract_ok. Qed.

Definition write_readiness_blocker (r : ReadinessBlocker) : WireWriter → WireWriter :=
  steps [
    write_text (bl_code r); write_text (bl_subject r); write_text (bl_detail r)].

Definition read_readiness_blocker (name : string) : WRead ReadinessBlocker :=
  code ← read_string name;
  subject ← read_string name;
  detail ← read_string name;
  mret (MkBlocker code subject detail).

Definition readiness_blocker_ok (r : ReadinessBlocker) : Prop := True.

#[global] Instance codec_readiness_blocker name :
  Codec write_readiness_blocker (read_readiness_blocker name) readiness_blocker_ok 1.
Proof. wire_record write_readiness_blocker read_readiness_blocker readiness_blocker_ok. Qed.

Definition write_readiness_evaluation (r : ReadinessEvaluation) : WireWriter → WireWriter :=
  steps [
    write_bool (re_satisfied r); write_enum (re_lifecycle r);
    write_vector kMaxDecodedRecords write_readiness_blocker (re_blockers r)].

Definition read_readiness_evaluation (name : string) : WRead ReadinessEvaluation :=
  satisfied ← read_bool name;
  lifecycle ← read_enum kMaxClusterLifecycleRaw name;
  blockers ← read_vector kMaxDecodedRecords name read_readiness_blocker;
  mret (MkEvaluation satisfied lifecycle blockers).

Definition readiness_evaluation_ok (r : ReadinessEvaluation) : Prop :=
  Forall readiness_blocker_ok (re_blockers r).

#[global] Instance codec_readiness_evaluation name :
  Codec write_readiness_evaluation (read_readiness_evaluation name) readiness_evaluation_ok 1.
Proof. wire_record write_readiness_evaluation read_readiness_evaluation readiness_evaluation_ok. Qed.

Definition write_domain_header (r : DomainHeader) : WireWriter → WireWriter :=
  steps [
    write_evidence_stamp (dh_evidence r); write_counter (dh_generation r);
    write_optional_identity (dh_publisher r); write_counter (dh_cluster_epoch r);
    write_counter (dh_coordinator_epoch r); write_text (dh_label r)].

Definition read_domain_header (name : string) : WRead DomainHeader :=
  evidence ← read_evidence_stamp name;
  generation ← read_counter name;
  publisher ← read_optional_identity name;
  cluster_epoch ← read_counter name;
  coordinator_epoch ← read_counter name;
  label ← read_string name;
  mret (MkHeader evidence generation publisher cluster_epoch coordinator_epoch label).

Definition domain_header_ok (r : DomainHeader) : Prop :=
  evidence_stamp_ok (dh_evidence r) ∧ counter_fits (dh_generation r) ∧
  opt_ok known_id (dh_publisher r) ∧ counter_fits (dh_cluster_epoch r) ∧
  counter_fits (dh_coordinator_epoch r).

#[global] Instance codec_domain_header name :
  Codec write_domain_header (read_domain_header name) domain_header_ok 1.
Proof. wire_record write_domain_header read_domain_header domain_header_ok. Qed.

Definition write_placement_domain (r : PlacementDomain) : WireWriter → WireWriter :=
  steps [
    write_identity (pd_id r); write_enum (pd_klass r);
    write_identity_vector kMaxDomainMembers (pd_racks r); write_domain_header (pd_header r)].

Definition read_placement_domain (name : string) : WRead PlacementDomain :=
  id ← read_identity_value name;
  klass ← read_enum kMaxPlacementDomainClassRaw name;
  racks ← read_identity_vector kMaxDomainMembers name;
  header ← read_domain_header name;
  mret (MkPlacement id klass racks header).

Definition placement_domain_ok (r : PlacementDomain) : Prop :=
  known_id (pd_id r) ∧ Forall known_id (pd_racks r) ∧ domain_header_ok (pd_header r).

#[global] Instance codec_placement_domain name :
  Codec write_placement_domain (read_placement_domain name) placement_domain_ok 1.
Proof. wire_record write_placement_domain read_placement_domain placement_domain_ok. Qed.

Definition write_capacity_quantity (r : CapacityQuantity) : WireWriter → WireWriter :=
  steps [
    write_text (cq_unit r); write_optional_f64 (cq_value r); write_enum (cq_provenance r);
    write_bool (cq_aggregated r)].

Definition read_capacity_quantity (name : string) : WRead CapacityQuantity :=
  unit ← read_string name;
  value ← read_optional_f64 name;
  provenance ← read_enum kMaxEvidenceProvenanceRaw name;
  aggregated ← read_bool name;
  mret (MkQuantity unit value provenance aggregated).

Definition capacity_quantity_ok (r : CapacityQuantity) : Prop :=
  opt_ok is_double (cq_value r).

#[global] Instance codec_capacity_quantity name :
  Codec write_capacity_quantity (read_capacity_quantity name) capacity_quantity_ok 1.
Proof. wire_record write_capacity_quantity read_capacity_quantity capacity_quantity_ok. Qed.

Definition write_capacity_domain (r : CapacityDomain) : WireWriter → WireWriter :=
  steps [
    write_identity (cd_id r); write_enum (cd_klass r);
    write_identity_vector kMaxDomainMembers (cd_racks r);
    write_vector kMaxCapacityQuantities write_capacity_quantity (cd_quantities r);
    write_domain_header (cd_header r)].

Definition read_capacity_domain (name : string) : WRead CapacityDomain :=
  id ← read_identity_value name;
  klass ← read_enum kMaxCapacityDomainClassRaw name;
  racks ← read_identity_vector kMaxDomainMembers name;
  quantities ← read_vector kMaxCapacityQuantities name read_capacity_quantity;
  header ← read_domain_header name;
  mret (MkCapacity id klass racks quantities header).

Definition capacity_domain_ok (r : CapacityDomain) : Prop :=
  known_id (cd_id r) ∧ Forall known_id (cd_racks r) ∧
  Forall capacity_quantity_ok (cd_quantities r) ∧ domain_header_ok (cd_header r).

#[global] Instance codec_capacity_domain name :
  Codec write_capacity_domain (read_capacity_domain name) capacity_domain_ok 1.
Proof. wire_record write_capacity_domain read_capacity_domain capacity_domain_ok. Qed.

Definition write_failure_domain (r : FailureDomain) : WireWriter → WireWriter :=
  steps [
    write_identity (fd_id r); write_enum (fd_klass r);
    write_identity_vector kMaxDomainMembers (fd_racks r); write_domain_header (fd_header r)].

Definition read_failure_domain (name : string) : WRead FailureDomain :=
  id ← read_identity_value name;
  klass ← read_enum kMaxFailureDomainClassRaw name;
  racks ← read_identity_vector kMaxDomainMembers name;
  header ← read_domain_header name;
  mret (MkFailure id klass racks header).

Definition failure_domain_ok (r : FailureDomain) : Prop :=
  known_id (fd_id r) ∧ Forall known_id (fd_racks r) ∧ domain_header_ok (fd_header r).

#[global] Instance codec_failure_domain name :
  Codec write_failure_domain (read_failure_domain name) failure_domain_ok 1.
Proof. wire_record write_failure_domain read_failure_domain failure_domain_ok. Qed.

Definition write_network_domain (r : NetworkDomain) : WireWriter → WireWriter :=
  steps [
    write_identity (nd_id r); write_enum (nd_connectivity r);
    write_identity_vector kMaxDomainMembers (nd_racks r); write_domain_header (nd_header r)].

Definition read_network_domain (name : string) : WRead NetworkDomain :=
  id ← read_identity_value name;
  connectivity ← read_enum kMaxConnectivityClassRaw name;
  racks ← read_identity_vector kMaxDomainMembers name;
  header ← read_domain_header name;
  mret (MkNetwork id connectivity racks header).

Definition network_domain_ok (r : NetworkDomain) : Prop :=
  known_id (nd_id r) ∧ Forall known_id (nd_racks r) ∧ domain_header_ok (nd_header r).

#[global] Instance codec_network_domain name :
  Codec write_network_domain (read_network_domain name) network_domain_ok 1.
Proof. wire_record write_network_domain read_network_domain network_domain_ok. Qed.

Definition write_storage_domain (r : StorageDomain) : WireWriter → WireWriter :=
  steps [
    write_identity (sd_id r); write_identity_vector kMaxDomainMembers (sd_racks r);
    write_domain_header (sd_header r)].

Definition read_storage_domain (name : string) : WRead StorageDomain :=
  id ← read_identity_value name;
  racks ← read_identity_vector kMaxDomainMembers name;
  header ← read_domain_header name;
  mret (MkStorage id racks header).

Definition storage_domain_ok (r : StorageDomain) : Prop :=
  known_id (sd_id r) ∧ Forall known_id (sd_racks r) ∧ domain_header_ok (sd_header r).

#[global] Instance codec_storage_domain name :
  Codec write_storage_domain (read_storage_domain name) storage_domain_ok 1.
Proof. wire_record write_storage_domain read_storage_domain storage_domain_ok. Qed.

Definition write_power_domain (r : PowerDomain) : WireWriter → WireWriter :=
  steps [
    write_identity (pw_id r); write_identity_vector kMaxDomainMembers (pw_racks r);
    write_optional_identity (pw_parent r); write_domain_header (pw_header r)].

Definition read_power_domain (name : string) : WRead PowerDomain :=
  id ← read_identity_value name;
  racks ← read_identity_vector kMaxDomainMembers name;
  parent ← read_optional_identity name;
  header ← read_domain_header name;
  mret (MkPower id racks parent header).

Definition power_domain_ok (r : PowerDomain) : Prop :=
  known_id (pw_id r) ∧ Forall known_id (pw_racks r) ∧ opt_ok known_id (pw_parent r) ∧
  domain_header_ok (pw_header r).

#[global] Instance codec_power_domain name :
  Codec write_power_domain (read_power_domain name) power_domain_ok 1.
Proof. wire_record write_power_domain read_power_domain power_domain_ok. Qed.

Definition write_cooling_domain (r : CoolingDomain) : WireWriter → WireWriter :=
  steps [
    write_identity (co_id r); write_identity_vector kMaxDomainMembers (co_racks r);
    write_optional_identity (co_parent r); write_domain_header (co_header r)].

Definition read_cooling_domain (name : string) : WRead CoolingDomain :=
  id ← read_identity_value name;
  racks ← read_identity_vector kMaxDomainMembers name;
  parent ← read_optional_identity name;
  header ← read_domain_header name;
  mret (MkCooling id racks parent header).

Definition cooling_domain_ok (r : CoolingDomain) : Prop :=
  known_id (co_id r) ∧ Forall known_id (co_racks r) ∧ opt_ok known_id (co_parent r) ∧
  domain_header_ok (co_header r).

#[global] Instance codec_cooling_domain name :
  Codec write_cooling_domain (read_cooling_domain name) cooling_domain_ok 1.
Proof. wire_record write_cooling_domain read_cooling_domain cooling_domain_ok. Qed.

Definition write_link_domain (r : LinkDomain) : WireWriter → WireWriter :=
  steps [
    write_identity (ld_id r); write_identity_vector kMaxDomainMembers (ld_racks r);
    write_domain_header (ld_header r)].

Definition read_link_domain (name : string) : WRead LinkDomain :=
  id ← read_identity_value name;
  racks ← read_identity_vector kMaxDomainMembers name;
  header ← read_domain_header name;
  mret (MkLinkDomain id racks header).

Definition link_domain_ok (r : LinkDomain) : Prop :=
  known_id (ld_id r) ∧ Forall known_id (ld_racks r) ∧ domain_header_ok (ld_header r).

#[global] Instance codec_link_domain name :
  Codec write_link_domain (read_link_domain name) link_domain_ok 1.
Proof. wire_record write_link_domain read_link_domain link_domain_ok. Qed.

Definition write_constraint (r : ClusterConstraint) : WireWriter → WireWriter :=
  steps [
    write_identity (cc_id r); write_enum (cc_kind r);
    write_identity_vector kMaxDomainMembers (cc_racks r); write_text (cc_domain_ref r);
    write_text (cc_statement r); write_domain_header (cc_header r)].

Definition read_constraint (name : string) : WRead ClusterConstraint :=
  id ← read_identity_value name;
  kind ← read_enum kMaxConstraintKindRaw name;
  racks ← read_identity_vector kMaxDomainMembers name;
  domain_ref ← read_string name;
  statement ← read_string name;
  header ← read_domain_header name;
  mret (MkConstraint id kind racks domain_ref statement header).

Definition constraint_ok (r : ClusterConstraint) : Prop :=
  known_id (cc_id r) ∧ Forall known_id (cc_racks r) ∧ domain_header_ok (cc_header r).

#[global] Instance codec_constraint name :
  Codec write_constraint (read_constraint name) constraint_ok 1.
Proof. wire_record write_constraint read_constraint constraint_ok. Qed.

Definition write_topology_record (r : TopologyEpochRecord) : WireWriter → WireWriter :=
  steps [
    write_counter (tr_epoch r); write_counter (tr_generation r);
    write_timestamp (tr_established_at r); write_evidence_stamp (tr_evidence r);
    write_text (tr_reason r)].

Definition read_topology_record (name : string) : WRead TopologyEpochRecord :=
  epoch ← read_counter name;
  generation ← read_counter name;
  established_at ← read_timestamp name;
  evidence ← read_evidence_stamp name;
  reason ← read_string name;
  mret (MkTopologyRecord epoch generation established_at evidence reason).

Definition topology_record_ok (r : TopologyEpochRecord) : Prop :=
  counter_fits (tr_epoch r) ∧ counter_fits (tr_generation r) ∧
  timestamp_fits (tr_established_at r) ∧ evidence_stamp_ok (tr_evidence r).

#[global] Instance codec_topology_record name :
  Codec write_topology_record (read_topology_record name) topology_record_ok 1.
Proof. wire_record write_topology_record read_topology_record topology_record_ok. Qed.

Definition write_inter_rack_link (r : InterRackLink) : WireWriter → WireWriter :=
  steps [
    write_identity (lk_id r); write_identity (lk_source r); write_identity (lk_destination r);
    write_enum (lk_direction r); write_enum (lk_connectivity r);
    write_optional_identity (lk_network_domain r); write_optional_identity (lk_link_domain r);
    write_optional_identity (lk_source_endpoint r);
    write_optional_identity (lk_destination_endpoint r); write_enum (lk_bandwidth_class r);
    write_optional_u64 (lk_nominal_bandwidth_bps r); write_enum (lk_latency_class r);
    write_optional_u64 (lk_nominal_latency_nanos r); write_optional_u32 (lk_hop_count r);
    write_enum (lk_reachability r); write_enum (lk_health r);
    write_identity_vector kMaxFailureDomainRefs (lk_failure_domains r);
    write_domain_header (lk_header r); write_counter (lk_topology_epoch r);
    write_counter (lk_topology_generation r); write_counter (lk_publication r);
    write_optional_identity (lk_boot r)].

Definition read_inter_rack_link (name : string) : WRead InterRackLink :=
  id ← read_identity_value name;
  source ← read_identity_value name;
  destination ← read_identity_value name;
  direction ← read_enum kMaxLinkDirectionRaw name;
  connectivity ← read_enum kMaxConnectivityClassRaw name;
  network_domain ← read_optional_identity name;
  link_domain ← read_optional_identity name;
  source_endpoint ← read_optional_identity name;
  destination_endpoint ← read_optional_identity name;
  bandwidth_class ← read_enum kMaxBandwidthClassRaw name;
  nominal_bandwidth_bps ← read_optional_u64 name;
  latency_class ← read_enum kMaxLatencyClassRaw name;
  nominal_latency_nanos ← read_optional_u64 name;
  hop_count ← read_optional_u32 name;
  reachability ← read_enum kMaxReachabilityRaw name;
  health ← read_enum kMaxHealthStateRaw name;
  failure_domains ← read_identity_vector kMaxFailureDomainRefs name;
  header ← read_domain_header name;
  topology_epoch ← read_counter name;
  topology_generation ← read_counter name;
  publication ← read_counter name;
  boot ← read_optional_identity name;
  mret (MkLink id source destination direction connectivity network_domain link_domain
    source_endpoint destination_endpoint bandwidth_class nominal_bandwidth_bps latency_class
    nominal_latency_nanos hop_count reachability health failure_domains header topology_epoch
    topology_generation publication boot).

Definition inter_rack_link_ok (r : InterRackLink) : Prop :=
  known_id (lk_id r) ∧ known_id (lk_source r) ∧ known_id (lk_destination r) ∧
  opt_ok known_id (lk_network_domain r) ∧ opt_ok known_id (lk_link_domain r) ∧
  opt_ok known_id (lk_source_endpoint r) ∧ opt_ok known_id (lk_destination_endpoint r) ∧
  opt_ok (fits 64) (lk_nominal_bandwidth_bps r) ∧
  opt_ok (fits 64) (lk_nominal_latency_nanos r) ∧ opt_ok (fits 32) (lk_hop_count r) ∧
  Forall known_id (lk_failure_domains r) ∧ domain_header_ok (lk_header r) ∧
  counter_fits (lk_topology_epoch r) ∧ counter_fits (lk_topology_generation r) ∧
  counter_fits (lk_publication r) ∧ opt_ok known_id (lk_boot r).

#[global] Instance codec_inter_rack_link name :
  Codec write_inter_rack_link (read_inter_rack_link name) inter_rack_link_ok 1.
Proof. wire_record write_inter_rack_link read_inter_rack_link inter_rack_link_ok. Qed.

Definition write_accelerator_summary (r : AcceleratorClassSummary) : WireWriter → WireWriter :=
  steps [
    write_enum (ac_vendor r); write_text (ac_family r); write_optional_u32 (ac_device_count r);
    write_optional_u64 (ac_device_memory_bytes r)].

Definition read_accelerator_summary (name : string) : WRead AcceleratorClassSummary :=
  vendor ← read_enum kMaxAcceleratorVendorRaw name;
  family ← read_string name;
  device_count ← read_optional_u32 name;
  device_memory_bytes ← read_optional_u64 name;
  mret (MkAccelerator vendor family device_count device_memory_bytes).

Definition accelerator_summary_ok (r : AcceleratorClassSummary) : Prop :=
  opt_ok (fits 32) (ac_device_count r) ∧ opt_ok (fits 64) (ac_device_memory_bytes r).

#[global] Instance codec_accelerator_summary name :
  Codec write_accelerator_summary (read_accelerator_summary name) accelerator_summary_ok 1.
Proof. wire_record write_accelerator_summary read_accelerator_summary accelerator_summary_ok. Qed.

Definition write_composition (r : RackCompositionSummary) : WireWriter → WireWriter :=
  steps [
    write_vector kMaxAcceleratorClasses write_accelerator_summary (rc_accelerators r);
    write_optional_u32 (rc_cpu_sockets r); write_optional_u32 (rc_cpu_cores r);
    write_optional_u64 (rc_host_memory_bytes r); write_optional_u32 (rc_nic_count r);
    write_optional_u32 (rc_switch_count r); write_text (rc_composition_label r);
    write_enum (rc_provenance r)].

Definition read_composition (name : string) : WRead RackCompositionSummary :=
  accelerators ← read_vector kMaxAcceleratorClasses name read_accelerator_summary;
  cpu_sockets ← read_optional_u32 name;
  cpu_cores ← read_optional_u32 name;
  host_memory_bytes ← read_optional_u64 name;
  nic_count ← read_optional_u32 name;
  switch_count ← read_optional_u32 name;
  composition_label ← read_string name;
  provenance ← read_enum kMaxEvidenceProvenanceRaw name;
  mret (MkComposition accelerators cpu_sockets cpu_cores host_memory_bytes nic_count
    switch_count composition_label provenance).

Definition composition_ok (r : RackCompositionSummary) : Prop :=
  Forall accelerator_summary_ok (rc_accelerators r) ∧ opt_ok (fits 32) (rc_cpu_sockets r) ∧
  opt_ok (fits 32) (rc_cpu_cores r) ∧ opt_ok (fits 64) (rc_host_memory_bytes r) ∧
  opt_ok (fits 32) (rc_nic_count r) ∧ opt_ok (fits 32) (rc_switch_count r).

#[global] Instance codec_composition name :
  Codec write_composition (read_composition name) composition_ok 1.
Proof. wire_record write_composition read_composition composition_ok. Qed.

Definition write_rack_endpoint (r : RackEndpoint) : WireWriter → WireWriter :=
  steps [
    write_identity (ep_id r); write_optional_identity (ep_network_domain r);
    write_optional_identity (ep_link_domain r); write_enum (ep_connectivity r);
    write_evidence_stamp (ep_evidence r)].

Definition read_rack_endpoint (name : string) : WRead RackEndpoint :=
  id ← read_identity_value name;
  network_domain ← read_optional_identity name;
  link_domain ← read_optional_identity name;
  connectivity ← read_enum kMaxConnectivityClassRaw name;
  evidence ← read_evidence_stamp name;
  mret (MkEndpoint id network_domain link_domain connectivity evidence).

Definition rack_endpoint_ok (r : RackEndpoint) : Prop :=
  known_id (ep_id r) ∧ opt_ok known_id (ep_network_domain r) ∧
  opt_ok known_id (ep_link_domain r) ∧ evidence_stamp_ok (ep_evidence r).

#[global] Instance codec_rack_endpoint name :
  Codec write_rack_endpoint (read_rack_endpoint name) rack_endpoint_ok 1.
Proof. wire_record write_rack_endpoint read_rack_endpoint rack_endpoint_ok. Qed.

Definition write_failure_hint (r : RackFailureDomainHint) : WireWriter → WireWriter :=
  steps [
    write_enum (fh_klass r); write_identity (fh_id r); write_evidence_stamp (fh_evidence r)].

Definition read_failure_hint (name : string) : WRead RackFailureDomainHint :=
  klass ← read_enum kMaxFailureDomainClassRaw name;
  id ← read_identity_value name;
  evidence ← read_evidence_stamp name;
  mret (MkHint klass id evidence).

Definition failure_hint_ok (r : RackFailureDomainHint) : Prop :=
  known_id (fh_id r) ∧ evidence_stamp_ok (fh_evidence r).

#[global] Instance codec_failure_hint name :
  Codec write_failure_hint (read_failure_hint name) failure_hint_ok 1.
Proof. wire_record write_failure_hint read_failure_hint failure_hint_ok. Qed.

Definition write_rack_reference (r : RackReference) : WireWriter → WireWriter :=
  steps [
    write_identity (rr_rack r); write_counter (rr_generation r);
    write_enum (rr_rack_lifecycle r); write_enum (rr_currentness r);
    write_composition (rr_composition r);
    write_vector kMaxRackEndpoints write_rack_endpoint (rr_endpoints r);
    write_vector kMaxFailureDomainRefs write_failure_hint (rr_failure_domain_hints r);
    write_evidence_stamp (rr_evidence r); write_optional_identity (rr_publisher r);
    write_counter (rr_publication r); write_identity (rr_boot r);
    write_counter (rr_cluster_epoch r); write_counter (rr_coordinator_epoch r);
    write_enum (rr_health r); write_text (rr_origin_label r)].

Definition read_rack_reference (name : string) : WRead RackReference :=
  rack ← read_identity_value name;
  generation ← read_counter name;
  rack_lifecycle ← read_enum kMaxRackLifecycleStateRaw name;
  currentness ← read_enum kMaxRackCurrentnessRaw name;
  composition ← read_composition name;
  endpoints ← read_vector kMaxRackEndpoints name read_rack_endpoint;
  failure_domain_hints ← read_vector kMaxFailureDomainRefs name read_failure_hint;
  evidence ← read_evidence_stamp name;
  publisher ← read_optional_identity name;
  publication ← read_counter name;
  boot ← read_identity_value name;
  cluster_epoch ← read_counter name;
  coordinator_epoch ← read_counter name;
  health ← read_enum kMaxHealthStateRaw name;
  origin_label ← read_string name;
  mret (MkReference rack generation rack_lifecycle currentness composition endpoints
    failure_domain_hints evidence publisher publication boot cluster_epoch coordinator_epoch health
    origin_label).

Definition rack_reference_ok (r : RackReference) : Prop :=
  known_id (rr_rack r) ∧ counter_fits (rr_generation r) ∧ composition_ok (rr_composition r) ∧
  Forall rack_endpoint_ok (rr_endpoints r) ∧
  Forall failure_hint_ok (rr_failure_domain_hints r) ∧ evidence_stamp_ok (rr_evidence r) ∧
  opt_ok known_id (rr_publisher r) ∧ counter_fits (rr_publication r) ∧ known_id (rr_boot r) ∧
  counter_fits (rr_cluster_epoch r) ∧ counter_fits (rr_coordinator_epoch r).

#[global] Instance codec_rack_reference name :
  Codec write_rack_reference (read_rack_reference name) rack_reference_ok 1.
Proof. wire_record write_rack_reference read_rack_reference rack_reference_ok. Qed.

Definition write_authority (r : MutationAuthority) : WireWriter → WireWriter :=
  steps [
    write_counter (au_cluster_epoch r); write_counter (au_coordinator_epoch r);
    write_counter (au_topology_epoch r); write_counter (au_topology_generation r);
    write_optional_identity (au_boot r); write_optional_identity (au_publisher r);
    write_optional_identity (au_rack r); write_optional_counter (au_rack_generation r);
    write_counter (au_publication r)].

Definition read_authority (name : string) : WRead MutationAuthority :=
  cluster_epoch ← read_counter name;
  coordinator_epoch ← read_counter name;
  topology_epoch ← read_counter name;
  topology_generation ← read_counter name;
  boot ← read_optional_identity name;
  publisher ← read_optional_identity name;
  rack ← read_optional_identity name;
  rack_generation ← read_optional_counter name;
  publication ← read_counter name;
  mret (MkAuthority cluster_epoch coordinator_epoch topology_epoch topology_generation boot
    publisher rack rack_generation publication).

Definition authority_ok (r : MutationAuthority) : Prop :=
  counter_fits (au_cluster_epoch r) ∧ counter_fits (au_coordinator_epoch r) ∧
  counter_fits (au_topology_epoch r) ∧ counter_fits (au_topology_generation r) ∧
  opt_ok known_id (au_boot r) ∧ opt_ok known_id (au_publisher r) ∧
  opt_ok known_id (au_rack r) ∧ opt_ok counter_fits (au_rack_generation r) ∧
  counter_fits (au_publication r).

#[global] Instance codec_authority name :
  Codec write_authority (read_authority name) authority_ok 1.
Proof. wire_record write_authority read_authority authority_ok. Qed.

Definition write_mutation_request (r : MutationRequest) : WireWriter → WireWriter :=
  steps [
    write_enum (rq_kind r); write_identity (rq_cluster r); write_authority (rq_authority r);
    write_evidence_stamp (rq_evidence r); write_text (rq_reason r);
    write_timestamp (rq_requested_at r); write_enum (rq_declared_lifecycle r);
    write_readiness_contract (rq_readiness_contract r);
    write_rack_reference (rq_rack_reference r); write_enum (rq_membership r);
    write_optional_counter (rq_expected_rack_generation r);
    write_optional_counter (rq_new_rack_generation r);
    write_optional_record write_placement_domain (rq_placement_domain r);
    write_optional_record write_capacity_domain (rq_capacity_domain r);
    write_optional_record write_failure_domain (rq_failure_domain r);
    write_optional_record write_network_domain (rq_network_domain r);
    write_optional_record write_storage_domain (rq_storage_domain r);
    write_optional_record write_power_domain (rq_power_domain r);
    write_optional_record write_cooling_domain (rq_cooling_domain r);
    write_optional_record write_link_domain (rq_link_domain r);
    write_optional_record write_constraint (rq_constraint r);
    write_optional_record write_inter_rack_link (rq_link r);
    write_optional_identity (rq_link_id r);
    write_optional_counter (rq_target_topology_epoch r); write_text (rq_topology_reason r);
    write_enum (rq_health r); write_enum (rq_reachability r);
    write_text (rq_evidence_selector r); write_identity_vector kMaxRacksPerCluster (rq_racks r)].

Definition read_mutation_request (name : string) : WRead MutationRequest :=
  kind ← read_enum kMaxMutationKindRaw name;
  cluster ← read_identity_value name;
  authority ← read_authority name;
  evidence ← read_evidence_stamp name;
  reason ← read_string name;
  requested_at ← read_timestamp name;
  declared_lifecycle ← read_enum kMaxClusterLifecycleRaw name;
  readiness_contract ← read_readiness_contract name;
  rack_reference ← read_rack_reference name;
  membership ← read_enum kMaxRackMembershipStateRaw name;
  expected_rack_generation ← read_optional_counter name;
  new_rack_generation ← read_optional_counter name;
  placement_domain ← read_optional_record read_placement_domain name;
  capacity_domain ← read_optional_record read_capacity_domain name;
  failure_domain ← read_optional_record read_failure_domain name;
  network_domain ← read_optional_record read_network_domain name;
  storage_domain ← read_optional_record read_storage_domain name;
  power_domain ← read_optional_record read_power_domain name;
  cooling_domain ← read_optional_record read_cooling_domain name;
  link_domain ← read_optional_record read_link_domain name;
  constraint ← read_optional_record read_constraint name;
  link ← read_optional_record read_inter_rack_link name;
  link_id ← read_optional_identity name;
  target_topology_epoch ← read_optional_counter name;
  topology_reason ← read_string name;
  health ← read_enum kMaxHealthStateRaw name;
  reachability ← read_enum kMaxReachabilityRaw name;
  evidence_selector ← read_string name;
  racks ← read_identity_vector kMaxRacksPerCluster name;
  mret (MkRequest kind cluster authority evidence reason requested_at declared_lifecycle
    readiness_contract rack_reference membership expected_rack_generation new_rack_generation
    placement_domain capacity_domain failure_domain network_domain storage_domain power_domain
    cooling_domain link_domain constraint link link_id target_topology_epoch topology_reason health
    reachability evidence_selector racks).

Definition mutation_request_ok (r : MutationRequest) : Prop :=
  known_id (rq_cluster r) ∧ authority_ok (rq_authority r) ∧ evidence_stamp_ok (rq_evidence r) ∧
  timestamp_fits (rq_requested_at r) ∧ readiness_contract_ok (rq_readiness_contract r) ∧
  rack_reference_ok (rq_rack_reference r) ∧
  opt_ok counter_fits (rq_expected_rack_generation r) ∧
  opt_ok counter_fits (rq_new_rack_generation r) ∧
  opt_ok placement_domain_ok (rq_placement_domain r) ∧
  opt_ok capacity_domain_ok (rq_capacity_domain r) ∧
  opt_ok failure_domain_ok (rq_failure_domain r) ∧
  opt_ok network_domain_ok (rq_network_domain r) ∧
  opt_ok storage_domain_ok (rq_storage_domain r) ∧ opt_ok power_domain_ok (rq_power_domain r) ∧
  opt_ok cooling_domain_ok (rq_cooling_domain r) ∧ opt_ok link_domain_ok (rq_link_domain r) ∧
  opt_ok constraint_ok (rq_constraint r) ∧ opt_ok inter_rack_link_ok (rq_link r) ∧
  opt_ok known_id (rq_link_id r) ∧ opt_ok counter_fits (rq_target_topology_epoch r) ∧
  Forall known_id (rq_racks r).

#[global] Instance codec_mutation_request name :
  Codec write_mutation_request (read_mutation_request name) mutation_request_ok 1.
Proof. wire_record write_mutation_request read_mutation_request mutation_request_ok. Qed.

Definition write_mutation_result (r : MutationResult) : WireWriter → WireWriter :=
  steps [
    write_enum (mr_outcome r); write_enum (mr_reason r); write_structured_error (mr_error r);
    write_explanation (mr_explanation r); write_counter (mr_cluster_epoch r);
    write_counter (mr_coordinator_epoch r); write_counter (mr_cluster_generation r);
    write_counter (mr_membership_generation r); write_counter (mr_topology_epoch r);
    write_counter (mr_topology_generation r); write_counter (mr_connectivity_generation r);
    write_counter (mr_health_generation r); write_counter (mr_constraint_generation r);
    write_counter (mr_snapshot_generation r); write_counter (mr_publication_generation r);
    write_enum (mr_lifecycle r)].

Definition read_mutation_result (name : string) : WRead MutationResult :=
  outcome ← read_enum kMaxMutationOutcomeRaw name;
  reason ← read_enum kMaxRejectionReasonRaw name;
  error ← read_structured_error name;
  explanation ← read_explanation name;
  cluster_epoch ← read_counter name;
  coordinator_epoch ← read_counter name;
  cluster_generation ← read_counter name;
  membership_generation ← read_counter name;
  topology_epoch ← read_counter name;
  topology_generation ← read_counter name;
  connectivity_generation ← read_counter name;
  health_generation ← read_counter name;
  constraint_generation ← read_counter name;
  snapshot_generation ← read_counter name;
  publication_generation ← read_counter name;
  lifecycle ← read_enum kMaxClusterLifecycleRaw name;
  mret (MkResult outcome reason error explanation cluster_epoch coordinator_epoch
    cluster_generation membership_generation topology_epoch topology_generation
    connectivity_generation health_generation constraint_generation snapshot_generation
    publication_generation lifecycle).

Definition mutation_result_ok (r : MutationResult) : Prop :=
  structured_error_ok (mr_error r) ∧ explanation_ok (mr_explanation r) ∧
  counter_fits (mr_cluster_epoch r) ∧ counter_fits (mr_coordinator_epoch r) ∧
  counter_fits (mr_cluster_generation r) ∧ counter_fits (mr_membership_generation r) ∧
  counter_fits (mr_topology_epoch r) ∧ counter_fits (mr_topology_generation r) ∧
  counter_fits (mr_connectivity_generation r) ∧ counter_fits (mr_health_generation r) ∧
  counter_fits (mr_constraint_generation r) ∧ counter_fits (mr_snapshot_generation r) ∧
  counter_fits (mr_publication_generation r).

#[global] Instance codec_mutation_result name :
  Codec write_mutation_result (read_mutation_result name) mutation_result_ok 1.
Proof. wire_record write_mutation_result read_mutation_result mutation_result_ok. Qed.

Definition write_domain_generations (r : DomainGenerations) : WireWriter → WireWriter :=
  steps [
    write_counter (dg_placement r); write_counter (dg_capacity r);
    write_counter (dg_failure r); write_counter (dg_network r); write_counter (dg_storage r);
    write_counter (dg_power r); write_counter (dg_cooling r); write_counter (dg_link r)].

Definition read_domain_generations (name : string) : WRead DomainGenerations :=
  placement ← read_counter name;
  capacity ← read_counter name;
  failure ← read_counter name;
  network ← read_counter name;
  storage ← read_counter name;
  power ← read_counter name;
  cooling ← read_counter name;
  link ← read_counter name;
  mret (MkGenerations placement capacity failure network storage power cooling link).

Definition domain_generations_ok (r : DomainGenerations) : Prop :=
  counter_fits (dg_placement r) ∧ counter_fits (dg_capacity r) ∧ counter_fits (dg_failure r) ∧
  counter_fits (dg_network r) ∧ counter_fits (dg_storage r) ∧ counter_fits (dg_power r) ∧
  counter_fits (dg_cooling r) ∧ counter_fits (dg_link r).

#[global] Instance codec_domain_generations name :
  Codec write_domain_generations (read_domain_generations name) domain_generations_ok 1.
Proof. wire_record write_domain_generations read_domain_generations domain_generations_ok. Qed.

Definition write_rack_binding (r : RackGenerationBinding) : WireWriter → WireWriter :=
  steps [
    write_identity (rb_rack r); write_counter (rb_generation r); write_enum (rb_membership r);
    write_enum (rb_currentness r); write_bool (rb_authoritative_current r);
    write_identity (rb_boot r)].

Definition read_rack_binding (name : string) : WRead RackGenerationBinding :=
  rack ← read_identity_value name;
  generation ← read_counter name;
  membership ← read_enum kMaxRackMembershipStateRaw name;
  currentness ← read_enum kMaxRackCurrentnessRaw name;
  authoritative_current ← read_bool name;
  boot ← read_identity_value name;
  mret (MkBinding rack generation membership currentness authoritative_current boot).

Definition rack_binding_ok (r : RackGenerationBinding) : Prop :=
  known_id (rb_rack r) ∧ counter_fits (rb_generation r) ∧ known_id (rb_boot r).

#[global] Instance codec_rack_binding name :
  Codec write_rack_binding (read_rack_binding name) rack_binding_ok 1.
Proof. wire_record write_rack_binding read_rack_binding rack_binding_ok. Qed.

Definition write_snapshot_view (r : SnapshotView) : WireWriter → WireWriter :=
  steps [
    write_identity (vw_cluster r); write_counter (vw_cluster_epoch r);
    write_counter (vw_coordinator_epoch r); write_counter (vw_cluster_generation r);
    write_counter (vw_membership_generation r); write_counter (vw_topology_epoch r);
    write_counter (vw_topology_generation r); write_counter (vw_connectivity_generation r);
    write_counter (vw_health_generation r); write_counter (vw_constraint_generation r);
    write_domain_generations (vw_domain_generations r);
    write_counter (vw_snapshot_generation r); write_counter (vw_publication_generation r);
    write_enum (vw_lifecycle r);
    write_vector kMaxSnapshotRackRefs write_rack_binding (vw_rack_bindings r);
    write_text (vw_semantic_digest r); write_u64 (vw_rack_count r);
    write_u64 (vw_link_count r); write_u64 (vw_domain_count r)].

Definition read_snapshot_view (name : string) : WRead SnapshotView :=
  cluster ← read_identity_value name;
  cluster_epoch ← read_counter name;
  coordinator_epoch ← read_counter name;
  cluster_generation ← read_counter name;
  membership_generation ← read_counter name;
  topology_epoch ← read_counter name;
  topology_generation ← read_counter name;
  connectivity_generation ← read_counter name;
  health_generation ← read_counter name;
  constraint_generation ← read_counter name;
  domain_generations ← read_domain_generations name;
  snapshot_generation ← read_counter name;
  publication_generation ← read_counter name;
  lifecycle ← read_enum kMaxClusterLifecycleRaw name;
  rack_bindings ← read_vector kMaxSnapshotRackRefs name read_rack_binding;
  semantic_digest ← read_string name;
  rack_count ← read_size name;
  link_count ← read_size name;
  domain_count ← read_size name;
  mret (MkView cluster cluster_epoch coordinator_epoch cluster_generation membership_generation
    topology_epoch topology_generation connectivity_generation health_generation
    constraint_generation domain_generations snapshot_generation publication_generation lifecycle
    rack_bindings semantic_digest rack_count link_count domain_count).

Definition snapshot_view_ok (r : SnapshotView) : Prop :=
  known_id (vw_cluster r) ∧ counter_fits (vw_cluster_epoch r) ∧
  counter_fits (vw_coordinator_epoch r) ∧ counter_fits (vw_cluster_generation r) ∧
  counter_fits (vw_membership_generation r) ∧ counter_fits (vw_topology_epoch r) ∧
  counter_fits (vw_topology_generation r) ∧ counter_fits (vw_connectivity_generation r) ∧
  counter_fits (vw_health_generation r) ∧ counter_fits (vw_constraint_generation r) ∧
  domain_generations_ok (vw_domain_generations r) ∧ counter_fits (vw_snapshot_generation r) ∧
  counter_fits (vw_publication_generation r) ∧ Forall rack_binding_ok (vw_rack_bindings r) ∧
  fits 64 (vw_rack_count r) ∧ fits 64 (vw_link_count r) ∧ fits 64 (vw_domain_count r).

#[global] Instance codec_snapshot_view name :
  Codec write_snapshot_view (read_snapshot_view name) snapshot_view_ok 1.
Proof. wire_record write_snapshot_view read_snapshot_view snapshot_view_ok. Qed.

