(* ===== verification/WireMessages.v ===== *)
(** * Messages

    The sixteen message payloads of [src/protocol.cpp]: every payload is a
    version tag and a body, and a decoder that does not consume the whole
    payload fails. *)

From Stdlib Require Import NArith ZArith Lia.
From S2P Require Import Prelude Identity Counter Taxonomy Evidence Types Invariant Explain Snapshot.
From S2P Require Import Wire Codec WireStream WireRecords.

(** ** Message bodies *)

(** A snapshot validation on the wire.  The reader accepts the underlying value
    24 for a stale reason, which no enumerator of [SnapshotStaleReason] has, so
    the reasons are kept as underlying values. *)
Record WireValidation := MkWireValidation {
  wv_current : bool;
  wv_consumable : bool;
  wv_reasons : list N;
  wv_subjects : list string;
  wv_explanation : Explanation
}.

Definition wire_validation (v : SnapshotValidation) : WireValidation :=
  MkWireValidation (sv_current v) (sv_consumable v) (raw <$> sv_reasons v) (sv_subjects v)
    (sv_explanation v).

Record HelloMessage := MkHello {
  he_protocol_version : N;
  he_cluster : ClusterId;
  he_boot : RackAgentBootId;
  he_role : string;
  he_build : string
}.

Record HelloAckMessage := MkHelloAck {
  ha_protocol_version : N;
  ha_cluster : ClusterId;
  ha_coordinator_epoch : CoordinatorEpoch;
  ha_cluster_epoch : ClusterEpoch;
  ha_topology_epoch : TopologyEpoch;
  ha_topology_generation : TopologyGeneration;
  ha_lifecycle : ClusterLifecycle;
  ha_accepted : bool;
  ha_reason : RejectionReason;
  ha_detail : string
}.

Record RegisterPublisherMessage := MkRegister {
  rp_cluster : ClusterId;
  rp_authority : MutationAuthority;
  rp_publisher : RackPublisherId;
  rp_rack : RackId;
  rp_generation : RackGeneration;
  rp_rack_lifecycle : RackLifecycleState;
  rp_composition : RackCompositionSummary;
  rp_origin_label : string;
  rp_sent_at : Timestamp
}.

Record RegisterAckMessage := MkRegisterAck {
  ra_accepted : bool;
  ra_reason : RejectionReason;
  ra_coordinator_epoch : CoordinatorEpoch;
  ra_cluster_epoch : ClusterEpoch;
  ra_topology_epoch : TopologyEpoch;
  ra_topology_generation : TopologyGeneration;
  ra_membership_generation : MembershipGeneration;
  ra_detail : string
}.

Record HeartbeatMessage := MkHeartbeat {
  hb_cluster : ClusterId;
  hb_authority : MutationAuthority;
  hb_sent_at : Timestamp
}.

Record HeartbeatAckMessage := MkHeartbeatAck {
  hk_coordinator_epoch : CoordinatorEpoch;
  hk_cluster_epoch : ClusterEpoch;
  hk_topology_epoch : TopologyEpoch;
  hk_lifecycle : ClusterLifecycle;
  hk_accepted : bool;
  hk_reason : RejectionReason;
  hk_detail : string
}.

Record PublishRequestMessage := MkPublishRequest {
  pq_request : MutationRequest
}.

Record PublishResultMessage := MkPublishResult {
  pr_result : MutationResult
}.

Record SnapshotRequestMessage := MkSnapshotRequest {
  sq_cluster : ClusterId
}.

Record SnapshotResponseMessage := MkSnapshotResponse {
  sr_accepted : bool;
  sr_reason : RejectionReason;
  sr_detail : string;
  sr_view : SnapshotView
}.

Record ValidateSnapshotRequestMessage := MkValidateRequest {
  tq_view : SnapshotView
}.

Record ValidateSnapshotResponseMessage := MkValidateResponse {
  ts_validation : WireValidation
}.

Record RevalidateRequestMessage := MkRevalidateRequest {
  vq_cluster : ClusterId;
  vq_authority : MutationAuthority;
  vq_racks : list RackId
}.

Record RevalidateResponseMessage := MkRevalidateResponse {
  vs_accepted : bool;
  vs_reason : RejectionReason;
  vs_detail : string;
  vs_lifecycle : ClusterLifecycle;
  vs_readiness : ReadinessEvaluation
}.

Record ShutdownMessage := MkShutdown {
  sh_reason : string
}.

Record ErrorMessage := MkErrorMessage {
  em_error : StructuredError
}.

(** ** Bodies *)

Definition write_snapshot_validation (r : WireValidation) : WireWriter → WireWriter :=
  steps [
    write_bool (wv_current r); write_bool (wv_consumable r);
    write_raw_vector kMaxStaleReasons (wv_reasons r);
    write_vector kMaxDecodedRecords write_text (wv_subjects r);
    write_explanation (wv_explanation r)].

Definition read_snapshot_validation (name : string) : WRead WireValidation :=
  current ← read_bool name;
  consumable ← read_bool name;
  reasons ← read_raw_vector kMaxSnapshotStaleReasonRaw kMaxStaleReasons name;
  subjects ← read_string_vector kMaxDecodedRecords name;
  explanation ← read_explanation name;
  mret (MkWireValidation current consumable reasons subjects explanation).

Definition declared_raw (v : N) : Prop := (v <= kMaxSnapshotStaleReasonRaw)%N.

Definition snapshot_validation_ok (r : WireValidation) : Prop :=
  Forall declared_raw (wv_reasons r) ∧ explanation_ok (wv_explanation r).

#[global] Instance codec_stale_reasons name :
  Codec (write_raw_vector kMaxStaleReasons)
    (read_raw_vector kMaxSnapshotStaleReasonRaw kMaxStaleReasons name) (Forall declared_raw) 4.
Proof. apply codec_raw_vector; [done|apply _]. Qed.

#[global] Instance codec_snapshot_validation name :
  Codec write_snapshot_validation (read_snapshot_validation name) snapshot_validation_ok 1.
Proof. wire_record write_snapshot_validation read_snapshot_validation snapshot_validation_ok. Qed.

Definition write_hello (r : HelloMessage) : WireWriter → WireWriter :=
  steps [
    write_u16 (he_protocol_version r); write_identity (he_cluster r);
    write_identity (he_boot r); write_text (he_role r); write_text (he_build r)].

Definition read_hello (name : string) : WRead HelloMessage :=
  protocol_version ← read_u16 name;
  cluster ← read_identity_value name;
  boot ← read_identity_value name;
  role ← read_string name;
  build ← read_string name;
  mret (MkHello protocol_version cluster boot role build).

Definition hello_ok (r : HelloMessage) : Prop :=
  fits 16 (he_protocol_version r) ∧ known_id (he_cluster r) ∧ known_id (he_boot r).

#[global] Instance codec_hello name : Codec write_hello (read_hello name) hello_ok 1.
Proof. wire_record write_hello read_hello hello_ok. Qed.

Definition write_hello_ack (r : HelloAckMessage) : WireWriter → WireWriter :=
  steps [
    write_u16 (ha_protocol_version r); write_identity (ha_cluster r);
    write_counter (ha_coordinator_epoch r); write_counter (ha_cluster_epoch r);
    write_counter (ha_topology_epoch r); write_counter (ha_topology_generation r);
    write_enum (ha_lifecycle r); write_bool (ha_accepted r); write_enum (ha_reason r);
    write_text (ha_detail r)].

Definition read_hello_ack (name : string) : WRead HelloAckMessage :=
  protocol_version ← read_u16 name;
  cluster ← read_identity_value name;
  coordinator_epoch ← read_counter name;
  cluster_epoch ← read_counter name;
  topology_epoch ← read_counter name;
  topology_generation ← read_counter name;
  lifecycle ← read_enum kMaxClusterLifecycleRaw name;
  accepted ← read_bool name;
  reason ← read_enum kMaxRejectionReasonRaw name;
  detail ← read_string name;
  mret (MkHelloAck protocol_version cluster coordinator_epoch cluster_epoch topology_epoch
    topology_generation lifecycle accepted reason detail).

Definition hello_ack_ok (r : HelloAckMessage) : Prop :=
  fits 16 (ha_protocol_version r) ∧ known_id (ha_cluster r) ∧
  counter_fits (ha_coordinator_epoch r) ∧ counter_fits (ha_cluster_epoch r) ∧
  counter_fits (ha_topology_epoch r) ∧ counter_fits (ha_topology_generation r).

#[global] Instance codec_hello_ack name :
  Codec write_hello_ack (read_hello_ack name) hello_ack_ok 1.
Proof. wire_record write_hello_ack read_hello_ack hello_ack_ok. Qed.

Definition write_register_publisher (r : RegisterPublisherMessage) : WireWriter → WireWriter :=
  steps [
    write_identity (rp_cluster r); write_authority (rp_authority r);
    write_identity (rp_publisher r); write_identity (rp_rack r);
    write_counter (rp_generation r); write_enum (rp_rack_lifecycle r);
    write_composition (rp_composition r); write_text (rp_origin_label r);
    write_timestamp (rp_sent_at r)].

Definition read_register_publisher (name : string) : WRead RegisterPublisherMessage :=
  cluster ← read_identity_value name;
  authority ← read_authority name;
  publisher ← read_identity_value name;
  rack ← read_identity_value name;
  generation ← read_counter name;
  rack_lifecycle ← read_enum kMaxRackLifecycleStateRaw name;
  composition ← read_composition name;
  origin_label ← read_string name;
  sent_at ← read_timestamp name;
  mret (MkRegister cluster authority publisher rack generation rack_lifecycle composition
    origin_label sent_at).

Definition register_publisher_ok (r : RegisterPublisherMessage) : Prop :=
  known_id (rp_cluster r) ∧ authority_ok (rp_authority r) ∧ known_id (rp_publisher r) ∧
  known_id (rp_rack r) ∧ counter_fits (rp_generation r) ∧ composition_ok (rp_composition r) ∧
  timestamp_fits (rp_sent_at r).

#[global] Instance codec_register_publisher name :
  Codec write_register_publisher (read_register_publisher name) register_publisher_ok 1.
Proof. wire_record write_register_publisher read_register_publisher register_publisher_ok. Qed.

Definition write_register_ack (r : RegisterAckMessage) : WireWriter → WireWriter :=
  steps [
    write_bool (ra_accepted r); write_enum (ra_reason r);
    write_counter (ra_coordinator_epoch r); write_counter (ra_cluster_epoch r);
    write_counter (ra_topology_epoch r); write_counter (ra_topology_generation r);
    write_counter (ra_membership_generation r); write_text (ra_detail r)].

Definition read_register_ack (name : string) : WRead RegisterAckMessage :=
  accepted ← read_bool name;
  reason ← read_enum kMaxRejectionReasonRaw name;
  coordinator_epoch ← read_counter name;
  cluster_epoch ← read_counter name;
  topology_epoch ← read_counter name;
  topology_generation ← read_counter name;
  membership_generation ← read_counter name;
  detail ← read_string name;
  mret (MkRegisterAck accepted reason coordinator_epoch cluster_epoch topology_epoch
    topology_generation membership_generation detail).

Definition register_ack_ok (r : RegisterAckMessage) : Prop :=
  counter_fits (ra_coordinator_epoch r) ∧ counter_fits (ra_cluster_epoch r) ∧
  counter_fits (ra_topology_epoch r) ∧ counter_fits (ra_topology_generation r) ∧
  counter_fits (ra_membership_generation r).

#[global] Instance codec_register_ack name :
  Codec write_register_ack (read_register_ack name) register_ack_ok 1.
Proof. wire_record write_register_ack read_register_ack register_ack_ok. Qed.

Definition write_heartbeat (r : HeartbeatMessage) : WireWriter → WireWriter :=
  steps [
    write_identity (hb_cluster r); write_authority (hb_authority r);
    write_timestamp (hb_sent_at r)].

Definition read_heartbeat (name : string) : WRead HeartbeatMessage :=
  cluster ← read_identity_value name;
  authority ← read_authority name;
  sent_at ← read_timestamp name;
  mret (MkHeartbeat cluster authority sent_at).

Definition heartbeat_ok (r : HeartbeatMessage) : Prop :=
  known_id (hb_cluster r) ∧ authority_ok (hb_authority r) ∧ timestamp_fits (hb_sent_at r).

#[global] Instance codec_heartbeat name :
  Codec write_heartbeat (read_heartbeat name) heartbeat_ok 1.
Proof. wire_record write_heartbeat read_heartbeat heartbeat_ok. Qed.

Definition write_heartbeat_ack (r : HeartbeatAckMessage) : WireWriter → WireWriter :=
  steps [
    write_counter (hk_coordinator_epoch r); write_counter (hk_cluster_epoch r);
    write_counter (hk_topology_epoch r); write_enum (hk_lifecycle r);
    write_bool (hk_accepted r); write_enum (hk_reason r); write_text (hk_detail r)].

Definition read_heartbeat_ack (name : string) : WRead HeartbeatAckMessage :=
  coordinator_epoch ← read_counter name;
  cluster_epoch ← read_counter name;
  topology_epoch ← read_counter name;
  lifecycle ← read_enum kMaxClusterLifecycleRaw name;
  accepted ← read_bool name;
  reason ← read_enum kMaxRejectionReasonRaw name;
  detail ← read_string name;
  mret (MkHeartbeatAck coordinator_epoch cluster_epoch topology_epoch lifecycle accepted reason
    detail).

Definition heartbeat_ack_ok (r : HeartbeatAckMessage) : Prop :=
  counter_fits (hk_coordinator_epoch r) ∧ counter_fits (hk_cluster_epoch r) ∧
  counter_fits (hk_topology_epoch r).

#[global] Instance codec_heartbeat_ack name :
  Codec write_heartbeat_ack (read_heartbeat_ack name) heartbeat_ack_ok 1.
Proof. wire_record write_heartbeat_ack read_heartbeat_ack heartbeat_ack_ok. Qed.

Definition write_publish_request (r : PublishRequestMessage) : WireWriter → WireWriter :=
  steps [
    write_mutation_request (pq_request r)].

Definition read_publish_request (name : string) : WRead PublishRequestMessage :=
  request ← read_mutation_request name;
  mret (MkPublishRequest request).

Definition publish_request_ok (r : PublishRequestMessage) : Prop :=
  mutation_request_ok (pq_request r).

#[global] Instance codec_publish_request name :
  Codec write_publish_request (read_publish_request name) publish_request_ok 1.
Proof. wire_record write_publish_request read_publish_request publish_request_ok. Qed.

Definition write_publish_result (r : PublishResultMessage) : WireWriter → WireWriter :=
  steps [
    write_mutation_result (pr_result r)].

Definition read_publish_result (name : string) : WRead PublishResultMessage :=
  result ← read_mutation_result name;
  mret (MkPublishResult result).

Definition publish_result_ok (r : PublishResultMessage) : Prop :=
  mutation_result_ok (pr_result r).

#[global] Instance codec_publish_result name :
  Codec write_publish_result (read_publish_result name) publish_result_ok 1.
Proof. wire_record write_publish_result read_publish_result publish_result_ok. Qed.

Definition write_snapshot_request (r : SnapshotRequestMessage) : WireWriter → WireWriter :=
  steps [
    write_identity (sq_cluster r)].

Definition read_snapshot_request (name : string) : WRead SnapshotRequestMessage :=
  cluster ← read_identity_value name;
  mret (MkSnapshotRequest cluster).

Definition snapshot_request_ok (r : SnapshotRequestMessage) : Prop :=
  known_id (sq_cluster r).

#[global] Instance codec_snapshot_request name :
  Codec write_snapshot_request (read_snapshot_request name) snapshot_request_ok 1.
Proof. wire_record write_snapshot_request read_snapshot_request snapshot_request_ok. Qed.

Definition write_snapshot_response (r : SnapshotResponseMessage) : WireWriter → WireWriter :=
  steps [
    write_bool (sr_accepted r); write_enum (sr_reason r); write_text (sr_detail r);
    write_snapshot_view (sr_view r)].

Definition read_snapshot_response (name : string) : WRead SnapshotResponseMessage :=
  accepted ← read_bool name;
  reason ← read_enum kMaxRejectionReasonRaw name;
  detail ← read_string name;
  view ← read_snapshot_view name;
  mret (MkSnapshotResponse accepted reason detail view).

Definition snapshot_response_ok (r : SnapshotResponseMessage) : Prop :=
  snapshot_view_ok (sr_view r).

#[global] Instance codec_snapshot_response name :
  Codec write_snapshot_response (read_snapshot_response name) snapshot_response_ok 1.
Proof. wire_record write_snapshot_response read_snapshot_response snapshot_response_ok. Qed.

Definition write_validate_request (r : ValidateSnapshotRequestMessage) : WireWriter → WireWriter :=
  steps [
    write_snapshot_view (tq_view r)].

Definition read_validate_request (name : string) : WRead ValidateSnapshotRequestMessage :=
  view ← read_snapshot_view name;
  mret (MkValidateRequest view).

Definition validate_request_ok (r : ValidateSnapshotRequestMessage) : Prop :=
  snapshot_view_ok (tq_view r).

#[global] Instance codec_validate_request name :
  Codec write_validate_request (read_validate_request name) validate_request_ok 1.
Proof. wire_record write_validate_request read_validate_request validate_request_ok. Qed.

Definition write_validate_response (r : ValidateSnapshotResponseMessage) : WireWriter → WireWriter :=
  steps [
    write_snapshot_validation (ts_validation r)].

Definition read_validate_response (name : string) : WRead ValidateSnapshotResponseMessage :=
  validation ← read_snapshot_validation name;
  mret (MkValidateResponse validation).

Definition validate_response_ok (r : ValidateSnapshotResponseMessage) : Prop :=
  snapshot_validation_ok (ts_validation r).

#[global] Instance codec_validate_response name :
  Codec write_validate_response (read_validate_response name) validate_response_ok 1.
Proof. wire_record write_validate_response read_validate_response validate_response_ok. Qed.

Definition write_revalidate_request (r : RevalidateRequestMessage) : WireWriter → WireWriter :=
  steps [
    write_identity (vq_cluster r); write_authority (vq_authority r);
    write_identity_vector kMaxRacksPerCluster (vq_racks r)].

Definition read_revalidate_request (name : string) : WRead RevalidateRequestMessage :=
  cluster ← read_identity_value name;
  authority ← read_authority name;
  racks ← read_identity_vector kMaxRacksPerCluster name;
  mret (MkRevalidateRequest cluster authority racks).

Definition revalidate_request_ok (r : RevalidateRequestMessage) : Prop :=
  known_id (vq_cluster r) ∧ authority_ok (vq_authority r) ∧ Forall known_id (vq_racks r).

#[global] Instance codec_revalidate_request name :
  Codec write_revalidate_request (read_revalidate_request name) revalidate_request_ok 1.
Proof. wire_record write_revalidate_request read_revalidate_request revalidate_request_ok. Qed.

Definition write_revalidate_response (r : RevalidateResponseMessage) : WireWriter → WireWriter :=
  steps [
    write_bool (vs_accepted r); write_enum (vs_reason r); write_text (vs_detail r);
    write_enum (vs_lifecycle r); write_readiness_evaluation (vs_readiness r)].

Definition read_revalidate_response (name : string) : WRead RevalidateResponseMessage :=
  accepted ← read_bool name;
  reason ← read_enum kMaxRejectionReasonRaw name;
  detail ← read_string name;
  lifecycle ← read_enum kMaxClusterLifecycleRaw name;
  readiness ← read_readiness_evaluation name;
  mret (MkRevalidateResponse accepted reason detail lifecycle readiness).

Definition revalidate_response_ok (r : RevalidateResponseMessage) : Prop :=
  readiness_evaluation_ok (vs_readiness r).

#[global] Instance codec_revalidate_response name :
  Codec write_revalidate_response (read_revalidate_response name) revalidate_response_ok 1.
Proof. wire_record write_revalidate_response read_revalidate_response revalidate_response_ok. Qed.

Definition write_shutdown (r : ShutdownMessage) : WireWriter → WireWriter :=
  steps [
    write_text (sh_reason r)].

Definition read_shutdown (name : string) : WRead ShutdownMessage :=
  reason ← read_string name;
  mret (MkShutdown reason).

Definition shutdown_ok (r : ShutdownMessage) : Prop := True.

#[global] Instance codec_shutdown name : Codec write_shutdown (read_shutdown name) shutdown_ok 1.
Proof. wire_record write_shutdown read_shutdown shutdown_ok. Qed.

Definition write_error_message (r : ErrorMessage) : WireWriter → WireWriter :=
  steps [
    write_structured_error (em_error r)].

Definition read_error_message (name : string) : WRead ErrorMessage :=
  error ← read_structured_error name;
  mret (MkErrorMessage error).

Definition error_message_ok (r : ErrorMessage) : Prop :=
  structured_error_ok (em_error r).

#[global] Instance codec_error_message name :
  Codec write_error_message (read_error_message name) error_message_ok 1.
Proof. wire_record write_error_message read_error_message error_message_ok. Qed.

(** ** Payloads *)

Record DecodeOutcome := MkDecodeOutcome { do_status : ProtocolStatus; do_error : StructuredError }.

Definition decoded : DecodeOutcome := MkDecodeOutcome Wire_Ok no_error.
Definition do_ok (o : DecodeOutcome) : bool := bool_decide (do_status o = Wire_Ok).

Definition lower_char (c : ascii) : ascii :=
  if (code "A" <=? code c)%N && (code c <=? code "Z")%N then char_of (code c - code "A" + code "a") else c.

Definition reason_code (status : ProtocolStatus) : string :=
  of_chars (lower_char <$> chars (string_of_protocol_status status)).

(** The failure helper [decode_error(status, subject, message)]. *)
Definition decode_failure (status : ProtocolStatus) (subject message : string) : DecodeOutcome :=
  MkDecodeOutcome status
    ((error_make EC_Protocol ES_Decode (reason_code status) message) <| er_subject := subject |>).

Definition make_decode_error (w : WireReader) (subject : string) : DecodeOutcome :=
  let status := if decide (wr_status w = Wire_Ok) then br_status (wr_reader w) else wr_status w in
  decode_failure status subject
    ("field " +:+ (if is_empty (wr_field w) then "<payload>" else wr_field w) +:+ " was rejected").

Definition trailing_garbage (remaining : N) (subject : string) : DecodeOutcome :=
  decode_failure Wire_TrailingGarbage subject
    (to_decimal remaining +:+ " byte(s) remain after the message payload").

Definition finish_payload (w : WireWriter) : bytes :=
  if negb (good w) then [] else bw_data (ww_writer w).

Definition fresh_writer : WireWriter := MkWireWriter empty_writer true.

Definition encode_message {M} (write_body : M → WireWriter → WireWriter) (message : M) : bytes :=
  finish_payload (write_body message (write_version_tag fresh_writer)).

Definition decode_message {M} (subject : string) (read_body : WRead M) (payload : bytes) :
    DecodeOutcome * option M :=
  match read_version_tag "version" (start payload) with
  | (None, w) => (make_decode_error w subject, None)
  | (Some _, w) =>
      match read_body w with
      | (None, w) => (make_decode_error w subject, None)
      | (Some message, w) =>
          if negb (exhausted (wr_reader w))
          then (trailing_garbage (remaining (wr_reader w)) subject, None)
          else (decoded, Some message)
      end
  end.

Definition encode_hello : HelloMessage → bytes := encode_message write_hello.
Definition decode_hello : bytes → DecodeOutcome * option HelloMessage :=
  decode_message "hello" (read_hello "hello").

Definition encode_hello_ack : HelloAckMessage → bytes := encode_message write_hello_ack.
Definition decode_hello_ack : bytes → DecodeOutcome * option HelloAckMessage :=
  decode_message "hello_ack" (read_hello_ack "hello_ack").

Definition encode_register_publisher : RegisterPublisherMessage → bytes := encode_message write_register_publisher.
Definition decode_register_publisher : bytes → DecodeOutcome * option RegisterPublisherMessage :=
  decode_message "register_publisher" (read_register_publisher "register_publisher").

Definition encode_register_ack : RegisterAckMessage → bytes := encode_message write_register_ack.
Definition decode_register_ack : bytes → DecodeOutcome * option RegisterAckMessage :=
  decode_message "register_ack" (read_register_ack "register_ack").

Definition encode_publish_request : PublishRequestMessage → bytes := encode_message write_publish_request.
Definition decode_publish_request : bytes → DecodeOutcome * option PublishRequestMessage :=
  decode_message "publish_request" (read_publish_request "publish_request").

Definition encode_publish_result : PublishResultMessage → bytes := encode_message write_publish_result.
Definition decode_publish_result : bytes → DecodeOutcome * option PublishResultMessage :=
  decode_message "publish_result" (read_publish_result "publish_result").

Definition encode_heartbeat : HeartbeatMessage → bytes := encode_message write_heartbeat.
Definition decode_heartbeat : bytes → DecodeOutcome * option HeartbeatMessage :=
  decode_message "heartbeat" (read_heartbeat "heartbeat").

Definition encode_heartbeat_ack : HeartbeatAckMessage → bytes := encode_message write_heartbeat_ack.
Definition decode_heartbeat_ack : bytes → DecodeOutcome * option HeartbeatAckMessage :=
  decode_message "heartbeat_ack" (read_heartbeat_ack "heartbeat_ack").

Definition encode_snapshot_request : SnapshotRequestMessage → bytes := encode_message write_snapshot_request.
Definition decode_snapshot_request : bytes → DecodeOutcome * option SnapshotRequestMessage :=
  decode_message "snapshot_request" (read_snapshot_request "snapshot_request").

Definition encode_snapshot_response : SnapshotResponseMessage → bytes := encode_message write_snapshot_response.
Definition decode_snapshot_response : bytes → DecodeOutcome * option SnapshotResponseMessage :=
  decode_message "snapshot_response" (read_snapshot_response "snapshot_response").

Definition encode_validate_request : ValidateSnapshotRequestMessage → bytes := encode_message write_validate_request.
Definition decode_validate_request : bytes → DecodeOutcome * option ValidateSnapshotRequestMessage :=
  decode_message "validate_snapshot_request" (read_validate_request "validate_snapshot_request").

Definition encode_validate_response : ValidateSnapshotResponseMessage → bytes := encode_message write_validate_response.
Definition decode_validate_response : bytes → DecodeOutcome * option ValidateSnapshotResponseMessage :=
  decode_message "validate_snapshot_response" (read_validate_response "validate_snapshot_response").

Definition encode_revalidate_request : RevalidateRequestMessage → bytes := encode_message write_revalidate_request.
Definition decode_revalidate_request : bytes → DecodeOutcome * option RevalidateRequestMessage :=
  decode_message "revalidate_request" (read_revalidate_request "revalidate_request").

Definition encode_revalidate_response : RevalidateResponseMessage → bytes := encode_message write_revalidate_response.
Definition decode_revalidate_response : bytes → DecodeOutcome * option RevalidateResponseMessage :=
  decode_message "revalidate_response" (read_revalidate_response "revalidate_response").

Definition encode_shutdown : ShutdownMessage → bytes := encode_message write_shutdown.
Definition decode_shutdown : bytes → DecodeOutcome * option ShutdownMessage :=
  decode_message "shutdown" (read_shutdown "shutdown").

Definition encode_error : ErrorMessage → bytes := encode_message write_error_message.
Definition decode_error : bytes → DecodeOutcome * option ErrorMessage :=
  decode_message "error" (read_error_message "error").

(** The payload of each message type. *)
Inductive Payload :=
  | P_Hello (message : HelloMessage)
  | P_HelloAck (message : HelloAckMessage)
  | P_RegisterPublisher (message : RegisterPublisherMessage)
  | P_RegisterAck (message : RegisterAckMessage)
  | P_PublishRequest (message : PublishRequestMessage)
  | P_PublishResult (message : PublishResultMessage)
  | P_Heartbeat (message : HeartbeatMessage)
  | P_HeartbeatAck (message : HeartbeatAckMessage)
  | P_SnapshotRequest (message : SnapshotRequestMessage)
  | P_SnapshotResponse (message : SnapshotResponseMessage)
  | P_ValidateSnapshotRequest (message : ValidateSnapshotRequestMessage)
  | P_ValidateSnapshotResponse (message : ValidateSnapshotResponseMessage)
  | P_RevalidateRequest (message : RevalidateRequestMessage)
  | P_RevalidateResponse (message : RevalidateResponseMessage)
  | P_Shutdown (message : ShutdownMessage)
  | P_Error (message : ErrorMessage).

Definition payload_type (p : Payload) : MessageType :=
  match p with
  | P_Hello _ => Msg_Hello
  | P_HelloAck _ => Msg_HelloAck
  | P_RegisterPublisher _ => Msg_RegisterPublisher
  | P_RegisterAck _ => Msg_RegisterAck
  | P_PublishRequest _ => Msg_PublishRequest
  | P_PublishResult _ => Msg_PublishResult
  | P_Heartbeat _ => Msg_Heartbeat
  | P_HeartbeatAck _ => Msg_HeartbeatAck
  | P_SnapshotRequest _ => Msg_SnapshotRequest
  | P_SnapshotResponse _ => Msg_SnapshotResponse
  | P_ValidateSnapshotRequest _ => Msg_ValidateSnapshotRequest
  | P_ValidateSnapshotResponse _ => Msg_ValidateSnapshotResponse
  | P_RevalidateRequest _ => Msg_RevalidateRequest
  | P_RevalidateResponse _ => Msg_RevalidateResponse
  | P_Shutdown _ => Msg_Shutdown
  | P_Error _ => Msg_Error
  end.

Definition encode_payload (p : Payload) : bytes :=
  match p with
  | P_Hello m => encode_hello m
  | P_HelloAck m => encode_hello_ack m
  | P_RegisterPublisher m => encode_register_publisher m
  | P_RegisterAck m => encode_register_ack m
  | P_PublishRequest m => encode_publish_request m
  | P_PublishResult m => encode_publish_result m
  | P_Heartbeat m => encode_heartbeat m
  | P_HeartbeatAck m => encode_heartbeat_ack m
  | P_SnapshotRequest m => encode_snapshot_request m
  | P_SnapshotResponse m => encode_snapshot_response m
  | P_ValidateSnapshotRequest m => encode_validate_request m
  | P_ValidateSnapshotResponse m => encode_validate_response m
  | P_RevalidateRequest m => encode_revalidate_request m
  | P_RevalidateResponse m => encode_revalidate_response m
  | P_Shutdown m => encode_shutdown m
  | P_Error m => encode_error m
  end.

(** The decoder a message type selects. *)
Definition decode_payload (type : MessageType) (payload : bytes) : option Payload :=
  match type with
  | Msg_Invalid => None
  | Msg_Hello => P_Hello <$> snd (decode_hello payload)
  | Msg_HelloAck => P_HelloAck <$> snd (decode_hello_ack payload)
  | Msg_RegisterPublisher => P_RegisterPublisher <$> snd (decode_register_publisher payload)
  | Msg_RegisterAck => P_RegisterAck <$> snd (decode_register_ack payload)
  | Msg_PublishRequest => P_PublishRequest <$> snd (decode_publish_request payload)
  | Msg_PublishResult => P_PublishResult <$> snd (decode_publish_result payload)
  | Msg_Heartbeat => P_Heartbeat <$> snd (decode_heartbeat payload)
  | Msg_HeartbeatAck => P_HeartbeatAck <$> snd (decode_heartbeat_ack payload)
  | Msg_SnapshotRequest => P_SnapshotRequest <$> snd (decode_snapshot_request payload)
  | Msg_SnapshotResponse => P_SnapshotResponse <$> snd (decode_snapshot_response payload)
  | Msg_ValidateSnapshotRequest => P_ValidateSnapshotRequest <$> snd (decode_validate_request payload)
  | Msg_ValidateSnapshotResponse => P_ValidateSnapshotResponse <$> snd (decode_validate_response payload)
  | Msg_RevalidateRequest => P_RevalidateRequest <$> snd (decode_revalidate_request payload)
  | Msg_RevalidateResponse => P_RevalidateResponse <$> snd (decode_revalidate_response payload)
  | Msg_Shutdown => P_Shutdown <$> snd (decode_shutdown payload)
  | Msg_Error => P_Error <$> snd (decode_error payload)
  end.

(** What a payload must satisfy to survive the wire. *)
Definition payload_ok (p : Payload) : Prop :=
  match p with
  | P_Hello m => hello_ok m
  | P_HelloAck m => hello_ack_ok m
  | P_RegisterPublisher m => register_publisher_ok m
  | P_RegisterAck m => register_ack_ok m
  | P_PublishRequest m => publish_request_ok m
  | P_PublishResult m => publish_result_ok m
  | P_Heartbeat m => heartbeat_ok m
  | P_HeartbeatAck m => heartbeat_ack_ok m
  | P_SnapshotRequest m => snapshot_request_ok m
  | P_SnapshotResponse m => snapshot_response_ok m
  | P_ValidateSnapshotRequest m => validate_request_ok m
  | P_ValidateSnapshotResponse m => validate_response_ok m
  | P_RevalidateRequest m => revalidate_request_ok m
  | P_RevalidateResponse m => revalidate_response_ok m
  | P_Shutdown m => shutdown_ok m
  | P_Error m => error_message_ok m
  end.

(** ** Payloads and their encodings *)

Lemma data_fresh : bw_data (ww_writer fresh_writer) = [].
Proof. done. Qed.

#[global] Instance codec_version name :
  Codec (λ _ : unit, write_version_tag) (read_version_tag name) always 2.
Proof.
  apply (codec_checked write_u16 (read_u16 name) (fits 16) 2 (λ _, kProtocolVersion)).
  - intros [] _. split; [|done]. vm_compute. reflexivity.
  - intros v [] _. destruct (N.eqb_spec v kProtocolVersion); [|done]. intros _. split; [exact I|done].
Qed.

#[local] Transparent emits consumed.

Lemma encode_decode {M} (wr : M → WireWriter → WireWriter) (rd : WRead M) ok n subject m :
  Codec wr rd ok n → ok m → encode_message wr m ≠ [] →
  decode_message subject rd (encode_message wr m) = (decoded, Some m).
Proof.
  intros Hc Hm. unfold encode_message, finish_payload.
  destruct (good (wr m (write_version_tag fresh_writer))) eqn:Hg; cbn [negb]; [|done]. intros _.
  destruct (codec_emits Hc m _ Hm Hg) as (Hg1&bs2&_&Hd2&Hr2).
  destruct (codec_emits (codec_version "version") () fresh_writer I Hg1) as (_&bs1&_&Hd1&Hr1).
  cbn [sink_data wire_sink] in *. rewrite Hd2, Hd1, data_fresh. cbn [app].
  unfold decode_message. rewrite Hr1. rewrite <-(app_nil_r bs2), Hr2. done.
Qed.

Lemma decode_encode {M} (wr : M → WireWriter → WireWriter) (rd : WRead M) ok n subject payload m :
  Codec wr rd ok n → (size payload <= kMaxWriterBytes)%N →
  snd (decode_message subject rd payload) = Some m → ok m ∧ encode_message wr m = payload.
Proof.
  intros Hc Hs. unfold decode_message.
  destruct (read_version_tag "version" (start payload)) as [[[]|] w1] eqn:E1; [|done].
  destruct (rd w1) as [[m'|] w2] eqn:E2; [|done].
  destruct (exhausted (wr_reader w2)) eqn:Ex; [|done]. intros [= ->].
  destruct (codec_consumed (codec_version "version") _ _ _ E1) as [_ (bs1&rest1&->&->&Hw1)].
  destruct (codec_consumed Hc _ _ _ E2) as [Hm (bs2&rest2&->&->&Hw2)]. split; [done|].
  unfold exhausted in Ex. apply bool_decide_eq_true in Ex. cbn in Ex. subst rest2.
  rewrite app_nil_r in *. unfold size in Hs. rewrite length_app in Hs.
  destruct (Hw1 fresh_writer) as [Hg1 Hd1]; [done|unfold size; cbn; lia|].
  destruct (Hw2 (write_version_tag fresh_writer) Hg1) as [Hg2 Hd2].
  { rewrite Hd1. unfold size. rewrite length_app. cbn. lia. }
  cbn [sink_data sink_good wire_sink] in *. unfold encode_message, finish_payload.
  rewrite Hg2. cbn [negb]. by rewrite Hd2, Hd1.
Qed.

#[global] Opaque emits consumed.

Section payloads.
  Context {M : Type} (wr : M → WireWriter → WireWriter) (rd : WRead M) (ok : M → Prop) (n : nat).
  Context `{!Codec wr rd ok n} (subject : string) (wrap : M → Payload).

(** Decoding answers exactly the messages that encode to the payload. *)
Lemma decode_exact payload p :
  (size payload <= kMaxWriterBytes)%N →
  wrap <$> snd (decode_message subject rd payload) = Some p ↔
  ∃ m, p = wrap m ∧ ok m ∧ encode_message wr m = payload ∧ payload ≠ [].
Proof using All.
  intros Hs. rewrite fmap_Some. split.
  - intros (m&Hd&->). exists m. destruct (decode_encode wr rd ok n subject payload m _ Hs Hd) as [Hm He].
    split_and!; [done..|]. intros ->. by unfold decode_message in Hd.
  - intros (m&->&Hm&<-&Hne). exists m. by rewrite (encode_decode wr rd ok n).
Qed.
End payloads.


#[local] Strategy 1000 [encode_message decode_message].

(** One message type: the decoder it selects is exact. *)
Ltac payload_case dec codec p :=
  unfold dec; etransitivity; [eapply (decode_exact _ _ _ _ (Codec0 := codec _)); assumption|]; split;
  [ intros (m&->&H1&H2&H3); cbn [payload_type payload_ok encode_payload];
    split; [reflexivity|split; [exact H1|split; [exact H2|exact H3]]]
  | destruct p as [m|m|m|m|m|m|m|m|m|m|m|m|m|m|m|m]; intros (Ht&H1&H2&H3); try discriminate Ht;
    exists m; cbn [payload_ok encode_payload] in H1, H2;
    split; [reflexivity|split; [exact H1|split; [exact H2|exact H3]]] ].

Lemma decode_payload_exact type payload p :
  (size payload <= kMaxWriterBytes)%N →
  decode_payload type payload = Some p ↔
  payload_type p = type ∧ payload_ok p ∧ encode_payload p = payload ∧ payload ≠ [].
Proof.
  intros Hs. destruct type; cbn [decode_payload].
  - split; [done|]. intros [Ht _]. by destruct p.
  - payload_case decode_hello codec_hello p.
  - payload_case decode_hello_ack codec_hello_ack p.
  - payload_case decode_register_publisher codec_register_publisher p.
  - payload_case decode_register_ack codec_register_ack p.
  - payload_case decode_publish_request codec_publish_request p.
  - payload_case decode_publish_result codec_publish_result p.
  - payload_case decode_heartbeat codec_heartbeat p.
  - payload_case decode_heartbeat_ack codec_heartbeat_ack p.
  - payload_case decode_snapshot_request codec_snapshot_request p.
  - payload_case decode_snapshot_response codec_snapshot_response p.
  - payload_case decode_validate_request codec_validate_request p.
  - payload_case decode_validate_response codec_validate_response p.
  - payload_case decode_revalidate_request codec_revalidate_request p.
  - payload_case decode_revalidate_response codec_revalidate_response p.
  - payload_case decode_shutdown codec_shutdown p.
  - payload_case decode_error codec_error_message p.
Qed.

(** C25: decoding is the exact inverse of encoding.  A payload of a message type
    decodes to a message exactly when that message is of that type, its
    identities parse and its integers fit their width, and it encodes to that
    very payload.  So whatever is encoded is read back, a decoder never answers
    a malformed value, and no two payloads decode to the same message. *)
Theorem payload_codec_exact type payload p :
  (size payload <= kMaxWriterBytes)%N →
  decode_payload type payload = Some p ↔
  payload_type p = type ∧ payload_ok p ∧ encode_payload p = payload ∧ payload ≠ [].
Proof. apply decode_payload_exact. Qed.

(** A heartbeat of the scenario's shape. *)
Definition sample_heartbeat : Payload :=
  P_Heartbeat (MkHeartbeat (MkId "demo")
    (MkAuthority (MkCtr 1) (MkCtr 2) (MkCtr 1) (MkCtr 1) (Some (MkId "boot-a")) None
       (Some (MkId "rack-a")) (Some (MkCtr 7)) (MkCtr 3)) (MkTs (-5))).

Lemma payload_codec_exact_witness :
  decode_payload Msg_Heartbeat (encode_payload sample_heartbeat) = Some sample_heartbeat ↔
  payload_type sample_heartbeat = Msg_Heartbeat ∧ payload_ok sample_heartbeat ∧
  encode_payload sample_heartbeat = encode_payload sample_heartbeat ∧
  encode_payload sample_heartbeat ≠ [].
Proof.
  refine (payload_codec_exact Msg_Heartbeat (encode_payload sample_heartbeat) sample_heartbeat _).
  vm_compute. discriminate.
Defined.

Example sample_heartbeat_decodes :
  decode_payload Msg_Heartbeat (encode_payload sample_heartbeat) = Some sample_heartbeat.
Proof. vm_compute. reflexivity. Qed.
