(* ===== verification/WireShared.v ===== *)
(** * Values embedded in other streams

    The codecs of [src/protocol.cpp] that append a versioned request, result,
    snapshot view or error to a writer of the caller, and read one from a reader
    of the caller. *)

From Stdlib Require Import NArith ZArith Lia.
From S2P Require Import Prelude Identity Counter Taxonomy Evidence Types Invariant Explain Snapshot.
From S2P Require Import Wire Codec WireStream WireRecords WireMessages.

(** Whether the value could be written, and the writer. *)
Definition encode_shared {A} (write_one : A → WireWriter → WireWriter) (value : A)
    (writer : ByteWriter) : bool * ByteWriter :=
  let w := write_one value (write_version_tag (MkWireWriter writer true)) in (good w, ww_writer w).

Definition decode_shared {A} (subject : string) (read_one : string → WRead A) (reader : ByteReader) :
    DecodeOutcome * option A * ByteReader :=
  match read_version_tag subject (MkWireReader reader Wire_Ok "") with
  | (None, w) => (make_decode_error w subject, None, wr_reader w)
  | (Some _, w) =>
      match read_one subject w with
      | (None, w) => (make_decode_error w subject, None, wr_reader w)
      | (Some value, w) => (decoded, Some value, wr_reader w)
      end
  end.

Definition encode_mutation_request := encode_shared write_mutation_request.
Definition decode_mutation_request := decode_shared "mutation_request" read_mutation_request.
Definition encode_mutation_result := encode_shared write_mutation_result.
Definition decode_mutation_result := decode_shared "mutation_result" read_mutation_result.
Definition encode_snapshot_view := encode_shared write_snapshot_view.
Definition decode_snapshot_view := decode_shared "snapshot_view" read_snapshot_view.
Definition encode_structured_error := encode_shared write_structured_error.
Definition decode_structured_error := decode_shared "structured_error" read_structured_error.

#[local] Transparent emits.

(** What a value appends to the writer is read back, whatever follows, and the
    reader is left at what follows. *)
Lemma shared_round_trip {A} (wr : A → WireWriter → WireWriter) (rd : string → WRead A) ok n subject
    (a : A) writer :
  Codec wr (rd subject) ok n → ok a → (encode_shared wr a writer).1 = true →
  ∃ bs, bw_data (encode_shared wr a writer).2 = bw_data writer ++ bs ∧
    ∀ rest, decode_shared subject rd (reader_of (bs ++ rest)) = (decoded, Some a, reader_of rest).
Proof.
  intros Hc Ha. unfold encode_shared. cbn [fst snd]. intros Hg.
  destruct (codec_emits Hc a _ Ha Hg) as (Hg1&bs2&_&Hd2&Hr2).
  destruct (codec_emits (codec_version subject) () (MkWireWriter writer true) (always_intro _) Hg1)
    as (_&bs1&_&Hd1&Hr1).
  cbn [sink_data wire_sink ww_writer] in *. exists (bs1 ++ bs2).
  split; [by rewrite Hd2, Hd1, (assoc_L (++))|]. intros rest. unfold decode_shared.
  specialize (Hr1 (bs2 ++ rest)). rewrite <-(assoc_L (++)). cbn [start wire_source] in Hr1, Hr2.
  setoid_rewrite Hr1. setoid_rewrite Hr2. done.
Qed.

#[local] Opaque emits.

Lemma mutation_request_shared r writer :
  mutation_request_ok r → (encode_mutation_request r writer).1 = true →
  ∃ bs, bw_data (encode_mutation_request r writer).2 = bw_data writer ++ bs ∧
    ∀ rest, decode_mutation_request (reader_of (bs ++ rest)) = (decoded, Some r, reader_of rest).
Proof. by eapply shared_round_trip, codec_mutation_request. Qed.

Lemma mutation_result_shared r writer :
  mutation_result_ok r → (encode_mutation_result r writer).1 = true →
  ∃ bs, bw_data (encode_mutation_result r writer).2 = bw_data writer ++ bs ∧
    ∀ rest, decode_mutation_result (reader_of (bs ++ rest)) = (decoded, Some r, reader_of rest).
Proof. by eapply shared_round_trip, codec_mutation_result. Qed.
