(* ===== verification/Frame.v ===== *)
(** * Frames

    The checksum and the framing of [src/protocol.cpp]: a 28-byte header of
    magic, version, type, flags, sequence, payload length and checksum, then the
    payload.  The checksum covers the 24 header bytes before it and the
    payload. *)

From Stdlib Require Import NArith ZArith Lia.
From S2P Require Import Prelude Identity Counter Taxonomy Types Wire Codec WireStream WireMessages.

(** ** CRC32 *)

Definition crc_polynomial : N := 3988292384.

(** One turn of the inner loop of [make_crc32_table]. *)
Definition crc_bit (crc : N) : N :=
  if (N.land crc 1 =? 0)%N then N.shiftr crc 1 else N.lxor (N.shiftr crc 1) crc_polynomial.

Definition make_crc32_table : list N :=
  (λ index, Nat.iter 8 crc_bit (N.of_nat index)) <$> seq 0 256.

Definition kCrc32Table : list N := Eval vm_compute in make_crc32_table.

(** The entry of the table at an index below 256. *)
Definition crc_entry (index : N) : N := default 0%N (kCrc32Table !! N.to_nat index).

(** One byte: the low byte of [crc] and the byte select a table entry. *)
Definition crc32_step (crc : N) (c : ascii) : N :=
  N.lxor (N.shiftr crc 8) (crc_entry (N.land (N.lxor crc (code c)) 255)).

Definition crc32_extend (crc : N) (data : bytes) : N := foldl crc32_step crc data.

Definition crc32 (data : bytes) : N := N.lxor (crc32_extend u32_max data) u32_max.

(** ** Frames *)

Definition kProtocolMagic : N := 826691651.
Definition kFrameHeaderSize : N := 28.
Definition kAbsoluteMaxFramePayloadBytes : N := 16777216.
Definition kMaxFramePayloadBytes : N := 1048576.
Definition kMaxMessageTypeRaw : N := 16.

Definition bounded_payload (max_payload : N) : N :=
  if (kAbsoluteMaxFramePayloadBytes <? max_payload)%N then kAbsoluteMaxFramePayloadBytes
  else max_payload.

(** The type is a [std::uint16_t]; a header may carry one that is not declared. *)
Record FrameHeader := MkFrameHeader {
  hd_magic : N;
  hd_version : N;
  hd_type : N;
  hd_flags : N;
  hd_sequence : N;
  hd_payload_length : N;
  hd_checksum : N
}.

Record FrameOutcome := MkFrameOutcome {
  fo_status : ProtocolStatus;
  fo_header : FrameHeader;
  fo_payload : bytes;
  fo_consumed : N;
  fo_error : StructuredError
}.

Definition no_frame : FrameOutcome :=
  MkFrameOutcome Wire_Ok (MkFrameHeader 0 0 0 0 0 0 0) [] 0 no_error.

Definition frame_failure (outcome : FrameOutcome) (status : ProtocolStatus)
    (subject message : string) : FrameOutcome :=
  MkFrameOutcome status (fo_header outcome) [] 0
    ((error_make EC_Protocol ES_Decode (reason_code status) message) <| er_subject := subject |>).

Definition frame_error (status : ProtocolStatus) (subject message : string) : FrameOutcome :=
  frame_failure no_frame status subject message.

Definition frame_header (type sequence flags length : N) : ByteWriter :=
  steps [w_u32 kProtocolMagic; w_u16 kProtocolVersion; w_u16 type; w_u32 flags; w_u64 sequence;
         w_u32 length] empty_writer.

Definition encode_frame (type : MessageType) (sequence : N) (payload : bytes) (flags : N)
    (max_payload : N) : bytes :=
  if (bounded_payload max_payload <? size payload)%N then [] else
  let header := frame_header (raw type) sequence flags (size payload) in
  if negb (bw_ok header) || negb (size (bw_data header) =? kFrameHeaderSize - 4)%N then [] else
  let frame := bw_data header ++ payload in
  let checksum := crc32 frame in
  let raw_checksum :=
    (λ index, char_of (N.land (N.shiftr checksum (N.of_nat index * 8)) 255)) <$> seq 0 4 in
  take 24 frame ++ raw_checksum ++ drop 24 frame.

Definition read_frame_header : Read FrameHeader :=
  magic ← r_u32; version ← r_u16; type ← r_u16; flags ← r_u32; sequence ← r_u64;
  payload_length ← r_u32; checksum ← r_u32;
  mret (MkFrameHeader magic version type flags sequence payload_length checksum).

Definition decode_frame (data : bytes) (max_payload : N) : FrameOutcome :=
  let bounded_max := bounded_payload max_payload in
  if (size data <? kFrameHeaderSize)%N then
    frame_error Wire_TruncatedHeader "frame" "fewer than 28 bytes are available for a frame header"
  else
  match read_frame_header (reader_of data) with
  | (None, _) => frame_error Wire_TruncatedHeader "frame" "frame header is truncated"
  | (Some header, reader) =>
    let outcome := MkFrameOutcome Wire_Ok header [] 0 no_error in
    if negb (hd_magic header =? kProtocolMagic)%N then
      frame_failure outcome Wire_BadMagic "frame" "frame magic does not match CPF1" else
    if negb (hd_version header =? kProtocolVersion)%N then
      frame_failure outcome Wire_UnsupportedVersion "frame"
        ("frame protocol version " +:+ to_decimal (hd_version header) +:+ " is not supported") else
    if (kMaxMessageTypeRaw <? hd_type header mod 256)%N then
      frame_failure outcome Wire_UnknownMessage "frame"
        ("frame message type " +:+ to_decimal (hd_type header) +:+ " is not declared") else
    if (bounded_max <? hd_payload_length header)%N then
      frame_failure outcome Wire_OversizedFrame "frame"
        ("declared payload length " +:+ to_decimal (hd_payload_length header) +:+
         " exceeds the configured maximum " +:+ to_decimal bounded_max) else
    if (remaining reader <? hd_payload_length header)%N then
      frame_failure outcome Wire_TruncatedPayload "frame"
        ("declared payload length " +:+ to_decimal (hd_payload_length header) +:+
         " exceeds the available bytes") else
    let payload := take (N.to_nat (hd_payload_length header)) (drop 28 data) in
    let computed := crc32_extend (crc32_extend u32_max (take 24 data)) payload in
    if negb (N.lxor computed u32_max =? hd_checksum header)%N then
      frame_failure outcome Wire_ChecksumMismatch "frame"
        "frame checksum does not match the header and payload" else
    MkFrameOutcome Wire_Ok header payload (kFrameHeaderSize + hd_payload_length header) no_error
  end.

(** ** The checksum against its bitwise definition *)

(** CRC32 as it is defined: one bit at a time. *)
Definition crc32_bitwise (data : bytes) : N :=
  N.lxor (foldl (λ crc c, Nat.iter 8 crc_bit (N.lxor crc (code c))) u32_max data) u32_max.

Lemma crc_bit_spec x :
  crc_bit x = N.lxor (N.shiftr x 1) (if N.testbit x 0 then crc_polynomial else 0%N).
Proof.
  unfold crc_bit. change 1%N with (N.ones 1) at 1. rewrite N.land_ones. change (2 ^ 1)%N with 2%N.
  rewrite <-N.bit0_mod. destruct (N.testbit x 0); simpl; [done|by rewrite N.lxor_0_r].
Qed.

Lemma crc_bit_lxor x y : crc_bit (N.lxor x y) = N.lxor (crc_bit x) (crc_bit y).
Proof.
  rewrite !crc_bit_spec, N.shiftr_lxor, N.lxor_spec.
  destruct (N.testbit x 0), (N.testbit y 0); cbn [xorb]; rewrite ?N.lxor_0_r;
    apply N.bits_inj; intros i; rewrite ?N.lxor_spec;
    destruct (N.testbit (N.shiftr x 1) i), (N.testbit (N.shiftr y 1) i),
      (N.testbit crc_polynomial i); done.
Qed.

Lemma crc_iter_lxor n x y :
  Nat.iter n crc_bit (N.lxor x y) = N.lxor (Nat.iter n crc_bit x) (Nat.iter n crc_bit y).
Proof. induction n as [|n IH]; [done|]. rewrite !Nat.iter_succ. by rewrite IH, crc_bit_lxor. Qed.

Lemma crc_iter_shift n y : Nat.iter n crc_bit (N.shiftl y (N.of_nat n)) = y.
Proof.
  revert y. induction n as [|n IH]; intros y; [apply N.shiftl_0_r|].
  rewrite Nat2N.inj_succ, <-N.add_1_l, <-N.shiftl_shiftl, Nat.iter_succ.
  rewrite IH, crc_bit_spec, N.shiftl_spec_low by lia.
  rewrite N.lxor_0_r, N.shiftr_shiftl_l by lia. apply N.shiftl_0_r.
Qed.

Lemma split_low x : x = N.lxor (N.land x 255) (N.shiftl (N.shiftr x 8) 8).
Proof.
  apply N.bits_inj. intros i. rewrite N.lxor_spec. change 255%N with (N.ones 8).
  destruct (N.lt_ge_cases i 8) as [Hi|Hi].
  - rewrite N.shiftl_spec_low, N.land_spec, N.ones_spec_low by done. by rewrite andb_true_r, xorb_false_r.
  - rewrite N.land_spec, N.ones_spec_high, andb_false_r by done.
    rewrite N.shiftl_spec_high' by done. rewrite N.shiftr_spec' by lia.
    rewrite N.sub_add by done. by rewrite xorb_false_l.
Qed.

Lemma crc_table_entries :
  forallb (λ i, (crc_entry (N.of_nat i) =? Nat.iter 8 crc_bit (N.of_nat i))%N) (seq 0 256) = true.
Proof. vm_compute. reflexivity. Qed.

Lemma crc_entry_spec i : (i < 256)%N → crc_entry i = Nat.iter 8 crc_bit i.
Proof.
  intros Hi. pose proof crc_table_entries as H. rewrite forallb_forall in H.
  specialize (H (N.to_nat i)). rewrite N2Nat.id in H. apply N.eqb_eq, H.
  apply in_seq. lia.
Qed.

Lemma land_255_lt x : (N.land x 255 < 256)%N.
Proof. rewrite land_255. apply N.mod_lt. lia. Qed.

Lemma crc_iter_8 x : Nat.iter 8 crc_bit x = N.lxor (N.shiftr x 8) (crc_entry (N.land x 255)).
Proof.
  rewrite (split_low x) at 1. rewrite crc_iter_lxor.
  change 8%N with (N.of_nat 8) at 2. rewrite crc_iter_shift, crc_entry_spec by apply land_255_lt.
  apply N.lxor_comm.
Qed.

Lemma crc32_step_bitwise crc c : crc32_step crc c = Nat.iter 8 crc_bit (N.lxor crc (code c)).
Proof.
  rewrite crc_iter_8. unfold crc32_step. f_equal. rewrite N.shiftr_lxor.
  rewrite (N.shiftr_div_pow2 (code c)), N.div_small by apply code_lt. by rewrite N.lxor_0_r.
Qed.

(** The table-driven checksum is CRC32.  Processing a byte at a time through
    the precomputed table gives, for every input, the checksum that the bit by
    bit definition with the reflected IEEE polynomial gives. *)
Theorem crc32_is_bitwise data : crc32 data = crc32_bitwise data.
Proof.
  unfold crc32, crc32_bitwise, crc32_extend. f_equal. generalize u32_max.
  induction data as [|c data IH]; intros crc; [done|]. cbn [foldl].
  by rewrite crc32_step_bitwise, IH.
Qed.
