(* ===== verification/FrameProofs.v ===== *)
(** * What frames guarantee

    The frame decoder inverts the frame encoder exactly, a corruption confined to
    four consecutive bytes of the header, the checksum or the payload is always
    detected, and a message survives encoding, framing, unframing and
    decoding. *)

From Stdlib Require Import NArith ZArith Lia.
From S2P Require Import Prelude Identity Counter Taxonomy Types Wire Codec WireStream WireRecords.
From S2P Require Import WireMessages Frame.

(** ** The header as little-endian slices *)

(** [length] bytes from [from]. *)
Definition slice (from length : nat) (data : bytes) : bytes := take length (drop from data).

Definition header_of (data : bytes) : FrameHeader :=
  MkFrameHeader (le_value (slice 0 4 data)) (le_value (slice 4 2 data)) (le_value (slice 6 2 data))
    (le_value (slice 8 4 data)) (le_value (slice 12 8 data)) (le_value (slice 20 4 data))
    (le_value (slice 24 4 data)).

Definition header_bytes (type sequence flags length : N) : bytes :=
  le_bytes 4 kProtocolMagic ++ le_bytes 2 kProtocolVersion ++ le_bytes 2 type ++
  le_bytes 4 flags ++ le_bytes 8 sequence ++ le_bytes 4 length.

Lemma r_le_slice k data :
  k ≤ length data → r_le k 0 0 (reader_of data) = (Some (le_value (take k data)), reader_of (drop k data)).
Proof.
  intros Hk. rewrite <-(take_drop k data) at 1. rewrite r_le_app by (rewrite ?length_take; lia || done).
  by rewrite N.mul_0_r, N.pow_0_r, N.mul_1_l.
Qed.

Lemma read_frame_header_slices data :
  28 ≤ length data → read_frame_header (reader_of data) = (Some (header_of data), reader_of (drop 28 data)).
Proof.
  intros Hl. unfold read_frame_header, r_u16, r_u32, r_u64, mbind, Rd_bind.
  repeat (rewrite r_le_slice by (rewrite ?length_drop; lia)).
  unfold mret, Rd_ret, header_of, slice. by rewrite !drop_drop.
Qed.

Lemma w_le_from k v w :
  bw_ok w = true → (size (bw_data w) + N.of_nat k <= kMaxWriterBytes)%N →
  bw_ok (w_le k 0 v w) = true ∧ bw_data (w_le k 0 v w) = bw_data w ++ le_bytes k v.
Proof.
  intros Hg Hs. destruct (w_le_writes k 0 v w Hg) as [Hg' Hd'].
  { unfold size in *. rewrite length_le_bytes. cbn [sink_data byte_sink]. lia. }
  split; [done|]. cbn [sink_data byte_sink] in Hd'. by rewrite Hd', N.mul_0_r, N.pow_0_r, N.div_1_r.
Qed.

Lemma length_header_bytes t s f l : length (header_bytes t s f l) = 24%nat.
Proof. unfold header_bytes. rewrite !length_app, !length_le_bytes. done. Qed.

Lemma frame_header_bytes t s f l :
  bw_ok (frame_header t s f l) = true ∧ bw_data (frame_header t s f l) = header_bytes t s f l.
Proof.
  unfold frame_header, header_bytes. cbn [steps]. unfold w_u16, w_u32, w_u64.
  assert (bw_ok empty_writer = true ∧ bw_data empty_writer = []) as H by done. revert H.
  generalize empty_writer. intros w [Hg Hd].
  repeat match goal with
  | Hg : bw_ok ?w = true |- context [w_le ?k 0 ?v ?w] =>
      let H1 := fresh "Hg" in let H2 := fresh "Hd" in let E := fresh "E" in
      destruct (w_le_from k v w Hg) as [H1 H2];
      [unfold size; repeat match goal with H : bw_data _ = _ |- _ => rewrite H end;
       rewrite ?length_app, ?length_le_bytes; vm_compute; discriminate|];
      revert H1 H2; generalize (w_le k 0 v w); intros ? H1 H2
  end.
  split; [done|]. repeat match goal with H : bw_data _ = _ |- _ => rewrite H; clear H end.
  cbn [app]. by rewrite <-!(assoc_L (++)).
Qed.

(** ** Frames as header, checksum and payload *)

Definition frame_bytes (head payload : bytes) : bytes :=
  head ++ le_bytes 4 (crc32 (head ++ payload)) ++ payload.

Lemma raw_checksum_bytes v :
  (λ index, char_of (N.land (N.shiftr v (N.of_nat index * 8)) 255)) <$> seq 0 4 = le_bytes 4 v.
Proof.
  cbn [seq fmap list_fmap le_bytes N.of_nat]. rewrite !land_255, !N.shiftr_div_pow2.
  rewrite !N.Div0.div_div. simpl (_ * 8)%N. by rewrite N.pow_0_r, N.div_1_r.
Qed.

Lemma encode_frame_eq t n payload flags max :
  encode_frame t n payload flags max =
  if (bounded_payload max <? size payload)%N then []
  else frame_bytes (header_bytes (raw t) n flags (size payload)) payload.
Proof.
  unfold encode_frame. destruct (_ <? _)%N; [done|].
  destruct (frame_header_bytes (raw t) n flags (size payload)) as [-> ->].
  unfold size at 1. rewrite length_header_bytes. cbn -[header_bytes crc32 seq].
  rewrite raw_checksum_bytes. pose proof (length_header_bytes (raw t) n flags (size payload)) as Hl.
  rewrite take_app_length', drop_app_length' by done. done.
Qed.

(** The conditions under which a frame is accepted, in the order they are
    tested. *)
Definition accepts (max : N) (data : bytes) : Prop :=
  (28 <= size data)%N ∧ hd_magic (header_of data) = kProtocolMagic ∧
  hd_version (header_of data) = kProtocolVersion ∧
  (hd_type (header_of data) mod 256 <= kMaxMessageTypeRaw)%N ∧
  (hd_payload_length (header_of data) <= bounded_payload max)%N ∧
  (28 + hd_payload_length (header_of data) <= size data)%N ∧
  crc32 (take 24 data ++ slice 28 (N.to_nat (hd_payload_length (header_of data))) data) =
    hd_checksum (header_of data).

Definition accepted (data : bytes) : FrameOutcome :=
  MkFrameOutcome Wire_Ok (header_of data)
    (slice 28 (N.to_nat (hd_payload_length (header_of data))) data)
    (kFrameHeaderSize + hd_payload_length (header_of data)) no_error.

Lemma crc32_extend_app crc l1 l2 : crc32_extend (crc32_extend crc l1) l2 = crc32_extend crc (l1 ++ l2).
Proof. unfold crc32_extend. by rewrite foldl_app. Qed.

Lemma decode_frame_cases data max :
  (accepts max data ∧ decode_frame data max = accepted data) ∨
  (¬ accepts max data ∧ fo_status (decode_frame data max) ≠ Wire_Ok).
Proof.
  unfold decode_frame, accepts. destruct (N.ltb_spec (size data) kFrameHeaderSize) as [Hs|Hs].
  { right. split; [|done]. unfold kFrameHeaderSize in Hs. lia. }
  unfold kFrameHeaderSize in Hs.
  rewrite read_frame_header_slices by (unfold size in Hs; lia).
  destruct (N.eqb_spec (hd_magic (header_of data)) kProtocolMagic); cbn [negb];
    [|right; split; [tauto|done]].
  destruct (N.eqb_spec (hd_version (header_of data)) kProtocolVersion); cbn [negb];
    [|right; split; [tauto|done]].
  destruct (N.ltb_spec kMaxMessageTypeRaw (hd_type (header_of data) mod 256));
    [right; split; [lia|done]|].
  destruct (N.ltb_spec (bounded_payload max) (hd_payload_length (header_of data)));
    [right; split; [lia|done]|].
  assert (remaining (reader_of (drop 28 data)) = size data - 28)%N as ->.
  { unfold remaining, size. cbn [br_rest reader_of]. rewrite length_drop. lia. }
  destruct (N.ltb_spec (size data - 28) (hd_payload_length (header_of data)));
    [right; split; [lia|done]|].
  rewrite crc32_extend_app. fold (slice 28 (N.to_nat (hd_payload_length (header_of data))) data).
  fold (crc32 (take 24 data ++ slice 28 (N.to_nat (hd_payload_length (header_of data))) data)).
  destruct (N.eqb_spec (crc32 (take 24 data ++
      slice 28 (N.to_nat (hd_payload_length (header_of data))) data)) (hd_checksum (header_of data)));
    cbn [negb]; [|right; split; [tauto|done]].
  left. split; [|done]. split_and!; [done..|lia|done].
Qed.

(** ** The decoder inverts the encoder *)

Lemma take_app_exact {A} n (l k : list A) : length l = n → take n (l ++ k) = l.
Proof. intros <-. apply take_app_length. Qed.

Lemma drop_app_exact {A} n (l k : list A) : length l = n → drop n (l ++ k) = k.
Proof. intros <-. apply drop_app_length. Qed.

Lemma slice_app n k (a b c : bytes) : length a = n → length b = k → slice n k (a ++ b ++ c) = b.
Proof. intros Ha Hb. unfold slice. by rewrite drop_app_exact, take_app_exact. Qed.

Lemma header_field n k v (a c : bytes) :
  (v < 256 ^ N.of_nat k)%N → length a = n → le_value (slice n k (a ++ le_bytes k v ++ c)) = v.
Proof. intros Hv Ha. rewrite slice_app by (done || apply length_le_bytes). by apply le_value_bytes. Qed.

Lemma header_of_app t s f l sum rest :
  (t < 2 ^ 16)%N → (f < 2 ^ 32)%N → (s < 2 ^ 64)%N → (l < 2 ^ 32)%N → (sum < 2 ^ 32)%N →
  header_of (header_bytes t s f l ++ le_bytes 4 sum ++ rest) =
  MkFrameHeader kProtocolMagic kProtocolVersion t f s l sum.
Proof.
  intros Ht Hf Hs Hl Hsum. unfold header_of, header_bytes. rewrite <-!(assoc_L (++)).
  f_equal.
  - rewrite (assoc_L (++)). apply header_field; [done|by rewrite !length_app, !length_le_bytes].
  - do 2 rewrite (assoc_L (++)). apply header_field; [done|by rewrite !length_app, !length_le_bytes].
  - do 3 rewrite (assoc_L (++)). apply header_field; [done|by rewrite !length_app, !length_le_bytes].
  - do 4 rewrite (assoc_L (++)). apply header_field; [done|by rewrite !length_app, !length_le_bytes].
  - do 5 rewrite (assoc_L (++)). apply header_field; [done|by rewrite !length_app, !length_le_bytes].
Qed.

Lemma bounded_payload_le max : (bounded_payload max <= kAbsoluteMaxFramePayloadBytes)%N.
Proof. unfold bounded_payload. destruct (N.ltb_spec kAbsoluteMaxFramePayloadBytes max); lia. Qed.

Lemma lt_pow2_bits x n : (x < 2 ^ n)%N ↔ ∀ i, (n <= i)%N → N.testbit x i = false.
Proof.
  split.
  - intros Hx i Hi. rewrite <-(N.mod_small x (2 ^ n)) by done. by apply N.mod_pow2_bits_high.
  - intros H. assert (x = x mod 2 ^ n)%N as ->; [|by apply N.mod_lt, N.pow_nonzero].
    apply N.bits_inj. intros i. destruct (N.lt_ge_cases i n).
    + by rewrite N.mod_pow2_bits_low.
    + rewrite N.mod_pow2_bits_high by done. auto.
Qed.

Lemma lxor_lt x y n : (x < 2 ^ n)%N → (y < 2 ^ n)%N → (N.lxor x y < 2 ^ n)%N.
Proof.
  rewrite !lt_pow2_bits. intros Hx Hy i Hi. by rewrite N.lxor_spec, Hx, Hy.
Qed.

Lemma crc_bit_lt x : (x < 2 ^ 32)%N → (crc_bit x < 2 ^ 32)%N.
Proof.
  intros Hx. rewrite crc_bit_spec. apply lxor_lt.
  - rewrite N.shiftr_div_pow2. apply N.Div0.div_lt_upper_bound. lia.
  - by destruct (N.testbit x 0).
Qed.

Lemma crc_iter_lt n x : (x < 2 ^ 32)%N → (Nat.iter n crc_bit x < 2 ^ 32)%N.
Proof. intros Hx. induction n; [done|]. rewrite Nat.iter_succ. by apply crc_bit_lt. Qed.

Lemma code_lt_32 c : (code c < 2 ^ 32)%N.
Proof. pose proof (code_lt c). lia. Qed.

Lemma crc32_extend_lt crc data : (crc < 2 ^ 32)%N → (crc32_extend crc data < 2 ^ 32)%N.
Proof.
  unfold crc32_extend. revert crc. induction data as [|c data IH]; intros crc Hc; [done|].
  cbn [foldl]. apply IH. rewrite crc32_step_bitwise. apply crc_iter_lt, lxor_lt, code_lt_32. done.
Qed.

Lemma crc32_lt data : (crc32 data < 2 ^ 32)%N.
Proof. apply lxor_lt; [by apply crc32_extend_lt|done]. Qed.

Lemma raw_type_lt (t : MessageType) : (raw t <= kMaxMessageTypeRaw)%N.
Proof. pose proof (raw_lt t) as H. vm_compute (size _) in H. unfold kMaxMessageTypeRaw. lia. Qed.

Lemma decode_frame_bytes t s f payload rest max :
  (s < 2 ^ 64)%N → (f < 2 ^ 32)%N → (size payload <= bounded_payload max)%N →
  let data := encode_frame t s payload f max ++ rest in
  header_of data = MkFrameHeader kProtocolMagic kProtocolVersion (raw t) f s (size payload)
    (crc32 (header_bytes (raw t) s f (size payload) ++ payload)) ∧
  take 24 data = header_bytes (raw t) s f (size payload) ∧
  slice 28 (N.to_nat (size payload)) data = payload ∧
  (size data = 28 + size payload + size rest)%N.
Proof.
  intros Hs Hf Hp. cbv zeta. rewrite encode_frame_eq.
  destruct (N.ltb_spec (bounded_payload max) (size payload)) as [|_]; [lia|].
  pose proof (bounded_payload_le max) as Hb. unfold kAbsoluteMaxFramePayloadBytes in Hb.
  pose proof (raw_type_lt t) as Ht. unfold kMaxMessageTypeRaw in Ht.
  unfold frame_bytes. rewrite <-!(assoc_L (++)). split_and!.
  - apply header_of_app; [lia..|apply crc32_lt].
  - apply take_app_exact, length_header_bytes.
  - rewrite (assoc_L (++)), slice_app; [done| |unfold size; lia].
    rewrite length_app, length_header_bytes, length_le_bytes. done.
  - unfold size. rewrite !length_app, length_header_bytes, length_le_bytes. lia.
Qed.

Lemma le_bytes_slice n k (data : bytes) :
  n + k ≤ length data → le_bytes k (le_value (slice n k data)) = slice n k data.
Proof.
  intros Hl. assert (length (slice n k data) = k) as Hk.
  { unfold slice. rewrite length_take, length_drop. lia. }
  rewrite <-Hk at 1. apply le_bytes_value.
Qed.

Lemma take_slice n k (data : bytes) : take n data ++ slice n k data = take (n + k) data.
Proof. unfold slice. by rewrite take_take_drop. Qed.

(** An accepted frame is its header, the checksum and the payload. *)
Lemma accepts_bytes max data type :
  accepts max data → hd_type (header_of data) = raw type →
  let h := header_of data in
  encode_frame type (hd_sequence h) (fo_payload (accepted data)) (hd_flags h) max =
  take (28 + N.to_nat (hd_payload_length h)) data.
Proof.
  intros (Hs&Hm&Hv&_&Hb&Hl&Hc) Ht. cbv zeta. rewrite encode_frame_eq.
  cbn [fo_payload accepted] in *. set (n := hd_payload_length (header_of data)) in *.
  assert (size (slice 28 (N.to_nat n) data) = n) as Hn.
  { unfold size, slice in *. rewrite length_take, length_drop. lia. }
  rewrite Hn. destruct (N.ltb_spec (bounded_payload max) n) as [|_]; [lia|].
  assert (header_bytes (raw type) (hd_sequence (header_of data)) (hd_flags (header_of data)) n
    = take 24 data) as Hh.
  { unfold size in *. unfold header_bytes, n. rewrite <-Hm, <-Hv, <-Ht. cbn [header_of hd_magic hd_version hd_type
      hd_flags hd_sequence hd_payload_length]. rewrite !le_bytes_slice by lia.
    rewrite !(assoc_L (++)). rewrite <-(app_nil_l (slice 0 4 data)), <-(take_0 data).
    by rewrite !take_slice. }
  unfold frame_bytes. rewrite Hh, Hc. cbn [header_of hd_checksum].
  rewrite le_bytes_slice by (unfold size in *; lia).
  by rewrite (assoc_L (++)), !take_slice.
Qed.

(** The outcome for the frame of a payload. *)
Definition framed (type : MessageType) (sequence : N) (payload : bytes) (flags : N) : FrameOutcome :=
  MkFrameOutcome Wire_Ok
    (MkFrameHeader kProtocolMagic kProtocolVersion (raw type) flags sequence (size payload)
       (crc32 (header_bytes (raw type) sequence flags (size payload) ++ payload)))
    payload (kFrameHeaderSize + size payload) no_error.

Lemma decode_encode_frame type sequence payload flags max rest :
  (sequence < 2 ^ 64)%N → (flags < 2 ^ 32)%N → (size payload <= bounded_payload max)%N →
  decode_frame (encode_frame type sequence payload flags max ++ rest) max =
  framed type sequence payload flags.
Proof.
  intros Hs Hf Hp.
  destruct (decode_frame_bytes type sequence flags payload rest max Hs Hf Hp) as (Hh&H24&Hpl&Hsz).
  set (data := _ ++ rest) in *.
  assert (accepts max data) as Ha.
  { unfold accepts. rewrite Hh, Hsz, H24. cbn [hd_magic hd_version hd_type hd_payload_length hd_checksum].
    rewrite Hpl. pose proof (raw_type_lt type) as Ht. split_and!; [lia|done..| |done|lia|done].
    rewrite N.mod_small; [done|]. unfold kMaxMessageTypeRaw in *. lia. }
  destruct (decode_frame_cases data max) as [[_ ->]|[Hn _]]; [|done].
  unfold accepted, framed. rewrite Hh. cbn [hd_payload_length]. by rewrite Hpl.
Qed.

(** C26: decoding a frame is the exact inverse of encoding one.  The frame of a
    payload within the bound is read back, whatever follows it, with its type,
    sequence, flags and payload and the length that was consumed; and whenever a
    frame of a declared type is accepted, the bytes consumed are the very bytes
    that encoding its parts produces. *)
Theorem frame_codec_exact max :
  (∀ type sequence payload flags rest,
     (sequence < 2 ^ 64)%N → (flags < 2 ^ 32)%N → (size payload <= bounded_payload max)%N →
     decode_frame (encode_frame type sequence payload flags max ++ rest) max =
     framed type sequence payload flags) ∧
  (∀ data type, let outcome := decode_frame data max in
     fo_status outcome = Wire_Ok → hd_type (fo_header outcome) = raw type →
     encode_frame type (hd_sequence (fo_header outcome)) (fo_payload outcome)
       (hd_flags (fo_header outcome)) max = take (N.to_nat (fo_consumed outcome)) data).
Proof.
  split; [intros; by apply decode_encode_frame|].
  intros data type. cbv zeta. destruct (decode_frame_cases data max) as [[Ha ->]|[_ Hn]]; [|done].
  intros _ Ht. setoid_rewrite (accepts_bytes max data type Ha Ht). f_equal.
  cbn [accepted fo_consumed]. unfold kFrameHeaderSize. lia.
Qed.

(** ** Corruption *)

Lemma crc_bit_top x : (x < 2 ^ 32)%N → N.testbit (crc_bit x) 31 = N.testbit x 0.
Proof.
  intros Hx. rewrite crc_bit_spec, N.lxor_spec, N.shiftr_spec' by lia.
  rewrite (proj1 (lt_pow2_bits x 32) Hx) by lia. by destruct (N.testbit x 0).
Qed.

Lemma crc_bit_inj x y : (x < 2 ^ 32)%N → (y < 2 ^ 32)%N → crc_bit x = crc_bit y → x = y.
Proof.
  intros Hx Hy E. pose proof (crc_bit_top x Hx) as Hb. rewrite E, crc_bit_top in Hb by done.
  rewrite !crc_bit_spec, Hb in E.
  assert (N.shiftr x 1 = N.shiftr y 1) as E1.
  { apply N.bits_inj. intros i. apply (f_equal (λ v, N.testbit v i)) in E.
    rewrite !N.lxor_spec in E.
    destruct (N.testbit (N.shiftr x 1) i), (N.testbit (N.shiftr y 1) i);
      destruct (N.testbit (if N.testbit x 0 then _ else _) i); done. }
  apply N.bits_inj. intros i. destruct (N.eq_0_gt_0_cases i) as [->|Hi]; [done|].
  apply (f_equal (λ v, N.testbit v (i - 1))) in E1. rewrite !N.shiftr_spec' in E1 by lia.
  by rewrite N.sub_add in E1 by lia.
Qed.

Lemma crc_iter_inj n x y :
  (x < 2 ^ 32)%N → (y < 2 ^ 32)%N → Nat.iter n crc_bit x = Nat.iter n crc_bit y → x = y.
Proof.
  intros Hx Hy. induction n as [|n IH]; [done|]. rewrite !Nat.iter_succ. intros E.
  by apply IH, crc_bit_inj, E; apply crc_iter_lt.
Qed.

Lemma le_value_cons c l : le_value (c :: l) = N.lxor (code c) (N.shiftl (le_value l) 8).
Proof.
  rewrite (split_low (le_value (c :: l))), land_255, N.shiftr_div_pow2. cbn [le_value].
  pose proof (code_lt c). change (2 ^ 8)%N with 256%N. rewrite (N.mul_comm 256).
  by rewrite N.Div0.mod_add, N.mod_small, N.div_add, N.div_small, N.add_0_l by lia.
Qed.

(** Running the checksum over bytes is running the register over their value. *)
Lemma crc32_extend_value crc data :
  crc32_extend crc data = Nat.iter (8 * length data) crc_bit (N.lxor crc (le_value data)).
Proof.
  unfold crc32_extend. revert crc. induction data as [|c data IH]; intros crc.
  { simpl. by rewrite N.lxor_0_r. }
  cbn [foldl]. rewrite IH, crc32_step_bitwise, le_value_cons, <-N.lxor_assoc.
  cbn [length]. rewrite Nat.mul_succ_r, Nat.iter_add, crc_iter_lxor.
  rewrite (crc_iter_lxor 8 (N.lxor crc (code c))).
  change (N.shiftl (le_value data) 8) with (N.shiftl (le_value data) (N.of_nat 8)).
  by rewrite crc_iter_shift, (crc_iter_lxor _ (Nat.iter 8 crc_bit _)).
Qed.

Lemma le_value_inj l k : length l = length k → le_value l = le_value k → l = k.
Proof. intros Hl Hv. by rewrite <-(le_bytes_value l), Hl, Hv, le_bytes_value. Qed.

Lemma lxor_inj_r a x y : N.lxor a x = N.lxor a y → x = y.
Proof.
  intros E. by rewrite <-(N.lxor_0_l x), <-(N.lxor_nilpotent a), N.lxor_assoc, E, <-N.lxor_assoc,
    N.lxor_nilpotent, N.lxor_0_l.
Qed.

Lemma crc32_extend_inj crc crc' data :
  (crc < 2 ^ 32)%N → (crc' < 2 ^ 32)%N → crc32_extend crc data = crc32_extend crc' data → crc = crc'.
Proof.
  intros Hc Hc'. unfold crc32_extend. revert crc crc' Hc Hc'.
  induction data as [|c data IH]; intros crc crc' Hc Hc' E; [done|].
  cbn [foldl] in E. pose proof (code_lt_32 c) as H32.
  apply IH in E; [|rewrite crc32_step_bitwise; by apply crc_iter_lt, lxor_lt..].
  rewrite !crc32_step_bitwise in E. apply crc_iter_inj in E; [|by apply lxor_lt..].
  rewrite (N.lxor_comm crc), (N.lxor_comm crc') in E. by apply lxor_inj_r in E.
Qed.

(** Two inputs that differ only within four consecutive bytes have different
    checksums. *)
Lemma crc32_burst pre mid mid' post :
  length mid = length mid' → length mid ≤ 4 →
  crc32 (pre ++ mid ++ post) = crc32 (pre ++ mid' ++ post) → mid = mid'.
Proof.
  intros Hl H4 E. unfold crc32 in E. rewrite !(N.lxor_comm _ u32_max) in E. apply lxor_inj_r in E.
  rewrite <-!crc32_extend_app in E.
  assert (crc32_extend u32_max pre < 2 ^ 32)%N as Hp by by apply crc32_extend_lt.
  apply crc32_extend_inj in E; [|by apply crc32_extend_lt..].
  assert (∀ l : bytes, length l ≤ 4 → (le_value l < 2 ^ 32)%N) as Hv.
  { intros l Hle. eapply N.lt_le_trans; [apply le_value_lt|].
    change (2 ^ 32)%N with (256 ^ 4)%N. apply N.pow_le_mono_r; lia. }
  revert Hp E. generalize (crc32_extend u32_max pre). intros crc Hp E.
  rewrite !crc32_extend_value, <-Hl in E.
  apply crc_iter_inj in E; [|apply lxor_lt; [done|apply Hv; lia]..].
  apply lxor_inj_r in E. by apply le_value_inj.
Qed.

Lemma slice_inside n k (pre mid post : bytes) :
  n ≤ length pre → length pre + length mid ≤ n + k →
  slice n k (pre ++ mid ++ post) =
  drop n pre ++ mid ++ take (n + k - (length pre + length mid)) post.
Proof.
  intros Hn He. unfold slice. rewrite drop_app_le by done.
  rewrite take_app_ge by (rewrite length_drop; lia). f_equal. rewrite length_drop.
  rewrite take_app_ge by lia. f_equal. f_equal. lia.
Qed.

Lemma slice_outside n k (pre mid mid' post : bytes) :
  length mid = length mid' → n + k ≤ length pre ∨ length pre + length mid ≤ n →
  slice n k (pre ++ mid ++ post) = slice n k (pre ++ mid' ++ post).
Proof.
  intros Hl [H|H]; unfold slice.
  - rewrite !drop_app_le by lia. by rewrite !take_app_le by (rewrite length_drop; lia).
  - rewrite !drop_app_ge by lia. by rewrite Hl.
Qed.

(** Where a burst leaves the length field alone: in the header before it, in the
    checksum, or in the payload. *)
Definition burst_within (from till consumed : nat) : Prop :=
  till ≤ 20 ∨ (24 ≤ from ∧ till ≤ 28) ∨ (28 ≤ from ∧ till ≤ consumed).

Lemma accepted_burst max pre mid mid' post :
  let data := pre ++ mid ++ post in
  accepts max data → accepts max (pre ++ mid' ++ post) →
  length mid = length mid' → length mid ≤ 4 →
  burst_within (length pre) (length pre + length mid)
    (28 + N.to_nat (hd_payload_length (header_of data))) → mid = mid'.
Proof.
  cbv zeta. intros (_&_&_&_&_&Hsz&Hc) (_&_&_&_&_&Hsz'&Hc') Hl H4 Hb. unfold burst_within in Hb.
  unfold header_of in *. cbn [hd_payload_length hd_checksum] in *. unfold size in *.
  rewrite <-(slice_outside 20 4 pre mid mid' post Hl) in Hc', Hsz' by lia.
  set (n := N.to_nat (le_value (slice 20 4 (pre ++ mid ++ post)))) in *.
  assert (∀ d : bytes, take 24 d = slice 0 24 d) as H24 by done. rewrite !H24 in *.
  destruct Hb as [Hb|[Hb|Hb]].
  - rewrite <-(slice_outside 24 4 pre mid mid'), <-(slice_outside 28 n pre mid mid') in Hc' by lia.
    rewrite <-Hc, (slice_inside 0 24 pre mid), (slice_inside 0 24 pre mid') in Hc' by lia. rewrite <-!(assoc_L (++)), <-Hl in Hc'.
    symmetry. apply crc32_burst in Hc'; [done|lia..].
  - rewrite <-(slice_outside 0 24 pre mid mid'), <-(slice_outside 28 n pre mid mid'), Hc in Hc' by lia.
    apply le_value_inj in Hc'; [|unfold slice; rewrite !length_take, !length_drop, !length_app; lia].
    rewrite (slice_inside 24 4 pre mid), (slice_inside 24 4 pre mid') in Hc' by lia. apply app_inv_head in Hc'.
    rewrite <-Hl in Hc'. by apply app_inv_tail in Hc'.
  - rewrite <-(slice_outside 24 4 pre mid mid'), <-(slice_outside 0 24 pre mid mid') in Hc' by lia.
    rewrite <-Hc, (slice_inside 28 n pre mid), (slice_inside 28 n pre mid') in Hc' by lia. rewrite !(assoc_L (++)), <-Hl in Hc'.
    rewrite <-!(assoc_L (++) _ _ (take _ post)) in Hc'.
    symmetry. apply crc32_burst in Hc'; [done|lia..].
Qed.

(** C27: corruption is detected.  When an accepted frame is altered within four
    consecutive bytes of its header before the length, of its checksum or of its
    payload, the altered frame is refused. *)
Theorem frame_corruption_detected max pre mid mid' post :
  let outcome := decode_frame (pre ++ mid ++ post) max in
  fo_status outcome = Wire_Ok → mid ≠ mid' → length mid = length mid' → length mid ≤ 4 →
  burst_within (length pre) (length pre + length mid) (N.to_nat (fo_consumed outcome)) →
  fo_status (decode_frame (pre ++ mid' ++ post) max) ≠ Wire_Ok.
Proof.
  cbv zeta. intros Hok Hne Hl H4 Hb Hok'.
  destruct (decode_frame_cases (pre ++ mid ++ post) max) as [[Ha E]|]; [|tauto].
  destruct (decode_frame_cases (pre ++ mid' ++ post) max) as [[Ha' _]|]; [|tauto].
  apply Hne, (accepted_burst max pre mid mid' post Ha Ha' Hl H4).
  rewrite E in Hb. cbn [accepted fo_consumed] in Hb. unfold kFrameHeaderSize in Hb.
  by rewrite N2Nat.inj_add in Hb.
Qed.

(** ** Messages in frames *)

(** What a receiver makes of the bytes it has: the payload of the frame at their
    front, as the message type of the header selects the decoder. *)
Definition receive (data : bytes) (max : N) : option Payload :=
  let outcome := decode_frame data max in
  if negb (bool_decide (fo_status outcome = Wire_Ok)) then None else
  type ← of_raw (hd_type (fo_header outcome)); decode_payload type (fo_payload outcome).

(** A message survives the wire.  A message whose identities parse and whose
    integers fit, once encoded and put in a frame within the payload bound, is
    received as that message whatever bytes follow the frame. *)
Theorem message_survives_framing p sequence flags max rest :
  payload_ok p → encode_payload p ≠ [] → (size (encode_payload p) <= bounded_payload max)%N →
  (sequence < 2 ^ 64)%N → (flags < 2 ^ 32)%N →
  receive (encode_frame (payload_type p) sequence (encode_payload p) flags max ++ rest) max = Some p.
Proof.
  intros Hp Hne Hsz Hs Hf. unfold receive. rewrite decode_encode_frame by done.
  unfold framed. cbn [fo_status fo_header fo_payload hd_type]. rewrite bool_decide_true by done.
  cbn [negb]. rewrite of_raw_raw. cbn [mbind option_bind].
  apply decode_payload_exact; [|done].
  pose proof (bounded_payload_le max). unfold kAbsoluteMaxFramePayloadBytes, kMaxWriterBytes in *. lia.
Qed.

(** The bytes of a heartbeat in a frame. *)
Definition sample_frame : bytes :=
  encode_frame Msg_Heartbeat 7 (encode_payload sample_heartbeat) 0 kMaxFramePayloadBytes.

Lemma message_survives_framing_witness :
  receive (sample_frame ++ []) kMaxFramePayloadBytes = Some sample_heartbeat.
Proof.
  refine (message_survives_framing sample_heartbeat 7 0 kMaxFramePayloadBytes [] _ _ _ _ _).
  all: try (vm_compute; (reflexivity || discriminate)).
  eapply (proj1 (decode_payload_exact Msg_Heartbeat (encode_payload sample_heartbeat) _ ltac:(vm_compute; discriminate)) sample_heartbeat_decodes).
Defined.

Lemma frame_codec_exact_witness :
  decode_frame (sample_frame ++ []) kMaxFramePayloadBytes =
  framed Msg_Heartbeat 7 (encode_payload sample_heartbeat) 0.
Proof.
  refine (proj1 (frame_codec_exact kMaxFramePayloadBytes) Msg_Heartbeat 7%N
    (encode_payload sample_heartbeat) 0%N [] _ _ _); vm_compute; (reflexivity || discriminate).
Defined.

Lemma frame_corruption_detected_witness :
  fo_status (decode_frame (take 30 sample_frame ++ [char_of 0] ++ drop 31 sample_frame)
    kMaxFramePayloadBytes) ≠ Wire_Ok.
Proof.
  refine (frame_corruption_detected kMaxFramePayloadBytes (take 30 sample_frame)
    (slice 30 1 sample_frame) [char_of 0] (drop 31 sample_frame) _ _ _ _ _).
  - vm_compute. reflexivity.
  - vm_compute. discriminate.
  - vm_compute. reflexivity.
  - vm_compute. lia.
  - right. right. split; apply Nat.leb_le; vm_compute; reflexivity.
Defined.

(** The decoder tests the low byte of the type only: a frame whose type is not
    declared is accepted when that byte is small. *)
Theorem undeclared_type_accepted t :
  (t < 2 ^ 16)%N → (t mod 256 <= kMaxMessageTypeRaw)%N →
  fo_status (decode_frame (frame_bytes (header_bytes t 0 0 0) []) kMaxFramePayloadBytes) = Wire_Ok.
Proof.
  intros Ht Hm. destruct (decode_frame_cases (frame_bytes (header_bytes t 0 0 0) []) kMaxFramePayloadBytes)
    as [[_ ->]|[Hn _]]; [done|]. exfalso. apply Hn. clear Hn.
  unfold accepts, frame_bytes. rewrite header_of_app by (done || apply crc32_lt).
  cbn [hd_magic hd_version hd_type hd_payload_length hd_checksum]. unfold size.
  rewrite !length_app, length_header_bytes, length_le_bytes, take_app_exact by apply length_header_bytes.
  split_and!; done.
Qed.

Example type_257_accepted :
  of_raw (E:=MessageType) 257 = None ∧
  fo_status (decode_frame (frame_bytes (header_bytes 257 0 0 0) []) kMaxFramePayloadBytes) = Wire_Ok.
Proof. split; [reflexivity|]. by apply undeclared_type_accepted. Qed.
