(* ===== verification/PersistFields.v ===== *)
(** * Fields of the durable container

    The write and read helpers of [src/persistence.cpp] for evidence stamps,
    domain headers, rack lists, composition, endpoints, failure domain hints,
    the readiness contract and the domain generations.  A read helper of the code
    answers [false] and leaves the reader to be discarded; here it yields
    nothing. *)

From Stdlib Require Import NArith ZArith Lia.
From S2P Require Import Prelude Identity Counter Taxonomy Evidence Types Invariant Wire Codec.
From S2P Require Import WireStream.

(** ** Shapes of fields *)

Definition w_identity {tag} (id : StrongId tag) : ByteWriter → ByteWriter := w_text (id_value id).
Definition w_counter {tag} (c : StrongCounter tag) : ByteWriter → ByteWriter := w_u64 (ctr c).
Definition w_enum {E} `{Enum E} (e : E) : ByteWriter → ByteWriter := w_u8 (raw e).
Definition w_millis (t : Timestamp) : ByteWriter → ByteWriter := w_i64 (unix_millis t).

(** A marker, then the value when there is one. *)
Definition w_opt_identity {tag} (id : option (StrongId tag)) : ByteWriter → ByteWriter :=
  steps (w_optional_present (bool_decide (is_Some id)) ::
         match id with Some i => [w_identity i] | None => [] end).

(** A marker, then the value or zero. *)
Definition w_opt_u32 (value : option N) : ByteWriter → ByteWriter :=
  steps [w_optional_present (bool_decide (is_Some value)); w_u32 (default 0%N value)].
Definition w_opt_u64 (value : option N) : ByteWriter → ByteWriter :=
  steps [w_optional_present (bool_decide (is_Some value)); w_u64 (default 0%N value)].
Definition w_opt_f64 (value : option double) : ByteWriter → ByteWriter :=
  steps [w_optional_present (bool_decide (is_Some value)); w_f64 (default (MkDouble 0) value)].

(** A count, then each element. *)
Definition w_list {A} (write_one : A → ByteWriter → ByteWriter) (l : list A) :
    ByteWriter → ByteWriter := steps (w_u32 (size l) :: (write_one <$> l)).

(** A value that must be there: otherwise the reader is marked invalid. *)
Definition ensure {A} (value : option A) : Read A := λ r,
  match value with
  | Some a => (Some a, r)
  | None => (None, mark_invalid Wire_MalformedPayload r)
  end.

(** [static_cast] of an underlying value that is at most that of the last
    enumerator. *)
Definition enum_upto {E} `{Enum E} (last : E) (value : N) : option E :=
  if (raw last <? value)%N then None else of_raw value.

(** The count of a vector, unless it exceeds its bound. *)
Definition count_upto (bound count : N) : option N := if (bound <? count)%N then None else Some count.

Definition r_enum {E} `{Enum E} (last : E) : Read E := value ← r_u8; ensure (enum_upto last value).

Definition r_identity {tag} : Read (StrongId tag) := text ← r_text; ensure (parse_id text).

Definition r_counter {tag} : Read (StrongCounter tag) := value ← r_u64; mret (MkCtr value).
Definition r_millis : Read Timestamp := value ← r_i64; mret (MkTs value).

Definition r_opt_identity {tag} : Read (option (StrongId tag)) :=
  present ← r_boolean;
  if (present : bool) then id ← r_identity; mret (Some id) else mret None.

Definition r_opt {A} (read_one : Read A) : Read (option A) :=
  present ← r_boolean; value ← read_one; mret (if (present : bool) then Some value else None).

(** [count] elements in turn. *)
Fixpoint r_times {R A} (count : nat) (read_one : Rd R A) : Rd R (list A) :=
  match count with
  | O => mret []
  | S count => a ← read_one; l ← r_times count read_one; mret (a :: l)
  end.

Definition r_list {A} (bound : N) (read_one : Read A) : Read (list A) :=
  count ← r_u32; count ← ensure (count_upto bound count); r_times (N.to_nat count) read_one.

(** ** Evidence and domain headers *)

Definition write_stamp (stamp : EvidenceStamp) : ByteWriter → ByteWriter :=
  steps [w_enum (ev_provenance stamp); w_millis (ev_observed_at stamp);
         w_enum (ev_freshness stamp); w_i64 (ev_ttl_millis stamp)].

Definition read_stamp : Read EvidenceStamp :=
  provenance ← r_u8; observed ← r_millis; freshness ← r_u8; ttl ← r_i64;
  provenance ← ensure (enum_upto Prov_Reconstructed provenance);
  freshness ← ensure (enum_upto Fresh_RevalidationRequired freshness);
  mret (MkStamp provenance observed freshness ttl).

Definition write_header (header : DomainHeader) : ByteWriter → ByteWriter :=
  steps [write_stamp (dh_evidence header); w_counter (dh_generation header);
         w_opt_identity (dh_publisher header); w_counter (dh_cluster_epoch header);
         w_counter (dh_coordinator_epoch header); w_text (dh_label header)].

Definition read_header : Read DomainHeader :=
  evidence ← read_stamp; generation ← r_counter; publisher ← r_opt_identity;
  cluster_epoch ← r_counter; coordinator_epoch ← r_counter; label ← r_text;
  mret (MkHeader evidence generation publisher cluster_epoch coordinator_epoch label).

Definition write_rack_ids (racks : list RackId) : ByteWriter → ByteWriter := w_list w_identity racks.
Definition read_rack_ids (bound : N) : Read (list RackId) := r_list bound r_identity.

(** ** Racks *)

Definition write_accelerator (summary : AcceleratorClassSummary) : ByteWriter → ByteWriter :=
  steps [w_enum (ac_vendor summary); w_text (ac_family summary); w_opt_u32 (ac_device_count summary);
         w_opt_u64 (ac_device_memory_bytes summary)].

Definition read_accelerator : Read AcceleratorClassSummary :=
  vendor ← r_u8; family ← r_text; device_count ← r_opt r_u32; device_memory ← r_opt r_u64;
  vendor ← ensure (enum_upto Vendor_Other vendor);
  mret (MkAccelerator vendor family device_count device_memory).

Definition write_composition (composition : RackCompositionSummary) : ByteWriter → ByteWriter :=
  steps [w_enum (rc_provenance composition);
         w_list write_accelerator (rc_accelerators composition);
         w_opt_u32 (rc_cpu_sockets composition); w_opt_u32 (rc_cpu_cores composition);
         w_opt_u64 (rc_host_memory_bytes composition); w_opt_u32 (rc_nic_count composition);
         w_opt_u32 (rc_switch_count composition); w_text (rc_composition_label composition)].

Definition read_composition : Read RackCompositionSummary :=
  provenance ← r_u8; count ← r_u32;
  provenance ← ensure (enum_upto Prov_Reconstructed provenance);
  count ← ensure (count_upto kMaxCapacityQuantities count);
  accelerators ← r_times (N.to_nat count) read_accelerator;
  cpu_sockets ← r_opt r_u32; cpu_cores ← r_opt r_u32; host_memory_bytes ← r_opt r_u64;
  nic_count ← r_opt r_u32; switch_count ← r_opt r_u32; label ← r_text;
  mret (MkComposition accelerators cpu_sockets cpu_cores host_memory_bytes nic_count switch_count
          label provenance).

Definition write_endpoint (endpoint : RackEndpoint) : ByteWriter → ByteWriter :=
  steps [w_identity (ep_id endpoint); w_opt_identity (ep_network_domain endpoint);
         w_opt_identity (ep_link_domain endpoint); w_enum (ep_connectivity endpoint);
         write_stamp (ep_evidence endpoint)].

(** The marker of the network domain is read before the identity is parsed. *)
Definition read_endpoint : Read RackEndpoint :=
  id ← r_text; has_network ← r_boolean; id ← ensure (parse_id id);
  network_domain ← (if (has_network : bool) then network ← r_identity; mret (Some network)
                    else mret None);
  link_domain ← r_opt_identity; connectivity ← r_enum Conn_ManagementOnly; evidence ← read_stamp;
  mret (MkEndpoint id network_domain link_domain connectivity evidence).

Definition write_endpoints (endpoints : list RackEndpoint) : ByteWriter → ByteWriter :=
  w_list write_endpoint endpoints.
Definition read_endpoints : Read (list RackEndpoint) := r_list kMaxRackEndpoints read_endpoint.

Definition write_hint (hint : RackFailureDomainHint) : ByteWriter → ByteWriter :=
  steps [w_enum (fh_klass hint); w_identity (fh_id hint); write_stamp (fh_evidence hint)].

Definition read_hint : Read RackFailureDomainHint :=
  klass ← r_u8; id ← r_text; klass ← ensure (enum_upto FD_ControlPlane klass);
  id ← ensure (parse_id id); evidence ← read_stamp; mret (MkHint klass id evidence).

Definition write_hints (hints : list RackFailureDomainHint) : ByteWriter → ByteWriter :=
  w_list write_hint hints.
Definition read_hints : Read (list RackFailureDomainHint) := r_list kMaxFailureDomainRefs read_hint.

(** ** Readiness contract and domain generations *)

Definition write_readiness (contract : ReadinessContract) : ByteWriter → ByteWriter :=
  steps [w_u64 (ct_minimum_current_racks contract);
         write_rack_ids (ct_mandatory_racks contract);
         w_boolean (ct_require_all_active_racks_current contract);
         w_boolean (ct_require_connectivity_evidence contract);
         w_u64 (ct_minimum_current_links contract);
         w_list w_enum (ct_required_placement_domain_classes contract);
         w_list w_enum (ct_required_failure_domain_classes contract);
         w_boolean (ct_allow_partial contract); w_boolean (ct_allow_degraded contract);
         w_boolean (ct_require_no_conflicts contract)].

Definition read_readiness : Read ReadinessContract :=
  minimum ← r_u64; minimum ← ensure (count_upto kMaxRacksPerCluster minimum);
  mandatory ← read_rack_ids kMaxRacksPerCluster;
  all_current ← r_boolean; connectivity ← r_boolean; minimum_links ← r_u64;
  minimum_links ← ensure (count_upto kMaxInterRackLinks minimum_links);
  placement ← r_list kMaxDomainsPerClass (r_enum PD_PolicyClass);
  failure ← r_list kMaxDomainsPerClass (r_enum FD_ControlPlane);
  partial ← r_boolean; degraded ← r_boolean; conflicts ← r_boolean;
  mret (MkContract minimum mandatory all_current connectivity minimum_links placement failure
          partial degraded conflicts).

Definition write_domain_generations (g : DomainGenerations) : ByteWriter → ByteWriter :=
  steps [w_counter (dg_placement g); w_counter (dg_capacity g); w_counter (dg_failure g);
         w_counter (dg_network g); w_counter (dg_storage g); w_counter (dg_power g);
         w_counter (dg_cooling g); w_counter (dg_link g)].

Definition read_domain_generations : Read DomainGenerations :=
  placement ← r_counter; capacity ← r_counter; failure ← r_counter; network ← r_counter;
  storage ← r_counter; power ← r_counter; cooling ← r_counter; link ← r_counter;
  mret (MkGenerations placement capacity failure network storage power cooling link).
