(* ===== verification/PersistValid.v ===== *)
(** * Validation of a durable state

    [validate_persisted_state] of [src/persistence.cpp]: the structural rules a
    decoded state must satisfy before it is restored. *)

From Stdlib Require Import NArith ZArith Lia.
From S2P Require Import Prelude Identity Counter Taxonomy Evidence Types State Domains Invariant.
From S2P Require Import Durable.

(** What a rule answers: nothing, or the status and the detail of its failure. *)
Abbreviation Verdict := (option (PersistenceStatus * string)).

(** Rules in turn: the first failure is the answer. *)
Fixpoint first_of (rules : list Verdict) : Verdict :=
  match rules with
  | [] => None
  | None :: rules => first_of rules
  | Some failure :: _ => Some failure
  end.

Definition fail_if (condition : bool) (status : PersistenceStatus) (detail : string) : Verdict :=
  if condition then Some (status, detail) else None.

(** The loop over a list: the rule sees the element before, if there is one. *)
Fixpoint each_after {A} (rule : option A → A → Verdict) (previous : option A) (l : list A) :
    Verdict :=
  match l with
  | [] => None
  | a :: l => match rule previous a with
              | Some failure => Some failure
              | None => each_after rule (Some a) l
              end
  end.

Definition each {A} (rule : option A → A → Verdict) (l : list A) : Verdict := each_after rule None l.

(** [i > 0 && !(previous < current)]. *)
Definition out_of_order {A} (lt : A → A → bool) (previous : option A) (current : A) : bool :=
  match previous with Some p => negb (lt p current) | None => false end.

(** [!id.known() || !validate_identity(id.view()).ok()]. *)
Definition malformed {tag} (id : StrongId tag) : bool :=
  negb (id_known id) || negb (iv_ok (validate_identity (id_value id))).

Definition zero {tag} (c : StrongCounter tag) : bool := negb (ctr_known c).

Definition oversized {A} (bound : N) (l : list A) : bool := (bound <? size l)%N.

(** ** Racks *)

Definition rack_text (rack : DurableRack) (text : string) : string :=
  "rack " +:+ id_value (du_rack rack) +:+ text.

Definition endpoint_rule (rack : DurableRack) (previous : option RackEndpoint)
    (endpoint : RackEndpoint) : Verdict :=
  first_of [
    fail_if (malformed (ep_id endpoint)) PS_InvalidIdentity
      (rack_text rack " has a malformed endpoint identity");
    fail_if (out_of_order (λ x y, less (ep_id x) (ep_id y)) previous endpoint) PS_InvalidState
      (rack_text rack " endpoints are duplicated or not sorted")].

Definition hint_precedes (x y : RackFailureDomainHint) : bool :=
  less (fh_klass x) (fh_klass y) ||
  (bool_decide (fh_klass x = fh_klass y) && less (fh_id x) (fh_id y)).

Definition hint_rule (rack : DurableRack) (previous : option RackFailureDomainHint)
    (hint : RackFailureDomainHint) : Verdict :=
  first_of [
    fail_if (bool_decide (fh_klass hint = FD_Unknown)) PS_InvalidEnum
      (rack_text rack " declares an UNKNOWN failure domain class");
    fail_if (malformed (fh_id hint)) PS_InvalidIdentity
      (rack_text rack " has a malformed failure domain identity");
    fail_if (out_of_order hint_precedes previous hint) PS_InvalidState
      (rack_text rack " failure domain hints are duplicated or not sorted")].

Definition rack_rule (previous : option DurableRack) (rack : DurableRack) : Verdict :=
  first_of [
    fail_if (malformed (du_rack rack)) PS_InvalidIdentity "a rack identity is missing or malformed";
    fail_if (zero (du_generation rack)) PS_InvalidGeneration
      (rack_text rack " has a zero generation");
    fail_if (malformed (du_publisher rack)) PS_InvalidIdentity
      (rack_text rack " has no valid publisher");
    fail_if (out_of_order (λ x y, less (du_rack x) (du_rack y)) previous rack)
      PS_DuplicateRackIdentity (rack_text rack " is duplicated or the rack list is not sorted");
    fail_if (oversized kMaxRackEndpoints (du_endpoints rack)) PS_BoundsExceeded
      (rack_text rack " declares too many endpoints");
    each (endpoint_rule rack) (du_endpoints rack);
    fail_if (oversized kMaxFailureDomainRefs (du_failure_domain_hints rack)) PS_BoundsExceeded
      (rack_text rack " declares too many failure domains");
    each (hint_rule rack) (du_failure_domain_hints rack)].

(** ** Members and domains *)

Section members.
  (** The rack identities, in order. *)
  Context (rack_ids : list RackId).

Definition rack_exists (id : RackId) : bool := binary_search less rack_ids id.

Definition member_rule (previous : option RackId) (member : RackId) : option string :=
  if malformed member then Some "member identity is missing or malformed" else
  if out_of_order less previous member then Some "member list is duplicated or not sorted" else
  if negb (rack_exists member) then
    Some ("member rack " +:+ id_value member +:+ " does not exist") else None.

(** [member_list_ok]: nothing, or the detail. *)
Definition member_list_ok (members : list RackId) : option string :=
  if oversized kMaxDomainMembers members then Some "member list exceeds the bound" else
  snd <$> each (λ p m, (λ d, (PS_DanglingReference, d)) <$> member_rule p m) members.

Definition dangling (subject : string) (members : list RackId) : Verdict :=
  (λ detail, (PS_DanglingReference, subject +:+ ": " +:+ detail)) <$> member_list_ok members.

Definition domain_rule {D tag} `{DomainTraits D tag} (label : string) (previous : option D)
    (domain : D) : Verdict :=
  first_of [
    fail_if (malformed (dt_id domain)) PS_InvalidIdentity
      (label +:+ " identity is missing or malformed");
    fail_if (zero (dh_generation (dt_header domain))) PS_InvalidGeneration
      (label +:+ " " +:+ id_value (dt_id domain) +:+ " has a zero generation");
    fail_if (out_of_order (λ x y, less (dt_id x) (dt_id y)) previous domain) PS_InvalidState
      (label +:+ " list is duplicated or not sorted");
    dangling (label +:+ " " +:+ id_value (dt_id domain)) (dt_racks domain)].

Definition check_domain_list {D tag} `{DomainTraits D tag} (label : string) (domains : list D) :
    Verdict :=
  first_of [
    fail_if (oversized kMaxDomainsPerClass domains) PS_AbsurdCount
      (label +:+ " count exceeds the bound");
    each (domain_rule label) domains].

Definition quantity_precedes (x y : CapacityQuantity) : bool :=
  less (cq_unit x) (cq_unit y) ||
  (bool_decide (cq_unit x = cq_unit y) && less (cq_provenance x) (cq_provenance y)).

Definition quantity_rule (domain : CapacityDomain) (previous : option CapacityQuantity)
    (quantity : CapacityQuantity) : Verdict :=
  let subject := "capacity domain " +:+ id_value (cd_id domain) in
  first_of [
    fail_if (is_empty (cq_unit quantity) || (kMaxEncodedStringBytes <? strlen (cq_unit quantity))%N)
      PS_InvalidState (subject +:+ " has a quantity without a bounded unit");
    fail_if match cq_value quantity with Some v => negb (dbl_is_finite v) | None => false end
      PS_InvalidState (subject +:+ " has a non-finite quantity");
    fail_if (out_of_order quantity_precedes previous quantity) PS_InvalidState
      (subject +:+ " quantities are duplicated or not sorted")].

Definition capacity_rule (domain : CapacityDomain) : Verdict :=
  first_of [
    fail_if (oversized kMaxCapacityQuantities (cd_quantities domain)) PS_BoundsExceeded
      ("capacity domain " +:+ id_value (cd_id domain) +:+ " declares too many quantities");
    each (quantity_rule domain) (cd_quantities domain)].

(** ** Links and constraints *)

Definition reference_missing {tag} (known : list (StrongId tag)) (id : option (StrongId tag)) :
    bool :=
  match id with Some id => negb (binary_search less known id) | None => false end.

Definition link_rule (network_ids : list NetworkDomainId) (link_ids : list LinkDomainId)
    (previous : option InterRackLink) (link : InterRackLink) : Verdict :=
  let subject := "link " +:+ id_value (lk_id link) in
  first_of [
    fail_if (malformed (lk_id link)) PS_InvalidIdentity "an inter-rack link identity is malformed";
    fail_if (negb (id_known (lk_source link)) || negb (id_known (lk_destination link)) ||
             bool_decide (lk_source link = lk_destination link)) PS_InvalidState
      (subject +:+ " does not connect two distinct racks");
    fail_if (negb (rack_exists (lk_source link)) || negb (rack_exists (lk_destination link)))
      PS_DanglingReference (subject +:+ " references an unknown rack");
    fail_if (zero (dh_generation (lk_header link)) || zero (lk_topology_epoch link))
      PS_InvalidGeneration (subject +:+ " has a zero generation or epoch");
    fail_if (reference_missing network_ids (lk_network_domain link)) PS_DanglingReference
      (subject +:+ " references an unknown network domain");
    fail_if (reference_missing link_ids (lk_link_domain link)) PS_DanglingReference
      (subject +:+ " references an unknown link domain");
    fail_if (out_of_order (λ x y, less (lk_id x) (lk_id y)) previous link) PS_InvalidState
      "inter-rack links are duplicated or not sorted"].

Definition constraint_rule (previous : option ClusterConstraint) (constraint : ClusterConstraint) :
    Verdict :=
  let subject := "constraint " +:+ id_value (cc_id constraint) in
  first_of [
    fail_if (malformed (cc_id constraint)) PS_InvalidIdentity "a constraint identity is malformed";
    fail_if (bool_decide (cc_kind constraint = CK_Unknown)) PS_InvalidEnum
      (subject +:+ " has an UNKNOWN kind");
    fail_if (zero (dh_generation (cc_header constraint))) PS_InvalidGeneration
      (subject +:+ " has a zero generation");
    dangling subject (cc_racks constraint);
    fail_if (out_of_order (λ x y, less (cc_id x) (cc_id y)) previous constraint) PS_InvalidState
      "constraints are duplicated or not sorted"].
End members.

(** ** Retired, withdrawn and fenced *)

Definition retired_rule (previous : option RetiredIdentity) (retired : RetiredIdentity) : Verdict :=
  first_of [
    fail_if (malformed (ri_rack retired)) PS_InvalidIdentity "a retired rack identity is malformed";
    fail_if (zero (ri_last_generation retired)) PS_InvalidGeneration
      ("retired rack " +:+ id_value (ri_rack retired) +:+ " has a zero last generation");
    fail_if (out_of_order (λ x y, less (ri_rack x) (ri_rack y)) previous retired) PS_InvalidState
      "retired racks are duplicated or not sorted"].

Definition withdrawn_rule (retired : list RetiredIdentity) (previous : option RackId)
    (rack : RackId) : Verdict :=
  first_of [
    fail_if (malformed rack) PS_InvalidIdentity "a withdrawn rack identity is malformed";
    fail_if (out_of_order less previous rack) PS_InvalidState
      "withdrawn racks are duplicated or not sorted";
    fail_if (existsb (λ entry, bool_decide (ri_rack entry = rack)) retired) PS_InvalidState
      ("rack " +:+ id_value rack +:+ " is recorded as both withdrawn and retired")].

Definition fenced_rule (fenced : FencedAuthority) : Verdict :=
  first_of [
    fail_if (malformed (fa_boot fenced)) PS_InvalidIdentity "a fenced boot identity is malformed";
    fail_if (malformed (fa_rack fenced)) PS_InvalidIdentity "a fenced rack identity is malformed";
    fail_if (is_empty (fa_reason fenced) || (kMaxEncodedStringBytes <? strlen (fa_reason fenced))%N)
      PS_InvalidState ("fenced boot " +:+ id_value (fa_boot fenced) +:+ " has no bounded reason")].

(** ** The state *)

Definition top_level_rules (s : PersistedState) : list Verdict := [
  fail_if (malformed (ps_id s)) PS_InvalidIdentity "cluster identity is missing or malformed";
  fail_if (zero (ps_epoch s)) PS_InvalidEpoch "cluster epoch is zero";
  fail_if (zero (ps_last_coordinator_epoch s)) PS_InvalidEpoch "coordinator epoch is zero";
  fail_if (zero (ps_generation s) || zero (ps_membership_generation s) ||
           zero (ps_topology_generation s) || zero (ps_connectivity_generation s) ||
           zero (ps_health_generation s) || zero (ps_constraint_generation s) ||
           zero (ps_snapshot_generation s) || zero (ps_publication_generation s))
    PS_InvalidGeneration "a top-level generation is zero";
  fail_if (zero (ps_topology_epoch s) && zero (tr_epoch (ps_topology_record s))) PS_InvalidEpoch
    "no topology epoch is recorded";
  fail_if (oversized kMaxRacksPerCluster (ps_racks s)) PS_AbsurdCount
    ("rack count " +:+ to_decimal (size (ps_racks s)) +:+ " exceeds the bound");
  fail_if (oversized kMaxInterRackLinks (ps_links s)) PS_AbsurdCount
    ("link count " +:+ to_decimal (size (ps_links s)) +:+ " exceeds the bound");
  fail_if (oversized kMaxConstraints (ps_constraints s)) PS_AbsurdCount
    ("constraint count " +:+ to_decimal (size (ps_constraints s)) +:+ " exceeds the bound")].

Definition domain_rules (s : PersistedState) (rack_ids : list RackId) : list Verdict := [
  check_domain_list rack_ids "placement domain" (ps_placement_domains s);
  check_domain_list rack_ids "capacity domain" (ps_capacity_domains s);
  check_domain_list rack_ids "failure domain" (ps_failure_domains s);
  check_domain_list rack_ids "network domain" (ps_network_domains s);
  check_domain_list rack_ids "storage domain" (ps_storage_domains s);
  check_domain_list rack_ids "power domain" (ps_power_domains s);
  check_domain_list rack_ids "cooling domain" (ps_cooling_domains s);
  check_domain_list rack_ids "link domain" (ps_link_domains s);
  each (λ _, capacity_rule) (ps_capacity_domains s)].

Definition validation (s : PersistedState) : Verdict :=
  let rack_ids := du_rack <$> ps_racks s in
  first_of (
    top_level_rules s ++ [each rack_rule (ps_racks s)] ++ domain_rules s rack_ids ++
    [each (link_rule rack_ids (nd_id <$> ps_network_domains s) (ld_id <$> ps_link_domains s))
       (ps_links s);
     each (constraint_rule rack_ids) (ps_constraints s);
     each retired_rule (ps_retired_racks s);
     each (withdrawn_rule (ps_retired_racks s)) (ps_withdrawn_racks s);
     each (λ _, fenced_rule) (ps_fenced_authorities s)]).

(** The status, and the detail, which is empty for a valid state. *)
Definition validate_persisted_state (s : PersistedState) : PersistenceStatus * string :=
  default (PS_Ok, "") (validation s).

(** ** What the rules say *)

Lemma first_of_None rules : first_of rules = None ↔ Forall (λ v, v = None) rules.
Proof.
  induction rules as [|[f|] rules IH]; cbn [first_of].
  - split; [constructor|done].
  - split; [done|]. by inversion 1.
  - rewrite IH, Forall_cons. naive_solver.
Qed.

Lemma fail_if_None condition status detail : fail_if condition status detail = None ↔ condition = false.
Proof. unfold fail_if. destruct condition; naive_solver. Qed.

(** A validation that answers [PS_Ok] found no failure: no rule fails with
    [PS_Ok]. *)
Definition proper (v : Verdict) : Prop := ∀ f, v = Some f → f.1 ≠ PS_Ok.

Lemma fail_if_proper condition status detail : status ≠ PS_Ok → proper (fail_if condition status detail).
Proof. unfold fail_if. intros Hs f. destruct condition; [|done]. by intros [= <-]. Qed.

Lemma first_of_proper rules : Forall proper rules → proper (first_of rules).
Proof.
  induction 1 as [|[g|] rules Hg _ IH]; intros f; cbn [first_of]; [done| |apply IH].
  intros [= <-]. by apply Hg.
Qed.

Lemma each_proper {A} (rule : option A → A → Verdict) l :
  (∀ p a, proper (rule p a)) → proper (each rule l).
Proof.
  unfold each. intros Hr. generalize (None : option A).
  induction l as [|a l IH]; intros p f; cbn [each_after]; [done|].
  destruct (rule p a) eqn:E; [|apply IH]. intros [= <-]. by apply (Hr p a).
Qed.

Ltac proper_rules :=
  repeat first [
    apply first_of_proper | apply each_proper; intros ?? | apply Forall_cons; split
    | exact (Forall_nil_2 _) | apply fail_if_proper; discriminate
    | progress unfold rack_rule, endpoint_rule, hint_rule, check_domain_list, domain_rule,
        capacity_rule, quantity_rule, link_rule, constraint_rule, retired_rule, withdrawn_rule,
        fenced_rule ].

Lemma dangling_proper rack_ids subject members : proper (dangling rack_ids subject members).
Proof. unfold dangling. intros f. destruct (member_list_ok _ _); [|done]. by intros [= <-]. Qed.

Lemma validation_proper s : proper (validation s).
Proof.
  unfold validation, top_level_rules, domain_rules. cbn [app].
  proper_rules; apply dangling_proper.
Qed.

Lemma validation_passes s : validate_persisted_state s = (PS_Ok, "") → validation s = None.
Proof.
  unfold validate_persisted_state. destruct (validation s) as [f|] eqn:E; [|done].
  intros H. simpl in H. subst f. by destruct (validation_proper s _ E).
Qed.
