(* ===== verification/Persist.v ===== *)
(** * The durable container

    [encode_persisted_state] and [decode_persisted_state] of
    [src/persistence.cpp]: a 16-byte header of magic, version, flags, payload
    length and checksum, then the payload.  The header is copied with [memcpy];
    the model is that of a little-endian host. *)

From Stdlib Require Import NArith ZArith Lia.
From S2P Require Import Prelude Identity Counter Taxonomy Evidence Types Invariant Durable Wire Codec.
From S2P Require Import WireStream Frame PersistFields PersistValid.

Definition kContainerHeaderBytes : N := 16.
Definition kPersistenceMagic : N := 827541059.
Definition kPersistenceFormatVersion : N := 1.
Definition kMaxPersistenceBytes : N := 268435456.

(** ** Encoding *)

Definition write_rack (rack : DurableRack) : ByteWriter → ByteWriter :=
  steps [w_identity (du_rack rack); w_counter (du_generation rack); w_enum (du_membership rack);
         w_identity (du_publisher rack); w_counter (du_last_accepted_publication rack);
         w_identity (du_last_boot rack); write_composition (du_composition rack);
         write_endpoints (du_endpoints rack); write_hints (du_failure_domain_hints rack);
         w_enum (du_rack_lifecycle rack); w_counter (du_membership_generation rack);
         w_text (du_origin_label rack); w_millis (du_declared_at rack)].

Definition write_placement (d : PlacementDomain) : ByteWriter → ByteWriter :=
  steps [w_identity (pd_id d); w_enum (pd_klass d); write_rack_ids (pd_racks d);
         write_header (pd_header d)].

Definition write_quantity (q : CapacityQuantity) : ByteWriter → ByteWriter :=
  steps [w_text (cq_unit q); w_opt_f64 (cq_value q); w_enum (cq_provenance q);
         w_boolean (cq_aggregated q)].

Definition write_capacity (d : CapacityDomain) : ByteWriter → ByteWriter :=
  steps [w_identity (cd_id d); w_enum (cd_klass d); write_rack_ids (cd_racks d);
         w_list write_quantity (cd_quantities d); write_header (cd_header d)].

Definition write_failure (d : FailureDomain) : ByteWriter → ByteWriter :=
  steps [w_identity (fd_id d); w_enum (fd_klass d); write_rack_ids (fd_racks d);
         write_header (fd_header d)].

Definition write_network (d : NetworkDomain) : ByteWriter → ByteWriter :=
  steps [w_identity (nd_id d); w_enum (nd_connectivity d); write_rack_ids (nd_racks d);
         write_header (nd_header d)].

Definition write_storage (d : StorageDomain) : ByteWriter → ByteWriter :=
  steps [w_identity (sd_id d); write_rack_ids (sd_racks d); write_header (sd_header d)].

Definition write_power (d : PowerDomain) : ByteWriter → ByteWriter :=
  steps [w_identity (pw_id d); write_rack_ids (pw_racks d); w_opt_identity (pw_parent d);
         write_header (pw_header d)].

Definition write_cooling (d : CoolingDomain) : ByteWriter → ByteWriter :=
  steps [w_identity (co_id d); write_rack_ids (co_racks d); w_opt_identity (co_parent d);
         write_header (co_header d)].

Definition write_link_group (d : LinkDomain) : ByteWriter → ByteWriter :=
  steps [w_identity (ld_id d); write_rack_ids (ld_racks d); write_header (ld_header d)].

Definition write_link (l : InterRackLink) : ByteWriter → ByteWriter :=
  steps [w_identity (lk_id l); w_identity (lk_source l); w_identity (lk_destination l);
         w_enum (lk_direction l); w_enum (lk_connectivity l); w_opt_identity (lk_network_domain l);
         w_opt_identity (lk_link_domain l); w_opt_identity (lk_source_endpoint l);
         w_opt_identity (lk_destination_endpoint l); w_enum (lk_bandwidth_class l);
         w_opt_u64 (lk_nominal_bandwidth_bps l); w_enum (lk_latency_class l);
         w_opt_u64 (lk_nominal_latency_nanos l); w_opt_u32 (lk_hop_count l);
         w_enum (lk_reachability l); w_enum (lk_health l); w_list w_identity (lk_failure_domains l);
         write_header (lk_header l); w_counter (lk_topology_epoch l);
         w_counter (lk_topology_generation l); w_counter (lk_publication l);
         w_opt_identity (lk_boot l)].

Definition write_constraint (c : ClusterConstraint) : ByteWriter → ByteWriter :=
  steps [w_identity (cc_id c); w_enum (cc_kind c); write_rack_ids (cc_racks c);
         w_text (cc_domain_ref c); w_text (cc_statement c); write_header (cc_header c)].

Definition write_retired (r : RetiredIdentity) : ByteWriter → ByteWriter :=
  steps [w_identity (ri_rack r); w_counter (ri_last_generation r); w_millis (ri_retired_at r);
         w_text (ri_reason r)].

Definition write_fenced (f : FencedAuthority) : ByteWriter → ByteWriter :=
  steps [w_identity (fa_boot f); w_identity (fa_rack f); w_text (fa_reason f);
         w_millis (fa_fenced_at f)].

Definition write_state (s : PersistedState) : ByteWriter → ByteWriter :=
  steps [w_identity (ps_id s); w_counter (ps_epoch s); w_counter (ps_last_coordinator_epoch s);
         w_counter (ps_generation s); w_counter (ps_membership_generation s);
         w_counter (ps_topology_epoch s); w_counter (ps_topology_generation s);
         w_counter (ps_connectivity_generation s); w_counter (ps_health_generation s);
         w_counter (ps_constraint_generation s); write_domain_generations (ps_domain_generations s);
         w_counter (ps_snapshot_generation s); w_counter (ps_publication_generation s);
         w_enum (ps_lifecycle s); write_readiness (ps_readiness_contract s);
         w_counter (tr_epoch (ps_topology_record s));
         w_counter (tr_generation (ps_topology_record s));
         w_millis (tr_established_at (ps_topology_record s));
         write_stamp (tr_evidence (ps_topology_record s)); w_text (tr_reason (ps_topology_record s));
         w_millis (ps_declared_at s); w_millis (ps_last_mutation_at s);
         w_list write_rack (ps_racks s); w_list write_placement (ps_placement_domains s);
         w_list write_capacity (ps_capacity_domains s); w_list write_failure (ps_failure_domains s);
         w_list write_network (ps_network_domains s); w_list write_storage (ps_storage_domains s);
         w_list write_power (ps_power_domains s); w_list write_cooling (ps_cooling_domains s);
         w_list write_link_group (ps_link_domains s); w_list write_link (ps_links s);
         w_list write_constraint (ps_constraints s); w_list write_retired (ps_retired_racks s);
         write_rack_ids (ps_withdrawn_racks s); w_list write_fenced (ps_fenced_authorities s)].

Record EncodeOutcome := MkEncode {
  eo_status : PersistenceStatus;
  eo_bytes : bytes;
  eo_error : StructuredError
}.

Definition encode_failure (status : PersistenceStatus) (code message : string) : EncodeOutcome :=
  MkEncode status [] (error_make EC_Persistence ES_Encode code message).

(** The container of a payload. *)
Definition container_header (length : N) : bytes :=
  le_bytes 4 kPersistenceMagic ++ le_bytes 2 kPersistenceFormatVersion ++ le_bytes 2 0 ++
  le_bytes 4 length.

Definition container (payload : bytes) : bytes :=
  let header := container_header (size payload) in
  header ++ le_bytes 4 (N.lxor (crc32 header) (crc32 payload)) ++ payload.

Definition encode_persisted_state (s : PersistedState) : EncodeOutcome :=
  let writer := write_state s empty_writer in
  if negb (bw_ok writer) then
    let status := if bool_decide (bw_status writer = Wire_Ok) then PS_InvalidState
                  else PS_BoundsExceeded in
    encode_failure status (string_of_persistence_status status)
      "durable state could not be encoded within bounds" else
  let payload := bw_data writer in
  if (kMaxPersistenceBytes - kContainerHeaderBytes <? size payload)%N then
    encode_failure PS_PayloadTooLarge "payload_too_large"
      "encoded durable state exceeds the container limit" else
  MkEncode PS_Ok (container payload) no_error.

(** ** Decoding *)

(** The reader of the payload, and the status, reason and message of the first
    failure. *)
Record StateReader := MkStateReader {
  sr_reader : ByteReader;
  sr_failure : option (PersistenceStatus * string * string)
}.

Abbreviation SRead := (Rd StateReader).

(** A read whose failure is reported. *)
Definition attempt {A} (status : PersistenceStatus) (code message : string) (m : Read A) : SRead A :=
  λ r, match m (sr_reader r) with
       | (Some a, reader) => (Some a, MkStateReader reader (sr_failure r))
       | (None, reader) => (None, MkStateReader reader (Some (status, code, message)))
       end.

(** A condition whose failure is reported. *)
Definition demand {A} (status : PersistenceStatus) (code message : string) (value : option A) :
    SRead A :=
  λ r, match value with
       | Some a => (Some a, r)
       | None => (None, MkStateReader (sr_reader r) (Some (status, code, message)))
       end.

Abbreviation incomplete := (attempt PS_TruncatedBody "truncated_body").
Abbreviation out_of_range := (demand PS_InvalidEnum "invalid_enum").
Abbreviation bad_identity := (demand PS_InvalidIdentity "invalid_identity").

(** A block of records: its count is read, bounded, and each record is read. *)
Definition block {A} (bound : N) (missing exceeds : string) (read_one : SRead A) : SRead (list A) :=
  count ← incomplete missing r_u32;
  count ← demand PS_AbsurdCount "absurd_count" exceeds (count_upto bound count);
  r_times (N.to_nat count) read_one.

(** The identity of an optional text, when there is one. *)
Definition demand_identity {tag} (message : string) (text : option string) :
    SRead (option (StrongId tag)) :=
  match text with
  | None => mret None
  | Some text => id ← bad_identity message (parse_id text); mret (Some id)
  end.

Definition read_optional_text : Read (option string) :=
  present ← r_boolean;
  if (present : bool) then value ← r_text; mret (Some value) else mret None.

Definition read_rack_prefix :
    Read (string * RackGeneration * N * string * PublicationGeneration * string) :=
  rack_id ← r_text; generation ← r_counter; membership ← r_u8; publisher ← r_text;
  publication ← r_counter; last_boot ← r_text;
  mret (rack_id, generation, membership, publisher, publication, last_boot).

Definition read_rack_tail : Read (N * MembershipGeneration * string * Timestamp) :=
  lifecycle ← r_u8; generation ← r_counter; origin ← r_text; declared ← r_millis;
  mret (lifecycle, generation, origin, declared).

Definition read_rack_body :
    Read (RackCompositionSummary * list RackEndpoint * list RackFailureDomainHint) :=
  composition ← read_composition; endpoints ← read_endpoints; hints ← read_hints;
  mret (composition, endpoints, hints).

Definition read_rack : SRead DurableRack :=
  '(rack_id, generation, membership, publisher, publication, last_boot) ←
    incomplete "rack record is incomplete" read_rack_prefix;
  rack ← bad_identity "rack identity is not valid" (parse_id rack_id);
  publisher ← bad_identity "rack identity is not valid" (parse_id publisher);
  boot ← bad_identity "rack identity is not valid" (parse_id last_boot);
  membership ← out_of_range "membership value is out of range" (enum_upto Mem_Retired membership);
  '(composition, endpoints, hints) ←
    incomplete "rack composition block is incomplete" read_rack_body;
  '(lifecycle, membership_generation, origin, declared) ←
    incomplete "rack tail block is incomplete" read_rack_tail;
  lifecycle ← out_of_range "rack lifecycle is out of range" (enum_upto RL_Retired lifecycle);
  mret (MkDurable rack generation membership publisher publication boot composition endpoints hints
          lifecycle membership_generation origin declared).

(** Members and header, read together by most of the domain classes. *)
Definition read_members_header : Read (list RackId * DomainHeader) :=
  racks ← read_rack_ids kMaxDomainMembers; header ← read_header; mret (racks, header).

Definition read_placement : SRead PlacementDomain :=
  '(id, klass) ← incomplete "placement domain is incomplete"
    (id ← r_text; klass ← r_u8; mret (id, klass));
  id ← bad_identity "placement domain identity is not valid" (parse_id id);
  klass ← out_of_range "placement domain class is out of range" (enum_upto PD_PolicyClass klass);
  '(racks, header) ← incomplete "placement domain body is incomplete" read_members_header;
  mret (MkPlacement id klass racks header).

Definition read_quantity : SRead CapacityQuantity :=
  '(unit_text, value, provenance, aggregated) ← incomplete "capacity quantity is incomplete"
    (unit_text ← r_text; value ← r_opt r_f64; provenance ← r_u8; aggregated ← r_boolean;
     mret (unit_text, value, provenance, aggregated));
  provenance ← out_of_range "quantity provenance out of range"
    (enum_upto Prov_Reconstructed provenance);
  mret (MkQuantity unit_text value provenance aggregated).

Definition read_capacity : SRead CapacityDomain :=
  '(id, klass) ← incomplete "capacity domain is incomplete"
    (id ← r_text; klass ← r_u8; mret (id, klass));
  id ← bad_identity "capacity domain identity is not valid" (parse_id id);
  klass ← out_of_range "capacity domain class is out of range" (enum_upto CD_StorageDomain klass);
  racks ← incomplete "capacity domain members missing" (read_rack_ids kMaxDomainMembers);
  quantities ← block kMaxCapacityQuantities "capacity quantity block missing"
    "capacity quantity count exceeds bound" read_quantity;
  header ← incomplete "capacity domain header incomplete" read_header;
  mret (MkCapacity id klass racks quantities header).

(** An identity and a class; a missing identity has its own status. *)
Definition read_classified {tag E} `{Enum E} (code message : string) (last : E) :
    SRead (StrongId tag * E) :=
  id ← attempt PS_TruncatedBody code message r_text;
  id ← demand PS_InvalidIdentity code message (parse_id id);
  klass ← attempt PS_InvalidIdentity code message (r_enum last);
  mret (id, klass).

Definition read_failure : SRead FailureDomain :=
  '(id, klass) ← read_classified "invalid_failure_domain"
    "failure domain identity or class is not valid" FD_ControlPlane;
  '(racks, header) ← incomplete "failure domain body is incomplete" read_members_header;
  mret (MkFailure id klass racks header).

Definition read_network : SRead NetworkDomain :=
  '(id, connectivity) ← read_classified "invalid_network_domain"
    "network domain identity or connectivity is not valid" Conn_ManagementOnly;
  '(racks, header) ← incomplete "network domain body is incomplete" read_members_header;
  mret (MkNetwork id connectivity racks header).

Definition read_storage : SRead StorageDomain :=
  id ← attempt PS_InvalidIdentity "invalid_identity" "storage domain identity is not valid" r_identity;
  '(racks, header) ← incomplete "storage domain body is incomplete" read_members_header;
  mret (MkStorage id racks header).

Definition read_power : SRead PowerDomain :=
  id ← attempt PS_InvalidIdentity "invalid_power_domain"
    "power domain identity or parent is not valid" r_identity;
  racks ← incomplete "power domain body is incomplete" (read_rack_ids kMaxDomainMembers);
  parent ← attempt PS_InvalidIdentity "invalid_power_domain"
    "power domain identity or parent is not valid" read_optional_text;
  parent ← demand_identity "power domain parent identity is not valid" parent;
  header ← incomplete "power domain body is incomplete" read_header;
  mret (MkPower id racks parent header).

Definition read_cooling : SRead CoolingDomain :=
  id ← attempt PS_InvalidIdentity "invalid_cooling_domain"
    "cooling domain identity or parent is not valid" r_identity;
  racks ← incomplete "cooling domain body is incomplete" (read_rack_ids kMaxDomainMembers);
  parent ← attempt PS_InvalidIdentity "invalid_cooling_domain"
    "cooling domain identity or parent is not valid" read_optional_text;
  parent ← demand_identity "cooling domain parent identity is not valid" parent;
  header ← incomplete "cooling domain body is incomplete" read_header;
  mret (MkCooling id racks parent header).

Definition read_link_group : SRead LinkDomain :=
  id ← attempt PS_InvalidIdentity "invalid_identity" "link domain identity is not valid" r_identity;
  '(racks, header) ← incomplete "link domain body is incomplete" read_members_header;
  mret (MkLinkDomain id racks header).

Definition read_link_prefix :
    Read (InterRackLinkId * RackId * RackId * LinkDirection * ConnectivityClass) :=
  id ← r_text; source ← r_text; destination ← r_text; id ← ensure (parse_id id);
  source ← ensure (parse_id source); destination ← ensure (parse_id destination);
  direction ← r_enum Dir_Bidirectional; connectivity ← r_enum Conn_ManagementOnly;
  mret (id, source, destination, direction, connectivity).

Definition read_link_references :
    Read (option string * option string * option string * option string) :=
  network_domain ← read_optional_text; link_domain ← read_optional_text;
  source_endpoint ← read_optional_text; destination_endpoint ← read_optional_text;
  mret (network_domain, link_domain, source_endpoint, destination_endpoint).

Definition enumerator {E} `{Enum E} (message : string) (last : E) : SRead E :=
  attempt PS_InvalidEnum "invalid_enum" message (r_enum last).

(** The failure domains of a link: the count and each identity. *)
Definition read_link_failure_domains : SRead (list FailureDomainId) :=
  count ← attempt PS_AbsurdCount "absurd_count"
    "link failure domain count is missing or exceeds the bound"
    (count ← r_u32; ensure (count_upto kMaxFailureDomainRefs count));
  r_times (N.to_nat count)
    (attempt PS_InvalidIdentity "invalid_identity" "link failure domain identity is not valid"
       r_identity).

Definition read_link_generations : Read (TopologyEpoch * TopologyGeneration * PublicationGeneration) :=
  epoch ← r_counter; generation ← r_counter; publication ← r_counter;
  mret (epoch, generation, publication).

Definition read_link : SRead InterRackLink :=
  '(id, source, destination, direction, connectivity) ← attempt PS_InvalidIdentity "invalid_link"
    "link identity, endpoints, direction or connectivity is not valid" read_link_prefix;
  '(network_domain, link_domain, source_endpoint, destination_endpoint) ←
    incomplete "link reference block is incomplete" read_link_references;
  network_domain ← demand_identity "link network domain is invalid" network_domain;
  link_domain ← demand_identity "link domain is invalid" link_domain;
  source_endpoint ← demand_identity "link source endpoint is invalid" source_endpoint;
  destination_endpoint ← demand_identity "link destination endpoint is invalid" destination_endpoint;
  bandwidth_class ← enumerator "bandwidth class is out of range" BW_VeryHigh;
  bandwidth ← incomplete "link bandwidth block is incomplete" (r_opt r_u64);
  latency_class ← enumerator "latency class is out of range" Lat_High;
  latency ← incomplete "link latency block is incomplete" (r_opt r_u64);
  hops ← incomplete "link hop block is incomplete" (r_opt r_u32);
  reachability ← enumerator "link reachability or health is out of range" Reach_RevalidationRequired;
  health ← enumerator "link reachability or health is out of range" Health_Unhealthy;
  failure_domains ← read_link_failure_domains;
  header ← incomplete "link header is incomplete" read_header;
  '(epoch, generation, publication) ← incomplete "link generation block is incomplete"
    read_link_generations;
  boot ← incomplete "link boot block is incomplete" read_optional_text;
  boot ← demand_identity "link boot identity is not valid" boot;
  mret (MkLink id source destination direction connectivity network_domain link_domain
          source_endpoint destination_endpoint bandwidth_class bandwidth latency_class latency hops
          reachability health failure_domains header epoch generation publication boot).

Definition read_constraint : SRead ClusterConstraint :=
  '(id, kind, racks) ← attempt PS_InvalidIdentity "invalid_constraint"
    "constraint identity, kind or members are not valid"
    (id ← r_identity; kind ← r_enum CK_MaintenanceWindow; racks ← read_rack_ids kMaxDomainMembers;
     mret (id, kind, racks));
  '(domain_ref, statement, header) ← incomplete "constraint body is incomplete"
    (domain_ref ← r_text; statement ← r_text; header ← read_header;
     mret (domain_ref, statement, header));
  mret (MkConstraint id kind racks domain_ref statement header).

Definition read_retired : SRead RetiredIdentity :=
  attempt PS_InvalidIdentity "invalid_retired_identity" "retired identity record is invalid"
    (rack ← r_text; last_generation ← r_counter; retired_at ← r_millis; reason ← r_text;
     rack ← ensure (parse_id rack); mret (MkRetired rack last_generation retired_at reason)).

Definition read_fenced : SRead FencedAuthority :=
  attempt PS_InvalidIdentity "invalid_fenced_authority" "fenced authority record is invalid"
    (boot ← r_text; rack ← r_text; reason ← r_text; fenced_at ← r_millis;
     boot ← ensure (parse_id boot); rack ← ensure (parse_id rack);
     mret (MkFenced boot rack reason fenced_at)).

Definition read_generations :
    Read (ClusterEpoch * CoordinatorEpoch * ClusterGeneration * MembershipGeneration *
          TopologyEpoch * TopologyGeneration * ConnectivityGeneration * HealthGeneration *
          ConstraintGeneration * DomainGenerations * SnapshotGeneration * PublicationGeneration) :=
  epoch ← r_counter; coordinator_epoch ← r_counter; generation ← r_counter;
  membership_generation ← r_counter; topology_epoch ← r_counter; topology_generation ← r_counter;
  connectivity_generation ← r_counter; health_generation ← r_counter;
  constraint_generation ← r_counter; domain_generations ← read_domain_generations;
  snapshot_generation ← r_counter; publication_generation ← r_counter;
  mret (epoch, coordinator_epoch, generation, membership_generation, topology_epoch,
        topology_generation, connectivity_generation, health_generation, constraint_generation,
        domain_generations, snapshot_generation, publication_generation).

Definition read_topology_record : SRead (TopologyEpoch * TopologyGeneration * Timestamp * EvidenceStamp) :=
  '(epoch, generation) ← incomplete "topology record is incomplete"
    (epoch ← r_counter; generation ← r_counter; mret (epoch, generation));
  '(established_at, evidence) ← incomplete "topology record is incomplete"
    (established_at ← r_millis; evidence ← read_stamp; mret (established_at, evidence));
  mret (epoch, generation, established_at, evidence).

(** The payload, up to its last record. *)
Definition read_state : SRead PersistedState :=
  id ← incomplete "cluster identity is missing" r_text;
  id ← bad_identity "cluster identity is not valid" (parse_id id);
  '(epoch, coordinator_epoch, generation, membership_generation, topology_epoch,
    topology_generation, connectivity_generation, health_generation, constraint_generation,
    domain_generations, snapshot_generation, publication_generation) ←
    incomplete "generation block is incomplete" read_generations;
  lifecycle ← enumerator "lifecycle value is out of range" CL_Retired;
  contract ← incomplete "readiness contract is incomplete" read_readiness;
  '(record_epoch, record_generation, established_at, evidence) ← read_topology_record;
  '(reason, declared_at, last_mutation_at) ← incomplete "timestamp block is incomplete"
    (reason ← r_text; declared_at ← r_millis; last_mutation_at ← r_millis;
     mret (reason, declared_at, last_mutation_at));
  racks ← block kMaxRacksPerCluster "rack block is missing" "rack count exceeds the bound" read_rack;
  placement ← block kMaxDomainsPerClass "placement domain block is missing"
    "placement domain count exceeds the bound" read_placement;
  capacity ← block kMaxDomainsPerClass "capacity domain block is missing"
    "capacity domain count exceeds the bound" read_capacity;
  failure ← block kMaxDomainsPerClass "failure domain block is missing"
    "failure domain count exceeds the bound" read_failure;
  network ← block kMaxDomainsPerClass "network domain block is missing"
    "network domain count exceeds the bound" read_network;
  storage ← block kMaxDomainsPerClass "storage domain block is missing"
    "storage domain count exceeds the bound" read_storage;
  power ← block kMaxDomainsPerClass "power domain block is missing"
    "power domain count exceeds the bound" read_power;
  cooling ← block kMaxDomainsPerClass "cooling domain block is missing"
    "cooling domain count exceeds the bound" read_cooling;
  link_domains ← block kMaxDomainsPerClass "link domain block is missing"
    "link domain count exceeds the bound" read_link_group;
  links ← block kMaxInterRackLinks "link block is missing" "link count exceeds the bound" read_link;
  constraints ← block kMaxConstraints "constraint block is missing"
    "constraint count exceeds the bound" read_constraint;
  retired ← block kMaxRacksPerCluster "retired identity block is missing"
    "retired identity count exceeds the bound" read_retired;
  withdrawn ← incomplete "withdrawn rack block is incomplete" (read_rack_ids kMaxRacksPerCluster);
  fenced ← block kMaxRacksPerCluster "fenced authority block is missing"
    "fenced authority count exceeds the bound" read_fenced;
  mret (MkPersisted id epoch coordinator_epoch generation membership_generation topology_epoch
    topology_generation connectivity_generation health_generation constraint_generation
    domain_generations snapshot_generation publication_generation lifecycle contract
    (MkTopologyRecord record_epoch record_generation established_at evidence reason) declared_at
    last_mutation_at racks placement capacity failure network storage power cooling link_domains
    links constraints retired withdrawn fenced).

Record PersistedDecodeOutcome := MkPersistedDecode {
  pdo_status : PersistenceStatus;
  pdo_state : option PersistedState;
  pdo_error : StructuredError;
  pdo_consumed : N
}.

Definition persisted_failure (status : PersistenceStatus) (code message : string) :
    PersistedDecodeOutcome :=
  MkPersistedDecode status None (error_make EC_Persistence ES_Decode code message) 0.

Definition decode_body (payload : bytes) (total : N) : PersistedDecodeOutcome :=
  match read_state (MkStateReader (reader_of payload) None) with
  | (None, r) =>
      match sr_failure r with
      | Some (status, code, message) => persisted_failure status code message
      | None => persisted_failure PS_TruncatedBody "truncated_body" ""
      end
  | (Some state, r) =>
      if negb (exhausted (sr_reader r)) then
        persisted_failure PS_TrailingGarbage "trailing_garbage"
          (to_decimal (remaining (sr_reader r)) +:+ " unread bytes after the last record") else
      let '(validation, detail) := validate_persisted_state state in
      if negb (bool_decide (validation = PS_Ok)) then
        persisted_failure validation (string_of_persistence_status validation)
          (if is_empty detail then "decoded state failed structural validation" else detail) else
      MkPersistedDecode PS_Ok (Some state) no_error total
  end.

(** [memcpy] of [length] bytes from [from]. *)
Definition field_at (from length : nat) (data : bytes) : N := le_value (take length (drop from data)).

Definition decode_persisted_state (data : bytes) : PersistedDecodeOutcome :=
  if bool_decide (data = []) then
    persisted_failure PS_EmptyInput "empty_input" "container is empty" else
  if (size data <? kContainerHeaderBytes)%N then
    persisted_failure PS_TruncatedHeader "truncated_header" "container is shorter than the header"
  else
  let version := field_at 4 2 data in
  let declared := field_at 8 4 data in
  let available := (size data - kContainerHeaderBytes)%N in
  if negb (field_at 0 4 data =? kPersistenceMagic)%N then
    persisted_failure PS_BadMagic "bad_magic" "container magic does not match" else
  if negb (version =? kPersistenceFormatVersion)%N then
    persisted_failure PS_UnsupportedVersion "unsupported_version"
      ("format version " +:+ to_decimal version +:+ " is not supported by this build") else
  if negb (field_at 6 2 data =? 0)%N then
    persisted_failure PS_InvalidState "unsupported_flags" "reserved header flags are set" else
  if (kMaxPersistenceBytes <? declared)%N then
    persisted_failure PS_PayloadTooLarge "payload_too_large"
      "declared payload exceeds the container limit" else
  if (available <? declared)%N then
    persisted_failure PS_TruncatedBody "truncated_body"
      "declared payload length exceeds the container content" else
  if (declared <? available)%N then
    persisted_failure PS_TrailingGarbage "trailing_garbage"
      ("container has " +:+ to_decimal (available - declared) +:+
       " bytes after the declared payload") else
  let payload := take (N.to_nat declared) (drop 16 data) in
  if negb (N.lxor (crc32 (take 12 data)) (crc32 payload) =? field_at 12 4 data)%N then
    persisted_failure PS_ChecksumMismatch "checksum_mismatch"
      "container checksum does not match its content" else
  decode_body payload (size data).
