(* ===== verification/PersistCodec.v ===== *)
(** * What is persisted is read back

    For each record of the container: the bytes its write helper appends are read
    back by its read helper as the same record, whatever follows them, when the
    identities of the record parse, its integers fit their width and its lists
    are within the bounds of the decoder. *)

From Stdlib Require Import NArith ZArith Lia.
From S2P Require Import Prelude Identity Counter Taxonomy Evidence Types Invariant Durable Wire Codec.
From S2P Require Import WireStream Frame PersistFields PersistValid Persist.

Create HintDb persist.
#[export] Hint Constants Opaque : persist.

Implicit Types w : ByteWriter.

#[global] Instance state_source : Source StateReader :=
  {| start := λ data, MkStateReader (reader_of data) None |}.

(** ** Steps *)

#[local] Transparent emits fits is_double.

Lemma emits_zero {R} `{!Source R} {A} n w w' (rd : Rd R A) a :
  emits n w w' rd a → emits 0 w w' rd a.
Proof. intros H. eapply emits_weaken; [exact H|lia]. Qed.

Section steps.
  Context {R : Type} `{!Source R} {A B : Type}.
  Implicit Types (rd : Rd R A) (k : A → Rd R B).

Lemma enc_step n f l w rd a k b :
  emits n w (f w) rd a → emits 0 (f w) (steps l (f w)) (k a) b →
  emits 0 w (steps (f :: l) w) (rd ≫= k) b.
Proof. intros H1 H2. eapply emits_zero, emits_bind; [exact H1|exact H2]. Qed.

Lemma enc_nil w (a : A) : emits 0 w (steps [] w) (mret a) a.
Proof. apply emits_ret. Qed.

Lemma emits_ext n w w' rd rd' a : (∀ r, rd r = rd' r) → emits n w w' rd' a → emits n w w' rd a.
Proof.
  intros He H Hg. destruct (H Hg) as (?&bs&?&?&Hr). split; [done|]. exists bs.
  split_and!; [done..|]. intros rest. by rewrite He.
Qed.
End steps.

Lemma steps_app (l k : list (ByteWriter → ByteWriter)) w : steps (l ++ k) w = steps k (steps l w).
Proof. revert w. induction l; intros w; [done|]. apply IHl. Qed.

Lemma enc_ensure {A B} (o : option A) a w w' (k : A → Read B) b :
  o = Some a → emits 0 w w' (k a) b → emits 0 w w' (ensure o ≫= k) b.
Proof. intros ->. done. Qed.

Lemma enc_ensure_last {A} (o : option A) a w : o = Some a → emits 0 w (steps [] w) (ensure o) a.
Proof. intros ->. apply enc_nil. Qed.

Lemma enc_demand {A B} (o : option A) a w w' status code message (k : A → SRead B) b :
  o = Some a → emits 0 w w' (k a) b → emits 0 w w' (demand status code message o ≫= k) b.
Proof. intros ->. done. Qed.

(** A read of the reader is a read of the payload. *)
Lemma emits_attempt {A} n w w' status code message (rd : Read A) a :
  emits n w w' rd a → emits n w w' (attempt status code message rd) a.
Proof.
  intros H Hg. destruct (H Hg) as (?&bs&?&?&Hr). split; [done|]. exists bs.
  split_and!; [done..|]. intros rest. unfold attempt. cbn [start state_source sr_reader].
  setoid_rewrite Hr. done.
Qed.

Section attempt.
  Context {A B C : Type} (status : PersistenceStatus) (code message : string).
  Implicit Types (rd : Read A) (k : A → Read B) (K : B → SRead C).

Lemma attempt_ret w w' (a : B) K c :
  emits 0 w w' (K a) c → emits 0 w w' (attempt status code message (mret a) ≫= K) c.
Proof. apply emits_ext. by intros []. Qed.

Lemma attempt_ensure (o : option A) a w w' k K c :
  o = Some a → emits 0 w w' (attempt status code message (k a) ≫= K) c →
  emits 0 w w' (attempt status code message (ensure o ≫= k) ≫= K) c.
Proof. intros ->. apply emits_ext. by intros []. Qed.

Lemma attempt_bind n f l w rd a k K c :
  emits n w (f w) rd a →
  emits 0 (f w) (steps l (f w)) (attempt status code message (k a) ≫= K) c →
  emits 0 w (steps (f :: l) w) (attempt status code message (rd ≫= k) ≫= K) c.
Proof.
  intros H1 H2.
  apply (emits_ext _ _ _ _ (attempt status code message rd ≫=
    λ a, attempt status code message (k a) ≫= K)).
  - intros r. unfold mbind, Rd_bind, attempt. by destruct (rd (sr_reader r)) as [[]].
  - eapply enc_step; [by apply emits_attempt|done].
Qed.
End attempt.

(** ** Primitive fields *)

Lemma enc_u32 v w : fits 32 v → emits 4 w (w_u32 v w) r_u32 v.
Proof. apply codec_emits, _. Qed.
Lemma enc_u64 v w : fits 64 v → emits 8 w (w_u64 v w) r_u64 v.
Proof. apply codec_emits, _. Qed.
Lemma enc_i64 v w : is_i64 v → emits 8 w (w_i64 v w) r_i64 v.
Proof. apply codec_emits, _. Qed.
Lemma enc_f64 v w : is_double v → emits 8 w (w_f64 v w) r_f64 v.
Proof. apply codec_emits, _. Qed.
Lemma enc_boolean v w : emits 1 w (w_boolean v w) r_boolean v.
Proof. apply (codec_emits codec_boolean), always_intro. Qed.
Lemma enc_present v w : emits 1 w (w_optional_present v w) r_boolean v.
Proof. apply enc_boolean. Qed.
Lemma enc_text v w : emits 4 w (w_text v w) r_text v.
Proof. apply (codec_emits codec_text), always_intro. Qed.

Lemma enc_millis v w : timestamp_fits v → emits 8 w (w_millis v w) r_millis v.
Proof. destruct v as [z]. intros Hz. apply (emits_map 8 w _ r_i64 z MkTs). by apply enc_i64. Qed.

Lemma enc_counter {tag} (c : StrongCounter tag) w :
  counter_fits c → emits 8 w (w_counter c w) r_counter c.
Proof. destruct c as [v]. intros Hv. apply (emits_map 8 w _ r_u64 v MkCtr). by apply enc_u64. Qed.

Lemma enc_id_text {tag} (i : StrongId tag) w : emits 4 w (w_identity i w) r_text (id_value i).
Proof. apply enc_text. Qed.

Lemma parse_known {tag} (i : StrongId tag) : known_id i → parse_id (id_value i) = Some i.
Proof. destruct i as [v]. intros Hv. by apply parse_id_Some. Qed.

Lemma enc_identity {tag} (i : StrongId tag) w : known_id i → emits 0 w (w_identity i w) r_identity i.
Proof.
  intros Hi. apply (enc_step 4 (w_identity i) [] w r_text (id_value i)); [apply enc_id_text|].
  by apply enc_ensure_last, parse_known.
Qed.

Lemma enum_last {E} `{Enum E} (last e : E) :
  size (enumerators (E:=E)) = (raw last + 1)%N → enum_upto last (raw e) = Some e.
Proof.
  intros Hs. unfold enum_upto. pose proof (raw_lt e). rewrite (proj2 (N.ltb_ge _ _)) by lia.
  apply of_raw_raw.
Qed.

Lemma enc_enum_raw {E} `{Enum E} (e : E) w :
  (size (enumerators (E:=E)) <=? 256)%N = true → emits 1 w (w_enum e w) r_u8 (raw e).
Proof.
  intros Hs. apply N.leb_le in Hs. apply (codec_emits codec_u8). pose proof (raw_lt e).
  unfold fits. change (2 ^ 8)%N with 256%N. lia.
Qed.

Lemma enc_enum {E} `{Enum E} (e last : E) w :
  (size (enumerators (E:=E)) <=? 256)%N = true → size (enumerators (E:=E)) = (raw last + 1)%N →
  emits 0 w (w_enum e w) (r_enum last) e.
Proof.
  intros H1 H2. apply (enc_step 1 (w_enum e) [] w r_u8 (raw e)); [by apply enc_enum_raw|].
  by apply enc_ensure_last, enum_last.
Qed.
Lemma count_known {A} bound (l : list A) :
  (size l <= bound)%N → count_upto bound (size l) = Some (size l).
Proof. intros. unfold count_upto. by rewrite (proj2 (N.ltb_ge _ _)). Qed.

Lemma value_known bound v : (v <= bound)%N → count_upto bound v = Some v.
Proof. intros. unfold count_upto. by rewrite (proj2 (N.ltb_ge _ _)). Qed.

(** ** Optional values and lists *)

Lemma enc_opt_text {tag} (o : option (StrongId tag)) w :
  emits 0 w (w_opt_identity o w) read_optional_text (id_value <$> o).
Proof.
  unfold w_opt_identity, read_optional_text. eapply enc_step; [apply enc_present|].
  destruct o as [i|]; [|apply enc_nil]. eapply enc_step; [apply enc_id_text|apply enc_nil].
Qed.

Lemma enc_opt_identity {tag} (o : option (StrongId tag)) w :
  opt_ok known_id o → emits 0 w (w_opt_identity o w) r_opt_identity o.
Proof.
  intros Ho. unfold w_opt_identity, r_opt_identity. eapply enc_step; [apply enc_present|].
  destruct o as [i|]; [|apply enc_nil]. eapply enc_step; [by apply enc_identity|apply enc_nil].
Qed.

Lemma enc_demand_identity {tag B} (o : option (StrongId tag)) w w' message
    (k : option (StrongId tag) → SRead B) b :
  opt_ok known_id o → emits 0 w w' (k o) b →
  emits 0 w w' (demand_identity message (id_value <$> o) ≫= k) b.
Proof.
  intros Ho. apply emits_ext. intros r. destruct o as [i|]; [|done]. cbn [fmap option_fmap option_map].
  unfold demand_identity. by rewrite (parse_known i Ho).
Qed.

Lemma enc_opt {A} n (wr : A → ByteWriter → ByteWriter) (rd : Read A) (zero : A) o w :
  (∀ a w, a = default zero o → emits n w (wr a w) rd a) →
  emits 0 w (steps [w_optional_present (bool_decide (is_Some o)); wr (default zero o)] w) (r_opt rd) o.
Proof.
  intros H. eapply enc_step; [apply enc_present|]. eapply enc_step; [by apply H|].
  destruct o; apply enc_nil.
Qed.

Lemma fits_zero n : fits n 0.
Proof. unfold fits. apply N.neq_0_lt_0, N.pow_nonzero. lia. Qed.

Lemma enc_opt_u32 o w : opt_ok (fits 32) o → emits 0 w (w_opt_u32 o w) (r_opt r_u32) o.
Proof.
  intros Ho. apply (enc_opt 4 w_u32). intros a w' ->. apply enc_u32.
  destruct o; [done|apply fits_zero].
Qed.
Lemma enc_opt_u64 o w : opt_ok (fits 64) o → emits 0 w (w_opt_u64 o w) (r_opt r_u64) o.
Proof.
  intros Ho. apply (enc_opt 8 w_u64). intros a w' ->. apply enc_u64.
  destruct o; [done|apply fits_zero].
Qed.
Lemma enc_opt_f64 o w : opt_ok is_double o → emits 0 w (w_opt_f64 o w) (r_opt r_f64) o.
Proof.
  intros Ho. apply (enc_opt 8 w_f64). intros a w' ->. apply enc_f64.
  destruct o; [done|apply fits_zero].
Qed.

Definition within {A} (bound : N) (l : list A) : Prop := (size l <= bound)%N ∧ fits 32 bound.

Lemma within_fits {A} bound (l : list A) : within bound l → fits 32 (size l).
Proof. unfold within, fits. lia. Qed.

Section lists.
  Context {R : Type} `{!Source R} {A : Type} (ok : A → Prop).
  Context (wr : A → ByteWriter → ByteWriter) (rd : Rd R A).
  Hypothesis one : ∀ a w, ok a → emits 0 w (wr a w) rd a.

Lemma enc_times l w : Forall ok l → emits 0 w (steps (wr <$> l) w) (r_times (length l) rd) l.
Proof using All.
  intros Hl. revert w. induction Hl as [|a l Ha Hl IH]; intros w; [apply enc_nil|].
  cbn [r_times length fmap list_fmap]. eapply enc_step; [by apply one|].
  eapply (emits_zero (0 + 0)), emits_bind; [apply IH|apply emits_ret].
Qed.

Lemma enc_times_step {B} l rest w (k : list A → Rd R B) b :
  Forall ok l → (∀ w, emits 0 w (steps rest w) (k l) b) →
  emits 0 w (steps ((wr <$> l) ++ rest) w) (r_times (N.to_nat (size l)) rd ≫= k) b.
Proof using All.
  intros Hl Hk. unfold size. rewrite Nat2N.id, steps_app.
  eapply (emits_zero (0 + 0)), emits_bind; [by apply enc_times|apply Hk].
Qed.
End lists.

Lemma enc_list {A} (ok : A → Prop) wr (rd : Read A) bound l w :
  (∀ a w, ok a → emits 0 w (wr a w) rd a) → within bound l → Forall ok l →
  emits 0 w (w_list wr l w) (r_list bound rd) l.
Proof.
  intros H1 Hb Hl. unfold w_list, r_list.
  eapply enc_step; [eapply enc_u32, within_fits, Hb|].
  eapply enc_ensure; [apply count_known, Hb|]. unfold size. rewrite Nat2N.id. by apply (enc_times ok).
Qed.

Lemma enc_block {A} (ok : A → Prop) wr (rd : SRead A) bound missing exceeds l w :
  (∀ a w, ok a → emits 0 w (wr a w) rd a) → within bound l → Forall ok l →
  emits 0 w (w_list wr l w) (block bound missing exceeds rd) l.
Proof.
  intros H1 Hb Hl. unfold w_list, block.
  eapply enc_step; [eapply emits_attempt, enc_u32, within_fits, Hb|].
  eapply enc_demand; [apply count_known, Hb|]. unfold size. rewrite Nat2N.id. by apply (enc_times ok).
Qed.

#[export] Hint Resolve enc_u32 enc_u64 enc_i64 enc_f64 enc_millis enc_counter enc_identity enc_opt_text enc_opt_identity enc_opt_u32 enc_opt_u64
  enc_opt_f64 parse_known value_known : persist.
#[export] Hint Extern 1 (emits _ _ (w_boolean _ _) r_boolean _) => (apply enc_boolean) : persist.
#[export] Hint Extern 1 (emits _ _ (w_optional_present _ _) r_boolean _) =>
  (apply enc_present) : persist.
#[export] Hint Extern 1 (emits _ _ (w_text _ _) r_text _) => (apply enc_text) : persist.
#[export] Hint Extern 1 (emits _ _ (w_identity _ _) r_text _) => (apply enc_id_text) : persist.
#[export] Hint Extern 1 (emits _ _ (w_enum _ _) r_u8 _) =>
  (apply enc_enum_raw; vm_compute; reflexivity) : persist.
#[export] Hint Extern 1 (emits _ _ (w_enum _ _) (r_enum _) _) =>
  (apply enc_enum; vm_compute; reflexivity) : persist.
#[export] Hint Extern 1 (enum_upto _ (raw _) = _) =>
  (apply enum_last; vm_compute; reflexivity) : persist.
#[export] Hint Extern 1 (emits _ _ _ (attempt _ _ _ _) _) => (apply emits_attempt) : persist.

#[local] Opaque emits fits is_double.

(** ** Records *)

Lemma enc_done {R} `{!Source R} {A} w (a b : A) : a = b → emits 0 w (steps [] w) (mret (M:=Rd R) a) b.
Proof. intros ->. apply enc_nil. Qed.

(** One field or one check of a record. *)
Ltac enc_one :=
  lazymatch goal with
  | |- emits _ _ (steps [] _) (mret _) _ => apply enc_done
  | |- emits _ _ _ (mbind _ (ensure _)) _ => eapply enc_ensure; [solve [eauto 3 with persist]|]
  | |- emits _ _ _ (mbind _ (demand _ _ _ _)) _ => eapply enc_demand; [solve [eauto 3 with persist]|]
  | |- emits _ _ _ (mbind _ (demand_identity _ _)) _ =>
      eapply enc_demand_identity; [solve [eauto 3 with persist]|]
  | |- emits _ _ _ (mbind _ (attempt _ _ _ (mret _))) _ => eapply attempt_ret
  | |- emits _ _ _ (mbind _ (attempt _ _ _ (mbind _ (ensure _)))) _ =>
      eapply attempt_ensure; [solve [eauto 3 with persist]|]
  | |- emits _ _ (steps (_ :: _) _) (mbind _ (attempt _ _ _ (mbind _ _))) _ =>
      eapply attempt_bind; [solve [eauto 4 with persist]|]
  | |- emits _ _ (steps (_ :: _) _) (mbind _ _) _ =>
      eapply enc_step; [solve [eauto 4 with persist]|]
  end; cbv beta iota.

Ltac enc_record := repeat enc_one.

Ltac enc_fields wr rd fits :=
  let H := fresh in intros H; unfold fits in H; destruct_and? H;
  unfold wr, rd; enc_record; lazymatch goal with |- _ = ?a => by destruct a end.

Lemma open_list {A} (wr : A → ByteWriter → ByteWriter) l rest w :
  steps (w_list wr l :: rest) w = steps (w_u32 (size l) :: (wr <$> l) ++ rest) w.
Proof. cbn [steps]. by rewrite steps_app. Qed.

Lemma open_opt {tag} (o : option (StrongId tag)) rest w :
  steps (w_opt_identity o :: rest) w =
  steps (w_optional_present (bool_decide (is_Some o)) ::
         match o with Some i => [w_identity i] | None => [] end ++ rest) w.
Proof. cbn [steps]. by rewrite steps_app. Qed.

Lemma enc_assoc {R} `{!Source R} {A B C} w w' (m : Rd R A) (k : A → Rd R B) (g : B → Rd R C) c :
  emits 0 w w' (m ≫= λ a, k a ≫= g) c → emits 0 w w' ((m ≫= k) ≫= g) c.
Proof. apply emits_ext. intros r. unfold mbind, Rd_bind. by destruct (m r) as [[]]. Qed.

Lemma enc_left {R} `{!Source R} {A B} w w' (a : A) (k : A → Rd R B) b :
  emits 0 w w' (k a) b → emits 0 w w' (mret a ≫= k) b.
Proof. by apply emits_ext. Qed.

Definition stamp_fits (s : EvidenceStamp) : Prop :=
  timestamp_fits (ev_observed_at s) ∧ is_i64 (ev_ttl_millis s).

Lemma enc_stamp s w : stamp_fits s → emits 0 w (write_stamp s w) read_stamp s.
Proof. enc_fields write_stamp read_stamp stamp_fits. Qed.
#[export] Hint Resolve enc_stamp : persist.

Definition header_fits (h : DomainHeader) : Prop :=
  stamp_fits (dh_evidence h) ∧ counter_fits (dh_generation h) ∧ opt_ok known_id (dh_publisher h) ∧
  counter_fits (dh_cluster_epoch h) ∧ counter_fits (dh_coordinator_epoch h).

Lemma enc_header h w : header_fits h → emits 0 w (write_header h w) read_header h.
Proof. enc_fields write_header read_header header_fits. Qed.
#[export] Hint Resolve enc_header : persist.

Lemma enc_ids {tag} bound (l : list (StrongId tag)) w :
  within bound l → Forall known_id l → emits 0 w (w_list w_identity l w) (r_list bound r_identity) l.
Proof. apply (enc_list known_id). intros. by apply enc_identity. Qed.

Definition members_fit (bound : N) (l : list RackId) : Prop := within bound l ∧ Forall known_id l.

Lemma enc_rack_ids bound l w :
  members_fit bound l → emits 0 w (write_rack_ids l w) (read_rack_ids bound) l.
Proof. intros [Hb Hl]. by apply enc_ids. Qed.
#[export] Hint Resolve enc_rack_ids : persist.

Definition accelerator_fits (a : AcceleratorClassSummary) : Prop :=
  opt_ok (fits 32) (ac_device_count a) ∧ opt_ok (fits 64) (ac_device_memory_bytes a).

Lemma enc_accelerator a w : accelerator_fits a → emits 0 w (write_accelerator a w) read_accelerator a.
Proof. enc_fields write_accelerator read_accelerator accelerator_fits. Qed.

Definition composition_fits (c : RackCompositionSummary) : Prop :=
  within kMaxCapacityQuantities (rc_accelerators c) ∧ Forall accelerator_fits (rc_accelerators c) ∧
  opt_ok (fits 32) (rc_cpu_sockets c) ∧ opt_ok (fits 32) (rc_cpu_cores c) ∧
  opt_ok (fits 64) (rc_host_memory_bytes c) ∧ opt_ok (fits 32) (rc_nic_count c) ∧
  opt_ok (fits 32) (rc_switch_count c).

Lemma enc_composition c w : composition_fits c → emits 0 w (write_composition c w) read_composition c.
Proof.
  intros H. unfold composition_fits in H. destruct_and! H.
  unfold write_composition, read_composition. enc_one. rewrite open_list.
  eapply enc_step; [eapply enc_u32, within_fits; eassumption|]. enc_one.
  eapply enc_ensure; [apply count_known; unfold within in *; tauto|].
  eapply (enc_times_step accelerator_fits); [apply enc_accelerator|done|]. intros w'. enc_record.
  by destruct c.
Qed.
#[export] Hint Resolve enc_composition : persist.

Definition endpoint_fits (e : RackEndpoint) : Prop :=
  known_id (ep_id e) ∧ opt_ok known_id (ep_network_domain e) ∧ opt_ok known_id (ep_link_domain e) ∧
  stamp_fits (ep_evidence e).

Lemma enc_endpoint e w : endpoint_fits e → emits 0 w (write_endpoint e w) read_endpoint e.
Proof.
  intros (H1&H2&H3&H4). unfold write_endpoint, read_endpoint. enc_one.
  destruct e as [i [n|] ld c ev]; cbn [ep_id ep_network_domain ep_link_domain ep_connectivity
    ep_evidence opt_ok] in *; rewrite open_opt; enc_one; enc_one.
  - change (bool_decide (is_Some (Some n))) with true. cbn [app]. cbv iota.
    apply enc_assoc. enc_one.
    apply enc_left. cbv beta. enc_record. done.
  - change (bool_decide (is_Some None)) with false. cbn [app]. cbv iota.
    apply enc_left. cbv beta. enc_record. done.
Qed.

Definition endpoints_fit (l : list RackEndpoint) : Prop :=
  within kMaxRackEndpoints l ∧ Forall endpoint_fits l.

Lemma enc_endpoints l w : endpoints_fit l → emits 0 w (write_endpoints l w) read_endpoints l.
Proof. intros [Hb Hl]. apply (enc_list endpoint_fits); [apply enc_endpoint|done..]. Qed.

Definition hint_fits (h : RackFailureDomainHint) : Prop :=
  known_id (fh_id h) ∧ stamp_fits (fh_evidence h).

Lemma enc_hint h w : hint_fits h → emits 0 w (write_hint h w) read_hint h.
Proof. enc_fields write_hint read_hint hint_fits. Qed.

Definition hints_fit (l : list RackFailureDomainHint) : Prop :=
  within kMaxFailureDomainRefs l ∧ Forall hint_fits l.

Lemma enc_hints l w : hints_fit l → emits 0 w (write_hints l w) read_hints l.
Proof. intros [Hb Hl]. apply (enc_list hint_fits); [apply enc_hint|done..]. Qed.
#[export] Hint Resolve enc_endpoints enc_hints : persist.

Lemma enc_enums {E} `{Enum E} (last : E) bound l w :
  (size (enumerators (E:=E)) <=? 256)%N = true → size (enumerators (E:=E)) = (raw last + 1)%N →
  within bound l → emits 0 w (w_list w_enum l w) (r_list bound (r_enum last)) l.
Proof.
  intros H1 H2 Hb. apply (enc_list (λ _ : E, True)); [intros; by apply enc_enum|done|].
  by apply Forall_true.
Qed.
#[export] Hint Extern 1 (emits _ _ (w_list w_enum _ _) (r_list _ (r_enum _)) _) =>
  (apply enc_enums; [vm_compute; reflexivity|vm_compute; reflexivity|assumption]) : persist.

Definition contract_fits (c : ReadinessContract) : Prop :=
  (ct_minimum_current_racks c <= kMaxRacksPerCluster)%N ∧ fits 64 (ct_minimum_current_racks c) ∧
  members_fit kMaxRacksPerCluster (ct_mandatory_racks c) ∧
  (ct_minimum_current_links c <= kMaxInterRackLinks)%N ∧ fits 64 (ct_minimum_current_links c) ∧
  within kMaxDomainsPerClass (ct_required_placement_domain_classes c) ∧
  within kMaxDomainsPerClass (ct_required_failure_domain_classes c).

Lemma enc_readiness c w : contract_fits c → emits 0 w (write_readiness c w) read_readiness c.
Proof. enc_fields write_readiness read_readiness contract_fits. Qed.

Definition generations_fit (g : DomainGenerations) : Prop :=
  counter_fits (dg_placement g) ∧ counter_fits (dg_capacity g) ∧ counter_fits (dg_failure g) ∧
  counter_fits (dg_network g) ∧ counter_fits (dg_storage g) ∧ counter_fits (dg_power g) ∧
  counter_fits (dg_cooling g) ∧ counter_fits (dg_link g).

Lemma enc_generations g w :
  generations_fit g → emits 0 w (write_domain_generations g w) read_domain_generations g.
Proof. enc_fields write_domain_generations read_domain_generations generations_fit. Qed.
#[export] Hint Resolve enc_readiness enc_generations : persist.

(** ** Records of the container *)

Definition rack_fits (r : DurableRack) : Prop :=
  known_id (du_rack r) ∧ counter_fits (du_generation r) ∧ known_id (du_publisher r) ∧
  counter_fits (du_last_accepted_publication r) ∧ known_id (du_last_boot r) ∧
  composition_fits (du_composition r) ∧ endpoints_fit (du_endpoints r) ∧
  hints_fit (du_failure_domain_hints r) ∧ counter_fits (du_membership_generation r) ∧
  timestamp_fits (du_declared_at r).

Lemma enc_rack r w : rack_fits r → emits 0 w (write_rack r w) read_rack r.
Proof.
  unfold read_rack, read_rack_prefix, read_rack_body, read_rack_tail.
  enc_fields write_rack read_rack rack_fits.
Qed.

Definition domain_fits {tag} (id : StrongId tag) (racks : list RackId) (header : DomainHeader) :
    Prop := known_id id ∧ members_fit kMaxDomainMembers racks ∧ header_fits header.

Definition placement_fits (d : PlacementDomain) : Prop :=
  domain_fits (pd_id d) (pd_racks d) (pd_header d).

Ltac enc_domain d := intros (?&?&?); enc_record; by destruct d.

Lemma enc_placement d w : placement_fits d → emits 0 w (write_placement d w) read_placement d.
Proof. unfold write_placement, read_placement, read_members_header. enc_domain d. Qed.

Definition quantity_fits (q : CapacityQuantity) : Prop := opt_ok is_double (cq_value q).

Lemma enc_quantity q w : quantity_fits q → emits 0 w (write_quantity q w) read_quantity q.
Proof. enc_fields write_quantity read_quantity quantity_fits. Qed.

Lemma enc_quantities missing exceeds l w :
  within kMaxCapacityQuantities l → Forall quantity_fits l →
  emits 0 w (w_list write_quantity l w) (block kMaxCapacityQuantities missing exceeds read_quantity) l.
Proof. apply enc_block, enc_quantity. Qed.
#[export] Hint Resolve enc_quantities : persist.

Definition capacity_fits (d : CapacityDomain) : Prop :=
  known_id (cd_id d) ∧ members_fit kMaxDomainMembers (cd_racks d) ∧
  within kMaxCapacityQuantities (cd_quantities d) ∧ Forall quantity_fits (cd_quantities d) ∧
  header_fits (cd_header d).

Lemma enc_capacity d w : capacity_fits d → emits 0 w (write_capacity d w) read_capacity d.
Proof. enc_fields write_capacity read_capacity capacity_fits. Qed.

Lemma enc_classified {tag E B} `{Enum E} (id : StrongId tag) (klass last : E) code message rest w
    (k : StrongId tag * E → SRead B) b :
  known_id id →
  (size (enumerators (E:=E)) <=? 256)%N = true → size (enumerators (E:=E)) = (raw last + 1)%N →
  (∀ w, emits 0 w (steps rest w) (k (id, klass)) b) →
  emits 0 w (steps (w_identity id :: w_enum klass :: rest) w) (read_classified code message last ≫= k) b.
Proof.
  intros Hi H1 H2 Hk. unfold read_classified. do 2 (apply enc_assoc; enc_one).
  apply enc_assoc. eapply enc_step; [apply emits_attempt, enc_enum; [exact H1|exact H2]|].
  apply enc_left, Hk.
Qed.

Definition failure_fits (d : FailureDomain) : Prop :=
  domain_fits (fd_id d) (fd_racks d) (fd_header d).

Lemma enc_failure d w : failure_fits d → emits 0 w (write_failure d w) read_failure d.
Proof.
  intros (?&?&?). unfold write_failure, read_failure, read_members_header.
  apply enc_classified; [done|reflexivity|reflexivity|]. intros w'. cbv beta iota. enc_record.
  by destruct d.
Qed.

Definition network_fits (d : NetworkDomain) : Prop :=
  domain_fits (nd_id d) (nd_racks d) (nd_header d).

Lemma enc_network d w : network_fits d → emits 0 w (write_network d w) read_network d.
Proof.
  intros (?&?&?). unfold write_network, read_network, read_members_header.
  apply enc_classified; [done|reflexivity|reflexivity|]. intros w'. cbv beta iota. enc_record.
  by destruct d.
Qed.

Definition storage_fits (d : StorageDomain) : Prop :=
  domain_fits (sd_id d) (sd_racks d) (sd_header d).

Lemma enc_storage d w : storage_fits d → emits 0 w (write_storage d w) read_storage d.
Proof. unfold write_storage, read_storage, read_members_header. enc_domain d. Qed.

Definition power_fits (d : PowerDomain) : Prop :=
  domain_fits (pw_id d) (pw_racks d) (pw_header d) ∧ opt_ok known_id (pw_parent d).

Lemma enc_power d w : power_fits d → emits 0 w (write_power d w) read_power d.
Proof. intros [(?&?&?) ?]. unfold write_power, read_power. enc_record. by destruct d. Qed.

Definition cooling_fits (d : CoolingDomain) : Prop :=
  domain_fits (co_id d) (co_racks d) (co_header d) ∧ opt_ok known_id (co_parent d).

Lemma enc_cooling d w : cooling_fits d → emits 0 w (write_cooling d w) read_cooling d.
Proof. intros [(?&?&?) ?]. unfold write_cooling, read_cooling. enc_record. by destruct d. Qed.

Definition link_group_fits (d : LinkDomain) : Prop :=
  domain_fits (ld_id d) (ld_racks d) (ld_header d).

Lemma enc_link_group d w : link_group_fits d → emits 0 w (write_link_group d w) read_link_group d.
Proof. unfold write_link_group, read_link_group, read_members_header. enc_domain d. Qed.

Lemma enc_link_failure_domains l w :
  within kMaxFailureDomainRefs l → Forall known_id l →
  emits 0 w (w_list w_identity l w) read_link_failure_domains l.
Proof.
  intros Hb Hl. unfold w_list, read_link_failure_domains.
  eapply attempt_bind; [eapply enc_u32, within_fits, Hb|].
  eapply (emits_zero (0 + 0)), emits_bind.
  - eapply emits_attempt, (enc_ensure_last _ (size l)). apply count_known, Hb.
  - unfold size. rewrite Nat2N.id. cbn [steps]. apply (enc_times known_id); [|done].
    intros. by apply emits_attempt, enc_identity.
Qed.
#[export] Hint Resolve enc_link_failure_domains : persist.

Definition link_fits (l : InterRackLink) : Prop :=
  known_id (lk_id l) ∧ known_id (lk_source l) ∧ known_id (lk_destination l) ∧
  opt_ok known_id (lk_network_domain l) ∧ opt_ok known_id (lk_link_domain l) ∧
  opt_ok known_id (lk_source_endpoint l) ∧ opt_ok known_id (lk_destination_endpoint l) ∧
  opt_ok (fits 64) (lk_nominal_bandwidth_bps l) ∧ opt_ok (fits 64) (lk_nominal_latency_nanos l) ∧
  opt_ok (fits 32) (lk_hop_count l) ∧
  within kMaxFailureDomainRefs (lk_failure_domains l) ∧ Forall known_id (lk_failure_domains l) ∧
  header_fits (lk_header l) ∧ counter_fits (lk_topology_epoch l) ∧
  counter_fits (lk_topology_generation l) ∧ counter_fits (lk_publication l) ∧
  opt_ok known_id (lk_boot l).

Lemma enc_link l w : link_fits l → emits 0 w (write_link l w) read_link l.
Proof.
  unfold read_link, read_link_prefix, read_link_references, read_link_generations, enumerator.
  enc_fields write_link read_link link_fits.
Qed.
Definition constraint_fits (c : ClusterConstraint) : Prop :=
  domain_fits (cc_id c) (cc_racks c) (cc_header c).

Lemma enc_constraint c w : constraint_fits c → emits 0 w (write_constraint c w) read_constraint c.
Proof. unfold write_constraint, read_constraint. enc_domain c. Qed.

Definition retired_fits (r : RetiredIdentity) : Prop :=
  known_id (ri_rack r) ∧ counter_fits (ri_last_generation r) ∧ timestamp_fits (ri_retired_at r).

Lemma enc_retired r w : retired_fits r → emits 0 w (write_retired r w) read_retired r.
Proof.
  intros (?&?&?). unfold write_retired, read_retired. apply emits_attempt. enc_record. by destruct r.
Qed.

Definition fenced_fits (f : FencedAuthority) : Prop :=
  known_id (fa_boot f) ∧ known_id (fa_rack f) ∧ timestamp_fits (fa_fenced_at f).

Lemma enc_fenced f w : fenced_fits f → emits 0 w (write_fenced f w) read_fenced f.
Proof.
  intros (?&?&?). unfold write_fenced, read_fenced. apply emits_attempt. enc_record. by destruct f.
Qed.

(** ** The state *)

Definition listed {A} (bound : N) (fits_one : A → Prop) (l : list A) : Prop :=
  within bound l ∧ Forall fits_one l.

Lemma enc_listed {A} (ok : A → Prop) wr (rd : SRead A) bound missing exceeds l w :
  (∀ a w, ok a → emits 0 w (wr a w) rd a) → listed bound ok l →
  emits 0 w (w_list wr l w) (block bound missing exceeds rd) l.
Proof. intros H [??]. by apply (enc_block ok). Qed.

#[export] Hint Extern 1 (emits _ _ (w_list write_rack _ _) _ _) =>
  (apply (enc_listed rack_fits _ _ _ _ _ _ _ enc_rack); assumption) : persist.
#[export] Hint Extern 1 (emits _ _ (w_list write_placement _ _) _ _) =>
  (apply (enc_listed placement_fits _ _ _ _ _ _ _ enc_placement); assumption) : persist.
#[export] Hint Extern 1 (emits _ _ (w_list write_capacity _ _) _ _) =>
  (apply (enc_listed capacity_fits _ _ _ _ _ _ _ enc_capacity); assumption) : persist.
#[export] Hint Extern 1 (emits _ _ (w_list write_failure _ _) _ _) =>
  (apply (enc_listed failure_fits _ _ _ _ _ _ _ enc_failure); assumption) : persist.
#[export] Hint Extern 1 (emits _ _ (w_list write_network _ _) _ _) =>
  (apply (enc_listed network_fits _ _ _ _ _ _ _ enc_network); assumption) : persist.
#[export] Hint Extern 1 (emits _ _ (w_list write_storage _ _) _ _) =>
  (apply (enc_listed storage_fits _ _ _ _ _ _ _ enc_storage); assumption) : persist.
#[export] Hint Extern 1 (emits _ _ (w_list write_power _ _) _ _) =>
  (apply (enc_listed power_fits _ _ _ _ _ _ _ enc_power); assumption) : persist.
#[export] Hint Extern 1 (emits _ _ (w_list write_cooling _ _) _ _) =>
  (apply (enc_listed cooling_fits _ _ _ _ _ _ _ enc_cooling); assumption) : persist.
#[export] Hint Extern 1 (emits _ _ (w_list write_link_group _ _) _ _) =>
  (apply (enc_listed link_group_fits _ _ _ _ _ _ _ enc_link_group); assumption) : persist.
#[export] Hint Extern 1 (emits _ _ (w_list write_link _ _) _ _) =>
  (apply (enc_listed link_fits _ _ _ _ _ _ _ enc_link); assumption) : persist.
#[export] Hint Extern 1 (emits _ _ (w_list write_constraint _ _) _ _) =>
  (apply (enc_listed constraint_fits _ _ _ _ _ _ _ enc_constraint); assumption) : persist.
#[export] Hint Extern 1 (emits _ _ (w_list write_retired _ _) _ _) =>
  (apply (enc_listed retired_fits _ _ _ _ _ _ _ enc_retired); assumption) : persist.
#[export] Hint Extern 1 (emits _ _ (w_list write_fenced _ _) _ _) =>
  (apply (enc_listed fenced_fits _ _ _ _ _ _ _ enc_fenced); assumption) : persist.

Definition counters_fit (s : PersistedState) : Prop :=
  counter_fits (ps_epoch s) ∧ counter_fits (ps_last_coordinator_epoch s) ∧
  counter_fits (ps_generation s) ∧ counter_fits (ps_membership_generation s) ∧
  counter_fits (ps_topology_epoch s) ∧ counter_fits (ps_topology_generation s) ∧
  counter_fits (ps_connectivity_generation s) ∧ counter_fits (ps_health_generation s) ∧
  counter_fits (ps_constraint_generation s) ∧ generations_fit (ps_domain_generations s) ∧
  counter_fits (ps_snapshot_generation s) ∧ counter_fits (ps_publication_generation s).

Definition topology_record_fits (t : TopologyEpochRecord) : Prop :=
  counter_fits (tr_epoch t) ∧ counter_fits (tr_generation t) ∧
  timestamp_fits (tr_established_at t) ∧ stamp_fits (tr_evidence t).

(** What the decoder requires of a state beyond its validation: the identities
    parse, the integers fit their width and the lists are within the bounds. *)
Definition persistable (s : PersistedState) : Prop :=
  known_id (ps_id s) ∧ counters_fit s ∧ contract_fits (ps_readiness_contract s) ∧
  topology_record_fits (ps_topology_record s) ∧ timestamp_fits (ps_declared_at s) ∧
  timestamp_fits (ps_last_mutation_at s) ∧
  listed kMaxRacksPerCluster rack_fits (ps_racks s) ∧
  listed kMaxDomainsPerClass placement_fits (ps_placement_domains s) ∧
  listed kMaxDomainsPerClass capacity_fits (ps_capacity_domains s) ∧
  listed kMaxDomainsPerClass failure_fits (ps_failure_domains s) ∧
  listed kMaxDomainsPerClass network_fits (ps_network_domains s) ∧
  listed kMaxDomainsPerClass storage_fits (ps_storage_domains s) ∧
  listed kMaxDomainsPerClass power_fits (ps_power_domains s) ∧
  listed kMaxDomainsPerClass cooling_fits (ps_cooling_domains s) ∧
  listed kMaxDomainsPerClass link_group_fits (ps_link_domains s) ∧
  listed kMaxInterRackLinks link_fits (ps_links s) ∧
  listed kMaxConstraints constraint_fits (ps_constraints s) ∧
  listed kMaxRacksPerCluster retired_fits (ps_retired_racks s) ∧
  members_fit kMaxRacksPerCluster (ps_withdrawn_racks s) ∧
  listed kMaxRacksPerCluster fenced_fits (ps_fenced_authorities s).

Lemma enc_topology_record {B} t rest w
    (k : TopologyEpoch * TopologyGeneration * Timestamp * EvidenceStamp → SRead B) b :
  topology_record_fits t →
  (∀ w, emits 0 w (steps rest w) (k (tr_epoch t, tr_generation t, tr_established_at t, tr_evidence t)) b) →
  emits 0 w (steps (w_counter (tr_epoch t) :: w_counter (tr_generation t) ::
                    w_millis (tr_established_at t) :: write_stamp (tr_evidence t) :: rest) w)
    (read_topology_record ≫= k) b.
Proof.
  intros (?&?&?&?) Hk. unfold read_topology_record. apply enc_assoc. enc_one. enc_one.
  apply attempt_ret. cbv beta iota. apply enc_assoc. enc_one. enc_one. apply attempt_ret.
  cbv beta iota. apply enc_left, Hk.
Qed.

Lemma enc_state s w : persistable s → emits 0 w (write_state s w) read_state s.
Proof.
  intros H. unfold persistable in H. destruct_and! H.
  match goal with H : counters_fit s |- _ => unfold counters_fit in H; destruct_and! H end.
  unfold write_state, read_state, read_generations, enumerator.
  do 17 enc_one. apply enc_topology_record; [done|]. intros w'. cbv beta iota. enc_record.
  by destruct s as [????????????? ?? []].
Qed.
