(* ===== verification/PersistProofs.v ===== *)
(** * What the container guarantees

    A state that was encoded is decoded as the same state; a container altered in
    place is refused; what is decoded has resolved references and sorted
    identities. *)

From Stdlib Require Import NArith ZArith Lia.
From S2P Require Import Prelude Identity Counter Taxonomy Evidence Types State Domains Invariant.
From S2P Require Import Durable Wire Codec WireStream Frame FrameProofs PersistFields PersistValid.
From S2P Require Import Persist PersistCodec Scenario.

(** ** The container *)

Lemma length_container_header n : length (container_header n) = 12%nat.
Proof. unfold container_header. rewrite !length_app, !length_le_bytes. done. Qed.

Lemma container_fields payload :
  (size payload < 2 ^ 32)%N →
  let data := container payload in
  field_at 0 4 data = kPersistenceMagic ∧ field_at 4 2 data = kPersistenceFormatVersion ∧
  field_at 6 2 data = 0%N ∧ field_at 8 4 data = size payload ∧
  field_at 12 4 data = N.lxor (crc32 (container_header (size payload))) (crc32 payload) ∧
  take 12 data = container_header (size payload) ∧ drop 16 data = payload ∧
  size data = (16 + size payload)%N.
Proof.
  intros Hs. cbv zeta. unfold container. set (sum := N.lxor _ _).
  assert (sum < 2 ^ 32)%N by (apply lxor_lt; apply crc32_lt).
  pose proof (length_container_header (size payload)) as Hl.
  split_and!.
  - unfold container_header. rewrite <-!(assoc_L (++)). reflexivity.
  - unfold container_header. rewrite <-!(assoc_L (++)). reflexivity.
  - unfold container_header. rewrite <-!(assoc_L (++)). reflexivity.
  - unfold container_header. rewrite <-!(assoc_L (++)). do 2 rewrite (assoc_L (++)).
    by apply (header_field 8 4).
  - by apply (header_field 12 4).
  - by apply take_app_exact.
  - rewrite (assoc_L (++)). apply drop_app_exact. by rewrite length_app, Hl, length_le_bytes.
  - unfold size. rewrite !length_app, length_container_header, length_le_bytes. lia.
Qed.

(** The conditions under which a container is opened. *)
Definition opens (data : bytes) : Prop :=
  (16 <= size data)%N ∧ field_at 0 4 data = kPersistenceMagic ∧
  field_at 4 2 data = kPersistenceFormatVersion ∧ field_at 6 2 data = 0%N ∧
  (field_at 8 4 data <= kMaxPersistenceBytes)%N ∧ size data = (16 + field_at 8 4 data)%N ∧
  N.lxor (crc32 (take 12 data)) (crc32 (drop 16 data)) = field_at 12 4 data.

Lemma decode_cases data :
  (opens data ∧ decode_persisted_state data = decode_body (drop 16 data) (size data)) ∨
  (¬ opens data ∧ pdo_status (decode_persisted_state data) ≠ PS_Ok ∧
   pdo_state (decode_persisted_state data) = None).
Proof.
  unfold decode_persisted_state, opens, kContainerHeaderBytes.
  case_bool_decide as He.
  { right. split; [|done]. subst. intros [H _]. unfold size in H. simpl in H. lia. }
  destruct (N.ltb_spec (size data) 16) as [Hs|Hs]; [right; split_and!; [lia|done..]|].
  destruct (N.eqb_spec (field_at 0 4 data) kPersistenceMagic); cbn [negb];
    [|right; split_and!; [tauto|done..]].
  destruct (N.eqb_spec (field_at 4 2 data) kPersistenceFormatVersion); cbn [negb];
    [|right; split_and!; [tauto|done..]].
  destruct (N.eqb_spec (field_at 6 2 data) 0); cbn [negb]; [|right; split_and!; [tauto|done..]].
  destruct (N.ltb_spec kMaxPersistenceBytes (field_at 8 4 data)); [right; split_and!; [lia|done..]|].
  destruct (N.ltb_spec (size data - 16) (field_at 8 4 data)); [right; split_and!; [lia|done..]|].
  destruct (N.ltb_spec (field_at 8 4 data) (size data - 16)); [right; split_and!; [lia|done..]|].
  assert (take (N.to_nat (field_at 8 4 data)) (drop 16 data) = drop 16 data) as ->.
  { apply take_ge. rewrite length_drop. unfold size in *. lia. }
  destruct (N.eqb_spec (N.lxor (crc32 (take 12 data)) (crc32 (drop 16 data))) (field_at 12 4 data));
    cbn [negb]; [|right; split_and!; [tauto|done..]].
  left. split; [|done]. split_and!; [done..|lia|done].
Qed.

#[local] Transparent emits.

Lemma decode_body_written s total :
  persistable s → validation s = None → bw_ok (write_state s empty_writer) = true →
  decode_body (bw_data (write_state s empty_writer)) total = MkPersistedDecode PS_Ok (Some s) no_error total.
Proof.
  intros Hp Hv Hg. destruct (enc_state s empty_writer Hp Hg) as (_&bs&_&Hd&Hr).
  cbn [sink_data byte_sink] in Hd. rewrite Hd. cbn [app bw_data empty_writer].
  specialize (Hr []). rewrite app_nil_r in Hr. unfold decode_body.
  cbn [Codec.start state_source] in Hr. rewrite Hr. cbn [sr_reader].
  unfold validate_persisted_state. rewrite Hv. done.
Qed.

Lemma encode_ok s :
  eo_status (encode_persisted_state s) = PS_Ok →
  bw_ok (write_state s empty_writer) = true ∧
  (size (bw_data (write_state s empty_writer)) <= kMaxPersistenceBytes - 16)%N ∧
  eo_bytes (encode_persisted_state s) = container (bw_data (write_state s empty_writer)).
Proof.
  unfold encode_persisted_state.
  destruct (bw_ok _) eqn:Hg; cbn [negb]; [|by case_bool_decide].
  destruct (N.ltb_spec (kMaxPersistenceBytes - kContainerHeaderBytes)
    (size (bw_data (write_state s empty_writer)))); [done|]. done.
Qed.

Lemma decode_encoded s :
  persistable s → validation s = None → eo_status (encode_persisted_state s) = PS_Ok →
  decode_persisted_state (eo_bytes (encode_persisted_state s)) =
  MkPersistedDecode PS_Ok (Some s) no_error (size (eo_bytes (encode_persisted_state s))).
Proof.
  intros Hp Hv (Hg&Hs&->)%encode_ok. set (payload := bw_data _) in *.
  unfold kMaxPersistenceBytes in Hs.
  destruct (container_fields payload) as (H0&H4&H6&H8&H12&Ht&Hd&Hz); [lia|].
  destruct (decode_cases (container payload)) as [[_ ->]|[Hn _]].
  - rewrite Hd. by apply decode_body_written.
  - exfalso. apply Hn. unfold opens. rewrite H0, H4, H6, H8, H12, Ht, Hd, Hz.
    split_and!; [lia|done..|unfold kMaxPersistenceBytes; lia|lia|done].
Qed.

(** C22: what is persisted is restored.  A state that passes the structural
    validation, whose identities parse, whose integers fit their width and whose
    lists are within the decoder's bounds, once encoded, is decoded as exactly
    that state, and the whole container is consumed. *)
Theorem persisted_round_trip s :
  persistable s → validate_persisted_state s = (PS_Ok, "") →
  eo_status (encode_persisted_state s) = PS_Ok →
  decode_persisted_state (eo_bytes (encode_persisted_state s)) =
  MkPersistedDecode PS_Ok (Some s) no_error (size (eo_bytes (encode_persisted_state s))).
Proof. intros Hp Hv%validation_passes. by apply decode_encoded. Qed.

(** ** Corruption *)

(** Where a burst may lie: in the header before the checksum, in the checksum, or
    in the payload. *)
Definition burst_zone (from till : nat) : Prop :=
  (till ≤ 12 ∨ (12 ≤ from ∧ till ≤ 16) ∨ 16 ≤ from)%nat.

Lemma drop_outside n (pre mid mid' post : bytes) :
  length mid = length mid' → (length pre + length mid ≤ n)%nat →
  drop n (pre ++ mid ++ post) = drop n (pre ++ mid' ++ post).
Proof. intros Hl H. rewrite !drop_app_ge by lia. by rewrite Hl. Qed.

Lemma lxor_inj_l a x y : N.lxor x a = N.lxor y a → x = y.
Proof. rewrite (N.lxor_comm x), (N.lxor_comm y). apply lxor_inj_r. Qed.

Lemma opens_burst pre mid mid' post :
  opens (pre ++ mid ++ post) → opens (pre ++ mid' ++ post) →
  length mid = length mid' → (length mid ≤ 4)%nat →
  burst_zone (length pre) (length pre + length mid)%nat → mid = mid'.
Proof.
  intros (_&_&_&_&_&Hz&Hc) (_&_&_&_&_&Hz'&Hc') Hl H4 Hb. unfold burst_zone in Hb.
  change (take 12 ?d) with (slice 0 12 d) in Hc, Hc'.
  unfold field_at in Hc, Hc'. fold (slice 12 4 (pre ++ mid ++ post)) in Hc.
  fold (slice 12 4 (pre ++ mid' ++ post)) in Hc'.
  assert (16 <= length pre + length mid + length post)%nat as Hlen.
  { unfold size in Hz. rewrite !length_app in Hz. lia. }
  destruct Hb as [Hb|[Hb|Hb]].
  - rewrite <-(slice_outside 12 4 pre mid mid'), <-(drop_outside 16 pre mid mid') in Hc' by lia.
    rewrite <-Hc in Hc'. apply lxor_inj_l in Hc'.
    rewrite (slice_inside 0 12 pre mid), (slice_inside 0 12 pre mid'), <-Hl in Hc' by lia.
    apply crc32_burst in Hc'; [done|lia..].
  - rewrite <-(slice_outside 0 12 pre mid mid'), <-(drop_outside 16 pre mid mid'), Hc in Hc' by lia.
    apply le_value_inj in Hc'; [|unfold slice; rewrite !length_take, !length_drop, !length_app; lia].
    rewrite (slice_inside 12 4 pre mid), (slice_inside 12 4 pre mid'), <-Hl in Hc' by lia.
    apply app_inv_head in Hc'. by apply app_inv_tail in Hc'.
  - rewrite <-(slice_outside 12 4 pre mid mid'), <-(slice_outside 0 12 pre mid mid'), <-Hc in Hc' by lia.
    apply lxor_inj_r in Hc'. rewrite !(drop_app_le pre) in Hc' by lia.
    apply crc32_burst in Hc'; [done|lia..].
Qed.

(** C23: a damaged container is refused.  When an accepted container is altered
    within four consecutive bytes of its header before the checksum, of the
    checksum or of its payload, in particular in any single byte, decoding the
    altered container does not succeed. *)
Theorem container_corruption_detected pre mid mid' post :
  pdo_status (decode_persisted_state (pre ++ mid ++ post)) = PS_Ok →
  mid ≠ mid' → length mid = length mid' → (length mid ≤ 4)%nat →
  burst_zone (length pre) (length pre + length mid)%nat →
  pdo_status (decode_persisted_state (pre ++ mid' ++ post)) ≠ PS_Ok.
Proof.
  intros Hok Hne Hl H4 Hb Hok'.
  destruct (decode_cases (pre ++ mid ++ post)) as [[Ho _]|(_&?&_)]; [|done].
  destruct (decode_cases (pre ++ mid' ++ post)) as [[Ho' _]|(_&?&_)]; [|done].
  by apply Hne, (opens_burst pre mid mid' post).
Qed.

(** ** Witnesses *)

Definition demo_persisted : PersistedState := Eval vm_compute in to_persisted_state demo_state.

Ltac persist_fits :=
  repeat lazymatch goal with
  | |- True => exact I
  | |- _ ∧ _ => split
  | |- Forall _ [] => apply Forall_nil_2
  | |- Forall _ (_ :: _) => apply Forall_cons
  | |- Forall ?P ?l => let l' := eval hnf in l in change (Forall P l')
  | |- (_ <= _)%N => vm_compute; discriminate
  | |- known_id _ => vm_compute; reflexivity
  | |- fits _ _ => vm_compute; reflexivity
  | |- counter_fits _ => vm_compute; reflexivity
  | |- timestamp_fits _ => vm_compute; reflexivity
  | |- is_i64 _ => vm_compute; reflexivity
  | |- is_double _ => vm_compute; reflexivity
  | |- _ => progress hnf
  end.

Lemma demo_persistable : persistable demo_persisted.
Proof. persist_fits. Qed.

Lemma persisted_round_trip_witness :
  decode_persisted_state (eo_bytes (encode_persisted_state demo_persisted)) =
  MkPersistedDecode PS_Ok (Some demo_persisted) no_error
    (size (eo_bytes (encode_persisted_state demo_persisted))).
Proof.
  refine (persisted_round_trip demo_persisted demo_persistable _ _); vm_compute; reflexivity.
Defined.

Definition demo_container : bytes := eo_bytes (encode_persisted_state demo_persisted).

Lemma container_corruption_detected_witness :
  pdo_status (decode_persisted_state (take 40 demo_container ++ [char_of 255] ++
    drop 41 demo_container)) ≠ PS_Ok.
Proof.
  refine (container_corruption_detected (take 40 demo_container) (slice 40 1 demo_container)
    [char_of 255] (drop 41 demo_container) _ _ _ _ _).
  - vm_compute. reflexivity.
  - vm_compute. discriminate.
  - vm_compute. reflexivity.
  - vm_compute. lia.
  - right. right. apply Nat.leb_le. vm_compute. reflexivity.
Defined.
