(* ===== verification/PersistSound.v ===== *)
(** * What a decoded state satisfies

    The rules of [validate_persisted_state], stated as what they mean: the
    identities are sorted and unique, and every reference of a domain, a link or
    a constraint resolves. *)

From Stdlib Require Import NArith ZArith Lia.
From S2P Require Import Prelude Identity Counter Taxonomy Evidence Types State Domains Invariant.
From S2P Require Import Durable Wire Codec WireStream Frame PersistFields PersistValid Persist.
From S2P Require Import PersistCodec PersistProofs.

(** ** Loops *)

Lemma each_after_Forall {A} (rule : option A → A → Verdict) (P : A → Prop) l :
  (∀ p a, rule p a = None → P a) → each rule l = None → Forall P l.
Proof.
  unfold each. intros HP. generalize (None : option A).
  induction l as [|a l IH]; intros p; cbn [each_after]; [constructor|].
  destruct (rule p a) eqn:E; [done|]. intros Hl. constructor; eauto.
Qed.

Lemma each_sorted {A K} `{!Less K} `{!StrictTotal (less (A:=K))} (key : A → K)
    (rule : option A → A → Verdict) l :
  (∀ p a, rule (Some p) a = None → less (key p) (key a) = true) →
  each rule l = None → ssorted less (key <$> l).
Proof.
  intros Hr He. apply (strictly_sorted_spec less). revert He. unfold each.
  destruct l as [|a l]; [done|]. cbn [each_after]. destruct (rule None a); [done|].
  revert a. induction l as [|b l IH]; intros a; [done|]. cbn [each_after].
  destruct (rule (Some a) b) eqn:E; [done|]. intros Hl.
  change (less (key a) (key b) && strictly_sorted less (key <$> b :: l) = true).
  rewrite (Hr a b E). by apply IH.
Qed.

Lemma in_order {A K} `{!Less K} (key : A → K) p a :
  out_of_order (λ x y, less (key x) (key y)) (Some p) a = false → less (key p) (key a) = true.
Proof. cbn [out_of_order]. apply negb_false_iff. Qed.

(** Reads the failures out of a list of rules that all pass. *)
Ltac rules H :=
  repeat match type of H with
  | first_of _ = None => apply first_of_None in H
  | Forall _ (_ :: _) =>
      let H1 := fresh "Hrule" in apply Forall_cons in H as [H1 H];
      try apply fail_if_None in H1
  end.

(** ** References *)

(** The identities of a list of records are sorted and unique. *)
Definition sorted_by {A tag} (key : A → StrongId tag) (l : list A) : Prop := ssorted less (key <$> l).

Definition members_resolve (racks : list RackId) (members : list RackId) : Prop :=
  ssorted less members ∧ Forall (λ m, m ∈ racks) members.

Definition domains_resolve {D tag} `{DomainTraits D tag} (racks : list RackId) (l : list D) : Prop :=
  sorted_by dt_id l ∧ Forall (λ d, members_resolve racks (dt_racks d)) l.

Definition link_resolves (s : PersistedState) (l : InterRackLink) : Prop :=
  let racks := du_rack <$> ps_racks s in
  lk_source l ≠ lk_destination l ∧ lk_source l ∈ racks ∧ lk_destination l ∈ racks ∧
  (∀ d, lk_network_domain l = Some d → d ∈ nd_id <$> ps_network_domains s) ∧
  (∀ d, lk_link_domain l = Some d → d ∈ ld_id <$> ps_link_domains s).

(** A durable state whose identities are unique and whose references resolve. *)
Record consistent (s : PersistedState) : Prop := {
  con_racks : sorted_by du_rack (ps_racks s);
  con_placement : domains_resolve (du_rack <$> ps_racks s) (ps_placement_domains s);
  con_capacity : domains_resolve (du_rack <$> ps_racks s) (ps_capacity_domains s);
  con_failure : domains_resolve (du_rack <$> ps_racks s) (ps_failure_domains s);
  con_network : domains_resolve (du_rack <$> ps_racks s) (ps_network_domains s);
  con_storage : domains_resolve (du_rack <$> ps_racks s) (ps_storage_domains s);
  con_power : domains_resolve (du_rack <$> ps_racks s) (ps_power_domains s);
  con_cooling : domains_resolve (du_rack <$> ps_racks s) (ps_cooling_domains s);
  con_link_domains : domains_resolve (du_rack <$> ps_racks s) (ps_link_domains s);
  con_links : sorted_by lk_id (ps_links s) ∧ Forall (link_resolves s) (ps_links s);
  con_constraints :
    sorted_by cc_id (ps_constraints s) ∧
    Forall (λ c, members_resolve (du_rack <$> ps_racks s) (cc_racks c)) (ps_constraints s);
  con_retired : sorted_by ri_rack (ps_retired_racks s);
  con_withdrawn :
    ssorted less (ps_withdrawn_racks s) ∧
    Forall (λ r, r ∉ ri_rack <$> ps_retired_racks s) (ps_withdrawn_racks s)
}.

Section resolve.
  Context (racks : list RackId) (racks_sorted : ssorted less racks).

Lemma members_ok members : member_list_ok racks members = None → members_resolve racks members.
Proof using All.
  unfold member_list_ok. destruct (oversized _ _); [done|]. intros He.
  assert (each (λ p m, (λ d, (PS_DanglingReference, d)) <$> member_rule racks p m) members = None)
    as He'. { by destruct (each _ members). }
  assert (∀ p m, (λ d, (PS_DanglingReference, d)) <$> member_rule racks p m = None →
    out_of_order less p m = false ∧ m ∈ racks) as Hm.
  { intros p m. unfold member_rule. destruct (malformed m); [done|].
    destruct (out_of_order less p m); [done|]. destruct (rack_exists racks m) eqn:E; [|done].
    intros _. split; [done|]. by apply (binary_search_spec less) in E. }
  split.
  - rewrite <-(list_fmap_id members). eapply each_sorted; [|exact He'].
    intros p m [Ho _]%Hm. cbn [out_of_order] in Ho. by apply negb_false_iff.
  - eapply each_after_Forall; [|exact He']. intros p m Hpm. by apply Hm in Hpm as [_ ?].
Qed.

Lemma dangling_None subject members : dangling racks subject members = None → members_resolve racks members.
Proof using All. unfold dangling. intros H. apply members_ok. by destruct (member_list_ok racks members). Qed.

Lemma domain_list_ok {D tag} `{DomainTraits D tag} label (l : list D) :
  check_domain_list racks label l = None → domains_resolve racks l.
Proof using All.
  unfold check_domain_list. intros Hc. rules Hc. split.
  - eapply each_sorted; [|exact Hrule0]. intros p a Hr. unfold domain_rule in Hr. rules Hr.
    by apply in_order.
  - eapply each_after_Forall; [|exact Hrule0]. intros p a Hr. unfold domain_rule in Hr. rules Hr.
    by eapply dangling_None.
Qed.
End resolve.

Lemma reference_found {tag} (known : list (StrongId tag)) id d :
  ssorted less known → reference_missing known id = false → id = Some d → d ∈ known.
Proof.
  intros Hs Hr ->. cbn [reference_missing] in Hr. apply negb_false_iff in Hr.
  by apply (binary_search_spec less) in Hr.
Qed.

Lemma racks_ok l : each rack_rule l = None → sorted_by du_rack l.
Proof.
  apply each_sorted. intros p a Hr. unfold rack_rule in Hr. rules Hr. by apply in_order.
Qed.

Lemma links_ok s :
  sorted_by du_rack (ps_racks s) → sorted_by nd_id (ps_network_domains s) →
  sorted_by ld_id (ps_link_domains s) →
  each (link_rule (du_rack <$> ps_racks s) (nd_id <$> ps_network_domains s)
    (ld_id <$> ps_link_domains s)) (ps_links s) = None →
  sorted_by lk_id (ps_links s) ∧ Forall (link_resolves s) (ps_links s).
Proof.
  intros Hr Hn Hl He. split.
  - eapply each_sorted; [|exact He]. intros p a Ha. unfold link_rule in Ha. rules Ha.
    by apply in_order.
  - eapply each_after_Forall; [|exact He]. intros p a Ha. unfold link_rule in Ha. rules Ha.
    split_bools. unfold rack_exists in *.
    repeat match goal with H : binary_search _ _ _ = true |- _ =>
      apply (binary_search_spec less) in H; [|done] end.
    split_and!; [done..|intros d; by apply reference_found|intros d; by apply reference_found].
Qed.

Lemma constraints_ok racks l :
  ssorted less racks → each (constraint_rule racks) l = None →
  sorted_by cc_id l ∧ Forall (λ c, members_resolve racks (cc_racks c)) l.
Proof.
  intros Hr He. split.
  - eapply each_sorted; [|exact He]. intros p a Ha. unfold constraint_rule in Ha. rules Ha.
    by apply in_order.
  - eapply each_after_Forall; [|exact He]. intros p a Ha. unfold constraint_rule in Ha. rules Ha.
    by eapply dangling_None.
Qed.

Lemma retired_ok l : each retired_rule l = None → sorted_by ri_rack l.
Proof.
  apply each_sorted. intros p a Hr. unfold retired_rule in Hr. rules Hr. by apply in_order.
Qed.

Lemma withdrawn_ok retired l :
  each (withdrawn_rule retired) l = None →
  ssorted less l ∧ Forall (λ r, r ∉ ri_rack <$> retired) l.
Proof.
  intros He. split.
  - rewrite <-(list_fmap_id l). eapply each_sorted; [|exact He]. intros p a Ha.
    unfold withdrawn_rule in Ha. rules Ha. by apply negb_false_iff.
  - eapply each_after_Forall; [|exact He]. intros p a Ha. unfold withdrawn_rule in Ha. rules Ha.
    intros (e&->&Hin)%list_elem_of_fmap.
    match goal with H : existsb _ _ = false |- _ => revert H end.
    apply not_false_iff_true, existsb_exists. exists e. rewrite bool_decide_true by done.
    split; [by apply list_elem_of_In|done].
Qed.

Lemma validation_consistent s : validation s = None → consistent s.
Proof.
  unfold validation, top_level_rules, domain_rules. cbn [app]. intros Hv. rules Hv.
  assert (sorted_by du_rack (ps_racks s)) as Hracks by by apply racks_ok.
  assert (∀ D tag (H : DomainTraits D tag) label (l : list D),
    check_domain_list (du_rack <$> ps_racks s) label l = None →
    domains_resolve (du_rack <$> ps_racks s) l) as Hdom.
  { intros. by eapply domain_list_ok. }
  split; try (by eapply Hdom; eassumption); [done| | | |].
  - apply links_ok; [done| | |done];
      match goal with H : check_domain_list _ _ ?l = None |- sorted_by _ ?l =>
        exact (proj1 (Hdom _ _ _ _ _ H)) end.
  - by apply constraints_ok.
  - by apply retired_ok.
  - by apply withdrawn_ok.
Qed.

(** C24: no inconsistent state is restored.  Whatever bytes a container holds, when
    decoding yields a state, it reports success and rack, domain, link, constraint
    and retired identities of the state are sorted and unique, every member of a
    domain or a constraint is a declared rack, every link joins two distinct
    declared racks and names declared domains, and no rack is both withdrawn and
    retired. *)
Theorem decoded_state_consistent data s :
  pdo_state (decode_persisted_state data) = Some s →
  pdo_status (decode_persisted_state data) = PS_Ok ∧ consistent s.
Proof.
  destruct (decode_cases data) as [[_ ->]|(_&_&->)]; [|done].
  unfold decode_body. destruct (read_state _) as [[s'|] r].
  - destruct (exhausted (sr_reader r)); cbn [negb]; [|done].
    destruct (validate_persisted_state s') as [status detail] eqn:Hv.
    case_bool_decide as He; cbn [negb]; [|done]. cbn. intros [= ->]. split; [done|].
    apply validation_consistent. unfold validate_persisted_state in Hv.
    destruct (validation s) as [f|] eqn:Ev; [|done]. simpl in Hv. subst f status.
    by destruct (validation_proper s _ Ev).
  - by destruct (sr_failure r) as [[[status code] message]|].
Qed.

Lemma decoded_state_consistent_witness :
  pdo_status (decode_persisted_state demo_container) = PS_Ok ∧ consistent demo_persisted.
Proof.
  refine (decoded_state_consistent demo_container demo_persisted _). vm_compute. reflexivity.
Defined.
