(* ===== verification/Stores.v ===== *)
(** * Durable stores

    [MemoryPersistenceStore] and [FilePersistenceStore] of
    [src/persistence.cpp].  The disk is a map from paths to contents; a save is
    the sequence of operations it performs on the disk, and what the operating
    system answers to each of them is an argument. *)

From Stdlib Require Import NArith ZArith Lia.
From S2P Require Import Prelude Identity Counter Taxonomy Evidence Types State Domains Invariant.
From S2P Require Import EngineBase Durable Wire Codec WireStream Frame FrameProofs.
From S2P Require Import PersistFields PersistValid Persist PersistCodec PersistProofs.
From S2P Require Commit Scenario.

Import Commit (SaveOutcome, SaveOk, SaveFailed).

(** ** Outcomes *)

Definition save_failed (status : PersistenceStatus) (error : StructuredError) : SaveOutcome :=
  SaveFailed (er_message error) (string_of_persistence_status status).

Definition load_failed (status : PersistenceStatus) (message : string) : LoadOutcome :=
  MkLoad status None message.

(** The outcome of a load from the outcome of decoding. *)
Definition load_decoded (data : bytes) : LoadOutcome :=
  let decoded := decode_persisted_state data in
  MkLoad (pdo_status decoded) (pdo_state decoded) (er_message (pdo_error decoded)).

Definition missing_file : LoadOutcome := load_failed PS_MissingFile "no durable container exists yet".

(** ** Memory *)

Record MemoryStore := MkMemory { ms_bytes : bytes; ms_save_count : N }.

Definition memory_save (s : PersistedState) (store : MemoryStore) : SaveOutcome * MemoryStore :=
  let encoded := encode_persisted_state s in
  if negb (bool_decide (eo_status encoded = PS_Ok)) then
    (save_failed (eo_status encoded) (eo_error encoded), store)
  else (SaveOk, MkMemory (eo_bytes encoded) (ms_save_count store + 1)).

Definition memory_load (store : MemoryStore) : LoadOutcome :=
  if bool_decide (ms_bytes store = []) then missing_file else load_decoded (ms_bytes store).

Definition set_raw_bytes (data : bytes) (store : MemoryStore) : MemoryStore :=
  MkMemory data (ms_save_count store).

(** ** Files *)

Abbreviation Disk := (gmap string bytes).

Inductive DiskOp :=
  | Op_Remove (path : string)
  | Op_Truncate (path : string)
  | Op_Write (path : string) (data : bytes)
  | Op_Rename (from to : string).

Definition apply_op (disk : Disk) (op : DiskOp) : Disk :=
  match op with
  | Op_Remove path => delete path disk
  | Op_Truncate path => <[path := []]> disk
  | Op_Write path data => <[path := default [] (disk !! path) ++ data]> disk
  | Op_Rename from to =>
      match disk !! from with
      | Some data => <[to := data]> (delete from disk)
      | None => disk
      end
  end.

Definition apply_ops (disk : Disk) (ops : list DiskOp) : Disk := foldl apply_op disk ops.

Record FileStore := MkFileStore {
  fs_path : string;
  fs_temporary_path : string;
  fs_temporary_counter : N
}.

#[global] Instance eta_FileStore : Eta FileStore := λ r,
  MkFileStore (fs_path r) (fs_temporary_path r) (fs_temporary_counter r).
#[global] Instance upd_fs_temporary_path : Upd fs_temporary_path := ltac:(derive_upd).
#[global] Instance upd_fs_temporary_counter : Upd fs_temporary_counter := ltac:(derive_upd).

Definition discard_temporary (store : FileStore) : list DiskOp * FileStore :=
  if is_empty (fs_temporary_path store) then ([], store)
  else ([Op_Remove (fs_temporary_path store)], store <| fs_temporary_path := "" |>).

(** What the operating system answers: whether the temporary file opens, how much
    of the container is written if the write fails, whether the rename
    succeeds. *)
Record Io := MkIo { io_opens : bool; io_short_write : option nat; io_renames : bool }.

Definition temporary_name (path : string) (pid counter : N) : string :=
  path +:+ ".tmp-" +:+ to_decimal pid +:+ "-" +:+ to_decimal counter.

(** A failure after the temporary name was chosen. *)
Definition abandon (ops : list DiskOp) (store : FileStore) (status : PersistenceStatus)
    (message : string) : list DiskOp * SaveOutcome * FileStore :=
  let '(discard, store) := discard_temporary store in
  (ops ++ discard, SaveFailed message (string_of_persistence_status status), store).

Definition file_save (io : Io) (pid : N) (s : PersistedState) (store : FileStore) :
    list DiskOp * SaveOutcome * FileStore :=
  if is_empty (fs_path store) then
    ([], SaveFailed "no persistence path was configured" (string_of_persistence_status PS_IoError),
     store) else
  let encoded := encode_persisted_state s in
  if negb (bool_decide (eo_status encoded = PS_Ok)) then
    ([], save_failed (eo_status encoded) (eo_error encoded), store) else
  let '(ops, store) := discard_temporary store in
  let counter := (fs_temporary_counter store + 1)%N in
  let temporary := temporary_name (fs_path store) pid counter in
  let store := store <| fs_temporary_counter := counter |> <| fs_temporary_path := temporary |> in
  if negb (io_opens io) then
    abandon ops store PS_TempFileUnavailable
      "could not open the temporary container for writing" else
  match io_short_write io with
  | Some written =>
      abandon (ops ++ [Op_Truncate temporary; Op_Write temporary (take written (eo_bytes encoded))])
        store PS_IoError "temporary container write failed"
  | None =>
      let ops := ops ++ [Op_Truncate temporary; Op_Write temporary (eo_bytes encoded)] in
      if negb (io_renames io) then
        abandon ops store PS_AtomicReplaceFailed
          "could not atomically replace the committed container"
      else (ops ++ [Op_Rename temporary (fs_path store)], SaveOk, store <| fs_temporary_path := "" |>)
  end.

(** The read loop: a buffer at a time, bounded by the container limit. *)
Definition read_buffer_bytes : nat := 65536.

Fixpoint read_loop (fuel : nat) (rest acc : bytes) : option bytes :=
  match fuel with
  | O => None
  | S fuel =>
      let chunk := take read_buffer_bytes rest in
      if bool_decide (chunk = []) then Some acc else
      if (kMaxPersistenceBytes <? size acc + size chunk)%N then None
      else read_loop fuel (drop read_buffer_bytes rest) (acc ++ chunk)
  end.

(** [io_reads] tells whether the stream ends without a read error. *)
Definition file_load (io_reads : bool) (disk : Disk) (store : FileStore) : LoadOutcome :=
  if is_empty (fs_path store) then load_failed PS_IoError "no persistence path was configured" else
  match disk !! fs_path store with
  | None => load_failed PS_MissingFile "no durable container exists yet"
  | Some content =>
      match read_loop (S (length content)) content [] with
      | None => load_failed PS_PayloadTooLarge "durable container exceeds the size limit"
      | Some data =>
          if negb io_reads then load_failed PS_IoError "durable container read failed"
          else load_decoded data
      end
  end.
