(* ===== verification/StoreProofs.v ===== *)
(** * What the stores promise

    A store behaves as a register that holds the last state that was saved: the
    interface [DurableStore] states it, the memory store and the file store
    implement it, and recovery is proved against the interface.  A save of the
    file store is atomic at every point where it can be interrupted. *)

From Stdlib Require Import NArith ZArith Lia.
From S2P Require Import Prelude Identity Counter Taxonomy Evidence Types State Domains Invariant.
From S2P Require Import EngineBase Durable Wire Codec WireStream Frame FrameProofs.
From S2P Require Import PersistFields PersistValid Persist PersistCodec PersistProofs.
From S2P Require Import Stores.
From S2P Require Commit RecoveryProofs Scenario.

Import Commit (SaveOutcome, SaveOk, SaveFailed).

(** ** The interface *)

(** A state that survives encoding and decoding. *)
Definition recoverable (p : PersistedState) : Prop :=
  persistable p ∧ validate_persisted_state p = (PS_Ok, "").

Class DurableStore (S : Type) := {
  ds_save : PersistedState → S → SaveOutcome * S;
  ds_load : S → LoadOutcome;
  ds_inv : S → Prop
}.

Class DurableStoreLaws (S : Type) `{!DurableStore S} := {
  ds_save_inv p s : ds_inv s → ds_inv (ds_save p s).2;
  ds_saved p s :
    ds_inv s → recoverable p → (ds_save p s).1 = SaveOk →
    ds_load (ds_save p s).2 = MkLoad PS_Ok (Some p) "";
  ds_refused p s :
    ds_inv s → (ds_save p s).1 ≠ SaveOk → ds_load (ds_save p s).2 = ds_load s
}.

(** The register: the last state that was saved, or what was there before. *)
Definition register_save (outcome : SaveOutcome) (p : PersistedState) (held : LoadOutcome) :
    LoadOutcome :=
  match outcome with SaveOk => MkLoad PS_Ok (Some p) "" | SaveFailed _ _ => held end.

Section register.
  Context {S : Type} `{DurableStoreLaws S}.

(** Saves in order: the store, and what a register would hold. *)
Fixpoint run_saves (l : list PersistedState) (s : S) (held : LoadOutcome) : S * LoadOutcome :=
  match l with
  | [] => (s, held)
  | p :: l => let '(outcome, s') := ds_save p s in run_saves l s' (register_save outcome p held)
  end.

Lemma run_saves_register l s held :
  ds_inv s → ds_load s = held → Forall recoverable l →
  ds_load (run_saves l s held).1 = (run_saves l s held).2.
Proof using Type*.
  intros Hi Hh Hl. revert s held Hi Hh. induction Hl as [|p l Hp Hl IH]; intros s held Hi Hh; [done|].
  cbn [run_saves]. pose proof (ds_save_inv p s Hi) as Hi'. pose proof (ds_saved p s Hi Hp) as Hs.
  pose proof (ds_refused p s Hi) as Hr. destruct (ds_save p s) as [outcome s']. simpl in *.
  apply IH; [done|]. destruct outcome; simpl; [auto|]. rewrite Hr by done. done.
Qed.

End register.

(** ** The memory store *)

Lemma load_decoded_saved p :
  recoverable p → eo_status (encode_persisted_state p) = PS_Ok →
  load_decoded (eo_bytes (encode_persisted_state p)) = MkLoad PS_Ok (Some p) "".
Proof.
  intros [Hp Hv%validation_passes] He. unfold load_decoded. by rewrite decode_encoded.
Qed.

Lemma encoded_not_empty p :
  eo_status (encode_persisted_state p) = PS_Ok → eo_bytes (encode_persisted_state p) ≠ [].
Proof.
  intros (_&_&->)%encode_ok E. apply (f_equal length) in E. unfold container in E.
  rewrite !length_app, length_container_header in E. simpl in E. lia.
Qed.

#[global] Instance memory_store : DurableStore MemoryStore :=
  {| ds_save := memory_save; ds_load := memory_load; ds_inv := λ _, True |}.

#[global] Instance memory_store_laws : DurableStoreLaws MemoryStore.
Proof.
  split; [done|..]; intros p s _; cbn [ds_save ds_load memory_store]; unfold memory_save.
  - intros Hp. case_bool_decide as He; cbn [negb]; [|done]. intros _. cbn [snd]. unfold memory_load.
    cbn [ms_bytes]. rewrite bool_decide_false by by apply encoded_not_empty.
    by apply load_decoded_saved.
  - by case_bool_decide.
Qed.

(** ** The file store *)

Lemma read_buffer_positive : (0 < read_buffer_bytes)%nat.
Proof. apply Nat.ltb_lt. vm_compute. reflexivity. Qed.

#[local] Opaque read_buffer_bytes.

Lemma read_loop_spec fuel (rest acc : bytes) :
  (length rest < fuel)%nat → (size acc <= kMaxPersistenceBytes)%N →
  read_loop fuel rest acc =
  if (kMaxPersistenceBytes <? size acc + size rest)%N then None else Some (acc ++ rest).
Proof.
  revert rest acc. induction fuel as [|fuel IH]; intros rest acc Hf Ha; [lia|]. cbn [read_loop].
  case_bool_decide as He.
  - assert (rest = []) as ->.
    { apply (f_equal length) in He. rewrite length_take in He. destruct rest; [done|].
      pose proof read_buffer_positive. cbn [length] in He. lia. }
    rewrite app_nil_r. unfold size at 2. cbn [length]. by rewrite N.add_0_r, (proj2 (N.ltb_ge _ _)).
  - pose proof (take_drop read_buffer_bytes rest) as Htd.
    set (chunk := take read_buffer_bytes rest) in *. set (left := drop read_buffer_bytes rest) in *.
    assert (0 < length chunk)%nat by (destruct chunk; simpl; [done|lia]).
    assert (size rest = size chunk + size left)%N as Hsz.
    { rewrite <-Htd. unfold size. rewrite length_app. lia. }
    destruct (N.ltb_spec kMaxPersistenceBytes (size acc + size chunk)) as [Hc|Hc].
    + by rewrite (proj2 (N.ltb_lt _ _)) by lia.
    + rewrite IH.
      * unfold size in *. rewrite length_app, <-(assoc_L (++)), Htd.
        replace (N.of_nat (length acc + length chunk) + N.of_nat (length left))%N
          with (N.of_nat (length acc) + N.of_nat (length rest))%N by lia. done.
      * unfold size in Hsz. lia.
      * unfold size in *. rewrite length_app. lia.
Qed.

(** The file an operation changes. *)
Definition op_target (op : DiskOp) : list string :=
  match op with
  | Op_Remove p | Op_Truncate p | Op_Write p _ => [p]
  | Op_Rename p q => [p; q]
  end.

Definition avoids (path : string) (ops : list DiskOp) : Prop := Forall (λ op, path ∉ op_target op) ops.

Lemma apply_op_other path disk op : path ∉ op_target op → apply_op disk op !! path = disk !! path.
Proof.
  destruct op as [p|p|p d|p q]; cbn [op_target apply_op]; rewrite ?not_elem_of_cons.
  - intros [Hp _]. by rewrite lookup_delete_ne by done.
  - intros [Hp _]. by rewrite lookup_insert_ne by done.
  - intros [Hp _]. by rewrite lookup_insert_ne by done.
  - intros (Hp&Hq&_). destruct (disk !! p); [|done].
    by rewrite lookup_insert_ne, lookup_delete_ne by done.
Qed.

Lemma apply_ops_other path disk ops : avoids path ops → apply_ops disk ops !! path = disk !! path.
Proof.
  unfold apply_ops. intros Ho. revert disk. induction Ho as [|op ops Hop _ IH]; intros disk; [done|].
  cbn [foldl]. rewrite IH. by apply apply_op_other.
Qed.

Lemma append_longer path suffix : suffix ≠ "" → path +:+ suffix ≠ path.
Proof.
  intros Hs E. apply (f_equal (λ s, length (chars s))) in E. rewrite chars_app, length_app in E.
  apply Hs, chars_inj. destruct (chars suffix); [done|simpl in E; lia].
Qed.

Lemma temporary_name_other path pid counter : temporary_name path pid counter ≠ path.
Proof. by apply append_longer. Qed.

(** A temporary file is never the committed container. *)
Definition file_inv (store : FileStore) : Prop :=
  is_empty (fs_temporary_path store) = true ∨ fs_temporary_path store ≠ fs_path store.

Lemma discard_avoids store :
  file_inv store → avoids (fs_path store) (discard_temporary store).1.
Proof.
  unfold discard_temporary, file_inv, avoids. intros Hi.
  destruct (is_empty (fs_temporary_path store)); [apply Forall_nil_2|].
  apply Forall_cons; split; [|apply Forall_nil_2]. cbn [op_target]. rewrite list_elem_of_singleton.
  destruct Hi as [|Hi]; [done|]. by intros ?.
Qed.

Lemma discard_store store :
  fs_path (discard_temporary store).2 = fs_path store ∧
  is_empty (fs_temporary_path (discard_temporary store).2) = true.
Proof. unfold discard_temporary. by destruct (is_empty (fs_temporary_path store)) eqn:E. Qed.

Lemma avoids_app path ops ops' : avoids path (ops ++ ops') ↔ avoids path ops ∧ avoids path ops'.
Proof. apply Forall_app. Qed.

Lemma avoids_temporary path pid counter d :
  let t := temporary_name path pid counter in avoids path [Op_Truncate t; Op_Write t d].
Proof.
  pose proof (temporary_name_other path pid counter).
  repeat (apply Forall_cons; split; [by cbn; rewrite list_elem_of_singleton|]). apply Forall_nil_2.
Qed.

(** ** The shape of a save *)

Inductive SaveShape (path : string) (encoded : bytes) : list DiskOp → SaveOutcome → Prop :=
  (** Nothing touches the container. *)
  | shape_failed ops message status :
      avoids path ops → SaveShape path encoded ops (SaveFailed message status)
  (** The container is written to a temporary file and renamed. *)
  | shape_saved ops temporary :
      avoids path ops → temporary ≠ path →
      SaveShape path encoded
        (ops ++ [Op_Truncate temporary; Op_Write temporary encoded] ++ [Op_Rename temporary path])
        SaveOk.

Lemma abandon_shape path encoded ops store status message :
  file_inv store → fs_path store = path → avoids path ops →
  let '(ops', outcome, store') := abandon ops store status message in
  SaveShape path encoded ops' outcome ∧ fs_path store' = path ∧
  is_empty (fs_temporary_path store') = true.
Proof.
  intros Hi <- Ho. unfold abandon. pose proof (discard_avoids store Hi) as Hd.
  pose proof (discard_store store) as Hs. destruct (discard_temporary store) as [discard store'].
  simpl in *. split; [|done]. constructor. by apply avoids_app.
Qed.

Lemma file_save_shape io pid p store :
  file_inv store →
  let '(ops, outcome, store') := file_save io pid p store in
  SaveShape (fs_path store) (eo_bytes (encode_persisted_state p)) ops outcome ∧
  fs_path store' = fs_path store ∧ file_inv store' ∧
  (outcome = SaveOk → is_empty (fs_path store) = false ∧ eo_status (encode_persisted_state p) = PS_Ok).
Proof.
  intros Hi. unfold file_save. destruct (is_empty (fs_path store)) eqn:Ep.
  { split_and!; [constructor; apply Forall_nil_2|done..]. }
  case_bool_decide as He; cbn [negb]; [|split_and!; [constructor; apply Forall_nil_2|done..]].
  pose proof (discard_avoids store Hi) as Hd. destruct (discard_store store) as [Hp _].
  destruct (discard_temporary store) as [ops store1]. simpl in Hd, Hp.
  set (t := temporary_name (fs_path store1) pid (fs_temporary_counter store1 + 1)%N).
  set (store2 := store1 <| fs_temporary_counter := _ |> <| fs_temporary_path := t |>).
  assert (t ≠ fs_path store) as Ht by (rewrite <-Hp; apply temporary_name_other).
  assert (file_inv store2) as Hi2 by (right; by rewrite <-Hp in Ht).
  assert (∀ d, avoids (fs_path store) (ops ++ [Op_Truncate t; Op_Write t d])) as Hw.
  { intros d. apply avoids_app. split; [done|]. rewrite <-Hp. apply avoids_temporary. }
  assert (∀ ops status message, avoids (fs_path store) ops →
    let '(ops', outcome, store') := abandon ops store2 status message in
    SaveShape (fs_path store) (eo_bytes (encode_persisted_state p)) ops' outcome ∧
    fs_path store' = fs_path store ∧ file_inv store' ∧
    (outcome = SaveOk → false = false ∧ eo_status (encode_persisted_state p) = PS_Ok)) as Hab.
  { intros ops' status message Ho.
    pose proof (abandon_shape (fs_path store) (eo_bytes (encode_persisted_state p)) ops' store2
      status message Hi2 Hp Ho) as Ha.
    destruct (abandon _ _ _ _) as [[ops'' outcome] store']. destruct Ha as (?&?&?).
    split_and!; [done..|by left|done]. }
  destruct (io_opens io); cbn [negb]; [|by apply Hab].
  destruct (io_short_write io) as [n|]; [by apply Hab|].
  destruct (io_renames io); cbn [negb]; [|by apply Hab].
  split_and!; [|done|by left|done]. rewrite <-(assoc_L (++)).
  change (fs_path store2) with (fs_path store1). rewrite Hp. by constructor.
Qed.

(** ** Atomicity *)

(** The disks a crash can leave behind: after any number of operations, the last
    write being possibly incomplete. *)
Inductive interrupted : list DiskOp → Disk → Disk → Prop :=
  | between done rest disk : interrupted (done ++ rest) disk (apply_ops disk done)
  | within_write done path data n rest disk :
      interrupted (done ++ Op_Write path data :: rest) disk
        (apply_ops disk (done ++ [Op_Write path (take n data)])).

Lemma interrupted_avoids path ops disk disk' :
  avoids path ops → interrupted ops disk disk' → disk' !! path = disk !! path.
Proof.
  intros Ho Hi. destruct Hi as [done rest disk|done p d n rest disk]; apply apply_ops_other.
  - by apply avoids_app in Ho as [? _].
  - apply avoids_app in Ho as [Hd Hw]. apply avoids_app. split; [done|].
    apply Forall_cons in Hw as [Hw _]. apply Forall_cons; split; [done|apply Forall_nil_2].
Qed.

Lemma saved_content path temporary encoded ops disk :
  temporary ≠ path →
  apply_ops disk (ops ++ [Op_Truncate temporary; Op_Write temporary encoded] ++
    [Op_Rename temporary path]) !! path = Some encoded.
Proof.
  intros Ht. unfold apply_ops. rewrite foldl_app. generalize (foldl apply_op disk ops). clear disk ops.
  intros disk. cbn [foldl app apply_op]. rewrite !lookup_insert_eq. cbn [default app].
  done.
Qed.

Lemma prefix_snoc {A} (l k m : list A) x : l ++ k = m ++ [x] → k = [] ∨ ∃ k', m = l ++ k'.
Proof.
  destruct k as [|y k'] using rev_ind; [by left|]. rewrite (assoc_L (++)).
  intros [<- _]%app_inj_2; [|done]. right. eauto.
Qed.

Lemma shape_interrupted path encoded ops outcome disk disk' :
  SaveShape path encoded ops outcome → interrupted ops disk disk' →
  disk' !! path = disk !! path ∨ disk' !! path = Some encoded.
Proof.
  intros Hs Hi. destruct Hs as [ops message status Ho|ops t Ho Ht].
  { left. by eapply interrupted_avoids. }
  rewrite (assoc_L (++)) in Hi.
  assert (avoids path (ops ++ [Op_Truncate t; Op_Write t encoded])) as Hw.
  { apply avoids_app. split; [done|].
    repeat (apply Forall_cons; split; [by cbn; rewrite list_elem_of_singleton|]). apply Forall_nil_2. }
  inversion Hi as [done rest d E|done p d n rest dk E]; subst.
  - destruct (prefix_snoc _ _ _ _ E) as [->|[k' E']].
    + right. rewrite app_nil_r in E. subst. rewrite <-(assoc_L (++)). by apply saved_content.
    + left. apply apply_ops_other. rewrite E' in Hw. by apply avoids_app in Hw as [? _].
  - left. rewrite cons_middle, (assoc_L (++)) in E. destruct (prefix_snoc _ _ _ _ E) as [->|[k' E']].
    + rewrite app_nil_r in E. by apply app_inj_2 in E as [_ ?].
    + rewrite E' in Hw. apply (interrupted_avoids path ((done ++ [Op_Write p d]) ++ k')); [done|].
      rewrite <-(assoc_L (++)). constructor.
Qed.

Lemma shape_completed path encoded ops outcome disk :
  SaveShape path encoded ops outcome →
  apply_ops disk ops !! path =
  match outcome with SaveOk => Some encoded | SaveFailed _ _ => disk !! path end.
Proof. intros [? ?? Ho|? t Ho Ht]; [by apply apply_ops_other|by apply saved_content]. Qed.

Definition kept_or_replaced (path : string) (encoded : bytes) (before after : Disk) : Prop :=
  after !! path = before !! path ∨ after !! path = Some encoded.

(** C12: a save is atomic.  Whatever the operating system answers, at every point
    where a save of the file store can be interrupted, even within a write, the
    committed container is either the one before the save or the complete new
    one; when the save returns it is the new one exactly when it succeeded. *)
Theorem file_save_atomic io pid p store disk :
  file_inv store →
  let '(ops, outcome, store') := file_save io pid p store in
  let encoded := eo_bytes (encode_persisted_state p) in
  (∀ disk', interrupted ops disk disk' → kept_or_replaced (fs_path store) encoded disk disk') ∧
  apply_ops disk ops !! fs_path store =
    match outcome with SaveOk => Some encoded | SaveFailed _ _ => disk !! fs_path store end ∧
  fs_path store' = fs_path store ∧ file_inv store'.
Proof.
  intros Hi. pose proof (file_save_shape io pid p store Hi) as Hs.
  destruct (file_save io pid p store) as [[ops outcome] store']. cbv zeta.
  destruct Hs as (Hshape&Hp&Hi'&_). split_and!; [|by apply shape_completed|done..].
  intros disk' Hd. by eapply shape_interrupted.
Qed.

Definition healthy : Io := MkIo true None true.
Definition demo_store : FileStore := MkFileStore "/var/lib/cluster.state" "" 0.

Definition demo_temporary : string := temporary_name "/var/lib/cluster.state" 7 1.

(** The operations of a save that succeeds. *)
Definition demo_ops : list DiskOp :=
  [Op_Truncate demo_temporary; Op_Write demo_temporary demo_container;
   Op_Rename demo_temporary "/var/lib/cluster.state"].

Lemma demo_save : file_save healthy 7 demo_persisted demo_store =
  (demo_ops, SaveOk, MkFileStore "/var/lib/cluster.state" "" 1).
Proof. vm_compute. reflexivity. Qed.

Lemma file_save_atomic_witness :
  kept_or_replaced "/var/lib/cluster.state" demo_container ∅ (apply_ops ∅ (take 2 demo_ops)).
Proof.
  pose proof (file_save_atomic healthy 7 demo_persisted demo_store ∅ (or_introl eq_refl)) as H.
  rewrite demo_save in H. destruct H as [H _]. apply H. apply (between (take 2 demo_ops)).
Defined.

(** The file store and its disk, under an operating system that answers [io] to
    saves and lets the container be read. *)
Definition disk_save (io : Io) (pid : N) (p : PersistedState) (s : FileStore * Disk) :
    SaveOutcome * (FileStore * Disk) :=
  let '(ops, outcome, store) := file_save io pid p s.1 in (outcome, (store, apply_ops s.2 ops)).

Definition file_store (io : Io) (pid : N) : DurableStore (FileStore * Disk) :=
  {| ds_save := disk_save io pid; ds_load := λ s, file_load true s.2 s.1;
     ds_inv := λ s, file_inv s.1 |}.

Lemma file_load_content io_reads disk store content :
  is_empty (fs_path store) = false → disk !! fs_path store = Some content →
  (size content <= kMaxPersistenceBytes)%N →
  file_load io_reads disk store =
  if io_reads then load_decoded content else load_failed PS_IoError "durable container read failed".
Proof.
  intros Hp Hd Hs. unfold file_load. rewrite Hp, Hd, read_loop_spec by (unfold size in *; simpl; lia).
  unfold size at 1. cbn [length]. rewrite (proj2 (N.ltb_ge _ _)) by lia.
  cbn [app]. by destruct io_reads.
Qed.

Lemma encoded_size p :
  eo_status (encode_persisted_state p) = PS_Ok →
  (size (eo_bytes (encode_persisted_state p)) <= kMaxPersistenceBytes)%N.
Proof.
  intros (_&Hs&->)%encode_ok. unfold kMaxPersistenceBytes in *.
  destruct (container_fields (bw_data (write_state p empty_writer))) as (_&_&_&_&_&_&_&->); lia.
Qed.

Lemma file_load_path disk disk' store store' :
  fs_path store' = fs_path store → disk' !! fs_path store = disk !! fs_path store →
  file_load true disk' store' = file_load true disk store.
Proof. intros Hp Hd. unfold file_load. by rewrite Hp, Hd. Qed.

Lemma file_store_laws io pid : @DurableStoreLaws _ (file_store io pid).
Proof.
  split; intros p [store disk]; cbn [ds_save ds_load ds_inv file_store fst snd]; unfold disk_save;
    cbn [fst snd]; intros Hi; pose proof (file_save_shape io pid p store Hi) as Hs;
    destruct (file_save io pid p store) as [[ops outcome] store']; cbn [fst snd];
    destruct Hs as (Hshape&Hp&Hi'&Hok).
  - done.
  - intros Hrec ->. destruct (Hok eq_refl) as [Hpath He].
    rewrite (file_load_content true _ store' (eo_bytes (encode_persisted_state p))).
    + by apply load_decoded_saved.
    + by rewrite Hp.
    + rewrite Hp. apply (shape_completed _ _ _ _ disk) in Hshape. done.
    + by apply encoded_size.
  - intros Hf. apply file_load_path; [done|].
    apply (shape_completed _ _ _ _ disk) in Hshape. by destruct outcome.
Qed.



(** ** Restarts *)

(** A restart recovers what was saved.  When a save of the projection of a
    canonical state succeeded, a coordinator that starts from that store has the
    recovered form of that state, for every store that keeps its promise. *)
Theorem restart_recovers_saved {S} `{DurableStoreLaws S} config now st (s : S) :
  ds_inv s → recoverable (to_persisted_state st) →
  (ds_save (to_persisted_state st) s).1 = SaveOk →
  fst (load_durable_state config (Some (ds_load (ds_save (to_persisted_state st) s).2)) now) =
  RecoveryProofs.restart now st.
Proof. intros Hi Hp Hs. rewrite ds_saved by done. done. Qed.

Definition demo_config : CoordinatorConfig := default_config Scenario.demo_cluster default_contract.
Definition empty_memory : MemoryStore := MkMemory [] 0.

Lemma demo_recoverable : recoverable (to_persisted_state Scenario.demo_state).
Proof.
  replace (to_persisted_state Scenario.demo_state) with demo_persisted by (vm_compute; reflexivity).
  split; [apply demo_persistable|vm_compute; reflexivity].
Qed.

Lemma restart_recovers_saved_witness :
  fst (load_durable_state demo_config
    (Some (ds_load (ds_save (to_persisted_state Scenario.demo_state) empty_memory).2)) Scenario.t0) =
  RecoveryProofs.restart Scenario.t0 Scenario.demo_state.
Proof.
  refine (restart_recovers_saved demo_config Scenario.t0 Scenario.demo_state empty_memory I
    demo_recoverable _).
  vm_compute. reflexivity.
Defined.

(** The state after a fence whose reason is empty. *)
Definition fenced_silently : ClusterState :=
  Commit.co_canonical (fst (Commit.run_commit
    (Scenario.history ++ [Commit.QFence Scenario.t0 Scenario.t0 Scenario.boot_a ""]) Scenario.start)).

(** A fence with an empty reason is committed and saved, but the container is
    refused at the next start: the coordinator comes up without the cluster. *)
Theorem empty_fence_reason_loses_state :
  let saved := memory_save (to_persisted_state fenced_silently) empty_memory in
  saved.1 = SaveOk ∧ lo_status (memory_load saved.2) = PS_InvalidState ∧
  msize (cs_racks fenced_silently) = 2%N ∧
  msize (cs_racks (fst (load_durable_state demo_config (Some (memory_load saved.2))
    Scenario.t0))) = 0%N.
Proof. vm_compute. done. Qed.
