(* ===== verification/Process.v ===== *)
(** * The coordinator process: submissions, the commit thread, start and stop

    [ClusterCoordinator::start], [submit], [fence_boot] and [stop] of
    [src/coordinator.cpp] and [src/coordinator_network.cpp], and the loop of
    [run_commit] as one thread among others.  Threads interleave between
    critical sections: every event below is what one thread does while it holds
    a lock, or between two waits.  [perform] answers [None] when the thread would
    block. *)

From S2P Require Import Prelude Identity Counter Taxonomy Evidence Types State.
From S2P Require Import Explain EngineBase Durable Commit Wire.

Definition kMaxPendingRequests : N := 4096.

(** ** The state *)

(** [detail::QueueItem]: a mutation carries the slot its submitter waits on. *)
Inductive Pending :=
  | PMutation (request : MutationRequest) (slot : nat)
  | PFence (boot : RackAgentBootId) (reason : string)
  | PStop.

(** What the thread that owns the coordinator is doing: [start] has launched the
    commit thread and opens the listener, or waits for the commit thread after
    the listener failed; [stop] has published the flag, or has queued the stop
    item and waits. *)
Inductive Owner :=
  | Own_Idle | Own_Starting | Own_StartFailed | Own_StopFlagged | Own_StopQueued.
#[global] Instance Owner_eq_dec : EqDecision Owner.
Proof. solve_decision. Defined.

(** The fields of [ClusterCoordinator::Impl] that submissions, the commit thread
    and the owner share.  [pr_slots] holds every [RequestSlot] handed out, with
    its result once [done]; [pr_hand] is the item the commit thread has taken
    off the queue; [pr_committing] is true until [run_commit] returns and
    [pr_joinable] until the thread is joined. *)
Record Process := MkProcess {
  pr_coordinator : Coordinator;
  pr_queue : list Pending;
  pr_hand : option Pending;
  pr_slots : gmap nat (option MutationResult);
  pr_next_slot : nat;
  pr_running : bool;
  pr_stopping : bool;
  pr_committing : bool;
  pr_joinable : bool;
  pr_accepting : bool;
  pr_owner : Owner
}.

#[global] Instance eta_Process : Eta Process := λ r,
  MkProcess (pr_coordinator r) (pr_queue r) (pr_hand r) (pr_slots r) (pr_next_slot r) (pr_running r)
    (pr_stopping r) (pr_committing r) (pr_joinable r) (pr_accepting r) (pr_owner r).
#[global] Instance upd_pr_coordinator : Upd pr_coordinator := ltac:(derive_upd).
#[global] Instance upd_pr_queue : Upd pr_queue := ltac:(derive_upd).
#[global] Instance upd_pr_hand : Upd pr_hand := ltac:(derive_upd).
#[global] Instance upd_pr_slots : Upd pr_slots := ltac:(derive_upd).
#[global] Instance upd_pr_next_slot : Upd pr_next_slot := ltac:(derive_upd).
#[global] Instance upd_pr_running : Upd pr_running := ltac:(derive_upd).
#[global] Instance upd_pr_stopping : Upd pr_stopping := ltac:(derive_upd).
#[global] Instance upd_pr_committing : Upd pr_committing := ltac:(derive_upd).
#[global] Instance upd_pr_joinable : Upd pr_joinable := ltac:(derive_upd).
#[global] Instance upd_pr_accepting : Upd pr_accepting := ltac:(derive_upd).
#[global] Instance upd_pr_owner : Upd pr_owner := ltac:(derive_upd).

(** ** Submitting *)

(** Why [submit] refuses without queueing, if it does. *)
Definition submit_refusal (request : MutationRequest) (p : Process) : option MutationResult :=
  let refuse reason detail code :=
    Some (rejected reason ES_Commit (id_value (rq_cluster request)) detail code) in
  if negb (pr_running p) then
    if pr_stopping p then
      refuse Rej_ShuttingDown "coordinator has been stopped and accepts no new mutations"
        "shutting_down"
    else refuse Rej_NotReady
      "coordinator is not running: call start() before submitting mutations" "not_running"
  else if pr_stopping p then
    refuse Rej_ShuttingDown "coordinator is shutting down and accepts no new mutations"
      "shutting_down"
  else if (kMaxPendingRequests <=? size (pr_queue p))%N then
    refuse Rej_LimitExceeded "pending request queue is full" "queue_full"
  else None.

(** [queue.push_back]. *)
Definition push_back (item : Pending) (p : Process) : Process :=
  p <| pr_queue := pr_queue p ++ [item] |>.

(** The first half of [submit], under the queue lock: a refusal, or the slot the
    caller then waits on. *)
Definition submit (request : MutationRequest) (p : Process) : Process * (MutationResult + nat) :=
  match submit_refusal request p with
  | Some refusal => (p, inl refusal)
  | None =>
      let slot := pr_next_slot p in
      (push_back (PMutation request slot)
         (p <| pr_slots := <[slot := None]> (pr_slots p) |> <| pr_next_slot := S slot |>),
       inr slot)
  end.

(** The second half: the result, once the slot is done. *)
Definition slot_result (slot : nat) (p : Process) : option MutationResult :=
  default None (pr_slots p !! slot).

Definition fence_boot (boot : RackAgentBootId) (reason : string) (p : Process) : Process * bool :=
  if pr_stopping p then (p, false) else (push_back (PFence boot reason) p, true).

(** ** The commit thread *)

(** The wait on the queue and the removal of its front; the thread returns when
    the queue is empty and the stop flag set. *)
Definition commit_take (p : Process) : option Process :=
  if negb (pr_committing p) then None else
  match pr_hand p with
  | Some _ => None
  | None =>
      match pr_queue p with
      | [] => if pr_stopping p then Some (p <| pr_committing := false |>) else None
      | item :: queue => Some (p <| pr_queue := queue |> <| pr_hand := Some item |>)
      end
  end.

(** The processing of the item taken.  [now] and [later] are clock readings. *)
Definition commit_apply (now later : Timestamp) (p : Process) : option Process :=
  if negb (pr_committing p) then None else
  match pr_hand p with
  | None => None
  | Some PStop => Some (p <| pr_hand := None |> <| pr_committing := false |>)
  | Some (PFence boot reason) =>
      Some (p <| pr_hand := None |>
              <| pr_coordinator := apply_fence now later boot reason (pr_coordinator p) |>)
  | Some (PMutation request slot) =>
      let '(c, result) := apply_and_commit now request (pr_coordinator p) in
      Some (p <| pr_hand := None |> <| pr_coordinator := c |>
              <| pr_slots := <[slot := Some result]> (pr_slots p) |>)
  end.

(** ** Start *)

(** The answers of the environment to [start]: whether the socket library
    initializes, what the store loads, and the clock. *)
Record StartInput := MkStart {
  si_sockets : bool;
  si_load : option LoadOutcome;
  si_now : Timestamp
}.

(** [load_durable_state]: the recovered state becomes canonical and the derived
    indexes are invalidated. *)
Definition loaded (input : StartInput) (c : Coordinator) : Coordinator :=
  touch_state (set_canonical (fst (load_durable_state (co_config c) (si_load input) (si_now input))) c).

(** [ClusterCoordinator::start]: the guards, and the launch of the commit
    thread. *)
Definition start_refusal (input : StartInput) (p : Process) : option ProtocolStatus :=
  if pr_joinable p || pr_accepting p then Some Wire_AlreadyRunning else
  if negb (si_sockets input) then Some Wire_IoError else None.

Definition start_launch (input : StartInput) (p : Process) : option Process :=
  if decide (pr_owner p = Own_Idle) then
    match start_refusal input p with
    | Some _ => Some p
    | None =>
        Some (p <| pr_coordinator := loaded input (pr_coordinator p) |>
                <| pr_stopping := false |> <| pr_committing := true |> <| pr_joinable := true |>
                <| pr_running := true |> <| pr_owner := Own_Starting |>)
    end
  else None.

(** The listener: without one the commit thread is told to stop. *)
Definition start_listen (listens : bool) (p : Process) : option Process :=
  if decide (pr_owner p = Own_Starting) then
    Some (if listens then p <| pr_accepting := true |> <| pr_owner := Own_Idle |>
          else push_back PStop (p <| pr_stopping := true |> <| pr_owner := Own_StartFailed |>))
  else None.

(** [commit_thread.join] of a start that failed. *)
Definition start_failed_join (p : Process) : option Process :=
  if decide (pr_owner p = Own_StartFailed) then
    if pr_committing p then None
    else Some (p <| pr_joinable := false |> <| pr_owner := Own_Idle |>)
  else None.

(** ** Stop *)

(** [stop] publishes the flag, clears [running] and closes the listener. *)
Definition stop_flag (p : Process) : option Process :=
  if decide (pr_owner p = Own_Idle) then
    Some (p <| pr_stopping := true |> <| pr_running := false |> <| pr_accepting := false |>
            <| pr_owner := Own_StopFlagged |>)
  else None.

(** With the sessions gone it queues the stop item. *)
Definition stop_queue (p : Process) : option Process :=
  if decide (pr_owner p = Own_StopFlagged) then
    Some (push_back PStop (p <| pr_stopping := true |> <| pr_owner := Own_StopQueued |>))
  else None.

Definition drained (request : MutationRequest) : MutationResult :=
  rejected Rej_ShuttingDown ES_Commit (id_value (rq_cluster request))
    "coordinator stopped before the mutation was processed" "shutting_down".

Definition drain_item (slots : gmap nat (option MutationResult)) (item : Pending) :
    gmap nat (option MutationResult) :=
  match item with
  | PMutation request slot => <[slot := Some (drained request)]> slots
  | _ => slots
  end.

(** It joins the commit thread and answers what is left in the queue. *)
Definition stop_join (p : Process) : option Process :=
  if decide (pr_owner p = Own_StopQueued) then
    if pr_joinable p && pr_committing p then None
    else Some (p <| pr_joinable := false |> <| pr_queue := [] |>
                 <| pr_slots := foldl drain_item (pr_slots p) (pr_queue p) |>
                 <| pr_owner := Own_Idle |>)
  else None.

(** ** Runs *)

(** What can happen to a coordinator. *)
Inductive Event :=
  | Ev_Launch (input : StartInput)
  | Ev_Listen (listens : bool)
  | Ev_Submit (request : MutationRequest)
  | Ev_Fence (boot : RackAgentBootId) (reason : string)
  | Ev_Take
  | Ev_Apply (now later : Timestamp)
  | Ev_StartFailedJoin
  | Ev_StopFlag
  | Ev_StopQueue
  | Ev_StopJoin.

Definition perform (e : Event) (p : Process) : option Process :=
  match e with
  | Ev_Launch input => start_launch input p
  | Ev_Listen listens => start_listen listens p
  | Ev_Submit request => Some (fst (submit request p))
  | Ev_Fence boot reason => Some (fst (fence_boot boot reason p))
  | Ev_Take => commit_take p
  | Ev_Apply now later => commit_apply now later p
  | Ev_StartFailedJoin => start_failed_join p
  | Ev_StopFlag => stop_flag p
  | Ev_StopQueue => stop_queue p
  | Ev_StopJoin => stop_join p
  end.

Fixpoint run (events : list Event) (p : Process) : option Process :=
  match events with
  | [] => Some p
  | e :: events => p ← perform e p; run events p
  end.

(** The process [ClusterCoordinator]'s constructor builds. *)
Definition constructed (c : Coordinator) : Process :=
  MkProcess c [] None ∅ 0 false false false false false Own_Idle.
