(* ===== verification/ProcessProofs.v ===== *)
(** * The coordinator process serves its clients

    Whatever the interleaving of submitters, fences, the commit thread and the
    owner's [start] and [stop], the process behaves like one serial coordinator,
    and every submission is answered. *)

From S2P Require Import Prelude Identity Counter Taxonomy Evidence Types State.
From S2P Require Import Explain EngineBase Durable Commit Wire Scenario Process.

Local Open Scope nat_scope.

(** ** The serial specification *)

(** What happens to a serial coordinator: a mutation, a fence, or the load of a
    start, one after the other. *)
Inductive Op :=
  | Op_Mutation (now : Timestamp) (request : MutationRequest)
  | Op_Fence (now later : Timestamp) (boot : RackAgentBootId) (reason : string)
  | Op_Load (input : StartInput).

(** The coordinator after a list of operations, and the answers in order. *)
Fixpoint serial (ops : list Op) (c : Coordinator) : Coordinator * list MutationResult :=
  match ops with
  | [] => (c, [])
  | Op_Mutation now request :: ops =>
      let '(c, result) := apply_and_commit now request c in
      let '(c, results) := serial ops c in (c, result :: results)
  | Op_Fence now later boot reason :: ops => serial ops (apply_fence now later boot reason c)
  | Op_Load input :: ops => serial ops (loaded input c)
  end.

Lemma serial_app ops ops' c :
  serial (ops ++ ops') c =
  ((serial ops' (serial ops c).1).1, (serial ops c).2 ++ (serial ops' (serial ops c).1).2).
Proof.
  revert c. induction ops as [|o ops IH]; intros c; cbn [app serial].
  - cbn [fst snd app]. by destruct (serial ops' c).
  - destruct o; rewrite ?IH; try done. destruct (apply_and_commit _ _ _) as [c' r].
    rewrite IH. by destruct (serial ops c').
Qed.

(** ** The invariant of the process *)

(** The items not yet processed, in the order the commit thread meets them. *)
Definition items (p : Process) : list Pending := option_list (pr_hand p) ++ pr_queue p.

Definition slot_of (item : Pending) : list nat :=
  match item with PMutation _ slot => [slot] | _ => [] end.

Definition is_stop (item : Pending) : bool := match item with PStop => true | _ => false end.

(** The slots of the pending mutations. *)
Definition pending_slots (p : Process) : list nat := items p ≫= slot_of.

(** The owner has not queued a stop item that could still be in the queue. *)
Definition no_stop_queued (o : Owner) : Prop :=
  match o with Own_Idle | Own_Starting | Own_StopFlagged => True | _ => False end.

Record inv (p : Process) : Prop := {
  inv_stop : ∃ work stops, items p = work ++ stops ∧ Forall (λ i, is_stop i = false) work ∧
    (stops = [] ∨ stops = [PStop] ∧ ¬ no_stop_queued (pr_owner p) ∧
                  (pr_owner p = Own_StartFailed → pr_committing p = true));
  inv_stopping : ¬ no_stop_queued (pr_owner p) → pr_stopping p = true;
  inv_flagged : pr_owner p = Own_StopFlagged → pr_stopping p = true;
  inv_starting : pr_owner p = Own_Starting → pr_running p = true ∧ pr_stopping p = false;
  inv_running : pr_running p = true → pr_stopping p = false → pr_committing p = true;
  inv_joinable : pr_committing p = true → pr_joinable p = true;
  inv_returned : pr_committing p = false → pr_hand p = None ∧ pending_slots p = []
}.

(** The serial history of a process that started from [c]. *)
Record linearized (c : Coordinator) (ops : list Op) (p : Process) : Prop := {
  lin_coordinator : pr_coordinator p = (serial ops c).1;
  lin_pending : pending_slots p =
    seq (length (serial ops c).2) (pr_next_slot p - length (serial ops c).2);
  lin_bound : length (serial ops c).2 ≤ pr_next_slot p;
  lin_slots : ∀ k, pr_slots p !! k =
    if decide (k < length (serial ops c).2) then Some ((serial ops c).2 !! k)
    else if decide (k < pr_next_slot p) then Some None else None
}.

(** ** One event *)

Lemma items_push_back i p : items (push_back i p) = items p ++ [i].
Proof. unfold items, push_back. cbn. by rewrite app_assoc. Qed.

Lemma pending_push_back i p : pending_slots (push_back i p) = pending_slots p ++ slot_of i.
Proof.
  unfold pending_slots. rewrite items_push_back, bind_app. cbn. by rewrite app_nil_r.
Qed.

Lemma items_ext p p' : pr_hand p' = pr_hand p → pr_queue p' = pr_queue p → items p' = items p.
Proof. unfold items. by intros -> ->. Qed.

Lemma take_items p p' : commit_take p = Some p' → items p' = items p.
Proof.
  unfold commit_take, items. destruct (pr_committing p); [|done]. cbn [negb].
  destruct (pr_hand p) eqn:Eh; [done|].
  destruct (pr_queue p) as [|i q] eqn:Eq.
  - destruct (pr_stopping p); intros [= <-]. cbn. by rewrite Eh, Eq.
  - intros [= <-]. done.
Qed.

(** Submissions: what an accepted one needs, and what it does. *)
Lemma submit_spec request p :
  fst (submit request p) = p ∨
  pr_running p = true ∧ pr_stopping p = false ∧
  fst (submit request p) =
    push_back (PMutation request (pr_next_slot p))
      (p <| pr_slots := <[pr_next_slot p := None]> (pr_slots p) |>
         <| pr_next_slot := S (pr_next_slot p) |>).
Proof.
  unfold submit, submit_refusal.
  destruct (pr_running p) eqn:Er, (pr_stopping p) eqn:Es; cbn; try by left.
  destruct (_ <=? _)%N; [by left|by right].
Qed.

Lemma fence_spec boot reason p :
  fst (fence_boot boot reason p) = p ∨
  pr_stopping p = false ∧ fst (fence_boot boot reason p) = push_back (PFence boot reason) p.
Proof. unfold fence_boot. destruct (pr_stopping p); [by left|by right]. Qed.

Lemma idle_when_open p : inv p → pr_stopping p = false → no_stop_queued (pr_owner p).
Proof.
  intros H Hs. pose proof (inv_stopping _ H) as Hq.
  destruct (pr_owner p) eqn:E; cbn in *; try done; rewrite Hs in Hq; by specialize (Hq id).
Qed.

(** Without a stop item, the items are work only. *)
Lemma all_work p :
  inv p → no_stop_queued (pr_owner p) → Forall (λ i, is_stop i = false) (items p).
Proof.
  intros [(work&stops&->&Hw&[->|(_&Hn&_)]) _ _ _ _ _ _] Ho; [|done]. by rewrite app_nil_r.
Qed.

(** Queueing work while the process is open. *)
Lemma inv_push_work i p :
  inv p → is_stop i = false → (slot_of i ≠ [] → pr_running p = true) → pr_stopping p = false →
  inv (push_back i p).
Proof.
  intros H Hi Hr Hs. pose proof (idle_when_open _ H Hs) as Ho. pose proof (all_work _ H Ho) as Hw.
  destruct H as [_ H2 H3 Hst H4 H5 H6]. split; try done.
  - exists (items p ++ [i]), []. rewrite items_push_back, app_nil_r.
    split_and!; [done| |by left]. apply Forall_app_2; [done|by constructor].
  - intros Hc. destruct (H6 Hc) as [Hh Hp]. split; [done|]. rewrite pending_push_back, Hp.
    destruct (slot_of i) eqn:Es; [done|]. change (pr_committing p = false) in Hc.
    rewrite H4 in Hc; [done|by apply Hr|done].
Qed.

(** Slots are no part of the invariant. *)
Lemma inv_slots p slots next :
  inv p → inv (p <| pr_slots := slots |> <| pr_next_slot := next |>).
Proof. intros [H1 H2 H3 Hst H4 H5 H6]. by split. Qed.

Lemma inv_submit request p : inv p → inv (fst (submit request p)).
Proof.
  intros H. destruct (submit_spec request p) as [->|(Hr&Hs&->)]; [done|].
  by apply inv_push_work; [apply inv_slots| | |].
Qed.

Lemma inv_fence boot reason p : inv p → inv (fst (fence_boot boot reason p)).
Proof.
  intros H. destruct (fence_spec boot reason p) as [->|(Hs&->)]; [done|].
  by apply inv_push_work.
Qed.

Lemma inv_take p p' : inv p → commit_take p = Some p' → inv p'.
Proof.
  intros [H1 H2 H3 Hst H4 H5 H6] Ht. pose proof (take_items _ _ Ht) as Ei.
  unfold commit_take in Ht. destruct (pr_committing p) eqn:Ec; [|done]. cbn [negb] in Ht.
  destruct (pr_hand p) eqn:Eh; [done|]. destruct (pr_queue p) as [|i q] eqn:Eq.
  - destruct (pr_stopping p) eqn:Es; [|done]. injection Ht as <-.
    assert (En : items p = []) by (unfold items; by rewrite Eh, Eq).
    split; cbn; try done; try (by rewrite Es).
    + exists [], []. rewrite Ei, En. split_and!; [done..|by left].
    + intros _. split; [done|]. unfold pending_slots. by rewrite Ei, En.
  - injection Ht as <-. split; [|cbn; rewrite ?Ec; done..].
    destruct H1 as (work&stops&E&Hw&Hs). exists work, stops. rewrite Ei.
    split_and!; [done..|]. destruct Hs as [->|(->&Hn&Hc)]; [by left|right].
    split_and!; [done..|]. intros _. exact Ec.
Qed.

(** Processing removes the first item. *)
Lemma apply_items now later p p' :
  commit_apply now later p = Some p' →
  pr_committing p = true ∧ ∃ i, pr_hand p = Some i ∧ items p = i :: items p' ∧ pr_hand p' = None ∧
    pr_committing p' = negb (is_stop i) ∧ pr_owner p' = pr_owner p ∧
    pr_stopping p' = pr_stopping p ∧ pr_running p' = pr_running p ∧
    pr_joinable p' = pr_joinable p ∧ pr_next_slot p' = pr_next_slot p.
Proof.
  unfold commit_apply, items. destruct (pr_committing p) eqn:Ec; [|done]. cbn [negb].
  destruct (pr_hand p) as [i|]; [|done]. intros H. split; [done|]. exists i.
  destruct i; [destruct (apply_and_commit _ _ _)| |]; injection H as <-; cbn; by rewrite ?Ec.
Qed.

Lemma inv_apply now later p p' : inv p → commit_apply now later p = Some p' → inv p'.
Proof.
  intros [(work&stops&E&Hw&Hs) H2 H3 Hst H4 H5 H6] Ha.
  destruct (apply_items _ _ _ _ Ha) as (Hc&i&Hh&Ei&Hh'&Hc'&Eo&Es&Er&Ej&_).
  assert (Hsplit : if is_stop i then items p' = [] ∧ ¬ no_stop_queued (pr_owner p) else
    ∃ work', items p' = work' ++ stops ∧ Forall (λ i, is_stop i = false) work').
  { rewrite E in Ei. destruct work as [|w work]; cbn [app] in Ei.
    - destruct Hs as [->|(->&Hn&_)]; [done|]. by injection Ei as <- <-.
    - injection Ei as -> <-. apply Forall_cons in Hw as [-> Hw]. by exists work. }
  destruct (is_stop i) eqn:Ei'.
  - destruct Hsplit as [En Hn]. split; rewrite ?Eo, ?Es, ?Er, ?Ej, ?Hc'; try done.
    + exists [], []. rewrite En. split_and!; [done..|by left].
    + rewrite (H2 Hn). done.
    + intros _. split; [done|]. unfold pending_slots. by rewrite En.
  - destruct Hsplit as (work'&En&Hw'). split; rewrite ?Eo, ?Es, ?Er, ?Ej, ?Hc'; try done.
    + exists work', stops. rewrite ?Hc in Hs. by rewrite ?Hc'.
    + intros _. by apply H5.
Qed.

Lemma inv_launch input p p' : inv p → start_launch input p = Some p' → inv p'.
Proof.
  intros H. unfold start_launch. destruct (decide _) as [Eo|]; [|done].
  destruct (start_refusal input p); intros [= <-]; [done|].
  split; try done. exists (items p), []. rewrite app_nil_r.
  split_and!; [done|apply all_work; [done|by rewrite Eo]|by left].
Qed.

(** Queueing the stop item. *)
Lemma inv_push_stop p owner :
  inv p → no_stop_queued (pr_owner p) → ¬ no_stop_queued owner →
  (owner = Own_StartFailed → pr_committing p = true) →
  inv (push_back PStop (p <| pr_stopping := true |> <| pr_owner := owner |>)).
Proof.
  intros H Ho Hn Hc. pose proof (all_work p H Ho) as Hw. destruct H as [_ H2 H3 Hst H4 H5 H6].
  split; try done.
  - exists (items p), [PStop]. rewrite items_push_back. split_and!; [done..|]. by right.
  - cbn. intros E. by rewrite E in Hn.
  - intros E. rewrite pending_push_back, app_nil_r. by apply H6.
Qed.

Lemma inv_listen listens p p' : inv p → start_listen listens p = Some p' → inv p'.
Proof.
  intros H. unfold start_listen. destruct (decide _) as [Eo|]; [|done].
  pose proof (all_work p H) as Hw. rewrite Eo in Hw. specialize (Hw I).
  destruct listens; intros [= <-].
  - destruct H as [_ H2 H3 Hst H4 H5 H6]. split; try done.
    exists (items p), []. rewrite app_nil_r. split_and!; [done..|by left].
  - apply inv_push_stop; [done|by rewrite Eo|tauto|]. intros _.
    destruct (inv_starting _ H Eo). by apply inv_running.
Qed.

Lemma inv_failed_join p p' : inv p → start_failed_join p = Some p' → inv p'.
Proof.
  intros [(work&stops&E&Hw&Hs) H2 H3 Hst H4 H5 H6]. unfold start_failed_join.
  destruct (decide _) as [Eo|]; [|done]. destruct (pr_committing p) eqn:Ec; [done|].
  intros [= <-]. split; try done; cbn; rewrite ?Ec; try done.
  exists work, stops. split_and!; [done..|]. destruct Hs as [->|(_&_&Hc)]; [by left|].
  by specialize (Hc Eo).
Qed.

Lemma inv_stop_flag p p' : inv p → stop_flag p = Some p' → inv p'.
Proof.
  intros H. unfold stop_flag. destruct (decide _) as [Eo|]; [|done].
  pose proof (all_work p H) as Hw. rewrite Eo in Hw. specialize (Hw I).
  destruct H as [_ H2 H3 Hst H4 H5 H6]. intros [= <-]. split; try done.
  exists (items p), []. rewrite app_nil_r. split_and!; [done..|by left].
Qed.

Lemma inv_stop_queue p p' : inv p → stop_queue p = Some p' → inv p'.
Proof.
  intros H. unfold stop_queue. destruct (decide _) as [Eo|]; [|done]. intros [= <-].
  apply inv_push_stop; [done|by rewrite Eo|tauto|done].
Qed.

(** When [stop] joins, no mutation is left in the queue. *)
Lemma join_idle p : inv p → pr_joinable p && pr_committing p = false →
  pr_committing p = false ∧ pr_hand p = None ∧ pending_slots p = [].
Proof.
  intros H Hj. assert (Hc : pr_committing p = false).
  { destruct (pr_committing p) eqn:E; [|done]. by rewrite (inv_joinable _ H E) in Hj. }
  split; [done|]. by apply inv_returned.
Qed.

Lemma inv_stop_join p p' : inv p → stop_join p = Some p' → inv p'.
Proof.
  intros H. unfold stop_join. destruct (decide _) as [Eo|]; [|done].
  destruct (pr_joinable p && pr_committing p) eqn:Ej; [done|]. intros [= <-].
  destruct (join_idle p H Ej) as (Hc&Hh&_). destruct H as [_ H2 H3 Hst H4 H5 H6].
  split; unfold pending_slots, items; cbn; rewrite ?Hc, ?Hh; try done.
  - exists [], []. split_and!; [done..|by left].
  - by rewrite Hc in H4.
Qed.

#[local] Hint Resolve inv_launch inv_listen inv_failed_join inv_stop_flag inv_stop_queue inv_stop_join
  inv_take inv_apply : process.

Lemma inv_perform e p p' : inv p → perform e p = Some p' → inv p'.
Proof.
  intros H. destruct e; cbn [perform]; eauto with process.
  - intros [= <-]. by apply inv_submit.
  - intros [= <-]. by apply inv_fence.
Qed.

Lemma inv_constructed c : inv (constructed c).
Proof. split; try done. exists [], []. split_and!; [done..|by left]. Qed.

(** ** The serial history *)

Lemma take_unchanged p p' : commit_take p = Some p' →
  pr_coordinator p' = pr_coordinator p ∧ pr_slots p' = pr_slots p ∧ pr_next_slot p' = pr_next_slot p.
Proof.
  unfold commit_take. destruct (pr_committing p); [|done]. cbn [negb].
  destruct (pr_hand p); [done|]. destruct (pr_queue p).
  - by destruct (pr_stopping p); intros [= <-].
  - by intros [= <-].
Qed.

(** Events that touch no slot keep the history. *)
Lemma linearized_ext c ops p p' :
  linearized c ops p → pr_coordinator p' = pr_coordinator p → pending_slots p' = pending_slots p →
  pr_slots p' = pr_slots p → pr_next_slot p' = pr_next_slot p → linearized c ops p'.
Proof.
  intros [H1 H2 H3 H4] E1 E2 E3 E4. split; [congruence..|].
  intros k. rewrite E3, E4. apply H4.
Qed.

Lemma linearized_submit c ops request p :
  linearized c ops p → linearized c ops (fst (submit request p)).
Proof.
  intros H. destruct (submit_spec request p) as [->|(_&_&->)]; [done|].
  destruct H as [H1 H2 H3 H4]. split; try done; cbn [push_back pr_next_slot upd].
  - rewrite pending_push_back.
    change (pending_slots _) with (pending_slots p) at 1. cbn [slot_of]. rewrite H2.
    cbn. rewrite Nat.sub_succ_l by done. rewrite seq_S. do 2 f_equal. lia.
  - cbn. lia.
  - intros k. cbn. destruct (decide (k = pr_next_slot p)) as [->|Hk].
    + rewrite lookup_insert_eq, decide_False by lia. by rewrite decide_True by lia.
    + rewrite lookup_insert_ne by done. rewrite H4. repeat case_decide; try done; lia.
Qed.

Lemma linearized_answer c ops now later request slot p p' :
  linearized c ops p → pr_hand p = Some (PMutation request slot) →
  commit_apply now later p = Some p' →
  linearized c (ops ++ [Op_Mutation now request]) p'.
Proof.
  intros [H1 H2 H3 H4] Hh Ha'.
  destruct (apply_items _ _ _ _ Ha') as (_&i&Hi&Ei&_&_&_&_&_&_&En). rewrite Hh in Hi.
  injection Hi as <-.
  assert (Hp : pending_slots p = slot :: pending_slots p')
    by (unfold pending_slots; by rewrite Ei).
  unfold commit_apply in Ha'. destruct (pr_committing p); [|done]. rewrite Hh in Ha'. cbn [negb] in Ha'.
  destruct (apply_and_commit now request (pr_coordinator p)) as [c' result] eqn:Ec.
  assert (E : (serial (ops ++ [Op_Mutation now request]) c) = (c', (serial ops c).2 ++ [result])).
  { rewrite serial_app, <-H1. cbn. by rewrite Ec. }
  rewrite Hp in H2. set (n := length (serial ops c).2) in *.
  destruct (pr_next_slot p - n) as [|m] eqn:Em; [done|]. injection H2 as Hs H2.
  injection Ha' as <-. split; rewrite ?E; cbn [fst snd]; rewrite ?length_app; fold n; cbn [length].
  - done.
  - rewrite H2. cbn. f_equal; lia.
  - cbn. lia.
  - intros k. cbn. rewrite Hs. destruct (decide (k = n)) as [->|Hk].
    + rewrite lookup_insert_eq, decide_True by lia. by rewrite lookup_app_r, Nat.sub_diag.
    + rewrite lookup_insert_ne by done. rewrite H4.
      destruct (decide (k < n)) as [Hlt|Hge].
      * rewrite decide_True by lia. by rewrite lookup_app_l.
      * rewrite (decide_False (P := k < n + 1)) by lia. done.
Qed.

Lemma linearized_apply c ops now later p p' :
  linearized c ops p → commit_apply now later p = Some p' → ∃ more, linearized c (ops ++ more) p'.
Proof.
  intros H Ha. destruct (apply_items _ _ _ _ Ha) as (Hc&i&Hh&Ei&_&_&_&_&_&_&En).
  destruct i as [request slot|boot reason|].
  - exists [Op_Mutation now request]. eapply linearized_answer; eauto.
  - exists [Op_Fence now later boot reason]. destruct H as [H1 H2 H3 H4].
    assert (E : serial (ops ++ [Op_Fence now later boot reason]) c =
                (apply_fence now later boot reason (pr_coordinator p), (serial ops c).2)).
    { rewrite serial_app, <-H1. cbn. by rewrite app_nil_r. }
    assert (Hp : pending_slots p' = pending_slots p) by (unfold pending_slots; by rewrite Ei).
    unfold commit_apply in Ha. rewrite Hc, Hh in Ha. injection Ha as <-.
    split; rewrite ?E; cbn [fst snd]; try done. by rewrite Hp.
  - exists []. rewrite app_nil_r. assert (Hp : pending_slots p' = pending_slots p) by (unfold pending_slots; by rewrite Ei).
    unfold commit_apply in Ha. rewrite Hc, Hh in Ha. injection Ha as <-.
    by apply (linearized_ext c ops p).
Qed.

Lemma linearized_launch c ops input p p' :
  linearized c ops p → start_launch input p = Some p' → ∃ more, linearized c (ops ++ more) p'.
Proof.
  intros H. unfold start_launch. destruct (decide _); [|done].
  destruct (start_refusal input p); intros [= <-]; [by exists []; rewrite app_nil_r|].
  exists [Op_Load input]. destruct H as [H1 H2 H3 H4].
  assert (E : serial (ops ++ [Op_Load input]) c = (loaded input (pr_coordinator p), (serial ops c).2)).
  { rewrite serial_app, <-H1. cbn. by rewrite app_nil_r. }
  split; rewrite ?E; cbn [fst snd]; done.
Qed.

(** The drain of [stop] finds no mutation. *)
Lemma drain_nothing queue slots : queue ≫= slot_of = [] → foldl drain_item slots queue = slots.
Proof.
  revert slots. induction queue as [|i queue IH]; intros slots; [done|].
  destruct i; cbn; [done|apply IH..].
Qed.

Lemma linearized_stop_join c ops p p' :
  inv p → linearized c ops p → stop_join p = Some p' → linearized c ops p'.
Proof.
  intros Hi H. unfold stop_join. destruct (decide _); [|done].
  destruct (pr_joinable p && pr_committing p) eqn:Ej; [done|]. intros [= <-].
  destruct (join_idle p Hi Ej) as (_&Hh&Hp).
  apply (linearized_ext c ops p); [done..| | |done].
  - rewrite Hp. unfold pending_slots, items. cbn. by rewrite Hh.
  - cbn. apply drain_nothing. unfold pending_slots, items in Hp. by rewrite Hh in Hp.
Qed.

Lemma linearized_perform c ops e p p' :
  inv p → linearized c ops p → perform e p = Some p' → ∃ more, linearized c (ops ++ more) p'.
Proof.
  intros Hi H.
  assert (Hn : linearized c ops p' → ∃ more, linearized c (ops ++ more) p')
    by (exists []; by rewrite app_nil_r).
  destruct e; cbn [perform]; intros Hp.
  - by eapply linearized_launch.
  - apply Hn. unfold start_listen in Hp. destruct (decide _); [|done].
    destruct listens; injection Hp as <-; apply (linearized_ext c ops p); try done.
    by rewrite pending_push_back, app_nil_r.
  - injection Hp as <-. apply Hn. by apply linearized_submit.
  - injection Hp as <-. apply Hn. destruct (fence_spec boot reason p) as [->|(_&->)]; [done|].
    apply (linearized_ext c ops p); try done. by rewrite pending_push_back, app_nil_r.
  - apply Hn. destruct (take_unchanged _ _ Hp) as (?&?&?).
    apply (linearized_ext c ops p); try done. unfold pending_slots. by rewrite (take_items _ _ Hp).
  - by eapply linearized_apply.
  - apply Hn. unfold start_failed_join in Hp. destruct (decide _); [|done].
    destruct (pr_committing p); [done|]. injection Hp as <-. by apply (linearized_ext c ops p).
  - apply Hn. unfold stop_flag in Hp. destruct (decide _); [|done]. injection Hp as <-.
    by apply (linearized_ext c ops p).
  - apply Hn. unfold stop_queue in Hp. destruct (decide _); [|done]. injection Hp as <-.
    apply (linearized_ext c ops p); try done. by rewrite pending_push_back, app_nil_r.
  - apply Hn. by apply (linearized_stop_join c ops p).
Qed.

Lemma run_app events events' p : run (events ++ events') p = p' ← run events p; run events' p'.
Proof.
  revert p. induction events as [|e events IH]; intros p; cbn; [done|].
  destruct (perform e p); cbn; [apply IH|done].
Qed.

Lemma run_invariant c events : ∀ p,
  run events (constructed c) = Some p → inv p ∧ ∃ ops, linearized c ops p.
Proof.
  induction events as [|e events IH] using rev_ind; intros p.
  - intros [= <-]. split; [apply inv_constructed|]. exists []. split; try done.
  - rewrite run_app. destruct (run events _) as [q|]; [|done]. cbn. intros Hp.
    destruct (IH q eq_refl) as [Hi [ops Hl]]. destruct (perform e q) as [p'|] eqn:E; [|done].
    injection Hp as <-. split; [by eapply inv_perform|].
    destruct (linearized_perform _ _ _ _ _ Hi Hl E) as [more ?]. by exists (ops ++ more).
Qed.

(** ** The process is a serial coordinator *)


(** ** Every submission is answered *)

Definition is_apply (e : Event) : bool := match e with Ev_Apply _ _ => true | _ => false end.

(** How many items the commit thread processed in a run. *)
Definition applies (events : list Event) : nat := length (List.filter is_apply events).

(** The items before the mutation of a slot. *)
Definition waits (slot : nat) (before : list Pending) (p : Process) : Prop :=
  ∃ request after, items p = before ++ PMutation request slot :: after.

Lemma waiting_slot c ops p slot :
  linearized c ops p → slot < pr_next_slot p → slot_result slot p = None →
  ∃ before, waits slot before p.
Proof.
  intros [H1 H2 H3 H4] Hn Hs. unfold slot_result in Hs. rewrite H4 in Hs.
  assert (Hin : slot ∈ pending_slots p).
  { rewrite H2. apply elem_of_seq. destruct (decide (slot < length (serial ops c).2)) as [Hl|]; [|lia].
    apply lookup_lt_is_Some in Hl as [r Hr]. cbn in Hs. by rewrite Hr in Hs. }
  apply list_elem_of_bind in Hin as (i&Hi&Hin).
  destruct i as [request k| |]; cbn in Hi; try by apply not_elem_of_nil in Hi.
  apply list_elem_of_singleton in Hi as <-.
  apply list_elem_of_split in Hin as (before&after&E). by exists before, request, after.
Qed.

(** A waiting submission moves forward when an item is processed, and is never
    overtaken. *)
Lemma waits_perform e p p' slot before :
  inv p → perform e p = Some p' → waits slot before p →
  (if is_apply e then
     match before with [] => slot_result slot p' ≠ None | _ :: before' => waits slot before' p' end
   else waits slot before p').
Proof.
  intros Hi Hp (request&after&E).
  assert (Hk : items p' = items p → waits slot before p') by (intros Ei; exists request, after; by rewrite Ei).
  assert (Ha : ∀ i, items p' = items p ++ [i] → waits slot before p').
  { intros i Ei. exists request, (after ++ [i]). rewrite Ei, E. by rewrite <-app_assoc. }
  destruct e; cbn [perform is_apply] in *.
  - unfold start_launch in Hp. destruct (decide _); [|done].
    destruct (start_refusal input p); injection Hp as <-; by apply Hk.
  - unfold start_listen in Hp. destruct (decide _); [|done].
    destruct listens; injection Hp as <-; [by apply Hk|]. eapply Ha. by rewrite items_push_back.
  - injection Hp as <-. destruct (submit_spec request0 p) as [Eq|(_&_&Eq)]; rewrite Eq in *; [by apply Hk|].
    eapply Ha. by rewrite items_push_back.
  - injection Hp as <-. destruct (fence_spec boot reason p) as [Eq|(_&Eq)]; rewrite Eq in *; [by apply Hk|].
    eapply Ha. by rewrite items_push_back.
  - apply Hk. by apply take_items.
  - destruct (apply_items _ _ _ _ Hp) as (Hc&i&Hh&Ei&_). rewrite E in Ei.
    destruct before as [|b before]; injection Ei as ? Ei; subst i.
    + unfold commit_apply in Hp. rewrite Hc, Hh in Hp. cbn [negb] in Hp.
      destruct (apply_and_commit _ _ _). injection Hp as <-. unfold slot_result. cbn.
      by rewrite lookup_insert_eq.
    + by exists request, after.
  - unfold start_failed_join in Hp. destruct (decide _); [|done].
    destruct (pr_committing p); [done|]. injection Hp as <-. by apply Hk.
  - unfold stop_flag in Hp. destruct (decide _); [|done]. injection Hp as <-. by apply Hk.
  - unfold stop_queue in Hp. destruct (decide _); [|done]. injection Hp as <-.
    eapply Ha. by rewrite items_push_back.
  - unfold stop_join in Hp. destruct (decide _); [|done].
    destruct (pr_joinable p && pr_committing p) eqn:Ej; [done|].
    destruct (join_idle p Hi Ej) as (_&_&Hps). unfold pending_slots in Hps.
    rewrite E, bind_app in Hps. by destruct (before ≫= slot_of).
Qed.

(** The commit thread is never stuck while a submission waits. *)
Lemma waits_progress p slot before now later :
  inv p → waits slot before p →
  is_Some (commit_take p) ∨ is_Some (commit_apply now later p).
Proof.
  intros Hi (request&after&E).
  assert (Hc : pr_committing p = true).
  { destruct (pr_committing p) eqn:Hc; [done|]. destruct (inv_returned _ Hi Hc) as [_ Hp].
    unfold pending_slots in Hp. rewrite E, bind_app in Hp. by destruct (before ≫= slot_of). }
  unfold commit_take, commit_apply. rewrite Hc. cbn [negb].
  destruct (pr_hand p) as [[r k|b r|]|] eqn:Eh; [right..|left].
  - destruct (apply_and_commit _ _ _). by eexists.
  - by eexists.
  - by eexists.
  - unfold items in E. rewrite Eh in E. cbn in E. rewrite E. by destruct before; eexists.
Qed.

(** An answer is final. *)
Lemma answered_stays c ops e p p' slot result :
  inv p → linearized c ops p → perform e p = Some p' →
  slot_result slot p = Some result → slot_result slot p' = Some result.
Proof.
  intros Hi H Hp. destruct (linearized_perform c ops e p p' Hi H Hp) as [more [_ _ _ H']].
  destruct H as [_ _ _ H]. unfold slot_result. rewrite H, H', serial_app. cbn [snd].
  rewrite length_app. destruct (decide (slot < length (serial ops c).2)) as [Hl|]; [|by case_decide].
  rewrite decide_True by lia. by rewrite lookup_app_l.
Qed.

Lemma run_answers c ops more : ∀ p p' slot before,
  inv p → linearized c ops p → run more p = Some p' →
  (waits slot before p ∧ length before < applies more ∨ slot_result slot p ≠ None) →
  slot_result slot p' ≠ None.
Proof.
  revert ops. induction more as [|e more IH]; intros ops p p' slot before Hi Hl Hr Hw.
  - injection Hr as <-. cbn in Hw. destruct Hw as [[_ ?]|?]; [lia|done].
  - cbn in Hr. destruct (perform e p) as [q|] eqn:E; [|done]. cbn in Hr.
    destruct (linearized_perform c ops e p q Hi Hl E) as [ops' Hl'].
    pose proof (inv_perform _ _ _ Hi E) as Hi'.
    destruct Hw as [[Hw Ha]|Hd].
    + pose proof (waits_perform e p q slot before Hi E Hw) as Hq. unfold applies in Ha. cbn in Ha.
      destruct (is_apply e).
      * destruct before as [|b before].
        -- by apply (IH _ q p' slot [] Hi' Hl' Hr); right.
        -- apply (IH _ q p' slot before Hi' Hl' Hr). left. cbn in Ha. split; [done|].
           unfold applies. lia.
      * apply (IH _ q p' slot before Hi' Hl' Hr). by left.
    + apply (IH _ q p' slot before Hi' Hl' Hr). right.
      destruct (slot_result slot p) as [result|] eqn:Es; [|done].
      by rewrite (answered_stays c ops e p q slot result Hi Hl E Es).
Qed.

(** C14: every submission is answered.  While a queued submission waits, the
    commit thread can take a step; and in every continuation of the run, whatever
    else happens in it, shutdown included, the submission is answered as soon as
    the commit thread has processed the items that were ahead of it and it. *)
Theorem submission_answered c events p slot :
  run events (constructed c) = Some p → slot < pr_next_slot p → slot_result slot p = None →
  (∀ now later, is_Some (commit_take p) ∨ is_Some (commit_apply now later p)) ∧
  ∃ ahead, ahead < length (items p) ∧
    ∀ more p', run more p = Some p' → ahead < applies more → slot_result slot p' ≠ None.
Proof.
  intros [Hi [ops Hl]]%run_invariant Hn Hs.
  destruct (waiting_slot c ops p slot Hl Hn Hs) as [before Hw]. split.
  - intros now later. by apply (waits_progress p slot before).
  - exists (length before). split.
    + destruct Hw as (request&after&->). rewrite length_app. cbn. lia.
    + intros more p' Hr Ha. apply (run_answers c ops more p p' slot before); auto.
Qed.

(** ** Stopping *)

(** A step of the commit thread, and how many a run has. *)
Definition is_commit (e : Event) : bool := match e with Ev_Take | Ev_Apply _ _ => true | _ => false end.
Definition commit_steps (events : list Event) : nat := length (List.filter is_commit events).

(** The steps the commit thread has left once nothing more can be queued. *)
Definition work (p : Process) : nat :=
  2 * length (pr_queue p) + (if pr_hand p then 1 else 0) + (if pr_committing p then 1 else 0).

Lemma take_work p p' : commit_take p = Some p' → S (work p') ≤ work p ∧ pr_owner p' = pr_owner p.
Proof.
  unfold commit_take, work. destruct (pr_committing p) eqn:Ec; [|done]. cbn [negb].
  destruct (pr_hand p) eqn:Eh; [done|]. destruct (pr_queue p) as [|i q] eqn:Eq.
  - destruct (pr_stopping p); [|done]. intros [= <-]. cbn. rewrite Eq, Eh. split; [cbn; lia|done].
  - intros [= <-]. cbn. rewrite Ec. split; [lia|done].
Qed.

Lemma apply_work now later p p' :
  commit_apply now later p = Some p' → S (work p') ≤ work p ∧ pr_owner p' = pr_owner p.
Proof.
  unfold commit_apply, work. destruct (pr_committing p) eqn:Ec; [|done]. cbn [negb].
  destruct (pr_hand p) as [[request slot|boot reason|]|]; [|intros [= <-]..|done].
  - destruct (apply_and_commit _ _ _) as [c r]. intros [= <-]. cbn. rewrite Ec. split; [lia|done].
  - cbn. rewrite Ec. split; [lia|done].
  - cbn. split; [lia|done].
Qed.

(** While [stop] waits only the commit thread acts, and it gets nearer its end. *)
Lemma stopping_step e p p' :
  inv p → pr_owner p = Own_StopQueued → perform e p = Some p' → e ≠ Ev_StopJoin →
  pr_owner p' = Own_StopQueued ∧ commit_steps [e] + work p' ≤ work p.
Proof.
  intros Hi Ho E He. assert (Hs : pr_stopping p = true) by (apply (inv_stopping p Hi); rewrite Ho; by intros []).
  destruct e; cbn [perform] in E; cbn [commit_steps List.filter is_commit length Nat.add];
    try by (unfold start_launch, start_listen, start_failed_join, stop_flag, stop_queue in E;
            rewrite decide_False in E by (by rewrite Ho)).
  - injection E as <-. unfold submit, submit_refusal. rewrite Hs.
    by destruct (pr_running p); cbn.
  - injection E as <-. unfold fence_boot. by rewrite Hs.
  - apply take_work in E as [? ->]. done.
  - apply apply_work in E as [? ->]. done.
  - done.
Qed.

Lemma stopping_run more : ∀ p p', inv p → pr_owner p = Own_StopQueued → run more p = Some p' →
  Ev_StopJoin ∉ more →
  inv p' ∧ pr_owner p' = Own_StopQueued ∧ commit_steps more + work p' ≤ work p.
Proof.
  induction more as [|e more IH]; intros p p' Hi Ho Hr Hn.
  - injection Hr as <-. done.
  - apply not_elem_of_cons in Hn as [He Hn]. cbn in Hr.
    destruct (perform e p) as [q|] eqn:E; [|done]. cbn in Hr.
    destruct (stopping_step e p q Hi Ho E (not_eq_sym He)) as [Ho' Hw].
    destruct (IH q p' (inv_perform _ _ _ Hi E) Ho' Hr Hn) as (?&?&?). split_and!; [done..|].
    change (e :: more) with ([e] ++ more). unfold commit_steps in *. rewrite List.filter_app, length_app. lia.
Qed.

(** [stop] returns or the commit thread has a step to take. *)
Lemma stopping_progress now later p :
  inv p → pr_owner p = Own_StopQueued →
  is_Some (stop_join p) ∨ is_Some (commit_take p) ∨ is_Some (commit_apply now later p).
Proof.
  intros Hi Ho. assert (Hs : pr_stopping p = true) by (apply (inv_stopping p Hi); rewrite Ho; by intros []).
  unfold stop_join. rewrite decide_True by done.
  destruct (pr_joinable p && pr_committing p) eqn:Ej; [|by left; eexists].
  apply andb_true_iff in Ej as [_ Ec]. right. unfold commit_take, commit_apply. rewrite Ec. cbn [negb].
  destruct (pr_hand p) as [[request slot|boot reason|]|].
  - right. destruct (apply_and_commit _ _ _). by eexists.
  - right. by eexists.
  - right. by eexists.
  - left. destruct (pr_queue p); [rewrite Hs|]; by eexists.
Qed.

Lemma joined_answers c ops p p' :
  inv p → linearized c ops p → stop_join p = Some p' →
  pr_committing p' = false ∧ items p' = [] ∧ pr_slots p' = pr_slots p ∧
  ∀ slot, slot < pr_next_slot p' → slot_result slot p' ≠ None.
Proof.
  intros Hi Hl Hj. pose proof (linearized_stop_join c ops p p' Hi Hl Hj) as Hl'.
  unfold stop_join in Hj. destruct (decide _); [|done].
  destruct (pr_joinable p && pr_committing p) eqn:Ej; [done|]. injection Hj as <-.
  destruct (join_idle p Hi Ej) as (Hc&Hh&Hp).
  assert (Hitems : items (p <| pr_joinable := false |> <| pr_queue := [] |>
     <| pr_slots := foldl drain_item (pr_slots p) (pr_queue p) |> <| pr_owner := Own_Idle |>) = [])
    by (unfold items; cbn; by rewrite Hh).
  split_and!; [done..| |].
  - cbn. apply drain_nothing. unfold pending_slots, items in Hp. by rewrite Hh in Hp.
  - intros slot Hn Hs. destruct (waiting_slot c ops _ slot Hl' Hn Hs) as (before&request&after&E).
    rewrite Hitems in E. by destruct before.
Qed.

(** C15: a stop returns and leaves nobody waiting.  Once [stop] has queued its
    item, the commit thread takes at most twice as many steps as there were items
    queued, and two more, whatever else is attempted meanwhile, and as long as
    [stop] cannot return the commit thread can take one.  When it returns, the
    commit thread has ended, every submission that was ever queued has been
    answered with the result of its mutation, and none was dropped unprocessed. *)
Theorem stop_answers_everyone c events p :
  run events (constructed c) = Some p → pr_owner p = Own_StopQueued →
  (∀ more p', run more p = Some p' → Ev_StopJoin ∉ more →
     commit_steps more ≤ 2 * length (pr_queue p) + 2 ∧
     ∀ now later,
       is_Some (stop_join p') ∨ is_Some (commit_take p') ∨ is_Some (commit_apply now later p')) ∧
  ∀ p', stop_join p = Some p' →
    pr_committing p' = false ∧ items p' = [] ∧ pr_slots p' = pr_slots p ∧
    ∀ slot, slot < pr_next_slot p' → slot_result slot p' ≠ None.
Proof.
  intros [Hi [ops Hl]]%run_invariant Ho. split.
  - intros more p' Hr Hn. destruct (stopping_run more p p' Hi Ho Hr Hn) as (Hi'&Ho'&Hw). split.
    + unfold work in Hw. destruct (pr_hand p), (pr_committing p); lia.
    + intros now later. by apply stopping_progress.
  - intros p'. by apply (joined_answers c ops).
Qed.

(** ** A concrete run *)

Definition demo_input : StartInput := MkStart true (Some (MkLoad PS_MissingFile None "")) t0.

(** A start, two submissions with a fence between them, one of them answered. *)
Definition demo_events : list Event :=
  [Ev_Launch demo_input; Ev_Submit declare; Ev_Listen true; Ev_Take; Ev_Fence boot_a "lost";
   Ev_Submit (register_rack rack_a boot_a); Ev_Apply t0 t0].

Definition demo_process : Process :=
  default (constructed Scenario.start) (run demo_events (constructed Scenario.start)).

Lemma run_demo : run demo_events (constructed Scenario.start) = Some demo_process.
Proof. unfold demo_process. by vm_compute. Qed.


Lemma submission_answered_witness :
  (∀ now later, is_Some (commit_take demo_process) ∨ is_Some (commit_apply now later demo_process)) ∧
  ∃ ahead, ahead < length (items demo_process) ∧
    ∀ more p', run more demo_process = Some p' → ahead < applies more → slot_result 1 p' ≠ None.
Proof.
  apply (submission_answered Scenario.start demo_events demo_process 1 run_demo).
  - apply Nat.ltb_lt. vm_compute. reflexivity.
  - vm_compute. reflexivity.
Defined.

(** The same run, stopped while items are pending. *)
Definition stop_events : list Event :=
  demo_events ++ [Ev_StopFlag; Ev_Take; Ev_Apply t0 t0; Ev_StopQueue].

Definition stopping_process : Process :=
  default (constructed Scenario.start) (run stop_events (constructed Scenario.start)).

Lemma stop_answers_everyone_witness :
  (∀ more p', run more stopping_process = Some p' → Ev_StopJoin ∉ more →
     commit_steps more ≤ 2 * length (pr_queue stopping_process) + 2 ∧
     ∀ now later,
       is_Some (stop_join p') ∨ is_Some (commit_take p') ∨ is_Some (commit_apply now later p')) ∧
  ∀ p', stop_join stopping_process = Some p' →
    pr_committing p' = false ∧ items p' = [] ∧ pr_slots p' = pr_slots stopping_process ∧
    ∀ slot, slot < pr_next_slot p' → slot_result slot p' ≠ None.
Proof.
  apply (stop_answers_everyone Scenario.start stop_events stopping_process).
  - by vm_compute.
  - by vm_compute.
Defined.
