(* ===== verification/Transport.v ===== *)
(** * The byte transport

    [receive_exact] and [send_all], and the reading of one frame, as the session
    loop of [src/coordinator_network.cpp] and the agent of [src/rack_agent.cpp]
    do it.  A socket is the list of what its reads will meet, in order. *)

From S2P Require Import Prelude Identity Counter Taxonomy Evidence Types State.
From S2P Require Import Explain Wire Codec WireStream WireRecords WireMessages Frame FrameProofs.

Local Open Scope nat_scope.

(** ** Receiving *)

(** What a poll and read of the socket meets: bytes that arrived together, an
    interruption that is retried, an error, or the stop flag.  The end of the list
    is the end of the stream. *)
Inductive Arrival :=
  | Ar_Bytes (data : bytes)
  | Ar_Interrupted
  | Ar_Error
  | Ar_Stopped.

Inductive TransferResult := Tr_Ok (data : bytes) | Tr_Closed | Tr_Error | Tr_Stopped.

(** What is left in the socket after [recv] took the front of a segment. *)
Definition unread (data : bytes) (rest : list Arrival) : list Arrival :=
  match data with [] => rest | _ => Ar_Bytes data :: rest end.

(** The loop of [receive_exact]: [received] is what it has so far.  [recv]
    returns at most what is asked for, and zero bytes only at the end. *)
Fixpoint receive_loop (count : nat) (received : bytes) (socket : list Arrival) :
    TransferResult * list Arrival :=
  if count <=? length received then (Tr_Ok received, socket) else
  match socket with
  | [] => (Tr_Closed, [])
  | Ar_Stopped :: rest => (Tr_Stopped, rest)
  | Ar_Error :: rest => (Tr_Error, rest)
  | Ar_Interrupted :: rest => receive_loop count received rest
  | Ar_Bytes data :: rest =>
      match data with
      | [] => (Tr_Closed, rest)
      | _ =>
          let wanted := count - length received in
          let received := received ++ take wanted data in
          if wanted <=? length data then (Tr_Ok received, unread (drop wanted data) rest)
          else receive_loop count received rest
      end
  end.

Definition receive_exact (count : nat) (socket : list Arrival) : TransferResult * list Arrival :=
  receive_loop count [] socket.

(** ** Sending *)

(** The answers of [send]: so many bytes, an interruption, or a failure. *)
Inductive SendAnswer := Sent (count : nat) | SendInterrupted | SendFailed.

(** [send_all]: what went out, and whether everything did.  When the answers run
    out the connection is gone. *)
Fixpoint send_all (answers : list SendAnswer) (data : bytes) : bytes * bool :=
  match data with
  | [] => ([], true)
  | _ =>
      match answers with
      | [] => ([], false)
      | SendInterrupted :: answers => send_all answers data
      | SendFailed :: _ | Sent 0 :: _ => ([], false)
      | Sent count :: answers =>
          let '(out, ok) := send_all answers (drop count data) in (take count data ++ out, ok)
      end
  end.

(** ** Reading a frame *)

(** How the reading of one frame ends. *)
Inductive FrameRead :=
  | FR_Frame (outcome : FrameOutcome)
  | FR_Header (result : TransferResult)
  | FR_Oversized
  | FR_Body (result : TransferResult).

(** The header first; when it declares a payload that has not arrived, the
    payload, and the whole again. *)
Definition read_frame (max_payload : N) (socket : list Arrival) : FrameRead * list Arrival :=
  match receive_exact (N.to_nat kFrameHeaderSize) socket with
  | (Tr_Ok header_bytes, socket) =>
      let frame := decode_frame header_bytes max_payload in
      if bool_decide (fo_status frame = Wire_TruncatedPayload) then
        let payload_length := hd_payload_length (fo_header frame) in
        if (max_payload <? payload_length)%N then (FR_Oversized, socket) else
        match receive_exact (N.to_nat payload_length) socket with
        | (Tr_Ok body, socket) =>
            (FR_Frame (decode_frame (header_bytes ++ body) max_payload), socket)
        | (result, socket) => (FR_Body result, socket)
        end
      else (FR_Frame frame, socket)
  | (result, socket) => (FR_Header result, socket)
  end.

(** ** Segmentation does not matter *)

(** The bytes of a socket that only delivers bytes and interruptions. *)
Fixpoint stream (socket : list Arrival) : option bytes :=
  match socket with
  | [] => Some []
  | Ar_Bytes data :: rest =>
      if bool_decide (data = []) then None else (data ++.) <$> stream rest
  | Ar_Interrupted :: rest => stream rest
  | Ar_Error :: _ | Ar_Stopped :: _ => None
  end.

Lemma stream_unread data rest s :
  stream rest = Some s → stream (unread data rest) = Some (data ++ s).
Proof. intros H. destruct data as [|c data]; cbn; [done|]. by rewrite H. Qed.

(** However the bytes were segmented, a read gets the first [count] of them. *)
Lemma receive_loop_spec count socket : ∀ received s,
  stream socket = Some s → length received ≤ count →
  count ≤ length received + length s →
  ∃ rest, receive_loop count received socket =
      (Tr_Ok (received ++ take (count - length received) s), rest) ∧
    stream rest = Some (drop (count - length received) s).
Proof.
  induction socket as [|a socket IH]; intros received s Hs Hle Hn; cbn [receive_loop].
  - injection Hs as <-. cbn in Hn. destruct (Nat.leb_spec count (length received)); [|lia].
    replace (count - length received) with 0 by lia. exists []. by rewrite app_nil_r.
  - destruct (Nat.leb_spec count (length received)).
    { replace (count - length received) with 0 by lia. exists (a :: socket).
      by rewrite take_0, app_nil_r, drop_0. }
    destruct a as [data| | |]; cbn [stream] in Hs; try done; [|by apply IH].
    destruct data as [|c data]; [done|]. rewrite bool_decide_false in Hs by done.
    destruct (stream socket) as [s'|] eqn:Es; [|done]. injection Hs as <-.
    set (d := c :: data) in *. change (c :: data ++ s') with (d ++ s') in *.
    set (wanted := count - length received) in *.
    destruct (Nat.leb_spec wanted (length d)).
    + exists (unread (drop wanted d) socket). rewrite take_app_le, drop_app_le by done.
      split; [done|]. by apply stream_unread.
    + rewrite length_app in Hn.
      destruct (IH (received ++ take wanted d) s' eq_refl) as (rest&E&Er).
      { rewrite length_app, length_take. lia. }
      { rewrite length_app, length_take. lia. }
      exists rest. rewrite E. rewrite length_app, length_take.
      replace (count - (length received + wanted `min` length d)) with (wanted - length d) in * by lia.
      rewrite take_app_ge, drop_app_ge by lia. rewrite (take_ge d) in * by lia.
      rewrite app_assoc. split; [done|].
      rewrite Er. do 2 f_equal. rewrite length_app. lia.
Qed.

(** A frame within two bounds is the same under both. *)
Lemma encode_frame_bound type sequence payload flags m max :
  (size payload <= bounded_payload m)%N → (size payload <= bounded_payload max)%N →
  encode_frame type sequence payload flags m = encode_frame type sequence payload flags max.
Proof.
  intros Hm Hx. rewrite !encode_frame_eq.
  destruct (N.ltb_spec (bounded_payload m) (size payload)); [lia|].
  by destruct (N.ltb_spec (bounded_payload max) (size payload)); [lia|].
Qed.

(** The header of a frame on its own announces the payload to come. *)
Lemma decode_header_alone type sequence payload flags max :
  (sequence < 2 ^ 64)%N → (flags < 2 ^ 32)%N → (size payload <= bounded_payload max)%N →
  payload ≠ [] →
  let frame := decode_frame (take 28 (encode_frame type sequence payload flags max)) max in
  fo_status frame = Wire_TruncatedPayload ∧ hd_payload_length (fo_header frame) = size payload.
Proof.
  intros Hs Hf Hp Hne. cbv zeta. rewrite encode_frame_eq.
  destruct (N.ltb_spec (bounded_payload max) (size payload)) as [|_]; [lia|].
  unfold frame_bytes. set (head := header_bytes _ _ _ _). set (sum := crc32 _).
  assert (Hl : length (head ++ le_bytes 4 sum) = 28)
    by (rewrite length_app, length_le_bytes; unfold head; by rewrite length_header_bytes).
  rewrite (assoc_L (++)), take_app_exact by done.
  pose proof (bounded_payload_le max) as Hb. unfold kAbsoluteMaxFramePayloadBytes in Hb.
  pose proof (raw_type_lt type) as Ht. unfold kMaxMessageTypeRaw in Ht.
  assert (Hh : header_of (head ++ le_bytes 4 sum) =
    MkFrameHeader kProtocolMagic kProtocolVersion (raw type) flags sequence (size payload) sum).
  { pose proof (header_of_app (raw type) sequence flags (size payload) sum []) as E.
    rewrite app_nil_r in E. apply E; try lia. apply crc32_lt. }
  unfold decode_frame. unfold size at 1. rewrite Hl.
  rewrite read_frame_header_slices by (rewrite Hl; done). rewrite Hh. cbn [N.of_nat].
  change (N.of_nat 28 <? kFrameHeaderSize)%N with false. cbn iota.
  cbn [hd_magic hd_version hd_type hd_payload_length hd_checksum].
  rewrite !N.eqb_refl. cbn [negb].
  destruct (N.ltb_spec kMaxMessageTypeRaw (raw type mod 256)) as [Hbad|_].
  { rewrite N.mod_small in Hbad; unfold kMaxMessageTypeRaw in Hbad; lia. }
  destruct (N.ltb_spec (bounded_payload max) (size payload)) as [|_]; [lia|].
  rewrite drop_ge by (rewrite Hl; done). unfold remaining. cbn [br_rest reader_of].
  destruct (N.ltb_spec (size (A := ascii) []) (size payload)) as [_|Hz]; [done|].
  destruct payload; [done|]. unfold size in Hz. cbn in Hz. lia.
Qed.

(** The reader of a frame, whatever the segmentation. *)
Lemma read_frame_spec type sequence payload flags max rest socket :
  (sequence < 2 ^ 64)%N → (flags < 2 ^ 32)%N → (size payload <= bounded_payload max)%N →
  stream socket = Some (encode_frame type sequence payload flags max ++ rest) →
  ∃ socket', read_frame max socket = (FR_Frame (framed type sequence payload flags), socket') ∧
    stream socket' = Some rest.
Proof.
  intros Hs Hf Hp Hst.
  pose proof (decode_frame_bytes type sequence flags payload rest max Hs Hf Hp) as (_&_&_&Hsz).
  set (frame := encode_frame _ _ _ _ _) in *.
  assert (Hlen : length frame = 28 + length payload).
  { unfold size in Hsz. rewrite length_app in Hsz. lia. }
  destruct (receive_loop_spec 28 socket [] _ Hst) as (mid&E&Em); [cbn; lia| |].
  { cbn. rewrite length_app. lia. }
  change (28 - length (A := ascii) []) with 28 in *. rewrite take_app_le in E by lia.
  rewrite drop_app_le in Em by lia.
  unfold read_frame, receive_exact. change (N.to_nat kFrameHeaderSize) with 28. rewrite E.
  cbn [app]. destruct payload as [|c payload].
  - rewrite take_ge in * by (cbn in Hlen; lia). rewrite drop_ge in Em by (cbn in Hlen; lia).
    pose proof (decode_encode_frame type sequence [] flags max [] Hs Hf Hp) as D.
    rewrite app_nil_r in D. fold frame in D. rewrite D. by exists mid.
  - destruct (decode_header_alone type sequence (c :: payload) flags max Hs Hf Hp) as [Dt Dl]; [done|].
    fold frame in Dt, Dl. rewrite bool_decide_true by done. rewrite Dl.
    destruct (N.ltb_spec max (size (c :: payload))) as [Hbad|_].
    { unfold bounded_payload in Hp. destruct (_ <? max)%N eqn:Em'; [apply N.ltb_lt in Em'|]; lia. }
    set (pl := c :: payload) in *. assert (Hn : N.to_nat (size pl) = length pl) by (unfold size; lia).
    assert (Hd : length (drop 28 frame) = length pl) by (rewrite length_drop; lia).
    destruct (receive_loop_spec (length pl) mid [] _ Em) as (fin&E2&Ef); [cbn; lia| |].
    { rewrite length_app, Hd. change (length (A := ascii) []) with 0. lia. }
    change (length (A := ascii) []) with 0 in E2, Ef. rewrite Nat.sub_0_r in E2, Ef.
    rewrite take_app_le in E2 by lia. rewrite drop_app_le in Ef by lia.
    rewrite Hn, E2. cbn [app]. rewrite (take_ge (drop 28 frame)) by lia. rewrite take_drop.
    rewrite drop_ge in Ef by lia.
    pose proof (decode_encode_frame type sequence pl flags max [] Hs Hf Hp) as D.
    rewrite app_nil_r in D. fold frame in D. rewrite D. by exists fin.
Qed.

(** A frame is received however it travels.  From a socket that delivers the
    bytes of a frame within the bound followed by others, split into segments in
    any way and with any interruptions, the reader obtains exactly that frame and
    leaves exactly the bytes that follow it. *)
Theorem frame_received type sequence payload flags max rest socket :
  (sequence < 2 ^ 64)%N → (flags < 2 ^ 32)%N → (size payload <= bounded_payload max)%N →
  stream socket = Some (encode_frame type sequence payload flags max ++ rest) →
  ∃ socket', read_frame max socket = (FR_Frame (framed type sequence payload flags), socket') ∧
    stream socket' = Some rest.
Proof. apply read_frame_spec. Qed.

(** A frame cut in the middle of its header, with an interruption, and a byte of
    what follows in the second segment. *)
Definition demo_frame : bytes :=
  encode_frame Msg_Heartbeat 7 ["a"%char; "b"%char] 0 kMaxFramePayloadBytes.

Definition demo_socket : list Arrival :=
  [Ar_Bytes (take 10 demo_frame); Ar_Interrupted; Ar_Bytes (drop 10 demo_frame ++ ["z"%char])].

Lemma frame_received_witness :
  ∃ socket', read_frame kMaxFramePayloadBytes demo_socket =
      (FR_Frame (framed Msg_Heartbeat 7 ["a"%char; "b"%char] 0), socket') ∧
    stream socket' = Some ["z"%char].
Proof.
  apply (frame_received Msg_Heartbeat 7 ["a"%char; "b"%char] 0 kMaxFramePayloadBytes ["z"%char]
           demo_socket); try (vm_compute; done).
Defined.

(** What [send_all] puts on the wire is a prefix, and everything when it
    succeeds. *)
Lemma send_all_spec answers : ∀ data out ok,
  send_all answers data = (out, ok) → out `prefix_of` data ∧ (ok = true → out = data).
Proof.
  induction answers as [|a answers IH]; intros data out ok; (destruct data as [|c data];
    [by intros [= <- <-]|]); cbn [send_all].
  - intros [= <- <-]. split; [apply prefix_nil|done].
  - destruct a as [[|n]| |]; try by (intros [= <- <-]; split; [apply prefix_nil|done]).
    + destruct (send_all answers (drop (S n) (c :: data))) as [out' ok'] eqn:E. intros [= <- <-].
      destruct (IH _ _ _ E) as [Hp Ho]. split.
      * destruct Hp as [k Hk]. exists k. cbn [take]. rewrite <-(take_drop (S n) (c :: data)), Hk. cbn. by rewrite (assoc_L (++)).
      * intros Hok. rewrite (Ho Hok). exact (take_drop (S n) (c :: data)).
    + apply IH.
Qed.
