(* ===== verification/Session.v ===== *)
(** * Sessions

    [run_session], [send_frame], [detach_session], [run_accept] and
    [close_all_sessions] of [src/coordinator_network.cpp]: what the coordinator
    does with the frames of one peer, and the sessions of a process. *)

From S2P Require Import Prelude Identity Counter Taxonomy Evidence Types State Readiness Invariant.
From S2P Require Import Explain EngineBase EngineRack Commit Snapshot Wire Codec WireStream.
From S2P Require Import WireRecords WireMessages Frame Process Transport.

(** ** The messages a session answers with *)

(** The network fields of [CoordinatorConfig]. *)
Record NetConfig := MkNet {
  nc_max_sessions : N;
  nc_max_frame_payload : N;
  nc_fence_on_disconnect : bool
}.

Definition default_net : NetConfig := MkNet 1024 kMaxFramePayloadBytes true.

(** [detail::Session], with the locals of its loop: the number of the last frame
    sent and whether the handshake is done. *)
Record Session := MkSession {
  se_boot : option RackAgentBootId;
  se_racks : list RackId;
  se_stop : bool;
  se_sequence : N;
  se_handshake : bool
}.

#[global] Instance eta_Session : Eta Session := λ r,
  MkSession (se_boot r) (se_racks r) (se_stop r) (se_sequence r) (se_handshake r).
#[global] Instance upd_se_boot : Upd se_boot := ltac:(derive_upd).
#[global] Instance upd_se_racks : Upd se_racks := ltac:(derive_upd).
#[global] Instance upd_se_stop : Upd se_stop := ltac:(derive_upd).
#[global] Instance upd_se_sequence : Upd se_sequence := ltac:(derive_upd).
#[global] Instance upd_se_handshake : Upd se_handshake := ltac:(derive_upd).

Definition new_session : Session := MkSession None [] false 0 false.

(** What handling a message comes to: a reply, after which the loop goes on or
    not; a submission, with what answers its result; nothing; or an exception
    that leaves the session thread, which ends the process. *)
Inductive Action :=
  | Act_Reply (message : Payload) (go_on : bool)
  | Act_Submit (request : MutationRequest) (answer : MutationResult → ClusterState → Payload)
      (registers : option RackId)
  | Act_Nothing
  | Act_Terminate.

Definition protocol_error (stage : ErrorStage) (code message : string) : Payload :=
  P_Error (MkErrorMessage (error_make EC_Protocol stage code message)).

(** A default-constructed [MutationRequest] of a kind. *)
Definition blank_request (kind : MutationKind) : MutationRequest :=
  MkRequest kind no_id (MkAuthority no_ctr no_ctr no_ctr no_ctr None None None None no_ctr)
    stamp_unknown "" ts_unknown CL_Declared default_contract no_reference Mem_Unknown None None
    None None None None None None None None None None None None "" Health_Unknown Reach_Unknown
    "" [].

(** ** HELLO *)

Definition refused_hello (cluster : ClusterId) (reason : RejectionReason) (detail : string) :
    HelloAckMessage :=
  MkHelloAck kProtocolVersion cluster no_ctr no_ctr no_ctr no_ctr CL_Declared false reason detail.

Definition on_hello (cluster : ClusterId) (s : ClusterState) (payload : bytes) (session : Session) :
    Session * Action :=
  let refuse reason detail :=
    (session, Act_Reply (P_HelloAck (refused_hello cluster reason detail)) false) in
  match snd (decode_hello payload) with
  | None => refuse Rej_Malformed "HELLO payload is malformed"
  | Some hello =>
      if negb (he_protocol_version hello =? kProtocolVersion)%N then
        refuse Rej_Malformed "unsupported protocol version"
      else if decide (he_cluster hello ≠ cluster) then
        refuse Rej_WrongCluster "peer targets a different cluster"
      else
        (session <| se_boot := Some (he_boot hello) |> <| se_handshake := true |>,
         Act_Reply (P_HelloAck
           (MkHelloAck kProtocolVersion cluster (cs_coordinator_epoch s) (cs_epoch s)
              (cs_topology_epoch s) (cs_topology_generation s) (cs_lifecycle s) true Rej_None ""))
           true)
  end.

(** ** REGISTER_PUBLISHER *)

Definition register_request (now : Timestamp) (boot : option RackAgentBootId)
    (message_boot : RackAgentBootId) (m : RegisterPublisherMessage) : MutationRequest :=
  let a := rp_authority m in
  (blank_request MK_RegisterRackPublisher)
    <| rq_cluster := rp_cluster m |>
    <| rq_authority := MkAuthority (au_cluster_epoch a) (au_coordinator_epoch a)
         (au_topology_epoch a) (au_topology_generation a) boot (Some (rp_publisher m))
         (Some (rp_rack m)) (Some (rp_generation m)) (au_publication a) |>
    <| rq_rack_reference :=
         no_reference <| rr_rack := rp_rack m |> <| rr_generation := rp_generation m |>
           <| rr_rack_lifecycle := rp_rack_lifecycle m |> <| rr_composition := rp_composition m |>
           <| rr_origin_label := rp_origin_label m |> <| rr_publisher := Some (rp_publisher m) |>
           <| rr_boot := default message_boot boot |> <| rr_publication := au_publication a |> |>
    <| rq_evidence := stamp_make Prov_Reported now 0 |>
    <| rq_reason := "rack_publisher_registration" |>.

Definition register_answer (r : MutationResult) (_ : ClusterState) : Payload :=
  P_RegisterAck (MkRegisterAck (accepted r) (mr_reason r) (mr_coordinator_epoch r)
    (mr_cluster_epoch r) (mr_topology_epoch r) (mr_topology_generation r)
    (mr_membership_generation r) (ex_summary (mr_explanation r))).

(** [authority.boot.value()] is evaluated whatever the boot of the session is. *)
Definition on_register (now : Timestamp) (payload : bytes) (session : Session) : Action :=
  match snd (decode_register_publisher payload) with
  | None =>
      Act_Reply (P_RegisterAck (MkRegisterAck false Rej_Malformed no_ctr no_ctr no_ctr no_ctr no_ctr
        "REGISTER payload is malformed")) true
  | Some m =>
      match au_boot (rp_authority m) with
      | None => Act_Terminate
      | Some message_boot =>
          Act_Submit (register_request now (se_boot session) message_boot m) register_answer
            (Some (rp_rack m))
      end
  end.

(** ** The other requests *)

(** The boot of the session, when it has one, replaces the one of the request. *)
Definition with_session_boot (session : Session) (a : MutationAuthority) : MutationAuthority :=
  match se_boot session with
  | None => a
  | Some boot =>
      MkAuthority (au_cluster_epoch a) (au_coordinator_epoch a) (au_topology_epoch a)
        (au_topology_generation a) (Some boot) (au_publisher a) (au_rack a) (au_rack_generation a)
        (au_publication a)
  end.

Definition on_publish (payload : bytes) (session : Session) : Action :=
  match snd (decode_publish_request payload) with
  | None =>
      Act_Reply (P_PublishResult (MkPublishResult
        (rejected Rej_Malformed ES_Decode "request" "PUBLISH payload is malformed"
           "malformed_payload"))) true
  | Some m =>
      let request := pq_request m in
      Act_Submit (request <| rq_authority := with_session_boot session (rq_authority request) |>)
        (λ r _, P_PublishResult (MkPublishResult r)) None
  end.

Definition on_heartbeat (cluster : ClusterId) (s : ClusterState) (payload : bytes) : Action :=
  Act_Reply (P_HeartbeatAck
    match snd (decode_heartbeat payload) with
    | None => MkHeartbeatAck no_ctr no_ctr no_ctr CL_Declared false Rej_Malformed
                "HEARTBEAT payload is malformed"
    | Some m =>
        let ack := MkHeartbeatAck (cs_coordinator_epoch s) (cs_epoch s) (cs_topology_epoch s)
                     (cs_lifecycle s) in
        if decide (hb_cluster m ≠ cluster) then
          ack false Rej_WrongCluster "heartbeat targets a different cluster"
        else if decide (au_coordinator_epoch (hb_authority m) ≠ cs_coordinator_epoch s) then
          ack false Rej_StaleCoordinatorEpoch
            "heartbeat was authored under a superseded coordinator epoch"
        else if decide (au_cluster_epoch (hb_authority m) ≠ cs_epoch s) then
          ack false Rej_StaleClusterEpoch "heartbeat was authored under a superseded cluster epoch"
        else ack true Rej_None ""
    end) true.

Definition on_snapshot_request (cluster : ClusterId) (s : ClusterState) (payload : bytes) : Action :=
  let refuse reason detail := MkSnapshotResponse false reason detail (from_snapshot None) in
  Act_Reply (P_SnapshotResponse
    match snd (decode_snapshot_request payload) with
    | None => refuse Rej_Malformed "SNAPSHOT_REQUEST payload is malformed"
    | Some m =>
        if decide (sq_cluster m ≠ cluster) then
          refuse Rej_WrongCluster "snapshot request targets a different cluster"
        else MkSnapshotResponse true Rej_None "" (from_snapshot (Some (capture s)))
    end) true.

Definition on_validate_request (s : ClusterState) (payload : bytes) : Action :=
  Act_Reply (P_ValidateSnapshotResponse (MkValidateResponse
    match snd (decode_validate_request payload) with
    | None => MkWireValidation false false [] []
                (explanation_make "malformed_payload" "snapshot" "VALIDATE payload is malformed")
    | Some m => wire_validation (validate_view (tq_view m) s)
    end)) true.

Definition revalidate_request (now : Timestamp) (session : Session) (m : RevalidateRequestMessage) :
    MutationRequest :=
  (blank_request MK_RevalidateRecoveredState)
    <| rq_cluster := vq_cluster m |>
    <| rq_authority := with_session_boot session (vq_authority m) |>
    <| rq_racks := vq_racks m |>
    <| rq_evidence := stamp_make Prov_Reported now 0 |>.

(** The readiness of the response is evaluated after the mutation was
    answered. *)
Definition revalidate_answer (r : MutationResult) (s : ClusterState) : Payload :=
  P_RevalidateResponse (MkRevalidateResponse (accepted r) (mr_reason r)
    (ex_summary (mr_explanation r)) (mr_lifecycle r) (evaluate_readiness s)).

Definition on_revalidate (now : Timestamp) (payload : bytes) (session : Session) : Action :=
  match snd (decode_revalidate_request payload) with
  | None =>
      Act_Reply (P_RevalidateResponse (MkRevalidateResponse false Rej_Malformed
        "REVALIDATE payload is malformed" CL_Declared (MkEvaluation false CL_Declared []))) true
  | Some m => Act_Submit (revalidate_request now session m) revalidate_answer None
  end.

Definition on_shutdown (payload : bytes) (session : Session) : Session :=
  match snd (decode_shutdown payload) with
  | None => session
  | Some _ => session <| se_stop := true |>
  end.

Definition unknown_message : Action :=
  Act_Reply (protocol_error ES_Decode "unknown_message"
    "message type is not accepted by the coordinator") true.

(** The body of the loop once a frame was decoded: [type] is the raw message
    type of its header. *)
Definition dispatch (cluster : ClusterId) (now : Timestamp) (s : ClusterState) (type : N)
    (payload : bytes) (session : Session) : Session * Action :=
  if (type =? raw Msg_Hello)%N then on_hello cluster s payload session else
  if negb (se_handshake session) then
    (session, Act_Reply (protocol_error ES_ValidateAuthority "handshake_required"
       "HELLO must be the first message on a session") false) else
  match of_raw type with
  | Some Msg_RegisterPublisher => (session, on_register now payload session)
  | Some Msg_PublishRequest => (session, on_publish payload session)
  | Some Msg_Heartbeat => (session, on_heartbeat cluster s payload)
  | Some Msg_SnapshotRequest => (session, on_snapshot_request cluster s payload)
  | Some Msg_ValidateSnapshotRequest => (session, on_validate_request s payload)
  | Some Msg_RevalidateRequest => (session, on_revalidate now payload session)
  | Some Msg_Shutdown => (on_shutdown payload session, Act_Nothing)
  | _ => (session, unknown_message)
  end.

(** ** A session thread *)

(** Where the loop of [run_session] is: reading a frame, waiting in [submit] for
    a slot, or about to leave. *)
Inductive Phase :=
  | Ph_Reading
  | Ph_Waiting (slot : nat) (answer : MutationResult → ClusterState → Payload)
      (registers : option RackId)
  | Ph_Leaving.

(** [th_socket] is what the reads of the session will meet and [th_sent] what it
    put on the wire. *)
Record Thread := MkThread {
  th_session : Session;
  th_socket : list Arrival;
  th_sent : bytes;
  th_phase : Phase
}.

#[global] Instance eta_Thread : Eta Thread := λ r,
  MkThread (th_session r) (th_socket r) (th_sent r) (th_phase r).
#[global] Instance upd_th_session : Upd th_session := ltac:(derive_upd).
#[global] Instance upd_th_socket : Upd th_socket := ltac:(derive_upd).
#[global] Instance upd_th_sent : Upd th_sent := ltac:(derive_upd).
#[global] Instance upd_th_phase : Upd th_phase := ltac:(derive_upd).

Definition leave (th : Thread) : Thread := th <| th_phase := Ph_Leaving |>.

(** The network counters of the coordinator. *)
Record NetStats := MkNetStats {
  ns_sessions_opened : N;
  ns_sessions_closed : N;
  ns_frames_in : N;
  ns_frames_out : N;
  ns_bytes_in : N;
  ns_bytes_out : N;
  ns_snapshots_built : N
}.

#[global] Instance eta_NetStats : Eta NetStats := λ r,
  MkNetStats (ns_sessions_opened r) (ns_sessions_closed r) (ns_frames_in r) (ns_frames_out r)
    (ns_bytes_in r) (ns_bytes_out r) (ns_snapshots_built r).
#[global] Instance upd_ns_sessions_opened : Upd ns_sessions_opened := ltac:(derive_upd).
#[global] Instance upd_ns_sessions_closed : Upd ns_sessions_closed := ltac:(derive_upd).
#[global] Instance upd_ns_frames_in : Upd ns_frames_in := ltac:(derive_upd).
#[global] Instance upd_ns_frames_out : Upd ns_frames_out := ltac:(derive_upd).
#[global] Instance upd_ns_bytes_in : Upd ns_bytes_in := ltac:(derive_upd).
#[global] Instance upd_ns_bytes_out : Upd ns_bytes_out := ltac:(derive_upd).
#[global] Instance upd_ns_snapshots_built : Upd ns_snapshots_built := ltac:(derive_upd).

(** The payload bound of the reads. *)
Definition session_max_payload (net : NetConfig) : N :=
  let m := nc_max_frame_payload net in
  if (m =? 0)%N || (kAbsoluteMaxFramePayloadBytes <? m)%N then kMaxFramePayloadBytes else m.

(** [send_frame] with [++sequence]: [sends] tells whether the socket takes the
    bytes.  A frame beyond the configured bound is not sent. *)
Definition send_frame (net : NetConfig) (sends : bool) (message : Payload) (st : NetStats * Thread) :
    NetStats * Thread :=
  let '(stats, th) := st in
  let sequence := ((se_sequence (th_session th) + 1) mod 2 ^ 64)%N in
  let th := th <| th_session := (th_session th) <| se_sequence := sequence |> |> in
  let frame := encode_frame (payload_type message) sequence (encode_payload message) 0
                 (nc_max_frame_payload net) in
  if bool_decide (frame = []) || negb sends then (stats, th) else
  (stats <| ns_frames_out := (ns_frames_out stats + 1)%N |>
         <| ns_bytes_out := (ns_bytes_out stats + size frame)%N |>,
   th <| th_sent := th_sent th ++ frame |>).

(** The answer to a submission: an accepted registration is remembered. *)
Definition finish_submit (net : NetConfig) (sends : bool) (result : MutationResult)
    (answer : MutationResult → ClusterState → Payload) (registers : option RackId)
    (s : ClusterState) (st : NetStats * Thread) : NetStats * Thread :=
  let '(stats, th) := st in
  let session := th_session th in
  let racks := match registers with
               | Some rack => if accepted result then se_racks session ++ [rack] else se_racks session
               | None => se_racks session
               end in
  send_frame net sends (answer result s)
    (stats, th <| th_session := session <| se_racks := racks |> |> <| th_phase := Ph_Reading |>).

(** What a turn of the loop does to the process and the session. *)
Inductive Turn :=
  | Turn_Done (p : Process) (stats : NetStats) (th : Thread)
  | Turn_Terminate.

Definition count_snapshot (message : Payload) (stats : NetStats) : NetStats :=
  match message with
  | P_SnapshotResponse m =>
      if sr_accepted m then stats <| ns_snapshots_built := (ns_snapshots_built stats + 1)%N |>
      else stats
  | _ => stats
  end.

Definition act (net : NetConfig) (sends : bool) (p : Process) (stats : NetStats) (th : Thread)
    (action : Action) : Turn :=
  match action with
  | Act_Reply message go_on =>
      let '(stats, th) := send_frame net sends message (count_snapshot message stats, th) in
      Turn_Done p stats (if go_on then th else leave th)
  | Act_Submit request answer registers =>
      match submit request p with
      | (p, inl refusal) =>
          let '(stats, th) := finish_submit net sends refusal answer registers
                                (co_canonical (pr_coordinator p)) (stats, th) in
          Turn_Done p stats th
      | (p, inr slot) => Turn_Done p stats (th <| th_phase := Ph_Waiting slot answer registers |>)
      end
  | Act_Nothing => Turn_Done p stats th
  | Act_Terminate => Turn_Terminate
  end.

(** One turn of the loop of [run_session]. *)
Definition session_turn (net : NetConfig) (now : Timestamp) (sends : bool) (p : Process)
    (stats : NetStats) (th : Thread) : Turn :=
  let refuse code message th :=
    let '(stats, th) := send_frame net sends (protocol_error ES_Decode code message) (stats, th) in
    Turn_Done p stats (leave th) in
  if se_stop (th_session th) then Turn_Done p stats (leave th) else
  let '(result, socket) := read_frame (session_max_payload net) (th_socket th) in
  let th := th <| th_socket := socket |> in
  match result with
  | FR_Header _ | FR_Body _ => Turn_Done p stats (leave th)
  | FR_Oversized =>
      refuse "oversized_frame" "declared payload exceeds the configured maximum" th
  | FR_Frame frame =>
      if negb (bool_decide (fo_status frame = Wire_Ok)) then
        refuse (string_of_protocol_status (fo_status frame))
          "frame rejected before any state was touched" th
      else
        let stats := stats <| ns_frames_in := (ns_frames_in stats + 1)%N |>
                           <| ns_bytes_in := (ns_bytes_in stats + fo_consumed frame)%N |> in
        let c := pr_coordinator p in
        let '(session, action) :=
          dispatch (cf_cluster (co_config c)) now (co_canonical c) (hd_type (fo_header frame))
            (fo_payload frame) (th_session th) in
        act net sends p stats (th <| th_session := session |>) action
  end.

(** ** The sessions of a process *)

Record Server := MkServer {
  sv_process : Process;
  sv_sessions : gmap N Thread;
  sv_next_session : N;
  sv_stats : NetStats;
  sv_terminated : bool
}.

#[global] Instance eta_Server : Eta Server := λ r,
  MkServer (sv_process r) (sv_sessions r) (sv_next_session r) (sv_stats r) (sv_terminated r).
#[global] Instance upd_sv_process : Upd sv_process := ltac:(derive_upd).
#[global] Instance upd_sv_sessions : Upd sv_sessions := ltac:(derive_upd).
#[global] Instance upd_sv_next_session : Upd sv_next_session := ltac:(derive_upd).
#[global] Instance upd_sv_stats : Upd sv_stats := ltac:(derive_upd).
#[global] Instance upd_sv_terminated : Upd sv_terminated := ltac:(derive_upd).

(** [run_accept]: a connection is admitted while there is room. *)
Definition accept (net : NetConfig) (socket : list Arrival) (sv : Server) : Server :=
  if negb (msize (sv_sessions sv) <? nc_max_sessions net)%N then sv else
  let id := sv_next_session sv in
  sv <| sv_next_session := (id + 1)%N |>
     <| sv_sessions := <[id := MkThread new_session socket [] Ph_Reading]> (sv_sessions sv) |>
     <| sv_stats := (sv_stats sv) <| ns_sessions_opened :=
          (ns_sessions_opened (sv_stats sv) + 1)%N |> |>.

(** [close_all_sessions]: every session is told to stop. *)
Definition close_all_sessions (sv : Server) : Server :=
  sv <| sv_sessions :=
    (λ th, th <| th_session := (th_session th) <| se_stop := true |> |>) <$> sv_sessions sv |>.

(** [detach_session]: a boot that owns evidence is fenced, unless the process is
    stopping. *)
Definition detach_session (net : NetConfig) (id : N) (session : Session) (sv : Server) : Server :=
  let sv := sv <| sv_sessions := delete id (sv_sessions sv) |>
               <| sv_stats := (sv_stats sv) <| ns_sessions_closed :=
                    (ns_sessions_closed (sv_stats sv) + 1)%N |> |> in
  match se_boot session with
  | None => sv
  | Some boot =>
      let p := sv_process sv in
      if negb (boot_in_use (co_canonical (pr_coordinator p)) boot) then sv else
      let reason := if nc_fence_on_disconnect net then "session_closed"
                    else "session_closed_evidence_stale" in
      sv <| sv_process := fst (fence_boot boot reason p) |>
  end.

Definition put_thread (id : N) (sv : Server) (turn : Turn) : Server :=
  match turn with
  | Turn_Terminate => sv <| sv_terminated := true |>
  | Turn_Done p stats th =>
      sv <| sv_process := p |> <| sv_stats := stats |>
         <| sv_sessions := <[id := th]> (sv_sessions sv) |>
  end.

(** What can happen to a serving process. *)
Inductive ServerEvent :=
  | Sv_Process (e : Event)
  | Sv_Accept (socket : list Arrival)
  | Sv_Turn (id : N) (now : Timestamp) (sends : bool)
  | Sv_Answer (id : N) (sends : bool)
  | Sv_Detach (id : N)
  | Sv_CloseAll.

(** [stop] queues its stop item only once every session has detached. *)
Definition sessions_gone (e : Event) (sv : Server) : bool :=
  match e with Ev_StopQueue => bool_decide (sv_sessions sv = ∅) | _ => true end.

Definition serve (net : NetConfig) (e : ServerEvent) (sv : Server) : option Server :=
  if sv_terminated sv then None else
  match e with
  | Sv_Process e =>
      if sessions_gone e sv then (λ p, sv <| sv_process := p |>) <$> perform e (sv_process sv)
      else None
  | Sv_Accept socket =>
      if pr_accepting (sv_process sv) then Some (accept net socket sv) else None
  | Sv_Turn id now sends =>
      th ← sv_sessions sv !! id;
      match th_phase th with
      | Ph_Reading =>
          Some (put_thread id sv (session_turn net now sends (sv_process sv) (sv_stats sv) th))
      | _ => None
      end
  | Sv_Answer id sends =>
      th ← sv_sessions sv !! id;
      match th_phase th with
      | Ph_Waiting slot answer registers =>
          let p := sv_process sv in
          result ← slot_result slot p;
          let '(stats, th) := finish_submit net sends result answer registers
                                (co_canonical (pr_coordinator p)) (sv_stats sv, th) in
          Some (put_thread id sv (Turn_Done p stats th))
      | _ => None
      end
  | Sv_Detach id =>
      th ← sv_sessions sv !! id;
      match th_phase th with
      | Ph_Leaving => Some (detach_session net id (th_session th) sv)
      | _ => None
      end
  | Sv_CloseAll => Some (close_all_sessions sv)
  end.

Fixpoint serve_all (net : NetConfig) (events : list ServerEvent) (sv : Server) : option Server :=
  match events with
  | [] => Some sv
  | e :: events => sv ← serve net e sv; serve_all net events sv
  end.

Definition no_net_stats : NetStats := MkNetStats 0 0 0 0 0 0 0.

Definition constructed_server (c : Coordinator) : Server :=
  MkServer (constructed c) ∅ 1 no_net_stats false.
