(* ===== verification/SessionProofs.v ===== *)
(** * What the session layer guarantees

    The sessions of a process only ever act on it through the queue; a peer
    reaches the queue only after a handshake and only under the incarnation it
    declared; and a characterization of the messages that end the process. *)

From S2P Require Import Prelude Identity Counter Taxonomy Evidence Types State Readiness Invariant.
From S2P Require Import Explain EngineBase EngineRack Durable Commit Snapshot Wire Codec WireStream.
From S2P Require Import WireRecords WireMessages Frame FrameProofs Scenario Process ProcessProofs.
From S2P Require Import Transport Session.

(** ** Sending touches nothing but the wire *)

Lemma send_frame_session net sends message stats th stats' th' :
  send_frame net sends message (stats, th) = (stats', th') →
  th_phase th' = th_phase th ∧ th_socket th' = th_socket th ∧
  th_session th' =
    (th_session th) <| se_sequence := ((se_sequence (th_session th) + 1) mod 2 ^ 64)%N |>.
Proof. unfold send_frame. by destruct (_ || _); intros [= <- <-]. Qed.

Lemma finish_submit_session net sends result answer registers s stats th stats' th' :
  finish_submit net sends result answer registers s (stats, th) = (stats', th') →
  th_phase th' = Ph_Reading ∧ se_boot (th_session th') = se_boot (th_session th) ∧
  se_handshake (th_session th') = se_handshake (th_session th).
Proof.
  unfold finish_submit. intros (E1&_&E2)%send_frame_session. rewrite E2. by split_and!.
Qed.

(** What [act] does to the process: nothing, or a submission. *)
Lemma act_process net sends p stats th action p' stats' th' :
  act net sends p stats th action = Turn_Done p' stats' th' →
  se_boot (th_session th') = se_boot (th_session th) ∧
  se_handshake (th_session th') = se_handshake (th_session th) ∧
  (p' = p ∨ ∃ request answer registers,
     action = Act_Submit request answer registers ∧ p' = fst (submit request p)).
Proof.
  destruct action as [message go_on|request answer registers| |]; cbn [act].
  - destruct (send_frame _ _ _ _) as [st t] eqn:E. intros [= <- <- <-].
    destruct (send_frame_session _ _ _ _ _ _ _ E) as (_&_&Es).
    destruct go_on; cbn; rewrite Es; split_and!; auto.
  - destruct (submit request p) as [q [refusal|slot]] eqn:E.
    + destruct (finish_submit _ _ _ _ _ _ _) as [st t] eqn:F. intros [= <- <- <-].
      destruct (finish_submit_session _ _ _ _ _ _ _ _ _ _ F) as (_&Eb&Eh).
      split_and!; [done..|]. right. exists request, answer, registers. by rewrite E.
    + intros [= <- <- <-]. split_and!; [done..|]. right. exists request, answer, registers. by rewrite E.
  - intros [= <- <- <-]. split_and!; auto.
  - done.
Qed.

(** The frame a turn of the loop gets to handle, if it does. *)
Definition frame_of (net : NetConfig) (th : Thread) : option FrameOutcome :=
  if se_stop (th_session th) then None else
  match fst (read_frame (session_max_payload net) (th_socket th)) with
  | FR_Frame frame => if bool_decide (fo_status frame = Wire_Ok) then Some frame else None
  | _ => None
  end.

(** What the loop makes of a frame. *)
Definition handled (now : Timestamp) (p : Process) (th : Thread) (frame : FrameOutcome) :
    Session * Action :=
  dispatch (cf_cluster (co_config (pr_coordinator p))) now (co_canonical (pr_coordinator p))
    (hd_type (fo_header frame)) (fo_payload frame) (th_session th).

(** A turn without a frame to handle leaves; the others dispatch it. *)
Lemma session_turn_cases net now sends p stats th :
  (frame_of net th = None ∧ ∃ stats' th', session_turn net now sends p stats th = Turn_Done p stats' th' ∧
     th_phase th' = Ph_Leaving ∧ se_boot (th_session th') = se_boot (th_session th) ∧
     se_handshake (th_session th') = se_handshake (th_session th)) ∨
  (∃ frame stats' socket, frame_of net th = Some frame ∧
     session_turn net now sends p stats th =
     let '(session, action) := handled now p th frame in
     act net sends p stats' (th <| th_socket := socket |> <| th_session := session |>) action).
Proof.
  unfold session_turn, frame_of, handled. destruct (se_stop (th_session th)).
  { left. split; [done|]. by eexists _, _. }
  destruct (read_frame _ _) as [[frame|r| |r] socket]; cbn [fst].
  - case_bool_decide as Hs; cbn [negb].
    + right. exists frame,
        (stats <| ns_frames_in := (ns_frames_in stats + 1)%N |>
               <| ns_bytes_in := (ns_bytes_in stats + fo_consumed frame)%N |>), socket.
      split; [done|]. reflexivity.
    + left. split; [done|]. destruct (send_frame _ _ _ _) as [st t] eqn:E.
      destruct (send_frame_session _ _ _ _ _ _ _ E) as (_&_&Es).
      exists st, (leave t). split_and!; [done..| |]; cbn; by rewrite Es.
  - left. split; [done|]. by eexists _, _.
  - left. split; [done|]. destruct (send_frame _ _ _ _) as [st t] eqn:E.
    destruct (send_frame_session _ _ _ _ _ _ _ E) as (_&_&Es).
    exists st, (leave t). split_and!; [done..| |]; cbn; by rewrite Es.
  - left. split; [done|]. by eexists _, _.
Qed.

(** ** What dispatching does *)

(** A HELLO that is accepted. *)
Definition hello_accepted (cluster : ClusterId) (payload : bytes) (hello : HelloMessage) : Prop :=
  snd (decode_hello payload) = Some hello ∧ he_protocol_version hello = kProtocolVersion ∧
  he_cluster hello = cluster.

Lemma on_hello_cases cluster s payload session :
  (∃ message, on_hello cluster s payload session = (session, Act_Reply message false)) ∨
  (∃ hello message, hello_accepted cluster payload hello ∧
     on_hello cluster s payload session =
     (session <| se_boot := Some (he_boot hello) |> <| se_handshake := true |>,
      Act_Reply message true)).
Proof.
  unfold on_hello, hello_accepted. destruct (snd (decode_hello payload)) as [hello|]; [|by left; eexists].
  destruct (N.eqb_spec (he_protocol_version hello) kProtocolVersion); cbn [negb]; [|by left; eexists].
  destruct (decide (he_cluster hello = cluster)) as [Hc|Hc].
  - rewrite decide_False by tauto. right. exists hello. by eexists.
  - rewrite decide_True by done. left. by eexists.
Qed.

(** A submission is made under the boot of the session. *)
Lemma with_session_boot_boot session a boot :
  se_boot session = Some boot → au_boot (with_session_boot session a) = Some boot.
Proof. unfold with_session_boot. by intros ->. Qed.

Lemma dispatch_submit cluster now s type payload session session' request answer registers :
  dispatch cluster now s type payload session = (session', Act_Submit request answer registers) →
  session' = session ∧ se_handshake session = true ∧
  ∀ boot, se_boot session = Some boot → au_boot (rq_authority request) = Some boot.
Proof.
  unfold dispatch. destruct (type =? raw Msg_Hello)%N.
  { destruct (on_hello_cases cluster s payload session) as [[m ->]|(h&m&_&->)]; done. }
  destruct (se_handshake session); cbn [negb]; [|done].
  unfold on_register, on_publish, on_heartbeat, on_snapshot_request, on_validate_request,
    on_revalidate, unknown_message.
  destruct (of_raw type) as [[]|]; try done.
  - destruct (snd (decode_register_publisher payload)) as [m|]; [|done].
    destruct (au_boot (rp_authority m)); [|done]. intros [= <- <- _ _]. by split_and!.
  - destruct (snd (decode_publish_request payload)) as [m|]; [|done].
    intros [= <- <- _ _]. split_and!; [done..|]. intros boot Hb. by apply with_session_boot_boot.
  - destruct (snd (decode_revalidate_request payload)) as [m|]; [|done].
    intros [= <- <- _ _]. split_and!; [done..|]. intros boot Hb. by apply with_session_boot_boot.
Qed.

(** Before the handshake only a HELLO is heard. *)
Lemma dispatch_unshaken cluster now s type payload session :
  se_handshake session = false →
  (∃ message, dispatch cluster now s type payload session = (session, Act_Reply message false)) ∨
  (∃ hello message, type = raw Msg_Hello ∧ hello_accepted cluster payload hello ∧
     dispatch cluster now s type payload session =
     (session <| se_boot := Some (he_boot hello) |> <| se_handshake := true |>,
      Act_Reply message true)).
Proof.
  intros Hh. unfold dispatch. rewrite Hh. cbn [negb].
  destruct (N.eqb_spec type (raw Msg_Hello)) as [->|]; [|by left; eexists].
  destruct (on_hello_cases cluster s payload session) as [?|(h&m&?&?)]; [by left|].
  right. by exists h, m.
Qed.

(** The boot and the handshake of a session change together. *)
Definition shaken (session : Session) : Prop :=
  se_handshake session = true → is_Some (se_boot session).

Lemma dispatch_shaken cluster now s type payload session :
  shaken session → shaken (fst (dispatch cluster now s type payload session)).
Proof.
  intros H. unfold dispatch. destruct (type =? raw Msg_Hello)%N.
  { destruct (on_hello_cases cluster s payload session) as [[m ->]|(h&m&_&->)]; [done|].
    intros _. by eexists. }
  destruct (se_handshake session) eqn:E; cbn [negb]; [|done].
  destruct (of_raw type) as [[]|]; try done.
  unfold on_shutdown. by destruct (snd (decode_shutdown payload)).
Qed.

(** ** Sessions act through the queue *)

Lemma turn_process net now sends p stats th p' stats' th' :
  session_turn net now sends p stats th = Turn_Done p' stats' th' →
  (p' = p ∨ ∃ request, p' = fst (submit request p)) ∧
  (shaken (th_session th) → shaken (th_session th')).
Proof.
  destruct (session_turn_cases net now sends p stats th) as
    [(_&st&t&->&_&Eb&Eh)|(frame&st&socket&_&->)].
  - intros [= <- <- <-]. split; [by left|]. unfold shaken. by rewrite Eb, Eh.
  - destruct (handled now p th frame) as [session action] eqn:E. intros Ha.
    destruct (act_process _ _ _ _ _ _ _ _ _ Ha) as (Eb&Eh&Hp). split.
    + destruct Hp as [->|(request&?&?&_&->)]; [by left|]. right. by exists request.
    + intros Hs. pose proof (dispatch_shaken (cf_cluster (co_config (pr_coordinator p))) now
        (co_canonical (pr_coordinator p)) (hd_type (fo_header frame)) (fo_payload frame) _ Hs) as Hs'.
      unfold handled in E. rewrite E in Hs'. cbn in Hs'. unfold shaken in *. rewrite Eb, Eh. exact Hs'.
Qed.

Lemma serve_process net e sv sv' :
  serve net e sv = Some sv' →
  sv_process sv' = sv_process sv ∨
  ∃ pe, perform pe (sv_process sv) = Some (sv_process sv').
Proof.
  unfold serve. destruct (sv_terminated sv); [done|]. destruct e as [e|socket|id now sends|id sends|id|].
  - destruct (sessions_gone e sv); [|done]. destruct (perform e (sv_process sv)) as [p|] eqn:E; [|done].
    intros [= <-]. right. by exists e.
  - destruct (pr_accepting _); [|done]. intros [= <-]. left. unfold accept. by destruct (negb _).
  - destruct (sv_sessions sv !! id) as [th|]; [|done]. cbn [mbind option_bind]. destruct (th_phase th); [|done..].
    intros [= <-].
    destruct (session_turn _ _ _ _ _ _) as [p stats t|] eqn:E; cbn; [|by left].
    destruct (proj1 (turn_process _ _ _ _ _ _ _ _ _ E)) as [->|[request ->]]; [by left|].
    right. by exists (Ev_Submit request).
  - destruct (sv_sessions sv !! id) as [th|]; [|done]. cbn [mbind option_bind]. destruct (th_phase th); [done| |done].
    destruct (slot_result slot (sv_process sv)); [|done]. cbn [mbind option_bind].
    destruct (finish_submit _ _ _ _ _ _ _) as [st t]. intros [= <-]. by left.
  - destruct (sv_sessions sv !! id) as [th|]; [|done]. cbn [mbind option_bind]. destruct (th_phase th); [done|done|].
    intros [= <-]. unfold detach_session. cbn.
    destruct (se_boot _); cbn; [|by left]. destruct (negb _); [by left|].
    right. eexists (Ev_Fence _ _). done.
  - intros [= <-]. by left.
Qed.

Lemma serve_all_app net events events' sv :
  serve_all net (events ++ events') sv = sv' ← serve_all net events sv; serve_all net events' sv'.
Proof.
  revert sv. induction events as [|e events IH]; intros sv; cbn; [done|].
  destruct (serve net e sv); cbn; [apply IH|done].
Qed.


(** ** The handshake *)

(** Without a handshake a peer reaches nothing.  Whatever a session that has
    not completed the handshake receives, its turn changes neither the queue nor
    the canonical state and does not end the process; the session then either
    leaves, or the frame it received was a well-formed HELLO of this protocol
    version for this cluster, and the session carries the incarnation it
    declared. *)
Theorem handshake_required net now sends p stats th :
  se_handshake (th_session th) = false →
  ∃ stats' th', session_turn net now sends p stats th = Turn_Done p stats' th' ∧
  (th_phase th' = Ph_Leaving ∧ se_handshake (th_session th') = false ∨
   ∃ frame hello, frame_of net th = Some frame ∧ hd_type (fo_header frame) = raw Msg_Hello ∧
     hello_accepted (cf_cluster (co_config (pr_coordinator p))) (fo_payload frame) hello ∧
     se_boot (th_session th') = Some (he_boot hello) ∧ se_handshake (th_session th') = true).
Proof.
  intros Hh. destruct (session_turn_cases net now sends p stats th) as
    [(_&st&t&->&Hp&_&Eh)|(frame&st&socket&Hf&->)].
  { exists st, t. split; [done|]. left. by rewrite Eh. }
  unfold handled.
  destruct (dispatch_unshaken (cf_cluster (co_config (pr_coordinator p))) now
    (co_canonical (pr_coordinator p)) (hd_type (fo_header frame)) (fo_payload frame) _ Hh)
    as [[m ->]|(hello&m&Ht&Ha&->)]; cbn [act];
    destruct (send_frame _ _ _ _) as [st' t] eqn:E;
    destruct (send_frame_session _ _ _ _ _ _ _ E) as (_&_&Es).
  - exists st', (leave t). split; [done|]. left. cbn. by rewrite Es.
  - exists st', t. split; [done|]. right. exists frame, hello. rewrite Es. by split_and!.
Qed.

(** Every session of a serving process keeps boot and handshake together. *)
Lemma serve_shaken net e sv sv' :
  map_Forall (λ _ th, shaken (th_session th)) (sv_sessions sv) → serve net e sv = Some sv' →
  map_Forall (λ _ th, shaken (th_session th)) (sv_sessions sv').
Proof.
  intros H. unfold serve. destruct (sv_terminated sv); [done|].
  destruct e as [e|socket|id now sends|id sends|id|].
  - destruct (sessions_gone e sv); [|done]. destruct (perform e (sv_process sv)); [|done].
    by intros [= <-].
  - destruct (pr_accepting _); [|done]. intros [= <-]. unfold accept. destruct (negb _); [done|].
    by apply map_Forall_insert_2.
  - destruct (sv_sessions sv !! id) as [th|] eqn:Et; [|done]. cbn [mbind option_bind].
    destruct (th_phase th); [|done..]. intros [= <-].
    destruct (session_turn _ _ _ _ _ _) as [p stats t|] eqn:E; [|done].
    apply map_Forall_insert_2; [|done]. apply (turn_process _ _ _ _ _ _ _ _ _ E). by apply (H id).
  - destruct (sv_sessions sv !! id) as [th|] eqn:Et; [|done]. cbn [mbind option_bind].
    destruct (th_phase th); [done| |done].
    destruct (slot_result slot (sv_process sv)); [|done]. cbn [mbind option_bind].
    destruct (finish_submit _ _ _ _ _ _ _) as [st t] eqn:E. intros [= <-].
    destruct (finish_submit_session _ _ _ _ _ _ _ _ _ _ E) as (_&Eb&Eh).
    apply map_Forall_insert_2; [|done]. unfold shaken. rewrite Eb, Eh. exact (H id th Et).
  - destruct (sv_sessions sv !! id) as [th|] eqn:Et; [|done]. cbn [mbind option_bind].
    destruct (th_phase th); [done|done|]. intros [= <-].
    assert (sv_sessions (detach_session net id (th_session th) sv) = delete id (sv_sessions sv)) as ->
      by (unfold detach_session; cbn; destruct (se_boot _); [destruct (negb _)|]; done).
    by apply map_Forall_delete.
  - intros [= <-]. unfold close_all_sessions. cbn. intros id th. rewrite lookup_fmap.
    destruct (sv_sessions sv !! id) as [th0|] eqn:E; [|done]. intros [= <-]. exact (H id th0 E).
Qed.

Lemma serve_all_shaken net c events sv :
  serve_all net events (constructed_server c) = Some sv →
  map_Forall (λ _ th, shaken (th_session th)) (sv_sessions sv).
Proof.
  revert sv. induction events as [|e events IH] using rev_ind; intros sv.
  - intros [= <-]. apply map_Forall_empty.
  - rewrite serve_all_app. destruct (serve_all net events _) as [sv0|]; [|done].
    cbn [serve_all mbind option_bind]. destruct (serve net e sv0) as [sv1|] eqn:E; [|done]. intros [= <-].
    by eapply serve_shaken; [apply IH|].
Qed.

(** C19: a peer acts under the incarnation it declared.  In a serving process, when
    a turn of a session changes the process at all, the session has completed the
    handshake, and the one thing that happened is the submission of a mutation
    whose authority names exactly the incarnation of the session, whatever the
    message of the peer named. *)
Theorem sessions_act_as_declared net c events sv id th now sends p' stats' th' :
  serve_all net events (constructed_server c) = Some sv → sv_sessions sv !! id = Some th →
  session_turn net now sends (sv_process sv) (sv_stats sv) th = Turn_Done p' stats' th' →
  p' ≠ sv_process sv →
  ∃ boot request, se_handshake (th_session th) = true ∧ se_boot (th_session th) = Some boot ∧
    au_boot (rq_authority request) = Some boot ∧ p' = fst (submit request (sv_process sv)).
Proof.
  intros Hs Ht. pose proof (serve_all_shaken _ _ _ _ Hs id th Ht) as Hsh. cbn in Hsh.
  destruct (session_turn_cases net now sends (sv_process sv) (sv_stats sv) th) as
    [(_&st&t&->&_)|(frame&st&socket&_&->)]; [by intros [= <- <- <-]|].
  destruct (handled now (sv_process sv) th frame) as [session action] eqn:E. intros Ha Hne.
  destruct (act_process _ _ _ _ _ _ _ _ _ Ha) as (_&_&[->|(request&answer&registers&->&->)]); [done|].
  unfold handled in E. destruct (dispatch_submit _ _ _ _ _ _ _ _ _ _ E) as (_&Hh&Hb).
  destruct (Hsh Hh) as [boot Eb]. exists boot, request. by split_and!; auto.
Qed.

(** ** What ends the process *)

(** A registration whose authority names no incarnation. *)
Definition bootless_registration (th : Thread) (frame : FrameOutcome) : Prop :=
  se_handshake (th_session th) = true ∧ hd_type (fo_header frame) = raw Msg_RegisterPublisher ∧
  ∃ m, snd (decode_register_publisher (fo_payload frame)) = Some m ∧ au_boot (rp_authority m) = None.

Lemma act_terminate net sends p stats th action :
  act net sends p stats th action = Turn_Terminate ↔ action = Act_Terminate.
Proof.
  split; [|by intros ->]. destruct action as [m g|rq a r| |]; cbn [act]; try done.
  - by destruct (send_frame _ _ _ _).
  - destruct (submit rq p) as [q [refusal|slot]]; [|done]. by destruct (finish_submit _ _ _ _ _ _ _).
Qed.

Lemma dispatch_terminate cluster now s type payload session :
  snd (dispatch cluster now s type payload session) = Act_Terminate ↔
  se_handshake session = true ∧ type = raw Msg_RegisterPublisher ∧
  ∃ m, snd (decode_register_publisher payload) = Some m ∧ au_boot (rp_authority m) = None.
Proof.
  unfold dispatch. destruct (N.eqb_spec type (raw Msg_Hello)) as [->|Hn].
  { split; [|by intros (_&?&_)].
    destruct (on_hello_cases cluster s payload session) as [[m ->]|(h&m&_&->)]; done. }
  destruct (se_handshake session); cbn [negb]; [|by split; [|intros [? _]]].
  destruct (decide (type = raw Msg_RegisterPublisher)) as [->|Hr].
  - rewrite of_raw_raw. cbn [snd]. unfold on_register.
    destruct (snd (decode_register_publisher payload)) as [m|]; [|by split; [|intros (_&_&?&?&_)]].
    destruct (au_boot (rp_authority m)) eqn:Eb; split; try done.
    + intros (_&_&m'&[= <-]&?). congruence.
    + intros _. split_and!; [done..|]. by exists m.
  - split; [|by intros (_&?&_)].
    unfold on_publish, on_heartbeat, on_snapshot_request, on_validate_request, on_revalidate.
    destruct (of_raw type) as [t|] eqn:Et; [|done].
    destruct t; cbn [snd]; try done.
    + by apply of_raw_Some in Et.
    + by destruct (snd (decode_publish_request payload)).
    + by destruct (snd (decode_revalidate_request payload)).
Qed.


(** ** A peer *)

(** The bytes of a list of messages, framed and numbered. *)
Definition frames (messages : list Payload) : bytes :=
  concat (imap (λ i m, encode_frame (payload_type m) (N.of_nat i + 1) (encode_payload m) 0
                         kMaxFramePayloadBytes) messages).

Definition hello_as (boot : RackAgentBootId) : Payload :=
  P_Hello (MkHello kProtocolVersion demo_cluster boot "rack_agent" "demo").

Definition registration (boot : option RackAgentBootId) : Payload :=
  P_RegisterPublisher
    (MkRegister demo_cluster
       (MkAuthority (MkCtr 1) (MkCtr 2) (MkCtr 1) (MkCtr 1) boot (Some owner) (Some rack_a)
          (Some (MkCtr 1)) (MkCtr 1))
       owner rack_a (MkCtr 1) RL_Ready no_composition "demo" t0).

(** The publication of a rack, whose reference names an incarnation. *)
Definition publication (boot : RackAgentBootId) : Payload :=
  P_PublishRequest (MkPublishRequest (add_rack rack_a boot 2)).

(** A started process with a declared cluster, and one session. *)
Definition boot_events (messages : list Payload) : list ServerEvent :=
  [Sv_Process (Ev_Launch demo_input); Sv_Process (Ev_Listen true); Sv_Process (Ev_Submit declare);
   Sv_Process Ev_Take; Sv_Process (Ev_Apply t0 t0); Sv_Accept [Ar_Bytes (frames messages)]].

(** A turn that submits, the commit of the mutation, and the answer. *)
Definition submitted_turn : list ServerEvent :=
  [Sv_Turn 1 t0 true; Sv_Process Ev_Take; Sv_Process (Ev_Apply t0 t0); Sv_Answer 1 true].

Definition reaches (events : list ServerEvent) : Server :=
  default (constructed_server Scenario.start)
    (serve_all default_net events (constructed_server Scenario.start)).

Definition peer_events : list ServerEvent :=
  boot_events [hello_as boot_a; registration (Some boot_a); publication boot_a] ++
  [Sv_Turn 1 t0 true] ++ submitted_turn ++ submitted_turn.

(** The record of the rack the peer published. *)
Definition published (sv : Server) : option RackRecord :=
  cs_racks (co_canonical (pr_coordinator (sv_process sv))) !! rack_a.


(** A peer whose first message is a registration. *)
Definition rude_thread : Thread :=
  MkThread new_session [Ar_Bytes (frames [registration (Some boot_a)])] [] Ph_Reading.

Lemma handshake_required_witness :
  ∃ stats' th',
    session_turn default_net t0 true demo_process no_net_stats rude_thread =
      Turn_Done demo_process stats' th' ∧
  (th_phase th' = Ph_Leaving ∧ se_handshake (th_session th') = false ∨
   ∃ frame hello, frame_of default_net rude_thread = Some frame ∧
     hd_type (fo_header frame) = raw Msg_Hello ∧
     hello_accepted (cf_cluster (co_config (pr_coordinator demo_process))) (fo_payload frame) hello ∧
     se_boot (th_session th') = Some (he_boot hello) ∧ se_handshake (th_session th') = true).
Proof. apply (handshake_required default_net t0 true demo_process no_net_stats rude_thread). done. Defined.

(** The peer about to publish. *)
Definition publishing_events : list ServerEvent :=
  boot_events [hello_as boot_a; publication boot_b] ++ [Sv_Turn 1 t0 true].
Definition publishing : Server := reaches publishing_events.
Definition publishing_thread : Thread :=
  default (MkThread new_session [] [] Ph_Reading) (sv_sessions publishing !! 1%N).
Definition publishing_turn : Turn :=
  session_turn default_net t0 true (sv_process publishing) (sv_stats publishing) publishing_thread.
Definition turned (turn : Turn) : Process * NetStats * Thread :=
  match turn with
  | Turn_Done p stats th => (p, stats, th)
  | Turn_Terminate => (sv_process publishing, no_net_stats, publishing_thread)
  end.

Lemma sessions_act_as_declared_witness :
  ∃ boot request, se_handshake (th_session publishing_thread) = true ∧
    se_boot (th_session publishing_thread) = Some boot ∧
    au_boot (rq_authority request) = Some boot ∧
    (turned publishing_turn).1.1 = fst (submit request (sv_process publishing)).
Proof.
  apply (sessions_act_as_declared default_net Scenario.start publishing_events publishing 1
    publishing_thread t0 true _ (turned publishing_turn).1.2 (turned publishing_turn).2).
  - by vm_compute.
  - by vm_compute.
  - by vm_compute.
  - intros E. apply (f_equal pr_next_slot) in E. vm_compute in E. discriminate.
Defined.

(** ** Where sessions fall short of what is documented *)

(** Fencing on disconnect follows the incarnation of the session only: the
    incarnation a rack reference names is taken as it is, so that a rack
    published under another one stays authoritative when the peer is gone. *)
Definition foreign_events : list ServerEvent :=
  boot_events [hello_as boot_a; registration (Some boot_a); publication boot_b] ++
  [Sv_Turn 1 t0 true] ++ submitted_turn ++ submitted_turn ++ [Sv_Turn 1 t0 true; Sv_Detach 1].

Theorem foreign_publication_outlives_session :
  let sv := reaches foreign_events in
  serve_all default_net foreign_events (constructed_server Scenario.start) = Some sv ∧
  sv_sessions sv = ∅ ∧ items (sv_process sv) = [] ∧
  (rr_boot ∘ rk_reference) <$> published sv = Some boot_b ∧
  rk_authoritative_current <$> published sv = Some true.
Proof. by vm_compute. Qed.

(** A second HELLO replaces the incarnation of the session, and the evidence of
    the first stays authoritative when the peer is gone. *)
Definition second_hello_events : list ServerEvent :=
  boot_events [hello_as boot_a; registration (Some boot_a); publication boot_a; hello_as boot_c] ++
  [Sv_Turn 1 t0 true] ++ submitted_turn ++ submitted_turn ++
  [Sv_Turn 1 t0 true; Sv_Turn 1 t0 true; Sv_Detach 1].

Theorem second_hello_escapes_fence :
  let sv := reaches second_hello_events in
  serve_all default_net second_hello_events (constructed_server Scenario.start) = Some sv ∧
  sv_sessions sv = ∅ ∧ items (sv_process sv) = [] ∧
  (rr_boot ∘ rk_reference) <$> published sv = Some boot_a ∧
  rk_authoritative_current <$> published sv = Some true.
Proof. by vm_compute. Qed.

(** A disconnect fences whatever the configuration says. *)
Theorem disconnect_fences_regardless net sv id th boot sv' :
  sv_terminated sv = false → sv_sessions sv !! id = Some th → th_phase th = Ph_Leaving →
  se_boot (th_session th) = Some boot → pr_stopping (sv_process sv) = false →
  boot_in_use (co_canonical (pr_coordinator (sv_process sv))) boot = true →
  serve net (Sv_Detach id) sv = Some sv' →
  ∃ reason, items (sv_process sv') = items (sv_process sv) ++ [PFence boot reason].
Proof.
  intros Ht Hs Hp Hb Hst Hu. unfold serve. rewrite Ht, Hs. cbn [mbind option_bind]. rewrite Hp.
  intros [= <-]. unfold detach_session. rewrite Hb.
  cbn [sv_process upd upd_sv_sessions upd_sv_stats]. rewrite Hu. cbn [negb].
  eexists. cbn [sv_process upd upd_sv_process]. unfold fence_boot. rewrite Hst. cbn [fst].
  apply items_push_back.
Qed.

(** A payload limit of zero is read as the default limit and written as zero:
    such a coordinator never sends a frame with a payload. *)
Theorem zero_limit_mutes net sends message stats th :
  nc_max_frame_payload net = 0%N → encode_payload message ≠ [] →
  session_max_payload net = kMaxFramePayloadBytes ∧
  th_sent (snd (send_frame net sends message (stats, th))) = th_sent th.
Proof.
  intros Hz Hm. unfold session_max_payload, send_frame. rewrite Hz. split; [done|].
  rewrite encode_frame_eq. change (bounded_payload 0) with 0%N.
  destruct (N.ltb_spec 0 (size (encode_payload message))) as [_|Hn]; [done|].
  destruct (encode_payload message); [done|]. unfold size in Hn. cbn in Hn. lia.
Qed.

(** The refusal of a snapshot request carries the default view, whose cluster
    has no identity, and cannot be decoded. *)
Theorem refused_snapshot_undecodable cluster s payload m :
  on_snapshot_request cluster s payload = Act_Reply (P_SnapshotResponse m) true →
  sr_accepted m = false → snd (decode_snapshot_response (encode_snapshot_response m)) = None.
Proof.
  unfold on_snapshot_request. destruct (snd (decode_snapshot_request payload)) as [q|].
  - case_decide; intros [= <-]; [|done]. intros _. by vm_compute.
  - intros [= <-] _. by vm_compute.
Qed.
