(* ===== verification/Agent.v ===== *)
(** * The rack agent

    [src/rack_agent.cpp]: the client of a coordinator that registers a rack,
    publishes it with its topology, and keeps the authority it learned.  The
    socket is what its reads will meet; the results of the writes, the clock and
    the operating system's error text are inputs. *)

From S2P Require Import Prelude Identity Counter Taxonomy Evidence Types State Readiness Invariant.
From S2P Require Import RackRef Explain EngineBase EngineRack Snapshot Wire Codec WireStream.
From S2P Require Import WireRecords WireMessages Frame Process Transport Session.

(** ** Configuration and status *)

Record RackAgentConfig := MkAgentConfig {
  ac_cluster : ClusterId;
  ac_rack : RackId;
  ac_generation : RackGeneration;
  ac_publisher : RackPublisherId;
  ac_boot : option RackAgentBootId;
  ac_coordinator_host : string;
  ac_coordinator_port : N;
  ac_publication_ttl_millis : Z;
  ac_origin_label : string;
  ac_rack_lifecycle : RackLifecycleState;
  ac_health : HealthState;
  ac_reachability : Reachability;
  ac_composition : RackCompositionSummary;
  ac_endpoints : list RackEndpoint;
  ac_failure_domain_hints : list RackFailureDomainHint;
  ac_links : list InterRackLink;
  ac_failure_domains : list FailureDomain;
  ac_placement_domains : list PlacementDomain
}.

#[global] Instance eta_RackAgentConfig : Eta RackAgentConfig := λ r,
  MkAgentConfig (ac_cluster r) (ac_rack r) (ac_generation r) (ac_publisher r) (ac_boot r)
    (ac_coordinator_host r) (ac_coordinator_port r) (ac_publication_ttl_millis r)
    (ac_origin_label r) (ac_rack_lifecycle r) (ac_health r) (ac_reachability r) (ac_composition r)
    (ac_endpoints r) (ac_failure_domain_hints r) (ac_links r) (ac_failure_domains r)
    (ac_placement_domains r).
#[global] Instance upd_ac_boot : Upd ac_boot := ltac:(derive_upd).

Inductive RackAgentState :=
  | Agent_Idle | Agent_Connecting | Agent_Handshaking | Agent_Registering | Agent_Publishing
  | Agent_Ready | Agent_Failed | Agent_Stopped.
#[global] Instance RackAgentState_eq_dec : EqDecision RackAgentState.
Proof. solve_decision. Defined.

Definition string_of_agent_state (value : RackAgentState) : string :=
  match value with
  | Agent_Idle => "IDLE"
  | Agent_Connecting => "CONNECTING"
  | Agent_Handshaking => "HANDSHAKING"
  | Agent_Registering => "REGISTERING"
  | Agent_Publishing => "PUBLISHING"
  | Agent_Ready => "READY"
  | Agent_Failed => "FAILED"
  | Agent_Stopped => "STOPPED"
  end.

Record RackAgentStatus := MkAgentStatus {
  ru_state : RackAgentState;
  ru_transport : ProtocolStatus;
  ru_rejection : RejectionReason;
  ru_detail : string;
  ru_coordinator_epoch : CoordinatorEpoch;
  ru_cluster_epoch : ClusterEpoch;
  ru_topology_epoch : TopologyEpoch;
  ru_topology_generation : TopologyGeneration;
  ru_publication : PublicationGeneration;
  ru_registered : bool;
  ru_fenced : bool;
  ru_connected : bool
}.

#[global] Instance eta_RackAgentStatus : Eta RackAgentStatus := λ r,
  MkAgentStatus (ru_state r) (ru_transport r) (ru_rejection r) (ru_detail r)
    (ru_coordinator_epoch r) (ru_cluster_epoch r) (ru_topology_epoch r) (ru_topology_generation r)
    (ru_publication r) (ru_registered r) (ru_fenced r) (ru_connected r).
#[global] Instance upd_ru_state : Upd ru_state := ltac:(derive_upd).
#[global] Instance upd_ru_transport : Upd ru_transport := ltac:(derive_upd).
#[global] Instance upd_ru_rejection : Upd ru_rejection := ltac:(derive_upd).
#[global] Instance upd_ru_detail : Upd ru_detail := ltac:(derive_upd).
#[global] Instance upd_ru_coordinator_epoch : Upd ru_coordinator_epoch := ltac:(derive_upd).
#[global] Instance upd_ru_cluster_epoch : Upd ru_cluster_epoch := ltac:(derive_upd).
#[global] Instance upd_ru_topology_epoch : Upd ru_topology_epoch := ltac:(derive_upd).
#[global] Instance upd_ru_topology_generation : Upd ru_topology_generation := ltac:(derive_upd).
#[global] Instance upd_ru_publication : Upd ru_publication := ltac:(derive_upd).
#[global] Instance upd_ru_registered : Upd ru_registered := ltac:(derive_upd).
#[global] Instance upd_ru_fenced : Upd ru_fenced := ltac:(derive_upd).
#[global] Instance upd_ru_connected : Upd ru_connected := ltac:(derive_upd).

(** [RackAgent::Impl].  [ag_handle] tells whether there is a socket; [ag_socket]
    is what its reads will meet, [ag_sends] the results of the writes to come and
    [ag_sent] what went out. *)
Record Agent := MkAgent {
  ag_config : RackAgentConfig;
  ag_boot : RackAgentBootId;
  ag_generation : RackGeneration;
  ag_publication : PublicationGeneration;
  ag_status : RackAgentStatus;
  ag_lifecycle : ClusterLifecycle;
  ag_snapshot_digest : option string;
  ag_handle : bool;
  ag_sequence : N;
  ag_registered : bool;
  ag_stopped : bool;
  ag_socket : list Arrival;
  ag_sends : list bool;
  ag_sent : bytes
}.

#[global] Instance eta_Agent : Eta Agent := λ r,
  MkAgent (ag_config r) (ag_boot r) (ag_generation r) (ag_publication r) (ag_status r)
    (ag_lifecycle r) (ag_snapshot_digest r) (ag_handle r) (ag_sequence r) (ag_registered r)
    (ag_stopped r) (ag_socket r) (ag_sends r) (ag_sent r).
#[global] Instance upd_ag_generation : Upd ag_generation := ltac:(derive_upd).
#[global] Instance upd_ag_publication : Upd ag_publication := ltac:(derive_upd).
#[global] Instance upd_ag_status : Upd ag_status := ltac:(derive_upd).
#[global] Instance upd_ag_lifecycle : Upd ag_lifecycle := ltac:(derive_upd).
#[global] Instance upd_ag_snapshot_digest : Upd ag_snapshot_digest := ltac:(derive_upd).
#[global] Instance upd_ag_handle : Upd ag_handle := ltac:(derive_upd).
#[global] Instance upd_ag_sequence : Upd ag_sequence := ltac:(derive_upd).
#[global] Instance upd_ag_registered : Upd ag_registered := ltac:(derive_upd).
#[global] Instance upd_ag_stopped : Upd ag_stopped := ltac:(derive_upd).
#[global] Instance upd_ag_socket : Upd ag_socket := ltac:(derive_upd).
#[global] Instance upd_ag_sends : Upd ag_sends := ltac:(derive_upd).
#[global] Instance upd_ag_sent : Upd ag_sent := ltac:(derive_upd).

(** The constructor: an incarnation is generated unless one is configured. *)
Definition new_agent (config : RackAgentConfig) (generated : RackAgentBootId) (sends : list bool) :
    Agent :=
  let boot := default generated (ac_boot config) in
  MkAgent (config <| ac_boot := Some boot |>) boot (ac_generation config) (MkCtr 1)
    (MkAgentStatus Agent_Idle Wire_Ok Rej_None "" no_ctr no_ctr no_ctr no_ctr (MkCtr 1) false false
       false)
    CL_Declared None false 0 false false [] sends [].

(** Assignment to the status. *)
Definition on_status (f : RackAgentStatus → RackAgentStatus) (a : Agent) : Agent :=
  a <| ag_status := f (ag_status a) |>.

Definition subject (a : Agent) : string := "rack/" +:+ id_value (ac_rack (ag_config a)).

(** ** Authority and requests *)

(** [take_publication]: the counter saturates. *)
Definition take_publication (a : Agent) : PublicationGeneration * Agent :=
  let current := ag_publication a in
  (current, match next current with
            | Some following => a <| ag_publication := following |>
            | None => a
            end).

(** The two statements every send starts with. *)
Definition use_publication (a : Agent) : PublicationGeneration * Agent :=
  let '(used, a) := take_publication a in (used, on_status (λ st, st <| ru_publication := used |>) a).

Definition make_authority (used : PublicationGeneration) (a : Agent) : MutationAuthority :=
  let st := ag_status a in
  MkAuthority (ru_cluster_epoch st) (ru_coordinator_epoch st) (ru_topology_epoch st)
    (ru_topology_generation st) (Some (ag_boot a)) (Some (ac_publisher (ag_config a)))
    (Some (ac_rack (ag_config a))) (Some (ag_generation a)) used.

Definition agent_evidence (observed_at : Timestamp) (a : Agent) : EvidenceStamp :=
  stamp_make Prov_Reported observed_at (ac_publication_ttl_millis (ag_config a)).

Definition make_reference (used : PublicationGeneration) (observed_at : Timestamp) (a : Agent) :
    RackReference :=
  let c := ag_config a in
  let st := ag_status a in
  canonicalize
    (MkReference (ac_rack c) (ag_generation a) (ac_rack_lifecycle c) Cur_Current (ac_composition c)
       (ac_endpoints c) (ac_failure_domain_hints c) (agent_evidence observed_at a)
       (Some (ac_publisher c)) used (ag_boot a) (ru_cluster_epoch st) (ru_coordinator_epoch st)
       (ac_health c) (ac_origin_label c)).

Definition make_request (kind : MutationKind) (used : PublicationGeneration) (observed_at : Timestamp)
    (a : Agent) : MutationRequest :=
  (blank_request kind)
    <| rq_cluster := ac_cluster (ag_config a) |>
    <| rq_authority := make_authority used a |>
    <| rq_evidence := agent_evidence observed_at a |>
    <| rq_reason := "rack_agent_publication" |>
    <| rq_requested_at := observed_at |>
    <| rq_rack_reference := make_reference used observed_at a |>.

Definition transport_ready (a : Agent) : bool := ag_handle a && negb (ag_stopped a).

(** [bounds_ok]: the first bound the configuration exceeds. *)
Definition exceeds {A} (what : string) (l : list A) (bound : N) : option string :=
  if (bound <? size l)%N then
    Some ("configured " +:+ what +:+ " count " +:+ to_decimal (size l) +:+ " exceeds " +:+
          to_decimal bound)
  else None.

Definition bounds_exceeded (c : RackAgentConfig) : option string :=
  match exceeds "endpoint" (ac_endpoints c) kMaxRackEndpoints with
  | Some detail => Some detail | None =>
  match exceeds "failure-domain hint" (ac_failure_domain_hints c) kMaxFailureDomainRefs with
  | Some detail => Some detail | None =>
  match exceeds "accelerator class" (rc_accelerators (ac_composition c)) kMaxCapacityQuantities with
  | Some detail => Some detail | None =>
  match exceeds "link" (ac_links c) kMaxInterRackLinks with
  | Some detail => Some detail | None =>
  match exceeds "failure-domain" (ac_failure_domains c) kMaxDomainsPerClass with
  | Some detail => Some detail | None =>
  exceeds "placement-domain" (ac_placement_domains c) kMaxDomainsPerClass
  end end end end end.

(** ** Recording outcomes *)

Definition note_fence (reason : RejectionReason) (st : RackAgentStatus) : RackAgentStatus :=
  if decide (reason = Rej_StaleRackBoot) then st <| ru_fenced := true |> else st.

Definition record_failure (transport : ProtocolStatus) (reason : RejectionReason) (detail : string)
    : Agent → Agent :=
  on_status (λ st, note_fence reason
    (st <| ru_state := Agent_Failed |> <| ru_transport := transport |> <| ru_rejection := reason |>
        <| ru_detail := detail |>)).

Definition record_rejection (reason : RejectionReason) (detail : string) : Agent → Agent :=
  on_status (λ st, note_fence reason (st <| ru_rejection := reason |> <| ru_detail := detail |>)).

Definition clear_rejection : Agent → Agent :=
  on_status (λ st, st <| ru_rejection := Rej_None |> <| ru_detail := "" |>).

Definition set_state (value : RackAgentState) : Agent → Agent :=
  on_status (λ st, st <| ru_state := value |>).

Definition transport_result (stage : ErrorStage) (a : Agent) : MutationResult :=
  if decide (ru_transport (ag_status a) = Wire_NotConnected) then
    rejected Rej_NotReady stage (subject a) (ru_detail (ag_status a)) "not_connected"
  else rejected Rej_Internal stage (subject a) (ru_detail (ag_status a)) "transport_failure".

(** [describe_result]. *)
Definition describe_result (r : MutationResult) : string :=
  if negb (er_ok (mr_error r)) && negb (is_empty (error_describe (mr_error r)))
  then error_describe (mr_error r)
  else if negb (is_empty (ex_summary (mr_explanation r))) then ex_summary (mr_explanation r)
  else string_of_rejection_reason (mr_reason r).

(** ** Exchanges

    A step of an exchange either yields a value or has recorded why not. *)

Definition Exchange (A : Type) := Agent → option A * Agent.

#[global] Instance Exchange_ret : MRet Exchange := λ A x a, (Some x, a).
#[global] Instance Exchange_bind : MBind Exchange := λ A B f m a,
  match m a with
  | (Some x, a) => f x a
  | (None, a) => (None, a)
  end.

Definition fail_with {A} (transport : ProtocolStatus) (reason : RejectionReason) (detail : string) :
    Exchange A := λ a, (None, record_failure transport reason detail a).

Section agent.
(** The text of the operating system for the last socket error, and the name of
    the build, which depends on the compiler. *)
Context (socket_error_text build_identity : string).

Definition version_banner : string := "Cluster Fabric 1.0.0 (" +:+ build_identity +:+ ")".

Definition send_frame (type : MessageType) (payload : bytes) : Exchange unit := λ a,
  if negb (transport_ready a) then
    fail_with Wire_NotConnected Rej_NotReady "transport is not connected" a else
  let sequence := ((ag_sequence a + 1) mod 2 ^ 64)%N in
  let a := a <| ag_sequence := sequence |> in
  let frame := encode_frame type sequence payload 0 kMaxFramePayloadBytes in
  if bool_decide (frame = []) then
    fail_with Wire_OversizedFrame Rej_Internal
      "frame could not be encoded within the configured payload bound" a else
  match ag_sends a with
  | true :: sends => (Some (), a <| ag_sends := sends |> <| ag_sent := ag_sent a ++ frame |>)
  | _ => fail_with Wire_IoError Rej_Internal ("send failed: " +:+ socket_error_text)
           (a <| ag_sends := tail (ag_sends a) |>)
  end.

(** The name of a message type as it was received. *)
Definition received_name (type : N) : string :=
  match of_raw type with Some t => string_of_message_type t | None => "UNKNOWN" end.

Definition read_reply (expected : MessageType) : Exchange bytes := λ a,
  let '(result, socket) := read_frame kMaxFramePayloadBytes (ag_socket a) in
  let a := a <| ag_socket := socket |> in
  match result with
  | FR_Header Tr_Stopped =>
      fail_with Wire_NotConnected Rej_NotReady
        "transport was stopped while waiting for a response" a
  | FR_Header _ =>
      fail_with Wire_ConnectionClosed Rej_Internal
        ("the coordinator closed the session: " +:+ socket_error_text) a
  | FR_Oversized =>
      fail_with Wire_OversizedFrame Rej_Malformed
        "declared payload exceeds the configured maximum" a
  | FR_Body _ =>
      fail_with Wire_TruncatedPayload Rej_Internal
        "the response payload did not arrive in full" a
  | FR_Frame frame =>
      let type := hd_type (fo_header frame) in
      if negb (bool_decide (fo_status frame = Wire_Ok)) then
        fail_with (fo_status frame) Rej_Malformed
          (if is_empty (er_message (fo_error frame))
           then string_of_protocol_status (fo_status frame) else er_message (fo_error frame)) a
      else if (type =? raw Msg_Error)%N then
        fail_with Wire_Rejected Rej_Malformed
          match snd (decode_error (fo_payload frame)) with
          | Some m => error_describe (em_error m)
          | None => "peer reported an error"
          end a
      else if negb (type =? raw expected)%N then
        fail_with Wire_UnknownMessage Rej_Malformed
          ("expected " +:+ string_of_message_type expected +:+ " but received " +:+
           received_name type) a
      else (Some (fo_payload frame), a)
  end.

(** A payload that could not be encoded is empty. *)
Definition encoded (payload : bytes) (what : string) : Exchange unit :=
  if bool_decide (payload = []) then
    fail_with Wire_OversizedFrame Rej_Internal
      (what +:+ " could not be encoded within the configured bound")
  else mret ().

Definition decoded_as {M} (what : string) (decoded : DecodeOutcome * option M) : Exchange M :=
  match snd decoded with
  | Some m => mret m
  | None =>
      fail_with Wire_MalformedPayload Rej_Malformed
        (if is_empty (er_message (do_error (fst decoded))) then what +:+ " is malformed"
         else er_message (do_error (fst decoded)))
  end.

(** ** Connecting *)

(** What dialling meets: the results of the calls, and the new socket. *)
Record Dial := MkDial {
  dl_sockets : bool;
  dl_created : bool;
  dl_address_valid : bool;
  dl_connects : bool;
  dl_socket : list Arrival
}.

Definition observe_epochs (ce : CoordinatorEpoch) (cl : ClusterEpoch) (te : TopologyEpoch)
    (st : RackAgentStatus) : RackAgentStatus :=
  st <| ru_coordinator_epoch := if ctr_known ce then ce else ru_coordinator_epoch st |>
     <| ru_cluster_epoch := if ctr_known cl then cl else ru_cluster_epoch st |>
     <| ru_topology_epoch := if ctr_known te then te else ru_topology_epoch st |>.

Definition observe_generation (tg : TopologyGeneration) (st : RackAgentStatus) : RackAgentStatus :=
  st <| ru_topology_generation := if ctr_known tg then tg else ru_topology_generation st |>.

(** HELLO and its acknowledgement. *)
Definition handshake : Exchange unit := λ a,
  let c := ag_config a in
  let payload := encode_hello (MkHello kProtocolVersion (ac_cluster c) (ag_boot a) "rack_agent"
                                 version_banner) in
  (encoded payload "hello payload";;
   send_frame Msg_Hello payload;;
   reply ← read_reply Msg_HelloAck;
   ack ← decoded_as "hello ack" (decode_hello_ack reply);
   if negb (ha_accepted ack) then fail_with Wire_Rejected (ha_reason ack) (ha_detail ack) else
   if negb (ha_protocol_version ack =? kProtocolVersion)%N then
     fail_with Wire_UnsupportedVersion Rej_Malformed
       ("coordinator reported protocol version " +:+ to_decimal (ha_protocol_version ack)) else
   if decide (ha_cluster ack ≠ ac_cluster c) then
     fail_with Wire_Rejected Rej_WrongCluster
       ("coordinator accepted a different cluster: " +:+ id_value (ha_cluster ack)) else
   λ a, (Some (),
     on_status (λ st, observe_generation (ha_topology_generation ack)
         (observe_epochs (ha_coordinator_epoch ack) (ha_cluster_epoch ack) (ha_topology_epoch ack) st)
         <| ru_state := Agent_Registering |>)
       (a <| ag_lifecycle := ha_lifecycle ack |>))) a.

(** REGISTER_PUBLISHER and its acknowledgement. *)
Definition register (now : Timestamp) : Exchange unit := λ a,
  let '(used, a) := use_publication a in
  let c := ag_config a in
  let payload := encode_register_publisher
    (MkRegister (ac_cluster c) (make_authority used a) (ac_publisher c) (ac_rack c) (ag_generation a)
       (ac_rack_lifecycle c) (ac_composition c) (ac_origin_label c) now) in
  (encoded payload "registration payload";;
   send_frame Msg_RegisterPublisher payload;;
   reply ← read_reply Msg_RegisterAck;
   ack ← decoded_as "registration ack" (decode_register_ack reply);
   if negb (ra_accepted ack) then fail_with Wire_Rejected (ra_reason ack) (ra_detail ack) else
   λ a, (Some (),
     clear_rejection
       (on_status (λ st, observe_generation (ra_topology_generation ack)
           (observe_epochs (ra_coordinator_epoch ack) (ra_cluster_epoch ack) (ra_topology_epoch ack) st)
           <| ru_registered := true |> <| ru_connected := true |> <| ru_state := Agent_Ready |>
           <| ru_transport := Wire_Ok |>)
         (a <| ag_registered := true |>)))) a.

(** The socket calls of [connect]. *)
Definition dial_up (dial : Dial) : Exchange unit := λ a,
  let c := ag_config a in
  if negb (dl_sockets dial) then
    fail_with Wire_IoError Rej_Internal "socket library initialization failed" a else
  if negb (dl_created dial) then
    fail_with Wire_IoError Rej_Internal
      ("could not create a TCP socket: " +:+ socket_error_text) a else
  if negb (dl_address_valid dial) then
    fail_with Wire_IoError Rej_Internal
      ("coordinator address is not a valid IPv4 address: " +:+ ac_coordinator_host c) a else
  if negb (dl_connects dial) then
    fail_with Wire_NotConnected Rej_Internal
      ("connect to " +:+ ac_coordinator_host c +:+ ":" +:+ to_decimal (ac_coordinator_port c) +:+
       " failed: " +:+ socket_error_text) a else
  (Some (), on_status (λ st, st <| ru_connected := true |> <| ru_state := Agent_Handshaking |>)
              (a <| ag_handle := true |> <| ag_socket := dl_socket dial |>)).

Definition connect (dial : Dial) (now : Timestamp) (a : Agent) : bool * Agent :=
  if ag_stopped a then
    (false, record_failure Wire_NotRunning Rej_NotReady "rack agent transport is stopped" a) else
  if ag_registered a && ag_handle a then (true, a) else
  let a := a <| ag_handle := false |> <| ag_registered := false |> in
  let a := clear_rejection (on_status (λ st, st <| ru_registered := false |>
    <| ru_connected := false |> <| ru_state := Agent_Connecting |> <| ru_transport := Wire_Ok |>) a) in
  let '(result, a) := (dial_up dial;; handshake;; register now) a in
  (bool_decide (is_Some result), a).

(** ** Publishing *)

(** One request and its result; [inl] is the result of a failed transport. *)
Definition submit_request (request : MutationRequest) (a : Agent) :
    (MutationResult + MutationResult) * Agent :=
  let payload := encode_publish_request (MkPublishRequest request) in
  match encoded payload "publish request" a with
  | (None, a) => (inl (transport_result ES_Encode a), a)
  | (Some _, a) =>
      match (send_frame Msg_PublishRequest payload;; read_reply Msg_PublishResult) a with
      | (None, a) => (inl (transport_result ES_Transport a), a)
      | (Some reply, a) =>
          match decoded_as "publish result" (decode_publish_result reply) a with
          | (None, a) => (inl (transport_result ES_Decode a), a)
          | (Some response, a) => (inr (pr_result response), a)
          end
      end
  end.

Definition observe (r : MutationResult) (a : Agent) : Agent :=
  on_status (λ st, observe_generation (mr_topology_generation r)
    (observe_epochs (mr_coordinator_epoch r) (mr_cluster_epoch r) (mr_topology_epoch r) st))
    (a <| ag_lifecycle := mr_lifecycle r |>).

(** The header every topology record is published with. *)
Definition publish_header (observed_at : Timestamp) (a : Agent) (h : DomainHeader) : DomainHeader :=
  h <| dh_cluster_epoch := ru_cluster_epoch (ag_status a) |>
    <| dh_coordinator_epoch := ru_coordinator_epoch (ag_status a) |>
    <| dh_evidence := agent_evidence observed_at a |>
    <| dh_publisher := Some (ac_publisher (ag_config a)) |>.

Definition topology_request (kind : MutationKind) (used : PublicationGeneration)
    (observed_at : Timestamp) (a : Agent) : MutationRequest :=
  (make_request kind used observed_at a) <| rq_reason := "rack_agent_topology_publication" |>.

Definition link_request (observed_at : Timestamp) (configured : InterRackLink)
    (used : PublicationGeneration) (a : Agent) : MutationRequest :=
  (topology_request MK_PublishInterRackLink used observed_at a)
    <| rq_topology_reason := "rack_agent_topology_publication" |>
    <| rq_link := Some (configured
         <| lk_topology_epoch := ru_topology_epoch (ag_status a) |>
         <| lk_topology_generation := ru_topology_generation (ag_status a) |>
         <| lk_header := publish_header observed_at a (lk_header configured) |>
         <| lk_publication := used |> <| lk_boot := Some (ag_boot a) |>) |>.

Definition failure_request (observed_at : Timestamp) (configured : FailureDomain)
    (used : PublicationGeneration) (a : Agent) : MutationRequest :=
  (topology_request MK_PublishFailureDomain used observed_at a)
    <| rq_failure_domain :=
         Some (configured <| fd_header := publish_header observed_at a (fd_header configured) |>) |>.

Definition placement_request (observed_at : Timestamp) (configured : PlacementDomain)
    (used : PublicationGeneration) (a : Agent) : MutationRequest :=
  (topology_request MK_PublishPlacementDomain used observed_at a)
    <| rq_placement_domain :=
         Some (configured <| pd_header := publish_header observed_at a (pd_header configured) |>) |>.

(** The local state of [publish_topology]: whether the transport still works and
    whether a rejection was recorded. *)
Record Topology := MkTopology { tp_transport_ok : bool; tp_recorded : bool }.

(** [attempt]: the first rejection is recorded. *)
Definition attempt (request : MutationRequest) (st : Topology * Agent) : Topology * Agent :=
  let '(tp, a) := st in
  match submit_request request a with
  | (inl _, a) => (MkTopology false (tp_recorded tp), a)
  | (inr result, a) =>
      if accepted result then (tp, observe result a)
      else if tp_recorded tp then (tp, a)
      else (MkTopology (tp_transport_ok tp) true,
            record_rejection (mr_reason result) (describe_result result) a)
  end.

(** One configured record: nothing is sent once the transport failed. *)
Definition publish_record (request : PublicationGeneration → Agent → MutationRequest)
    (st : Topology * Agent) : Topology * Agent :=
  if negb (tp_transport_ok (fst st)) then st else
  let '(used, a) := use_publication (snd st) in
  attempt (request used a) (fst st, a).

(** Links, then failure domains, then placement domains. *)
Definition publish_topology (observed_at : Timestamp) (a : Agent) : bool * Agent :=
  let c := ag_config a in
  let records :=
    (link_request observed_at <$> ac_links c) ++ (failure_request observed_at <$> ac_failure_domains c) ++
    (placement_request observed_at <$> ac_placement_domains c) in
  let '(tp, a) := foldl (λ st request, publish_record request st) (MkTopology true false, a) records in
  (tp_transport_ok tp, a).

Definition not_connected (a : Agent) : MutationResult * Agent :=
  let a := record_failure Wire_NotConnected Rej_NotReady "transport is not connected" a in
  (transport_result ES_Transport a, a).

(** The end of a request that was refused. *)
Definition refused (result : MutationResult) (a : Agent) : MutationResult * Agent :=
  let a := record_rejection (mr_reason result) (describe_result result) a in
  (result, if ag_registered a then set_state Agent_Ready a else a).

Definition has_topology (c : RackAgentConfig) : bool :=
  negb (bool_decide (ac_links c = [])) || negb (bool_decide (ac_failure_domains c = [])) ||
  negb (bool_decide (ac_placement_domains c = [])).

Definition publish (now : Timestamp) (a : Agent) : MutationResult * Agent :=
  if negb (transport_ready a) then not_connected a else
  match bounds_exceeded (ag_config a) with
  | Some detail =>
      (rejected Rej_LimitExceeded ES_ValidateReference (subject a) detail "limit_exceeded",
       record_rejection Rej_LimitExceeded detail a)
  | None =>
      let '(used, a) := use_publication (set_state Agent_Publishing a) in
      match submit_request (make_request MK_AddRack used now a) a with
      | (inl failure, a) => (failure, a)
      | (inr result, a) =>
          if negb (accepted result) then refused result a else
          let a := clear_rejection (observe result a) in
          if ag_registered a && has_topology (ag_config a) then
            let '(topology_ok, a) := publish_topology now a in
            (result, set_state (if topology_ok then Agent_Ready else Agent_Failed) a)
          else (result, set_state Agent_Ready a)
      end
  end.

(** The republication of [supersede] and [revalidate]. *)
Definition republish (now : Timestamp) (a : Agent) : Agent :=
  let '(republished, a) := publish now a in
  if accepted republished then a
  else record_rejection (mr_reason republished) (describe_result republished) a.

(** [now] and [later] are the readings of the clock for the update and for the
    publication that follows. *)
Definition supersede (now later : Timestamp) (new_generation : RackGeneration) (a : Agent) :
    MutationResult * Agent :=
  if negb (transport_ready a) then not_connected a else
  let '(used, a) := use_publication (set_state Agent_Publishing a) in
  let request := (make_request MK_UpdateRackGeneration used now a)
    <| rq_reason := "rack_agent_supersede" |>
    <| rq_expected_rack_generation := Some (ag_generation a) |>
    <| rq_new_rack_generation := Some new_generation |> in
  match submit_request request a with
  | (inl failure, a) => (failure, a)
  | (inr result, a) =>
      if negb (accepted result) then refused result a else
      let a := clear_rejection (observe result a) <| ag_generation := new_generation |> in
      (result, republish later a)
  end.

(** ** Revalidation, heartbeats and snapshots *)

Definition revalidated_result (response : RevalidateResponseMessage) (a : Agent) : MutationResult :=
  let st := ag_status a in
  let explanation := explanation_make "revalidation_accepted" (subject a)
    (if is_empty (vs_detail response) then "recovered state revalidated" else vs_detail response) in
  let explanation := explanation_add "revalidation_accepted" (subject a)
    "rack evidence is current under the observed authority" explanation in
  default_result
    <| mr_outcome := Out_Accepted |> <| mr_reason := Rej_None |>
    <| mr_lifecycle := vs_lifecycle response |>
    <| mr_cluster_epoch := ru_cluster_epoch st |>
    <| mr_coordinator_epoch := ru_coordinator_epoch st |>
    <| mr_topology_epoch := ru_topology_epoch st |>
    <| mr_topology_generation := ru_topology_generation st |>
    <| mr_publication_generation := ru_publication st |>
    <| mr_explanation := bound_factors (sort_factors explanation) |>.

Definition revalidate (now later : Timestamp) (a : Agent) : MutationResult * Agent :=
  if negb (transport_ready a) then not_connected a else
  let '(used, a) := use_publication (set_state Agent_Publishing a) in
  let request := make_request MK_RevalidateRecoveredState used now a in
  let payload := encode_revalidate_request
    (MkRevalidateRequest (ac_cluster (ag_config a)) (rq_authority request) [ac_rack (ag_config a)]) in
  match encoded payload "revalidation request" a with
  | (None, a) => (transport_result ES_Encode a, a)
  | (Some _, a) =>
      match (send_frame Msg_RevalidateRequest payload;; read_reply Msg_RevalidateResponse) a with
      | (None, a) => (transport_result ES_Transport a, a)
      | (Some reply, a) =>
          match decoded_as "revalidation response" (decode_revalidate_response reply) a with
          | (None, a) => (transport_result ES_Decode a, a)
          | (Some response, a) =>
              if negb (vs_accepted response) then
                let a := record_rejection (vs_reason response) (vs_detail response) a in
                (rejected (vs_reason response) ES_ValidateAuthority (subject a) (vs_detail response)
                   "revalidation_refused",
                 if ag_registered a then set_state Agent_Ready a else a)
              else
                let a := set_state Agent_Publishing (a <| ag_lifecycle := vs_lifecycle response |>) in
                (revalidated_result response a, republish later a)
          end
      end
  end.

Definition heartbeat_result (ack : HeartbeatAckMessage) (used : PublicationGeneration) (a : Agent) :
    MutationResult :=
  let st := ag_status a in
  let explanation := explanation_make "heartbeat_accepted" (subject a)
    (if is_empty (hk_detail ack) then "heartbeat accepted" else hk_detail ack) in
  default_result
    <| mr_outcome := Out_NoChange |> <| mr_reason := Rej_None |>
    <| mr_lifecycle := hk_lifecycle ack |>
    <| mr_cluster_epoch := ru_cluster_epoch st |>
    <| mr_coordinator_epoch := ru_coordinator_epoch st |>
    <| mr_topology_epoch := ru_topology_epoch st |>
    <| mr_topology_generation := ru_topology_generation st |>
    <| mr_publication_generation := used |>
    <| mr_explanation := bound_factors (sort_factors explanation) |>.

Definition heartbeat (now : Timestamp) (a : Agent) : MutationResult * Agent :=
  if negb (transport_ready a) then not_connected a else
  let '(used, a) := use_publication a in
  let payload := encode_heartbeat
    (MkHeartbeat (ac_cluster (ag_config a)) (make_authority used a) now) in
  match encoded payload "heartbeat payload" a with
  | (None, a) => (transport_result ES_Encode a, a)
  | (Some _, a) =>
      match (send_frame Msg_Heartbeat payload;; read_reply Msg_HeartbeatAck) a with
      | (None, a) => (transport_result ES_Transport a, a)
      | (Some reply, a) =>
          match decoded_as "heartbeat ack" (decode_heartbeat_ack reply) a with
          | (None, a) => (transport_result ES_Decode a, a)
          | (Some ack, a) =>
              if negb (hk_accepted ack) then
                let a := record_rejection (hk_reason ack) (hk_detail ack) a in
                (rejected (hk_reason ack) ES_ValidateAuthority (subject a) (hk_detail ack)
                   "heartbeat_refused", a)
              else
                let a := clear_rejection (on_status (observe_epochs (hk_coordinator_epoch ack)
                  (hk_cluster_epoch ack) (hk_topology_epoch ack))
                  (a <| ag_lifecycle := hk_lifecycle ack |>)) in
                (heartbeat_result ack used a, a)
          end
      end
  end.

Definition blank_snapshot : SnapshotResponseMessage :=
  MkSnapshotResponse false Rej_None "" (from_snapshot None).

Definition request_snapshot (a : Agent) : SnapshotResponseMessage * Agent :=
  if negb (transport_ready a) then (blank_snapshot, snd (not_connected a)) else
  let '(_, a) := use_publication a in
  let payload := encode_snapshot_request (MkSnapshotRequest (ac_cluster (ag_config a))) in
  match (encoded payload "snapshot request";;
         send_frame Msg_SnapshotRequest payload;;
         reply ← read_reply Msg_SnapshotResponse;
         decoded_as "snapshot response" (decode_snapshot_response reply)) a with
  | (None, a) => (blank_snapshot, a)
  | (Some response, a) =>
      (response,
       if sr_accepted response
       then clear_rejection (a <| ag_snapshot_digest := Some (vw_semantic_digest (sr_view response)) |>)
       else record_rejection (sr_reason response) (sr_detail response) a)
  end.

Definition blank_validation : ValidateSnapshotResponseMessage :=
  MkValidateResponse (MkWireValidation false false [] [] no_explanation).

Definition validate_snapshot (view : SnapshotView) (a : Agent) :
    ValidateSnapshotResponseMessage * Agent :=
  if negb (transport_ready a) then (blank_validation, snd (not_connected a)) else
  let '(_, a) := use_publication a in
  let payload := encode_validate_request (MkValidateRequest view) in
  match (encoded payload "validate request";;
         send_frame Msg_ValidateSnapshotRequest payload;;
         reply ← read_reply Msg_ValidateSnapshotResponse;
         decoded_as "validation response" (decode_validate_response reply)) a with
  | (None, a) => (blank_validation, a)
  | (Some response, a) => (response, a)
  end.

(** [stop]: the SHUTDOWN frame is best effort. *)
Definition stop (a : Agent) : Agent :=
  if ag_stopped a then a else
  let a := a <| ag_stopped := true |> in
  let a :=
    if negb (ag_handle a) then a else
    let payload := encode_shutdown (MkShutdown "rack_agent_stopping") in
    let sequence := ((ag_sequence a + 1) mod 2 ^ 64)%N in
    let frame := encode_frame Msg_Shutdown sequence payload 0 kMaxFramePayloadBytes in
    let a := a <| ag_sequence := sequence |> <| ag_handle := false |> in
    match ag_sends a with
    | true :: sends => a <| ag_sends := sends |> <| ag_sent := ag_sent a ++ frame |>
    | _ => a
    end in
  on_status (λ st, st <| ru_registered := false |> <| ru_connected := false |>
      <| ru_state := Agent_Stopped |> <| ru_transport := Wire_NotRunning |>
      <| ru_detail := "transport stopped" |>) (a <| ag_registered := false |>).

End agent.
