(* ===== verification/AgentProofs.v ===== *)
(** * What the rack agent guarantees

    Over every history of its operations an agent keeps its identity, never
    reuses a publication number, and is silent once stopped; and its exchanges
    compose with the session of the coordinator. *)

From S2P Require Import Prelude Identity Counter Taxonomy Evidence Types State Readiness Invariant.
From S2P Require Import RackRef Explain EngineBase EngineRack Durable Commit Snapshot Wire Codec WireStream.
From S2P Require Import WireRecords WireMessages Frame FrameProofs Scenario Process ProcessProofs.
From S2P Require Import Transport Session SessionProofs Agent.

(** ** The operations of an agent *)

Inductive AgentOp :=
  | Ao_Connect (dial : Dial) (now : Timestamp)
  | Ao_Publish (now : Timestamp)
  | Ao_Supersede (now later : Timestamp) (generation : RackGeneration)
  | Ao_Revalidate (now later : Timestamp)
  | Ao_Heartbeat (now : Timestamp)
  | Ao_RequestSnapshot
  | Ao_ValidateSnapshot (view : SnapshotView)
  | Ao_Stop.

Section agent_proofs.
Context (err build : string).

Definition agent_step (op : AgentOp) (a : Agent) : Agent :=
  match op with
  | Ao_Connect dial now => snd (connect err build dial now a)
  | Ao_Publish now => snd (publish err now a)
  | Ao_Supersede now later generation => snd (supersede err now later generation a)
  | Ao_Revalidate now later => snd (revalidate err now later a)
  | Ao_Heartbeat now => snd (heartbeat err now a)
  | Ao_RequestSnapshot => snd (request_snapshot err a)
  | Ao_ValidateSnapshot view => snd (validate_snapshot err view a)
  | Ao_Stop => stop a
  end.

Definition agent_run (ops : list AgentOp) (a : Agent) : Agent := foldl (λ a op, agent_step op a) a ops.

(** ** What every operation respects *)

(** [advances a a']: the identity of the agent is the same, publication numbers
    have not gone back, what was sent is still sent, and a stopped agent is
    stopped and has sent nothing more. *)
Record advances (a a' : Agent) : Prop := {
  adv_config : ag_config a' = ag_config a;
  adv_boot : ag_boot a' = ag_boot a;
  adv_publication : (ctr (ag_publication a) <= ctr (ag_publication a'))%N;
  adv_sent : ag_sent a `prefix_of` ag_sent a';
  adv_stopped : ag_stopped a = true → ag_stopped a' = true ∧ ag_sent a' = ag_sent a
}.

#[global] Instance advances_preorder : PreOrder advances.
Proof.
  split.
  - intros a. by split.
  - intros a b c [C1 B1 P1 S1 T1] [C2 B2 P2 S2 T2]. split; [congruence..|lia| |].
    + by etrans.
    + intros H. destruct (T1 H) as [H' E1]. destruct (T2 H') as [? E2]. split; [done|congruence].
Qed.

(** An agent that differs in none of these. *)
Definition same_wire (a a' : Agent) : Prop :=
  ag_config a' = ag_config a ∧ ag_boot a' = ag_boot a ∧ ag_publication a' = ag_publication a ∧
  ag_sent a' = ag_sent a ∧ ag_stopped a' = ag_stopped a.

Lemma same_wire_advances a a' : same_wire a a' → advances a a'.
Proof.
  intros (E1&E2&E3&E4&E5). split; [done|done|by rewrite E3|by rewrite E4|].
  intros H. split; congruence.
Qed.

Lemma on_status_advances f a : advances a (on_status f a).
Proof. by apply same_wire_advances. Qed.

(** The same for a computation, and its rules. *)
Definition steady {A} (m : Exchange A) : Prop := ∀ a, advances a (snd (m a)).

Lemma steady_ret {A} (x : A) : steady (mret x).
Proof. intros a. reflexivity. Qed.

Lemma steady_bind {A B} (m : Exchange A) (f : A → Exchange B) :
  steady m → (∀ x, steady (f x)) → steady (m ≫= f).
Proof.
  intros Hm Hf a. pose proof (Hm a) as H. unfold mbind, Exchange_bind.
  destruct (m a) as [[x|] a']; cbn in *; [|done]. etrans; [exact H|apply Hf].
Qed.

Lemma steady_fail {A} transport reason detail : steady (A := A) (fail_with transport reason detail).
Proof. intros a. by apply on_status_advances. Qed.

Lemma steady_send type payload : steady (send_frame err type payload).
Proof.
  intros a. unfold send_frame, transport_ready. destruct (ag_handle a && negb (ag_stopped a)) eqn:Et; cbn [negb].
  2: by apply on_status_advances.
  apply andb_true_iff in Et as [_ Es%negb_true_iff].
  case_bool_decide; [by apply same_wire_advances|]. cbn [ag_sends upd upd_ag_sequence].
  destruct (ag_sends a) as [|[] sends]; try by apply same_wire_advances.
  split; try done; cbn; [by apply prefix_app_r|congruence].
Qed.

Lemma steady_read expected : steady (read_reply err expected).
Proof.
  intros a. unfold read_reply. destruct (read_frame _ _) as [r socket].
  destruct r as [frame|[]| |]; try by apply same_wire_advances.
  repeat case_match; by apply same_wire_advances.
Qed.

Lemma steady_encoded payload what : steady (encoded payload what).
Proof. unfold encoded. case_bool_decide; [apply steady_fail|apply steady_ret]. Qed.

Lemma steady_decoded {M} what (d : DecodeOutcome * option M) : steady (decoded_as what d).
Proof. unfold decoded_as. destruct (snd d); [apply steady_ret|apply steady_fail]. Qed.

Ltac steady :=
  repeat first [
    apply steady_bind; [|intros ?] | apply steady_ret | apply steady_fail | apply steady_send
    | apply steady_read | apply steady_encoded | apply steady_decoded
    | case_decide | case_bool_decide | match goal with |- steady (if ?b then _ else _) => destruct b end ].

(** A publication number is used once. *)
Lemma use_spec a used a' :
  use_publication a = (used, a') →
  used = ag_publication a ∧ advances a a' ∧ ag_registered a' = ag_registered a ∧
  match next used with
  | Some following => ag_publication a' = following
  | None => ag_publication a' = used
  end.
Proof.
  unfold use_publication, take_publication. intros [= <- <-].
  destruct (next (ag_publication a)) as [c|] eqn:E.
  - apply next_Some in E as Hc. split_and!; [done| |done..]. split; try done. cbn. lia.
  - split_and!; [done| |done..]. by apply same_wire_advances.
Qed.

(** Case analysis of a computation that a fact [H] is about. *)
Tactic Notation "run_in" hyp(H) "as" simple_intropattern(pat) :=
  match type of H with advances _ (snd ?x) => destruct x as pat end; cbn [snd] in H.

(** The rules applied to one agent. *)
Ltac steady_at :=
  match goal with
  | |- advances ?a (snd (?m ?a)) => cut (steady m); [let H := fresh in intros H; exact (H a)|]
  end; steady; try (intros ?; by apply same_wire_advances).

Lemma steady_handshake : steady (handshake err build).
Proof. intros a. unfold handshake. cbv zeta. steady_at. Qed.

Lemma steady_register now : steady (register err now).
Proof.
  intros a. unfold register. destruct (use_publication a) as [used a1] eqn:E.
  apply use_spec in E as (_&H&_). etrans; [exact H|]. cbv zeta. steady_at.
Qed.

Lemma steady_dial dial : steady (dial_up err dial).
Proof. intros a. unfold dial_up. repeat case_match; by apply same_wire_advances. Qed.

Lemma connect_advances dial now a : advances a (snd (connect err build dial now a)).
Proof.
  unfold connect. destruct (ag_stopped a) eqn:Es; [by apply on_status_advances|].
  destruct (ag_registered a && ag_handle a); [done|].
  set (a1 := clear_rejection _). assert (advances a a1) as H by by apply same_wire_advances.
  etrans; [exact H|]. clearbody a1.
  assert (Hs : steady (dial_up err dial;; handshake err build;; register err now)).
  { apply steady_bind; [apply steady_dial|intros _].
    apply steady_bind; [apply steady_handshake|intros _]. apply steady_register. }
  specialize (Hs a1). by run_in Hs as [r a2].
Qed.

(** A request, whatever comes of it. *)
Lemma submit_request_advances request a : advances a (snd (submit_request err request a)).
Proof.
  unfold submit_request. pose proof (steady_encoded
    (encode_publish_request (MkPublishRequest request)) "publish request" a) as H1.
  run_in H1 as [[[]|] a1]; [|done]. etrans; [exact H1|].
  assert (Hs : steady (send_frame err Msg_PublishRequest (encode_publish_request (MkPublishRequest request));;
                       read_reply err Msg_PublishResult)) by steady.
  specialize (Hs a1). run_in Hs as [[reply|] a2]; [|done]. etrans; [exact Hs|].
  pose proof (steady_decoded "publish result" (decode_publish_result reply) a2) as H2.
  by run_in H2 as [[m|] a3].
Qed.


(** An operation that sends takes a publication number first. *)
Definition numbered (a a' : Agent) : Prop :=
  same_wire a a' ∨ ∃ b, same_wire a b ∧ advances (snd (use_publication b)) a'.

Lemma use_advances a : advances a (snd (use_publication a)).
Proof. destruct (use_publication a) as [used a'] eqn:E. by apply use_spec in E as (_&H&_). Qed.

Lemma numbered_advances a a' : numbered a a' → advances a a'.
Proof.
  intros [H|(b&Hb&H)]; [by apply same_wire_advances|].
  etrans; [by apply same_wire_advances|]. etrans; [apply use_advances|done].
Qed.

(** So nothing is sent twice under one number, until the counter saturates. *)
Lemma numbered_fresh a a' following :
  numbered a a' → next (ag_publication a) = Some following →
  ag_sent a' = ag_sent a ∨ (ctr (ag_publication a) < ctr (ag_publication a'))%N.
Proof.
  intros [(_&_&_&E&_)|(b&(_&_&E&_)&H)] Hn; [by left|right].
  destruct (use_publication b) as [used a1] eqn:Eu. cbn [snd] in H.
  apply use_spec in Eu as (->&_&_&Hp). rewrite E, Hn in Hp. apply next_Some in Hn.
  apply adv_publication in H. rewrite Hp in H. lia.
Qed.

(** ** Publications *)

Lemma attempt_advances request st : advances (snd st) (snd (attempt err request st)).
Proof.
  destruct st as [tp a]. cbn [snd]. unfold attempt.
  pose proof (submit_request_advances request a) as H. run_in H as [[failure|result] a1]; [done|].
  etrans; [exact H|]. case_match; [by apply same_wire_advances|].
  case_match; [reflexivity|by apply same_wire_advances].
Qed.

Lemma publish_record_advances request st : advances (snd st) (snd (publish_record err request st)).
Proof.
  unfold publish_record. destruct (negb _); [reflexivity|].
  destruct (use_publication (snd st)) as [used a] eqn:E. apply use_spec in E as (_&H&_).
  etrans; [exact H|]. exact (attempt_advances (request used a) (fst st, a)).
Qed.

Lemma publish_records_advances requests st :
  advances (snd st) (snd (foldl (λ st request, publish_record err request st) st requests)).
Proof.
  revert st. induction requests as [|r rs IH]; intros st; [reflexivity|].
  cbn [foldl]. etrans; [apply publish_record_advances|apply IH].
Qed.

Lemma publish_topology_advances now a : advances a (snd (publish_topology err now a)).
Proof.
  unfold publish_topology. cbv zeta.
  match goal with |- context [foldl ?f (?tp, a) ?l] =>
    pose proof (publish_records_advances l (tp, a)) as H end.
  by run_in H as [tp a1].
Qed.

Lemma set_state_advances s a : advances a (set_state s a).
Proof. by apply same_wire_advances. Qed.

Lemma refused_advances result a : advances a (snd (refused result a)).
Proof. unfold refused. cbv zeta. case_match; by apply same_wire_advances. Qed.

Lemma publish_numbered now a : numbered a (snd (publish err now a)).
Proof.
  unfold publish. destruct (negb _); [by left|].
  destruct (bounds_exceeded _); [by left|].
  right. exists (set_state Agent_Publishing a). split; [done|].
  destruct (use_publication _) as [used a1].
  pose proof (submit_request_advances (make_request MK_AddRack used now a1) a1) as H.
  run_in H as [[failure|result] a2]; [done|]. etrans; [exact H|]. clear H.
  destruct (negb _); [apply refused_advances|].
  set (a3 := clear_rejection _). assert (advances a2 a3) as H by by apply same_wire_advances.
  etrans; [exact H|]. clearbody a3. clear H.
  destruct (_ && _); [|apply set_state_advances].
  pose proof (publish_topology_advances now a3) as H. run_in H as [ok a4].
  etrans; [exact H|]. apply set_state_advances.
Qed.

Lemma republish_advances now a : advances a (republish err now a).
Proof.
  unfold republish. pose proof (numbered_advances _ _ (publish_numbered now a)) as H. run_in H as [result a1].
  etrans; [exact H|]. case_match; by apply same_wire_advances.
Qed.

Lemma supersede_numbered now later generation a :
  numbered a (snd (supersede err now later generation a)).
Proof.
  unfold supersede. destruct (negb _); [by left|].
  right. exists (set_state Agent_Publishing a). split; [done|].
  destruct (use_publication _) as [used a1]. cbv zeta.
  match goal with |- context [submit_request err ?r a1] =>
    pose proof (submit_request_advances r a1) as H end.
  run_in H as [[failure|result] a2]; [done|]. etrans; [exact H|]. clear H.
  destruct (negb _); [apply refused_advances|]. cbn [snd].
  etrans; [|apply republish_advances]. by apply same_wire_advances.
Qed.

(** ** Revalidation, heartbeats and snapshots *)

(** The three steps every one of them starts with. *)
Lemma exchange_advances type expected payload a :
  advances a (snd ((send_frame err type payload;; read_reply err expected) a)).
Proof. steady_at. Qed.

Lemma revalidate_numbered now later a : numbered a (snd (revalidate err now later a)).
Proof.
  unfold revalidate. destruct (negb _); [by left|].
  right. exists (set_state Agent_Publishing a). split; [done|].
  destruct (use_publication _) as [used a1]. cbv zeta.
  set (payload := encode_revalidate_request _). clearbody payload.
  pose proof (steady_encoded payload "revalidation request" a1) as H.
  run_in H as [[[]|] a2]; [|done]. etrans; [exact H|]. clear H.
  pose proof (exchange_advances Msg_RevalidateRequest Msg_RevalidateResponse payload a2) as H.
  run_in H as [[reply|] a3]; [|done]. etrans; [exact H|]. clear H.
  pose proof (steady_decoded "revalidation response" (decode_revalidate_response reply) a3) as H.
  run_in H as [[response|] a4]; [|done]. etrans; [exact H|]. clear H.
  destruct (negb _); cbn [snd].
  - case_match; by apply same_wire_advances.
  - etrans; [|apply republish_advances]. by apply same_wire_advances.
Qed.

Lemma heartbeat_numbered now a : numbered a (snd (heartbeat err now a)).
Proof.
  unfold heartbeat. destruct (negb _); [by left|].
  right. exists a. split; [done|].
  destruct (use_publication _) as [used a1]. cbv zeta. set (payload := encode_heartbeat _). clearbody payload.
  pose proof (steady_encoded payload "heartbeat payload" a1) as H.
  run_in H as [[[]|] a2]; [|done]. etrans; [exact H|]. clear H.
  pose proof (exchange_advances Msg_Heartbeat Msg_HeartbeatAck payload a2) as H.
  run_in H as [[reply|] a3]; [|done]. etrans; [exact H|]. clear H.
  pose proof (steady_decoded "heartbeat ack" (decode_heartbeat_ack reply) a3) as H.
  run_in H as [[ack|] a4]; [|done]. etrans; [exact H|]. clear H.
  destruct (negb _); by apply same_wire_advances.
Qed.

Lemma request_snapshot_numbered a : numbered a (snd (request_snapshot err a)).
Proof.
  unfold request_snapshot. destruct (negb _); [by left|].
  right. exists a. split; [done|].
  destruct (use_publication _) as [used a1]. cbv zeta. set (payload := encode_snapshot_request _). clearbody payload.
  assert (Hs : steady (encoded payload "snapshot request";;
         send_frame err Msg_SnapshotRequest payload;;
         reply ← read_reply err Msg_SnapshotResponse;
         decoded_as "snapshot response" (decode_snapshot_response reply))) by steady.
  specialize (Hs a1). run_in Hs as [[response|] a2]; [|done].
  etrans; [exact Hs|]. cbn [snd]. case_match; by apply same_wire_advances.
Qed.

Lemma validate_snapshot_numbered view a : numbered a (snd (validate_snapshot err view a)).
Proof.
  unfold validate_snapshot. destruct (negb _); [by left|].
  right. exists a. split; [done|].
  destruct (use_publication _) as [used a1]. cbv zeta. set (payload := encode_validate_request _). clearbody payload.
  assert (Hs : steady (encoded payload "validate request";;
         send_frame err Msg_ValidateSnapshotRequest payload;;
         reply ← read_reply err Msg_ValidateSnapshotResponse;
         decoded_as "validation response" (decode_validate_response reply))) by steady.
  specialize (Hs a1). by run_in Hs as [[response|] a2].
Qed.

Lemma stop_advances a : advances a (stop a).
Proof.
  unfold stop. destruct (ag_stopped a) eqn:Es; [reflexivity|].
  assert (H : ∀ b, ag_config b = ag_config a → ag_boot b = ag_boot a →
    ag_publication b = ag_publication a → ag_sent a `prefix_of` ag_sent b → advances a b).
  { intros b E1 E2 E3 E4. split; [done..|by rewrite E3|done|congruence]. }
  cbv zeta. apply H; destruct (negb _); cbn; try done; destruct (ag_sends a) as [|[] ?]; cbn; try done.
  by apply prefix_app_r.
Qed.

(** The operations that send under a publication number. *)
Definition sends_numbered (op : AgentOp) : bool :=
  match op with Ao_Connect _ _ | Ao_Stop => false | _ => true end.

Lemma agent_step_numbered op a : sends_numbered op = true → numbered a (agent_step op a).
Proof.
  destruct op; cbn [agent_step sends_numbered]; try done; intros _;
    [apply publish_numbered|apply supersede_numbered|apply revalidate_numbered|
     apply heartbeat_numbered|apply request_snapshot_numbered|apply validate_snapshot_numbered].
Qed.

Lemma agent_step_advances op a : advances a (agent_step op a).
Proof.
  destruct (sends_numbered op) eqn:E; [by apply numbered_advances, agent_step_numbered|].
  destruct op; try discriminate; [apply connect_advances|apply stop_advances].
Qed.

Lemma agent_run_advances ops a : advances a (agent_run ops a).
Proof.
  revert a. induction ops as [|op ops IH]; intros a; [reflexivity|].
  cbn. etrans; [apply agent_step_advances|apply IH].
Qed.

Lemma stop_stops a : ag_stopped (stop a) = true.
Proof. unfold stop. destruct (ag_stopped a) eqn:E; [done|]. cbn. repeat case_match; done. Qed.

End agent_proofs.

