(* ===== verification/EndToEnd.v ===== *)
(** * An agent and the coordinator it talks to

    The agent of [src/rack_agent.cpp] on one end of a connection and a session of
    [src/coordinator_network.cpp] on the other: the handshake agrees on the
    authority, and a mutation submitted through the network is the mutation
    itself. *)

From S2P Require Import Prelude Identity Counter Taxonomy Evidence Types State Readiness Invariant.
From S2P Require Import RackRef Explain EngineBase EngineRack Durable Commit Snapshot Wire Codec WireStream.
From S2P Require Import WireRecords WireMessages Frame FrameProofs Scenario Process ProcessProofs.
From S2P Require Import Transport Session SessionProofs Agent AgentProofs.

(** ** Messages on a connection *)

(** A message that survives the wire under a payload bound. *)
Definition carries (max : N) (m : Payload) : Prop :=
  payload_ok m ∧ encode_payload m ≠ [] ∧ (size (encode_payload m) <= bounded_payload max)%N.

(** Its bytes as the agent frames it. *)
Definition on_wire (sequence : N) (m : Payload) : bytes :=
  encode_frame (payload_type m) sequence (encode_payload m) 0 kMaxFramePayloadBytes.

(** The number of the frame after [sequence]. *)
Definition following (sequence : N) : N := ((sequence + 1) mod 2 ^ 64)%N.

Lemma following_lt sequence : (following sequence < 2 ^ 64)%N.
Proof. by apply N.mod_lt. Qed.

(** Every frame is written alike under every bound that carries its message. *)
Lemma on_wire_bound max sequence m :
  carries max m → carries kMaxFramePayloadBytes m →
  encode_frame (payload_type m) sequence (encode_payload m) 0 max = on_wire sequence m.
Proof. intros (_&_&H1) (_&_&H2). by apply encode_frame_bound. Qed.

Lemma on_wire_nonempty sequence m : carries kMaxFramePayloadBytes m → on_wire sequence m ≠ [].
Proof.
  intros (_&_&H). unfold on_wire. rewrite encode_frame_eq.
  destruct (N.ltb_spec (bounded_payload kMaxFramePayloadBytes) (size (encode_payload m))); [lia|].
  intros E. apply (f_equal length) in E. unfold frame_bytes in E. rewrite !length_app in E.
  rewrite length_header_bytes in E. cbn in E. lia.
Qed.

Lemma carried_decodes max m : carries max m → decode_payload (payload_type m) (encode_payload m) = Some m.
Proof.
  intros (H1&H2&H3). apply decode_payload_exact; [|done].
  pose proof (bounded_payload_le max). unfold kAbsoluteMaxFramePayloadBytes, kMaxWriterBytes in *. lia.
Qed.

(** ** The end of the agent *)

Lemma agent_sends err m a sends :
  transport_ready a = true → ag_sends a = true :: sends → carries kMaxFramePayloadBytes m →
  Agent.send_frame err (payload_type m) (encode_payload m) a =
  (Some (), a <| ag_sequence := following (ag_sequence a) |> <| ag_sends := sends |>
              <| ag_sent := ag_sent a ++ on_wire (following (ag_sequence a)) m |>).
Proof.
  intros Hr Hs Hm. unfold Agent.send_frame. rewrite Hr. cbn [negb].
  fold (following (ag_sequence a)). fold (on_wire (following (ag_sequence a)) m).
  rewrite bool_decide_false by by apply on_wire_nonempty.
  cbn [ag_sends upd upd_ag_sequence]. by rewrite Hs.
Qed.

(** A message that reached a reader, however it was segmented. *)
Lemma wire_read sequence m max socket more :
  (sequence < 2 ^ 64)%N → carries max m → carries kMaxFramePayloadBytes m →
  stream socket = Some (on_wire sequence m ++ more) →
  ∃ rest, read_frame max socket = (FR_Frame (framed (payload_type m) sequence (encode_payload m) 0), rest) ∧
    stream rest = Some more.
Proof.
  intros Hs Hm Hk Hst. rewrite <-(on_wire_bound max) in Hst by done.
  apply read_frame_spec in Hst; try done. by destruct Hm as (_&_&?).
Qed.

Lemma agent_reads err sequence m more a :
  payload_type m ≠ Msg_Error → (sequence < 2 ^ 64)%N → carries kMaxFramePayloadBytes m →
  stream (ag_socket a) = Some (on_wire sequence m ++ more) →
  ∃ socket, read_reply err (payload_type m) a = (Some (encode_payload m), a <| ag_socket := socket |>) ∧
    stream socket = Some more.
Proof.
  intros Ht Hs Hm Hst. destruct (wire_read _ _ _ _ _ Hs Hm Hm Hst) as (rest&E&Er).
  exists rest. split; [|done]. unfold read_reply. rewrite E. unfold framed.
  cbn [fo_status fo_header fo_payload hd_type]. rewrite bool_decide_true by done. cbn [negb].
  destruct (N.eqb_spec (raw (payload_type m)) (raw Msg_Error)) as [Hbad|_].
  { by apply raw_inj in Hbad. }
  by rewrite N.eqb_refl.
Qed.

(** ** The end of the coordinator *)

Lemma session_reads net now p stats th sequence m more :
  se_stop (th_session th) = false → (sequence < 2 ^ 64)%N →
  carries (session_max_payload net) m → carries kMaxFramePayloadBytes m →
  stream (th_socket th) = Some (on_wire sequence m ++ more) →
  ∃ stats' socket, stream socket = Some more ∧
    session_turn net now true p stats th =
    let '(session, action) :=
      dispatch (cf_cluster (co_config (pr_coordinator p))) now (co_canonical (pr_coordinator p))
        (raw (payload_type m)) (encode_payload m) (th_session th) in
    act net true p stats' (th <| th_socket := socket |> <| th_session := session |>) action.
Proof.
  intros Hstop Hs Hm Hk Hst. destruct (wire_read _ _ _ _ _ Hs Hm Hk Hst) as (rest&E&Er).
  eexists _, rest. split; [done|]. unfold session_turn. rewrite Hstop, E.
  unfold framed. cbn [fo_status]. rewrite bool_decide_true by done. cbn [negb]. reflexivity.
Qed.

Lemma session_sends net m stats th :
  carries (nc_max_frame_payload net) m → carries kMaxFramePayloadBytes m →
  ∃ stats', Session.send_frame net true m (stats, th) =
    (stats', th <| th_session := (th_session th)
                    <| se_sequence := following (se_sequence (th_session th)) |> |>
                <| th_sent := th_sent th ++ on_wire (following (se_sequence (th_session th))) m |>).
Proof.
  intros Hm Hk. unfold Session.send_frame. fold (following (se_sequence (th_session th))).
  rewrite on_wire_bound by done. rewrite bool_decide_false by by apply on_wire_nonempty.
  cbn [orb negb]. by eexists.
Qed.

(** ** The handshake *)

#[local] Strategy 1000 [encode_message decode_message].

(** The HELLO of an agent. *)
Definition hello_of (build : string) (a : Agent) : HelloMessage :=
  MkHello kProtocolVersion (ac_cluster (ag_config a)) (ag_boot a) "rack_agent" (version_banner build).

(** The acknowledgement of a coordinator that accepts. *)
Definition ack_of (cluster : ClusterId) (s : ClusterState) : HelloAckMessage :=
  MkHelloAck kProtocolVersion cluster (cs_coordinator_epoch s) (cs_epoch s) (cs_topology_epoch s)
    (cs_topology_generation s) (cs_lifecycle s) true Rej_None "".

Lemma hello_decodes max m :
  carries max (P_Hello m) → snd (decode_hello (encode_hello m)) = Some m.
Proof.
  intros (H1&H2&_). cbn [payload_ok encode_payload] in H1, H2. unfold decode_hello, encode_hello in *.
  by rewrite (encode_decode _ _ _ _ _ m (codec_hello "hello") H1 H2).
Qed.

Lemma hello_ack_decodes max m :
  carries max (P_HelloAck m) → snd (decode_hello_ack (encode_hello_ack m)) = Some m.
Proof.
  intros (H1&H2&_). cbn [payload_ok encode_payload] in H1, H2. unfold decode_hello_ack, encode_hello_ack in *.
  by rewrite (encode_decode _ _ _ _ _ m (codec_hello_ack "hello_ack") H1 H2).
Qed.

(** The turn of a session that meets the HELLO of an agent of its cluster. *)
Lemma session_hello build net now p stats th a sequence more :
  se_stop (th_session th) = false → (sequence < 2 ^ 64)%N →
  ac_cluster (ag_config a) = cf_cluster (co_config (pr_coordinator p)) →
  let s := co_canonical (pr_coordinator p) in
  let hello := P_Hello (hello_of build a) in
  let ack := P_HelloAck (ack_of (ac_cluster (ag_config a)) s) in
  carries (session_max_payload net) hello → carries kMaxFramePayloadBytes hello →
  carries (nc_max_frame_payload net) ack → carries kMaxFramePayloadBytes ack →
  stream (th_socket th) = Some (on_wire sequence hello ++ more) →
  ∃ stats' th', session_turn net now true p stats th = Turn_Done p stats' th' ∧
    th_session th' = (th_session th) <| se_boot := Some (ag_boot a) |> <| se_handshake := true |>
      <| se_sequence := following (se_sequence (th_session th)) |> ∧
    th_phase th' = th_phase th ∧ stream (th_socket th') = Some more ∧
    th_sent th' = th_sent th ++ on_wire (following (se_sequence (th_session th))) ack.
Proof.
  intros Hstop Hseq Hc s hello ack Hh Hhk Ha Hak Hst.
  destruct (session_reads net now p stats th sequence hello more Hstop Hseq Hh Hhk Hst)
    as (stats1&socket&Hsock&->).
  unfold dispatch. cbn [payload_type hello]. rewrite N.eqb_refl. unfold on_hello.
  cbn [encode_payload hello]. rewrite (hello_decodes _ _ Hh).
  unfold hello_of. cbn [he_protocol_version he_cluster he_boot].
  rewrite N.eqb_refl, decide_False by (rewrite Hc; tauto). cbn [negb act].
  change (MkHelloAck _ _ _ _ _ _ _ _ _ _) with
    (ack_of (cf_cluster (co_config (pr_coordinator p))) s). rewrite <-Hc. fold ack.
  match goal with |- context [Session.send_frame net true ack (?st, ?t)] =>
    destruct (session_sends net ack st t Ha Hak) as [stats2 E] end.
  rewrite E. eexists _, _. split; [reflexivity|]. by split_and!.
Qed.

(** A successful first half of a bind. *)
Lemma bind_some {A B} (m : Exchange A) (f : A → Exchange B) x a a' :
  m a = (Some x, a') → (m ≫= f) a = f x a'.
Proof. unfold mbind, Exchange_bind. by intros ->. Qed.

Lemma encoded_some payload what a : payload ≠ [] → encoded payload what a = (Some (), a).
Proof. intros H. unfold encoded. by rewrite bool_decide_false. Qed.

Lemma decoded_some {M} what (d : DecodeOutcome * option M) m a :
  snd d = Some m → decoded_as what d a = (Some m, a).
Proof. intros H. unfold decoded_as. by rewrite H. Qed.

(** The exchange of an agent: its request goes out, and the answer it expects
    comes back. *)
Lemma agent_exchange err request reply sequence a sends more :
  transport_ready a = true → ag_sends a = true :: sends → payload_type reply ≠ Msg_Error →
  (sequence < 2 ^ 64)%N → carries kMaxFramePayloadBytes request → carries kMaxFramePayloadBytes reply →
  stream (ag_socket a) = Some (on_wire sequence reply ++ more) →
  ∃ socket, (Agent.send_frame err (payload_type request) (encode_payload request);;
             read_reply err (payload_type reply)) a =
    (Some (encode_payload reply),
     a <| ag_sequence := following (ag_sequence a) |> <| ag_sends := sends |>
       <| ag_sent := ag_sent a ++ on_wire (following (ag_sequence a)) request |>
       <| ag_socket := socket |>) ∧ stream socket = Some more.
Proof.
  intros Hr Hs Ht Hq Hm Hy Hst.
  rewrite (bind_some _ _ _ _ _ (agent_sends err request a sends Hr Hs Hm)).
  set (a1 := _ <| ag_sent := _ |>).
  destruct (agent_reads err sequence reply more a1 Ht Hq Hy Hst) as (socket&E&Es).
  exists socket. by rewrite E.
Qed.

(** What the agent knows of the authority of the coordinator. *)
Definition agrees (a : Agent) (s : ClusterState) : Prop :=
  ru_coordinator_epoch (ag_status a) = cs_coordinator_epoch s ∧
  ru_cluster_epoch (ag_status a) = cs_epoch s ∧
  ru_topology_epoch (ag_status a) = cs_topology_epoch s ∧
  ru_topology_generation (ag_status a) = cs_topology_generation s ∧
  ag_lifecycle a = cs_lifecycle s.

(** A cluster that was declared: its counters are known. *)
Definition declared (s : ClusterState) : bool :=
  ctr_known (cs_coordinator_epoch s) && ctr_known (cs_epoch s) &&
  ctr_known (cs_topology_epoch s) && ctr_known (cs_topology_generation s).

Lemma observed s a :
  declared s = true →
  let ack := ack_of (ac_cluster (ag_config a)) s in
  agrees (on_status (λ st, observe_generation (ha_topology_generation ack)
         (observe_epochs (ha_coordinator_epoch ack) (ha_cluster_epoch ack) (ha_topology_epoch ack) st)
         <| ru_state := Agent_Registering |>) (a <| ag_lifecycle := ha_lifecycle ack |>)) s.
Proof.
  unfold declared. rewrite !andb_true_iff. intros [[[H1 H2] H3] H4].
  unfold agrees, observe_generation, observe_epochs, ack_of. cbn. by rewrite H1, H2, H3, H4.
Qed.

Lemma agent_hello err build s a sends sequence more :
  transport_ready a = true → ag_sends a = true :: sends → (sequence < 2 ^ 64)%N → declared s = true →
  let hello := P_Hello (hello_of build a) in
  let ack := P_HelloAck (ack_of (ac_cluster (ag_config a)) s) in
  carries kMaxFramePayloadBytes hello → carries kMaxFramePayloadBytes ack →
  stream (ag_socket a) = Some (on_wire sequence ack ++ more) →
  ∃ a', handshake err build a = (Some (), a') ∧ agrees a' s ∧
    ru_state (ag_status a') = Agent_Registering ∧ stream (ag_socket a') = Some more ∧
    ag_sent a' = ag_sent a ++ on_wire (following (ag_sequence a)) hello.
Proof.
  intros Hr Hs Hq Hd hello ack Hh Ha Hst.
  destruct (agent_exchange err hello ack sequence a sends more Hr Hs) as (socket&E&Es); try done.
  set (a1 := _ <| ag_socket := socket |>) in E.
  unfold handshake. cbv zeta.
  rewrite (bind_some _ _ _ _ _ (encoded_some _ _ _ (proj1 (proj2 Hh)))).
  unfold mbind, Exchange_bind in E |- *.
  change (encode_hello _) with (encode_payload hello). change Msg_Hello with (payload_type hello).
  destruct (Agent.send_frame err (payload_type hello) (encode_payload hello) a) as [[[]|] a0]; [|done].
  change Msg_HelloAck with (payload_type ack). rewrite E.
  cbn [encode_payload ack]. rewrite (decoded_some _ _ _ _ (hello_ack_decodes _ _ Ha)).
  unfold ack_of. cbn [ha_accepted ha_protocol_version ha_cluster negb].
  rewrite N.eqb_refl, decide_False by tauto. cbn [negb].
  eexists. split; [reflexivity|]. split; [exact (observed s a1 Hd)|]. by split_and!.
Qed.

(** ** An agent connected to a session *)

(** The agent can send, the session listens, and they are of one cluster. *)
Record connected (p : Process) (th : Thread) (a : Agent) (sends : list bool) : Prop := {
  cn_ready : transport_ready a = true;
  cn_sends : ag_sends a = true :: sends;
  cn_listens : se_stop (th_session th) = false;
  cn_cluster : ac_cluster (ag_config a) = cf_cluster (co_config (pr_coordinator p))
}.

(** A message within every bound of the two ends. *)
Definition passes (net : NetConfig) (m : Payload) : Prop :=
  carries (session_max_payload net) m ∧ carries (nc_max_frame_payload net) m ∧
  carries kMaxFramePayloadBytes m.


(** ** A mutation through the network *)

Lemma publish_request_decodes max m :
  carries max (P_PublishRequest m) → snd (decode_publish_request (encode_publish_request m)) = Some m.
Proof.
  intros (H1&H2&_). cbn [payload_ok encode_payload] in H1, H2.
  unfold decode_publish_request, encode_publish_request in *.
  by rewrite (encode_decode _ _ _ _ _ m (codec_publish_request "publish_request") H1 H2).
Qed.

Lemma publish_result_decodes max m :
  carries max (P_PublishResult m) → snd (decode_publish_result (encode_publish_result m)) = Some m.
Proof.
  intros (H1&H2&_). cbn [payload_ok encode_payload] in H1, H2.
  unfold decode_publish_result, encode_publish_result in *.
  by rewrite (encode_decode _ _ _ _ _ m (codec_publish_result "publish_result") H1 H2).
Qed.

(** A request of the incarnation of the session is submitted as it is. *)
Lemma with_session_boot_same session request :
  au_boot (rq_authority request) = se_boot session →
  request <| rq_authority := with_session_boot session (rq_authority request) |> = request.
Proof.
  intros H. unfold with_session_boot. rewrite <-H.
  destruct request as [? ? authority]. destruct authority as [? ? ? ? boot]. cbn. by destruct boot.
Qed.

(** The answer of a session to a publication. *)
Definition publish_answer (r : MutationResult) (_ : ClusterState) : Payload :=
  P_PublishResult (MkPublishResult r).

Lemma session_publish net now p stats th request p' slot sequence more :
  se_stop (th_session th) = false → se_handshake (th_session th) = true →
  au_boot (rq_authority request) = se_boot (th_session th) → (sequence < 2 ^ 64)%N →
  passes net (P_PublishRequest (MkPublishRequest request)) → submit request p = (p', inr slot) →
  stream (th_socket th) =
    Some (on_wire sequence (P_PublishRequest (MkPublishRequest request)) ++ more) →
  ∃ stats' socket, stream socket = Some more ∧
    session_turn net now true p stats th =
    Turn_Done p' stats' (th <| th_socket := socket |> <| th_phase := Ph_Waiting slot publish_answer None |>).
Proof.
  intros Hl Hh Hb Hq (H1&_&H3) Hsub Hst.
  destruct (session_reads net now p stats th sequence _ more Hl Hq H1 H3 Hst) as (stats'&socket&Hs&E).
  exists stats', socket. split; [done|]. rewrite E. unfold dispatch. cbn [payload_type].
  change (raw Msg_PublishRequest =? raw Msg_Hello)%N with false. rewrite Hh. cbn [negb].
  rewrite of_raw_raw. unfold on_publish. cbn [encode_payload].
  rewrite (publish_request_decodes _ _ H1). cbv zeta. cbn [pq_request act].
  rewrite with_session_boot_same by done. rewrite Hsub. reflexivity.
Qed.

Lemma agent_publish err request result a sends sequence more :
  transport_ready a = true → ag_sends a = true :: sends → (sequence < 2 ^ 64)%N →
  carries kMaxFramePayloadBytes (P_PublishRequest (MkPublishRequest request)) →
  carries kMaxFramePayloadBytes (P_PublishResult (MkPublishResult result)) →
  stream (ag_socket a) = Some (on_wire sequence (P_PublishResult (MkPublishResult result)) ++ more) →
  ∃ a', submit_request err request a = (inr result, a') ∧ stream (ag_socket a') = Some more ∧
    ag_sent a' = ag_sent a ++
      on_wire (following (ag_sequence a)) (P_PublishRequest (MkPublishRequest request)).
Proof.
  intros Hr Hs Hq Hm Hy Hst.
  assert (Ht : payload_type (P_PublishResult (MkPublishResult result)) ≠ Msg_Error) by done.
  destruct (agent_exchange err _ _ sequence a sends more Hr Hs Ht Hq Hm Hy Hst) as (socket&E&Es).
  unfold submit_request. cbn [payload_type encode_payload] in E |- *.
  rewrite (encoded_some _ _ _ (proj1 (proj2 Hm))). rewrite E.
  rewrite (decoded_some _ _ _ _ (publish_result_decodes _ _ Hy)). cbn [pr_result].
  eexists. split; [reflexivity|]. by split_and!.
Qed.

(** A turn of a session of a server. *)
Lemma serve_turn net id now sv th p stats th' :
  sv_terminated sv = false → sv_sessions sv !! id = Some th → th_phase th = Ph_Reading →
  session_turn net now true (sv_process sv) (sv_stats sv) th = Turn_Done p stats th' →
  ∃ sv', serve net (Sv_Turn id now true) sv = Some sv' ∧ sv_process sv' = p ∧
    sv_terminated sv' = false ∧ sv_sessions sv' !! id = Some th'.
Proof.
  intros Ht Hth Hp E. unfold serve. rewrite Ht, Hth. cbn [mbind option_bind]. rewrite Hp, E.
  eexists. split; [reflexivity|]. cbn. split_and!; [done..|]. apply lookup_insert_eq.
Qed.

Lemma serve_answer net id sv th slot answer result :
  sv_terminated sv = false → sv_sessions sv !! id = Some th →
  th_phase th = Ph_Waiting slot answer None → slot_result slot (sv_process sv) = Some result →
  passes net (answer result (co_canonical (pr_coordinator (sv_process sv)))) →
  ∃ sv' th', serve net (Sv_Answer id true) sv = Some sv' ∧ sv_sessions sv' !! id = Some th' ∧
    th_phase th' = Ph_Reading ∧
    th_sent th' = th_sent th ++ on_wire (following (se_sequence (th_session th)))
      (answer result (co_canonical (pr_coordinator (sv_process sv)))).
Proof.
  intros Ht Hth Hp Hr (_&H2&H3). unfold serve. rewrite Ht, Hth. cbn [mbind option_bind].
  rewrite Hp, Hr. cbn [mbind option_bind]. unfold finish_submit.
  match goal with |- context [Session.send_frame net true ?m (?st, ?t)] =>
    destruct (session_sends net m st t H2 H3) as [stats E] end.
  rewrite E. eexists _, _. split; [reflexivity|]. split; [apply lookup_insert_eq|]. by split_and!.
Qed.

(** C16: a mutation through the network is the mutation itself.  When the bytes an
    agent sends for a request, made under the incarnation of the session, reach
    that session of a server with room in its queue, the turn of the session
    submits exactly that request.  Whenever the server later has the result of
    that submission and the session still waits for it, the session answers; and
    when the bytes of that answer reach the agent, its request returns exactly
    that result. *)
Theorem remote_submission err net now sv id th a sends request slot p' more :
  sv_terminated sv = false → sv_sessions sv !! id = Some th → th_phase th = Ph_Reading →
  connected (sv_process sv) th a sends → se_handshake (th_session th) = true →
  au_boot (rq_authority request) = se_boot (th_session th) →
  passes net (P_PublishRequest (MkPublishRequest request)) →
  submit request (sv_process sv) = (p', inr slot) →
  let sent := on_wire (following (ag_sequence a)) (P_PublishRequest (MkPublishRequest request)) in
  stream (th_socket th) = Some (sent ++ more) →
  ∃ sv1 th1, serve net (Sv_Turn id now true) sv = Some sv1 ∧ sv_process sv1 = p' ∧
    sv_sessions sv1 !! id = Some th1 ∧ stream (th_socket th1) = Some more ∧
    ∀ sv2 result, sv_terminated sv2 = false → sv_sessions sv2 !! id = Some th1 →
      slot_result slot (sv_process sv2) = Some result →
      passes net (P_PublishResult (MkPublishResult result)) →
      ∃ sv3 th3 answer, serve net (Sv_Answer id true) sv2 = Some sv3 ∧
        sv_sessions sv3 !! id = Some th3 ∧ th_sent th3 = th_sent th1 ++ answer ∧
        ∀ more', stream (ag_socket a) = Some (answer ++ more') →
          ∃ a', submit_request err request a = (inr result, a') ∧ ag_sent a' = ag_sent a ++ sent ∧
            stream (ag_socket a') = Some more'.
Proof.
  intros Ht Hth Hph [Hr Hs Hl _] Hh Hb Hq Hsub sent Hst.
  destruct (session_publish net now (sv_process sv) (sv_stats sv) th request p' slot
    (following (ag_sequence a)) more) as (stats&socket&Hsk&E); try done; [apply following_lt|].
  set (th1 := _ <| th_phase := _ |>) in E.
  destruct (serve_turn net id now sv th p' stats th1 Ht Hth Hph E) as (sv1&E1&Ep&_&Hth1).
  exists sv1, th1. split_and!; [done..|]. intros sv2 result Ht2 Hth2 Hres Hy.
  destruct (serve_answer net id sv2 th1 slot publish_answer result) as (sv3&th3&E3&Hth3&_&Hsent); try done.
  eexists sv3, th3, _. split; [done|]. split; [done|]. split; [exact Hsent|]. intros more' Hm.
  destruct Hq as (_&_&Hq). destruct Hy as (_&_&Hy).
  destruct (agent_publish err request result a sends (following (se_sequence (th_session th1))) more')
    as (a'&?&?&?); try done; [apply following_lt|].
  by exists a'.
Qed.

(** ** The scenario *)

(** A message that was decoded is one the wire carries. *)
Lemma carries_decoded max m :
  (size (encode_payload m) <= bounded_payload max)%N →
  decode_payload (payload_type m) (encode_payload m) = Some m → carries max m.
Proof.
  intros Hs Hd. apply decode_payload_exact in Hd as (_&H1&_&H2).
  - by split_and!.
  - pose proof (bounded_payload_le max). unfold kAbsoluteMaxFramePayloadBytes, kMaxWriterBytes in *. lia.
Qed.

Lemma passes_decoded net m :
  (size (encode_payload m) <= bounded_payload (session_max_payload net) `min`
     bounded_payload (nc_max_frame_payload net) `min` bounded_payload kMaxFramePayloadBytes)%N →
  decode_payload (payload_type m) (encode_payload m) = Some m → passes net m.
Proof. intros Hs Hd. split_and!; apply carries_decoded; done || lia. Qed.

Definition demo_agent_config : RackAgentConfig :=
  MkAgentConfig demo_cluster rack_a (MkCtr 1) owner (Some boot_a) "127.0.0.1" 7000 0 "demo"
    RL_Ready Health_Healthy Reach_Reachable no_composition [] [] [] [] [].

(** An agent with a socket, whose reads will meet [socket]. *)
Definition demo_agent (sequence : N) (socket : list Arrival) : Agent :=
  (new_agent demo_agent_config boot_a [true; true]) <| ag_handle := true |>
    <| ag_sequence := sequence |> <| ag_socket := socket |>.

Definition demo_hello : Payload := P_Hello (hello_of "demo" (demo_agent 0 [])).

(** The bytes of the HELLO in two segments. *)
Definition hello_thread : Thread :=
  MkThread new_session
    [Ar_Bytes (take 30 (on_wire 1 demo_hello)); Ar_Interrupted; Ar_Bytes (drop 30 (on_wire 1 demo_hello))]
    [] Ph_Reading.

Definition serving : Server := reaches (boot_events []).

(** The agent that the answer of the coordinator will reach. *)
Definition shaking : Agent :=
  demo_agent 0 [Ar_Bytes (on_wire 1
    (P_HelloAck (ack_of demo_cluster (co_canonical (pr_coordinator (sv_process serving))))))].


(** A server whose one session completed the handshake and is about to meet a
    publication. *)
Definition shaken_server : Server :=
  reaches (boot_events [hello_as boot_a; publication boot_a] ++ [Sv_Turn 1 t0 true]).
Definition shaken_thread : Thread :=
  default (MkThread new_session [] [] Ph_Reading) (sv_sessions shaken_server !! 1%N).
Definition demo_request : MutationRequest := add_rack rack_a boot_a 2.

(** What comes of it, and the agent the answer reaches. *)
Definition answered_server : Server :=
  reaches (boot_events [hello_as boot_a; publication boot_a] ++ [Sv_Turn 1 t0 true] ++ submitted_turn).
Definition committed_result : MutationResult :=
  default default_result (slot_result (pr_next_slot (sv_process shaken_server)) (sv_process answered_server)).
Definition publishing_agent : Agent :=
  demo_agent 1 [Ar_Bytes (on_wire 2 (P_PublishResult (MkPublishResult committed_result)))].

Lemma remote_submission_witness :
  fst (submit_request "" demo_request publishing_agent) = inr committed_result ∧
  EngineBase.accepted committed_result = true ∧
  ∃ sv1 th1, serve default_net (Sv_Turn 1 t0 true) shaken_server = Some sv1 ∧
    sv_process sv1 = fst (submit demo_request (sv_process shaken_server)) ∧
    sv_sessions sv1 !! 1%N = Some th1 ∧ stream (th_socket th1) = Some [] ∧
    ∀ sv2 result, sv_terminated sv2 = false → sv_sessions sv2 !! 1%N = Some th1 →
      slot_result (pr_next_slot (sv_process shaken_server)) (sv_process sv2) = Some result →
      passes default_net (P_PublishResult (MkPublishResult result)) →
      ∃ sv3 th3 answer, serve default_net (Sv_Answer 1 true) sv2 = Some sv3 ∧
        sv_sessions sv3 !! 1%N = Some th3 ∧ th_sent th3 = th_sent th1 ++ answer ∧
        ∀ more', stream (ag_socket publishing_agent) = Some (answer ++ more') →
          ∃ a', submit_request "" demo_request publishing_agent = (inr result, a') ∧
            ag_sent a' = [] ++ on_wire 2 (P_PublishRequest (MkPublishRequest demo_request)) ∧
            stream (ag_socket a') = Some more'.
Proof.
  split; [by vm_compute|]. split; [by vm_compute|].
  apply (remote_submission "" default_net t0 shaken_server 1 shaken_thread publishing_agent [true]
           demo_request).
  - by vm_compute.
  - by vm_compute.
  - by vm_compute.
  - by split; vm_compute.
  - by vm_compute.
  - by vm_compute.
  - apply passes_decoded; by vm_compute.
  - by vm_compute.
  - by vm_compute.
Defined.
