(* ===== verification/Facade.v ===== *)
(** * What a coordinator tells its callers

    The queries of [src/coordinator.cpp] and the [with_state] they go through
    ([src/detail/coordinator_impl.hpp]): derived indexes that are rebuilt when
    they are out of date, and the deterministic explanations. *)

From S2P Require Import Prelude Identity Counter Taxonomy Evidence Types State Readiness Indexes Invariant.
From S2P Require Import Queries Explain EngineBase Commit Snapshot Process Session.

(** ** [with_state] *)

(** The process with the cached indexes, and the counter of validations. *)
Record Facade := MkFacade {
  fc_process : Process;
  fc_indexes : ClusterIndexes;
  fc_indexes_version : N;
  fc_validation_requests : N
}.

#[global] Instance eta_Facade : Eta Facade := λ r,
  MkFacade (fc_process r) (fc_indexes r) (fc_indexes_version r) (fc_validation_requests r).
#[global] Instance upd_fc_process : Upd fc_process := ltac:(derive_upd).
#[global] Instance upd_fc_indexes : Upd fc_indexes := ltac:(derive_upd).
#[global] Instance upd_fc_indexes_version : Upd fc_indexes_version := ltac:(derive_upd).
#[global] Instance upd_fc_validation_requests : Upd fc_validation_requests := ltac:(derive_upd).

Definition coordinator_of (f : Facade) : Coordinator := pr_coordinator (fc_process f).

(** The rebuild of stale indexes. *)
Definition refresh (f : Facade) : Facade :=
  let c := coordinator_of f in
  if negb (co_indexes_valid c) || negb (fc_indexes_version f =? co_state_version c)%N then
    f <| fc_indexes := rebuild (co_canonical c) |>
      <| fc_indexes_version := co_state_version c |>
      <| fc_process := (fc_process f) <| pr_coordinator := c <| co_indexes_valid := true |> |> |>
  else f.

Definition with_state {A} (body : ClusterState → ClusterIndexes → A) (f : Facade) : A * Facade :=
  let f := refresh f in (body (co_canonical (coordinator_of f)) (fc_indexes f), f).

(** ** Plain queries *)

Definition running (f : Facade) : bool := pr_accepting (fc_process f).

Definition cluster (f : Facade) : ClusterId := cf_cluster (co_config (coordinator_of f)).

Definition readiness : Facade → ReadinessEvaluation * Facade :=
  with_state (λ s _, evaluate_readiness s).

Definition invariants : Facade → list InvariantViolation * Facade :=
  with_state (λ s indexes, check_invariants s (Some indexes)).

Definition state_copy (f : Facade) : ClusterState := co_canonical (coordinator_of f).

Definition make_snapshot (net : NetStats) (f : Facade) : ClusterSnapshot * NetStats :=
  (capture (state_copy f), net <| ns_snapshots_built := (ns_snapshots_built net + 1)%N |>).

Definition count_validation (f : Facade) : Facade :=
  f <| fc_validation_requests := (fc_validation_requests f + 1)%N |>.

Definition validate_snapshot (snapshot : option ClusterSnapshot) (f : Facade) :
    SnapshotValidation * Facade :=
  (validate snapshot (state_copy f), count_validation f).

Definition validate_snapshot_view (view : SnapshotView) (f : Facade) : SnapshotValidation * Facade :=
  with_state (λ s _, validate_view view s) (count_validation f).

(** [CoordinatorStats]. *)
Record CoordinatorStats := MkCoordinatorStats {
  ct_mutations_accepted : N;
  ct_mutations_no_change : N;
  ct_mutations_rejected : N;
  ct_sessions_opened : N;
  ct_sessions_closed : N;
  ct_frames_in : N;
  ct_frames_out : N;
  ct_bytes_in : N;
  ct_bytes_out : N;
  ct_commits : N;
  ct_persistence_saves : N;
  ct_persistence_failures : N;
  ct_fence_events : N;
  ct_stale_replays_rejected : N;
  ct_snapshots_built : N;
  ct_validation_requests : N
}.

Definition stats (net : NetStats) (f : Facade) : CoordinatorStats :=
  let st := co_stats (coordinator_of f) in
  MkCoordinatorStats (st_mutations_accepted st) (st_mutations_no_change st)
    (st_mutations_rejected st) (ns_sessions_opened net) (ns_sessions_closed net) (ns_frames_in net)
    (ns_frames_out net) (ns_bytes_in net) (ns_bytes_out net) (st_commits st)
    (st_persistence_saves st) (st_persistence_failures st) (st_fence_events st)
    (st_stale_replays_rejected st) (ns_snapshots_built net) (fc_validation_requests f).

(** ** Explanations

    Every explanation adds its factors in turn, sorts them and bounds them. *)

Definition add_factor (e : Explanation) (f : ExplanationFactor) : Explanation :=
  explanation_add (ef_code f) (ef_subject f) (ef_detail f) e.

Definition explained (code subject summary : string) (factors : list ExplanationFactor) : Explanation :=
  bound_factors (sort_factors (foldl add_factor (explanation_make code subject summary) factors)).

(** A factor that is added under a condition. *)
Definition factor_if (cond : bool) (code subject detail : string) : list ExplanationFactor :=
  if cond then [MkFactor code subject detail] else [].

Definition rack_subject (rack : RackId) : string := "rack/" +:+ id_value rack.

Definition evidence_text (e : EvidenceStamp) : string :=
  string_of_evidence_provenance (ev_provenance e) +:+ "/" +:+ string_of_freshness (ev_freshness e).

Definition lifecycle_factors (s : ClusterState) : list ExplanationFactor :=
  (λ b, MkFactor (bl_code b) (bl_subject b) (bl_detail b)) <$> re_blockers (evaluate_readiness s).

Definition lifecycle_explanation (s : ClusterState) : Explanation :=
  let evaluation := evaluate_readiness s in
  explained "cluster_lifecycle" ("cluster/" +:+ id_value (cs_id s))
    ("lifecycle is " +:+ string_of_cluster_lifecycle (re_lifecycle evaluation) +:+
     (if re_satisfied evaluation then " (readiness contract satisfied)"
      else " (readiness contract not satisfied)")) (lifecycle_factors s).

Definition explain_lifecycle : Facade → Explanation * Facade :=
  with_state (λ s _, lifecycle_explanation s).

(** The factors of a rack that is recorded. *)
Definition rack_factors (s : ClusterState) (indexes : ClusterIndexes) (rack : RackId)
    (record : RackRecord) : list ExplanationFactor :=
  let subject := rack_subject rack in
  let reference := rk_reference record in
  [MkFactor "rack_generation" subject ("generation " +:+ ctr_str (rr_generation reference));
   MkFactor "membership" subject (string_of_rack_membership_state (rk_membership record));
   MkFactor "evidence" subject
     ("provenance " +:+ string_of_evidence_provenance (ev_provenance (rr_evidence reference)) +:+
      " freshness " +:+ string_of_freshness (ev_freshness (rr_evidence reference)))] ++
  factor_if (negb (rk_authoritative_current record) &&
             negb (is_empty (rk_non_authoritative_reason record)))
    "not_authoritative" subject (rk_non_authoritative_reason record) ++
  factor_if (is_boot_fenced s (rr_boot reference)) "boot_fenced" subject
    ("process incarnation " +:+ id_value (rr_boot reference) +:+ " is permanently fenced") ++
  factor_if (is_rack_retired s rack) "retired" subject "rack identity is retired" ++
  ((λ domain, MkFactor "placement_domain" ("placement_domain/" +:+ id_value domain) "rack is a member")
     <$> placement_domains_of indexes rack) ++
  ((λ domain, MkFactor "failure_domain" ("failure_domain/" +:+ id_value domain) "rack is a member")
     <$> failure_domains_of indexes rack).

Definition rack_explanation (rack : RackId) (s : ClusterState) (indexes : ClusterIndexes) : Explanation :=
  match cs_racks s !! rack with
  | None =>
      sort_factors (add_factor
        (explanation_make "rack_status" (rack_subject rack) "rack is not a member of this cluster")
        (MkFactor "unknown_rack" (rack_subject rack) "no canonical record exists for this identity"))
  | Some record =>
      explained "rack_status" (rack_subject rack)
        ("membership " +:+ string_of_rack_membership_state (rk_membership record) +:+
         " currentness " +:+ string_of_rack_currentness (rr_currentness (rk_reference record)) +:+
         (if rk_authoritative_current record then " authoritative" else " not authoritative"))
        (rack_factors s indexes rack record)
  end.

Definition explain_rack (rack : RackId) : Facade → Explanation * Facade :=
  with_state (rack_explanation rack).

Definition topology_explanation (epoch : TopologyEpoch) (generation : TopologyGeneration)
    (s : ClusterState) : Explanation :=
  let epoch_current := bool_decide (epoch = cs_topology_epoch s) in
  let generation_current := bool_decide (generation = cs_topology_generation s) in
  let current := epoch_current && generation_current in
  explained (if current then "topology_current" else "topology_stale") "topology"
    (if current then "topology epoch and generation are current"
     else "topology epoch or generation has been superseded")
    ([MkFactor "authoritative_epoch" "topology" (ctr_str (cs_topology_epoch s));
      MkFactor "authoritative_generation" "topology" (ctr_str (cs_topology_generation s));
      MkFactor "supplied_epoch" "topology" (ctr_str epoch);
      MkFactor "supplied_generation" "topology" (ctr_str generation)] ++
     factor_if (negb epoch_current) "stale_topology_epoch" "topology"
       "supplied epoch is not the authoritative epoch" ++
     factor_if (negb generation_current) "stale_topology_generation" "topology"
       "supplied generation is not the authoritative generation").

Definition explain_topology_currentness (epoch : TopologyEpoch) (generation : TopologyGeneration) :
    Facade → Explanation * Facade :=
  with_state (λ s _, topology_explanation epoch generation s).

(** [validation.describe()] in the fallback is that of the validation. *)
Definition staleness_explanation (view : SnapshotView) (s : ClusterState) : Explanation :=
  let validation := validate_view view s in
  if is_empty (ex_code (sv_explanation validation)) then
    explanation_make (if sv_current validation then "snapshot_current" else "snapshot_stale")
      "snapshot" (describe_validation (sv_current validation) (sv_consumable validation)
                    (zip (sv_reasons validation) (sv_subjects validation)))
  else sv_explanation validation.

Definition explain_snapshot_staleness (view : SnapshotView) : Facade → Explanation * Facade :=
  with_state (λ s _, staleness_explanation view s).

Definition string_of_domain_independence (value : DomainIndependence) : string :=
  match value with
  | Indep_Unknown => "UNKNOWN"
  | Indep_Independent => "INDEPENDENT"
  | Indep_Shared => "SHARED"
  | Indep_RevalidationRequired => "REVALIDATION_REQUIRED"
  end.

(** The loops over the failure domains of the two racks. *)
Definition lhs_factor (s : ClusterState) (rhs : RackId) (klass : FailureDomainClass)
    (domain : FailureDomainId) : list ExplanationFactor :=
  match cs_failure_domains s !! domain with
  | None => []
  | Some d =>
      if decide (fd_klass d ≠ klass) then [] else
      [MkFactor (if binary_search less (fd_racks d) rhs then "shared_domain" else "lhs_domain")
         ("failure_domain/" +:+ id_value domain)
         ("evidence " +:+ evidence_text (dh_evidence (fd_header d)))]
  end.

Definition rhs_factor (s : ClusterState) (lhs : RackId) (klass : FailureDomainClass)
    (domain : FailureDomainId) : list ExplanationFactor :=
  match cs_failure_domains s !! domain with
  | None => []
  | Some d =>
      if decide (fd_klass d ≠ klass) then [] else
      if binary_search less (fd_racks d) lhs then [] else
      [MkFactor "rhs_domain" ("failure_domain/" +:+ id_value domain)
         ("evidence " +:+ evidence_text (dh_evidence (fd_header d)))]
  end.

Definition independence_factors (lhs rhs : RackId) (klass : FailureDomainClass) (s : ClusterState)
    (indexes : ClusterIndexes) : list ExplanationFactor :=
  [MkFactor "domain_class" "failure_domain_class" (string_of_failure_domain_class klass)] ++
  flat_map (lhs_factor s rhs klass) (failure_domains_of indexes lhs) ++
  flat_map (rhs_factor s lhs klass) (failure_domains_of indexes rhs) ++
  factor_if (bool_decide (failure_domain_independence s indexes lhs rhs klass = Indep_Unknown))
    "insufficient_current_evidence" "failure_domain_class"
    "no current domain of this class covers both racks, so independence cannot be asserted".

Definition independence_explanation (lhs rhs : RackId) (klass : FailureDomainClass)
    (s : ClusterState) (indexes : ClusterIndexes) : Explanation :=
  explained "failure_domain_independence"
    ("rack/" +:+ id_value lhs +:+ "+" +:+ id_value rhs)
    ("racks are " +:+ string_of_domain_independence (failure_domain_independence s indexes lhs rhs klass)
     +:+ " for failure domain class " +:+ string_of_failure_domain_class klass)
    (independence_factors lhs rhs klass s indexes).

Definition explain_failure_domain (lhs rhs : RackId) (klass : FailureDomainClass) :
    Facade → Explanation * Facade :=
  with_state (independence_explanation lhs rhs klass).

Definition link_factor (source destination : RackId) (e : InterRackLinkId * InterRackLink) :
    list ExplanationFactor :=
  factor_if (forward e.2 source destination) "link" ("link/" +:+ id_value e.1)
    ("reachability " +:+ string_of_reachability (lk_reachability e.2) +:+ " evidence " +:+
     evidence_text (dh_evidence (lk_header e.2))).

Definition reachability_factors (source destination : RackId) (s : ClusterState) :
    list ExplanationFactor :=
  flat_map (link_factor source destination) (entries (cs_links s)) ++
  factor_if (bool_decide (reachability_between s source destination = Reach_Unknown))
    "no_current_link_evidence" "link"
    "no link carries current evidence for this rack pair; UNKNOWN is not evidence of connectivity".

Definition reachability_explanation (source destination : RackId) (s : ClusterState) : Explanation :=
  explained "reachability" ("rack/" +:+ id_value source +:+ "->" +:+ id_value destination)
    ("reachability is " +:+ string_of_reachability (reachability_between s source destination))
    (reachability_factors source destination s).

Definition explain_reachability (source destination : RackId) : Facade → Explanation * Facade :=
  with_state (λ s _, reachability_explanation source destination s).
