(* ===== verification/FacadeProofs.v ===== *)
(** * What the queries of a coordinator guarantee

    The cached indexes a query sees are always those of the canonical state, and
    the explanations account for the decision they explain: bounded, sorted, and
    with exactly the factors that hold. *)

From S2P Require Import Prelude Identity Counter Taxonomy Evidence Types State Readiness Indexes Invariant.
From S2P Require Import Queries Explain EngineBase EngineRack EngineCluster Rollback Durable Commit CommitProofs Snapshot.
From S2P Require Import Scenario Process ProcessProofs Session Facade.

(** ** The cache of the indexes *)

(** Valid indexes of the present version are those of the canonical state. *)
Definition cache_ok (f : Facade) : Prop :=
  co_indexes_valid (coordinator_of f) = true →
  fc_indexes_version f = co_state_version (coordinator_of f) →
  fc_indexes f = rebuild (co_canonical (coordinator_of f)).

(** A coordinator after a step: what the indexes are made from is the same, or
    they were invalidated. *)
Definition follows (c c' : Coordinator) : Prop :=
  co_indexes_valid c' = false ∨
  rebuild (co_canonical c') = rebuild (co_canonical c) ∧
  co_indexes_valid c' = co_indexes_valid c ∧ co_state_version c' = co_state_version c.

Lemma persist_flags c c' r :
  persist_now c = (c', r) →
  co_indexes_valid c' = co_indexes_valid c ∧ co_state_version c' = co_state_version c.
Proof. unfold persist_now. repeat case_match; intros; by simplify_eq. Qed.

(** The identity of the cluster is not indexed. *)
Lemma rebuild_id i s : rebuild (s <| cs_id := i |>) = rebuild s.
Proof. done. Qed.

(** A mutation invalidates the indexes when it is accepted; otherwise it leaves
    the flags. *)
Lemma commit_flags now req c :
  co_indexes_valid (fst (apply_and_commit now req c)) = false ∨
  mr_outcome (snd (apply_and_commit now req c)) ≠ Out_Accepted ∧
  co_indexes_valid (fst (apply_and_commit now req c)) = co_indexes_valid c ∧
  co_state_version (fst (apply_and_commit now req c)) = co_state_version c.
Proof.
  unfold apply_and_commit. destruct (apply_request _ _) as [ctx res] eqn:E.
  case_decide as H1; [right; split; [cbn; congruence|by destruct (is_stale_reason _)]|].
  case_decide as H2; [right; split; [cbn; congruence|done]|].
  destruct (cx_changed ctx) eqn:Hch; cbn [negb].
  2: { right. split; [|done]. cbn. intros Ha. by rewrite (accepted_changes _ _ _ _ _ E Ha) in Hch. }
  unfold commit_candidate. destruct (negb _); [right; by split|].
  destruct (bump _) as [g|]; [|right; by split].
  destruct (persist_now _) as [c1 [failed|]] eqn:Hp; [|by left].
  pose proof (persist_flags _ _ _ Hp) as [F1 F2]. pose proof (persist_now_rejects _ _ _ Hp) as F3.
  right. split; [cbn; congruence|done].
Qed.

Lemma commit_follows now req c : follows c (fst (apply_and_commit now req c)).
Proof.
  destruct (commit_flags now req c) as [?|(Ho&Hv&Hn)]; [by left|right]. split; [|done].
  destruct (apply_and_commit_outcome now req c) as [c' r ctx res _ _ -> _ _|]; [|done].
  apply rebuild_id.
Qed.

Lemma publish_fence_follows later ctx c :
  (∀ s, same_maps s (cx_state ctx) → cs_id s = cs_id (cx_state ctx) →
     rollback (cx_journal (record_scalars ctx)) s = co_canonical c) →
  follows c (publish_fence later ctx c).
Proof.
  intros Hroll. unfold publish_fence. change (cx_state (record_scalars ctx)) with (cx_state ctx).
  set (st := (cx_state ctx) <| cs_lifecycle := _ |>).
  assert (Hm : same_maps st (cx_state ctx)) by by split.
  assert (Hid : cs_id st = cs_id (cx_state ctx)) by done. clearbody st.
  destruct (bump (cs_generation st)) as [g|]; [destruct (bump (cs_health_generation st)) as [h|]|].
  - destruct (persist_now _) as [c1 [failed|]] eqn:Hp; [|by left].
    pose proof (persist_flags _ _ _ Hp) as [F1 F2]. pose proof (persist_now_frame _ _ _ Hp) as (Hc1&_).
    right. cbn. rewrite Hc1. split; [|done]. f_equal. apply Hroll; [|done]. destruct Hm. by split.
  - right. split; [|done]. cbn. f_equal. by apply Hroll.
  - right. split; [|done]. cbn. f_equal. by apply Hroll.
Qed.

Lemma fence_follows now later boot reason c : follows c (apply_fence now later boot reason c).
Proof.
  unfold apply_fence. destruct (negb _); [by right|].
  apply publish_fence_follows. intros s Hm Hid.
  rewrite fence_boot_entry_state, fence_records_state in Hm, Hid. cbn [cx_state] in Hm, Hid.
  fold (fenced_state boot reason now (co_canonical c)) in Hm, Hid.
  destruct (fenced_state_frame boot reason now (co_canonical c)) as (_&_&Hid'&Hm').
  apply fence_rollback; [by rewrite <- Hm'|congruence].
Qed.

Lemma perform_follows e p p' :
  perform e p = Some p' → follows (pr_coordinator p) (pr_coordinator p').
Proof.
  assert (Hsame : pr_coordinator p' = pr_coordinator p → follows (pr_coordinator p) (pr_coordinator p'))
    by (intros ->; by right).
  destruct e; cbn [perform].
  - unfold start_launch. destruct (decide _); [|done].
    destruct (start_refusal input p); intros [= <-]; [by apply Hsame|by left].
  - unfold start_listen. destruct (decide _); [|done]. intros [= <-]. apply Hsame. by destruct listens.
  - intros [= <-]. apply Hsame. unfold submit. by destruct (submit_refusal request p).
  - intros [= <-]. apply Hsame. unfold fence_boot. by destruct (pr_stopping p).
  - intros (E&_&_)%take_unchanged. by apply Hsame.
  - unfold commit_apply. destruct (pr_committing p); [|done]. cbn [negb].
    destruct (pr_hand p) as [[request slot|boot reason|]|]; [|intros [= <-]..|done].
    + pose proof (commit_follows now request (pr_coordinator p)) as H.
      destruct (apply_and_commit _ _ _) as [c r]. by intros [= <-].
    + apply fence_follows.
    + by apply Hsame.
  - unfold start_failed_join. destruct (decide _); [|done]. destruct (pr_committing p); [done|].
    intros [= <-]. by apply Hsame.
  - unfold stop_flag. destruct (decide _); [|done]. intros [= <-]. by apply Hsame.
  - unfold stop_queue. destruct (decide _); [|done]. intros [= <-]. by apply Hsame.
  - unfold stop_join. destruct (decide _); [|done]. destruct (_ && _); [done|].
    intros [= <-]. by apply Hsame.
Qed.

Lemma follows_cache f p :
  cache_ok f → follows (coordinator_of f) (pr_coordinator p) → cache_ok (f <| fc_process := p |>).
Proof.
  unfold cache_ok, coordinator_of. cbn. intros H [Hv|(Hr&Hv&Hn)]; [congruence|].
  rewrite Hr, Hv, Hn. exact H.
Qed.

(** A query sees the indexes of the state, and leaves the cache right. *)
Lemma refresh_spec f :
  cache_ok f →
  co_canonical (coordinator_of (refresh f)) = co_canonical (coordinator_of f) ∧
  fc_indexes (refresh f) = rebuild (co_canonical (coordinator_of f)) ∧ cache_ok (refresh f).
Proof.
  intros H. unfold refresh. destruct (co_indexes_valid (coordinator_of f)) eqn:Hv; cbn [negb orb].
  - destruct (N.eqb_spec (fc_indexes_version f) (co_state_version (coordinator_of f))) as [He|He]; cbn [negb].
    + split_and!; [done|by apply H|done].
    + split_and!; [done..|]. by intros _ _.
  - split_and!; [done..|]. by intros _ _.
Qed.

(** ** Every query sees the present state *)

(** Histories of a coordinator that is queried while it works. *)
Inductive FacadeEvent := Fe_Process (e : Event) | Fe_Query.

Definition facade_step (e : FacadeEvent) (f : Facade) : option Facade :=
  match e with
  | Fe_Process e => (λ p, f <| fc_process := p |>) <$> perform e (fc_process f)
  | Fe_Query => Some (refresh f)
  end.

Fixpoint facade_run (events : list FacadeEvent) (f : Facade) : option Facade :=
  match events with
  | [] => Some f
  | e :: events => f ← facade_step e f; facade_run events f
  end.

(** [rebuild] has not run yet. *)
Definition no_indexes : ClusterIndexes := rebuild empty_state.

Definition constructed_facade (c : Coordinator) : Facade :=
  MkFacade (constructed c) no_indexes 0 0.

Lemma facade_run_cache events : ∀ f f', cache_ok f → facade_run events f = Some f' → cache_ok f'.
Proof.
  induction events as [|e events IH]; intros f f' Hf; cbn.
  - by intros [= <-].
  - destruct (facade_step e f) as [g|] eqn:E; [|done]. cbn. apply IH. destruct e as [e|]; cbn in E.
    + destruct (perform e (fc_process f)) as [p|] eqn:Ep; [|done]. injection E as <-.
      apply follows_cache; [done|]. by apply perform_follows in Ep.
    + injection E as <-. by apply refresh_spec.
Qed.

(** C28: queries never see stale indexes.  In every history of a coordinator that
    starts without indexes and is queried at any points of its work, the body of
    a query is given the canonical state of that moment together with exactly the
    indexes that a rebuild from it would give, although the indexes are rebuilt
    only when the version of the state has moved. *)
Theorem queries_see_present_state {A} c events f (body : ClusterState → ClusterIndexes → A) :
  co_indexes_valid c = false → facade_run events (constructed_facade c) = Some f →
  fst (with_state body f) = body (state_copy f) (rebuild (state_copy f)).
Proof.
  intros Hc Hr. assert (Hf : cache_ok f).
  { apply (facade_run_cache events (constructed_facade c)); [|done]. intros Hv. cbn in Hv. congruence. }
  destruct (refresh_spec f Hf) as (E1&E2&_). unfold with_state. cbn [fst]. by rewrite E1, E2.
Qed.

(** A process that was queried between two mutations. *)
Definition queried_events : list FacadeEvent :=
  [Fe_Process (Ev_Launch demo_input); Fe_Process (Ev_Listen true); Fe_Process (Ev_Submit declare);
   Fe_Process Ev_Take; Fe_Process (Ev_Apply t0 t0); Fe_Query;
   Fe_Process (Ev_Submit (register_rack rack_a boot_a)); Fe_Process Ev_Take;
   Fe_Process (Ev_Apply t0 t0); Fe_Process (Ev_Submit (add_rack rack_a boot_a 2)); Fe_Process Ev_Take;
   Fe_Process (Ev_Apply t0 t0)].

Definition queried : Facade :=
  default (constructed_facade Scenario.start) (facade_run queried_events (constructed_facade Scenario.start)).

Lemma queries_see_present_state_witness :
  racks_for_boot (fc_indexes queried) boot_a = [] ∧
  fst (with_state (λ _ indexes, racks_for_boot indexes boot_a) queried) =
    racks_for_boot (rebuild (state_copy queried)) boot_a ∧
  racks_for_boot (rebuild (state_copy queried)) boot_a = [rack_a].
Proof.
  split; [by vm_compute|]. split; [|by vm_compute].
  apply (queries_see_present_state Scenario.start queried_events queried
           (λ _ indexes, racks_for_boot indexes boot_a)).
  - done.
  - by vm_compute.
Defined.

(** ** What an explanation contains *)

Local Open Scope nat_scope.

Lemma add_factors l : ∀ e,
  length (ex_factors e) ≤ 65 →
  ex_factors (foldl add_factor e l) = take 65 (ex_factors e ++ l) ∧
  ex_code (foldl add_factor e l) = ex_code e ∧ ex_subject (foldl add_factor e l) = ex_subject e ∧
  ex_summary (foldl add_factor e l) = ex_summary e.
Proof.
  induction l as [|f l IH]; intros e He; cbn [foldl].
  - rewrite app_nil_r, take_ge by done. done.
  - unfold add_factor at 2 4 6 8, explanation_add.
    change kFactorCapacity with 65%N. unfold size.
    destruct (N.leb_spec 65 (N.of_nat (length (ex_factors e)))) as [Hf|Hf].
    + destruct (IH e He) as (->&->&->&->). split; [|done].
      assert (length (ex_factors e) = 65) as Hl by lia.
      by rewrite !take_app_le, (take_ge _ 65) by lia.
    + set (e' := e <| ex_factors := _ |>).
      assert (Ef : ex_factors e' = ex_factors e ++ [f]) by by destruct f.
      destruct (IH e') as (->&->&->&->); [rewrite Ef, length_app; cbn; lia|].
      rewrite Ef, <-(assoc_L (++)). done.
Qed.

(** What an explanation says of a list of factors: all of them when they fit,
    sorted, and otherwise some of them with a mark. *)
Record accounts (factors : list ExplanationFactor) (e : Explanation) : Prop := {
  ac_bounded : (size (ex_factors e) <= kMaxExplanationFactors)%N;
  ac_complete : length factors ≤ 64 → ex_factors e ≡ₚ factors;
  ac_sorted : length factors ≤ 64 → StronglySorted (le_by factor_lt) (ex_factors e);
  ac_marked : 64 < length factors → last (ex_factors e) = Some truncation_marker;
  ac_sound f : f ∈ ex_factors e → f ∈ factors ∨ f = truncation_marker
}.

Lemma explained_accounts code subject summary factors :
  accounts factors (explained code subject summary factors) ∧
  ex_code (explained code subject summary factors) = code.
Proof.
  unfold explained. set (e0 := explanation_make code subject summary).
  destruct (add_factors factors e0) as (Ef&Ec&_&_); [cbn; lia|]. cbn [ex_factors e0 explanation_make app] in Ef.
  set (e1 := foldl add_factor e0 factors) in *. clearbody e1.
  assert (Es : ex_factors (sort_factors e1) = sort_by factor_lt (take 65 factors)) by (cbn; by rewrite Ef).
  assert (Ec' : ex_code (bound_factors (sort_factors e1)) = ex_code e1).
  { unfold bound_factors. by destruct (_ <=? _)%N. }
  split; [|by rewrite Ec'].
  destruct (bound_factors_spec (sort_factors e1)) as (Hb&Hm&Hi).
  assert (Hl : size (ex_factors (sort_factors e1)) = N.min 65 (size factors)).
  { rewrite Es. unfold size. rewrite length_sort_by, length_take. lia. }
  assert (Hfit : length factors ≤ 64 → ex_factors (bound_factors (sort_factors e1)) = sort_by factor_lt factors).
  { intros H. rewrite Hi by (rewrite Hl; unfold size, kMaxExplanationFactors; lia).
    by rewrite Es, take_ge by lia. }
  assert (Hbig : 64 < length factors → ex_factors (bound_factors (sort_factors e1)) =
            take 63 (sort_by factor_lt (take 65 factors)) ++ [truncation_marker]).
  { intros H. rewrite <-Es. apply Hm. rewrite Hl. unfold size, kMaxExplanationFactors. lia. }
  split.
  - done.
  - intros H. rewrite (Hfit H). apply sort_by_perm.
  - intros H. rewrite (Hfit H). apply sort_by_sorted, _.
  - intros H. rewrite (Hbig H). apply last_snoc.
  - intros f. destruct (decide (length factors ≤ 64)) as [H|H].
    + rewrite (Hfit H). intros Hf%elem_of_sort_by. by left.
    + rewrite (Hbig ltac:(lia)). intros [Hf| ->%list_elem_of_singleton]%elem_of_app; [|by right].
      left. apply elem_of_take in Hf as (i&Hf&_). apply list_elem_of_lookup_2 in Hf.
      apply elem_of_sort_by in Hf. apply elem_of_take in Hf as (j&Hf&_). by apply list_elem_of_lookup_2 in Hf.
Qed.

(** A factor with a code. *)
Definition has_code (code : string) (l : list ExplanationFactor) : bool :=
  existsb (λ f, bool_decide (ef_code f = code)) l.

Lemma has_code_app code l l' : has_code code (l ++ l') = has_code code l || has_code code l'.
Proof. apply existsb_app. Qed.

Lemma has_code_if code cond c subject detail :
  has_code code (factor_if cond c subject detail) = cond && bool_decide (c = code).
Proof. unfold factor_if. destruct cond; cbn; by rewrite ?orb_false_r. Qed.

(** Factors of one code. *)
Lemma has_code_map {A} code c (subject detail : A → string) l :
  c ≠ code → has_code code ((λ x, MkFactor c (subject x) (detail x)) <$> l) = false.
Proof. intros H. induction l; cbn; [done|]. by rewrite bool_decide_false. Qed.

Lemma has_code_flat {A} code (f : A → list ExplanationFactor) l :
  has_code code (flat_map f l) = existsb (λ x, has_code code (f x)) l.
Proof. induction l as [|x l IH]; cbn [flat_map existsb]; [done|]. by rewrite has_code_app, IH. Qed.

Lemma has_code_perm code l l' : l ≡ₚ l' → has_code code l = has_code code l'.
Proof.
  intros H. unfold has_code. apply eq_true_iff_eq. rewrite !existsb_elem.
  setoid_rewrite H. done.
Qed.

Lemma existsb_none {A} (f : A → bool) l : (∀ x, f x = false) → existsb f l = false.
Proof. intros H. induction l; cbn; [done|]. by rewrite H. Qed.

Lemma existsb_ext {A} (f g : A → bool) l : (∀ x, f x = g x) → existsb f l = existsb g l.
Proof. intros H. induction l; cbn; congruence. Qed.

(** An explanation that fits has the codes of its factors. *)
Lemma explained_code code subject summary factors c :
  length factors ≤ 64 →
  has_code c (ex_factors (explained code subject summary factors)) = has_code c factors.
Proof.
  intros H. apply has_code_perm. apply ac_complete; [|done]. apply explained_accounts.
Qed.

Ltac codes :=
  rewrite ?has_code_app, ?has_code_if, ?has_code_flat;
  repeat rewrite has_code_map by done; cbn -[bool_decide];
  repeat (rewrite bool_decide_false by done); repeat (rewrite bool_decide_true by done);
  rewrite ?andb_true_r, ?andb_false_r, ?orb_false_r; cbn [orb andb].

Lemma rack_codes s rack record :
  let l := rack_factors s (rebuild s) rack record in
  has_code "boot_fenced" l = is_boot_fenced s (rr_boot (rk_reference record)) ∧
  has_code "retired" l = is_rack_retired s rack ∧
  has_code "not_authoritative" l =
    negb (rk_authoritative_current record) && negb (is_empty (rk_non_authoritative_reason record)).
Proof. unfold rack_factors. cbv zeta. split_and!; by codes. Qed.

Lemma lhs_shared s rhs klass i :
  has_code "shared_domain" (lhs_factor s rhs klass i) =
  of_domain s (λ d, bool_decide (fd_klass d = klass) && binary_search less (fd_racks d) rhs) i.
Proof.
  unfold lhs_factor, of_domain. destruct (cs_failure_domains s !! i) as [d|]; [|done].
  destruct (decide (fd_klass d = klass)).
  - rewrite decide_False, bool_decide_true by tauto. cbn -[bool_decide binary_search].
    destruct (binary_search less (fd_racks d) rhs); by codes.
  - by rewrite decide_True, bool_decide_false by done.
Qed.

Lemma lhs_other s rhs klass c i :
  c ≠ "shared_domain" → c ≠ "lhs_domain" → has_code c (lhs_factor s rhs klass i) = false.
Proof.
  intros H1 H2. unfold lhs_factor. destruct (cs_failure_domains s !! i) as [d|]; [|done].
  destruct (decide _); [done|]. destruct (binary_search less (fd_racks d) rhs); by codes.
Qed.

Lemma rhs_other s lhs klass c i : c ≠ "rhs_domain" → has_code c (rhs_factor s lhs klass i) = false.
Proof.
  intros H1. unfold rhs_factor. destruct (cs_failure_domains s !! i) as [d|]; [|done].
  destruct (decide _); [done|]. destruct (binary_search less (fd_racks d) lhs); by codes.
Qed.

Lemma independence_codes lhs rhs klass s :
  let l := independence_factors lhs rhs klass s (rebuild s) in
  (has_code "shared_domain" l = true ↔
     some_domain s (λ d, bool_decide (fd_klass d = klass) && binary_search less (fd_racks d) rhs) lhs) ∧
  has_code "insufficient_current_evidence" l =
    bool_decide (failure_domain_independence s (rebuild s) lhs rhs klass = Indep_Unknown).
Proof.
  cbv zeta. unfold independence_factors. split.
  - rewrite !has_code_app, !has_code_flat, has_code_if.
    rewrite (existsb_none (λ x, has_code "shared_domain" (rhs_factor s lhs klass x)))
      by (intros; by apply rhs_other).
    rewrite (bool_decide_false (_ = "shared_domain")), andb_false_r, !orb_false_r by done.
    cbn [orb has_code existsb ef_code]. rewrite (bool_decide_false (_ = "shared_domain")) by done.
    cbn [orb]. rewrite <-existsb_domains_of.
    erewrite existsb_ext; [done|]. intros i. apply lhs_shared.
  - rewrite !has_code_app, !has_code_flat, has_code_if.
    rewrite (existsb_none (λ x, has_code _ (rhs_factor s lhs klass x))) by (intros; by apply rhs_other).
    rewrite (existsb_none (λ x, has_code _ (lhs_factor s rhs klass x))) by (intros; by apply lhs_other).
    cbn [orb has_code existsb ef_code]. rewrite (bool_decide_false ("domain_class" = _)) by done.
    cbn [orb]. by rewrite (bool_decide_true ("insufficient_current_evidence" = _)), andb_true_r by done.
Qed.

Lemma reachability_codes source destination s :
  let l := reachability_factors source destination s in
  (has_code "link" l = true ↔ some_link s (λ link, forward link source destination)) ∧
  has_code "no_current_link_evidence" l =
    bool_decide (reachability_between s source destination = Reach_Unknown).
Proof.
  cbv zeta. unfold reachability_factors, link_factor. rewrite !has_code_app, !has_code_flat, !has_code_if.
  split.
  - rewrite (bool_decide_false (_ = "link")), andb_false_r, orb_false_r by done.
    rewrite <-some_link_spec. erewrite existsb_ext; [done|]. intros e.
    by rewrite has_code_if, bool_decide_true, andb_true_r.
  - rewrite (bool_decide_true ("no_current_link_evidence" = _)), andb_true_r by done.
    rewrite existsb_none; [done|]. intros e. by rewrite has_code_if, bool_decide_false, andb_false_r.
Qed.

Lemma topology_code epoch generation s :
  ex_code (topology_explanation epoch generation s) = "topology_current" ↔
  epoch = cs_topology_epoch s ∧ generation = cs_topology_generation s.
Proof.
  unfold topology_explanation. cbv zeta. rewrite (proj2 (explained_accounts _ _ _ _)).
  repeat case_bool_decide; cbn [andb]; naive_solver.
Qed.


(** The state of the scenario after the incarnation of its first rack is fenced. *)
Definition fenced_demo : ClusterState := co_canonical (apply_fence t0 t0 boot_a "lost" demo).

Definition fenced_rack : RackRecord := default no_record (cs_racks fenced_demo !! rack_a).

