(* ===== verification/Synthetic.v ===== *)
(** * Synthetic clusters

    [include/cluster_fabric/synthetic.hpp] and [src/synthetic.cpp]: the
    deterministic generator of cluster scenarios.  A [std::size_t] is an [N]
    below 2^64 with its arithmetic written out where it can wrap around. *)

From Stdlib Require Import SpecFloat.
From S2P Require Import Prelude Identity Counter Taxonomy Evidence Types State Readiness Invariant.
From S2P Require Import Queries RackRef EngineBase EngineRack Explain Wire Codec WireStream WireRecords.
From S2P Require Import WireMessages Frame Process Transport Session.

Local Open Scope N_scope.

(** ** The random stream *)

Definition wrap64 (x : N) : N := x mod 2 ^ 64.

(** [SplitMix64::next]: the value drawn and the new state. *)
Definition rng_next (state : N) : N * N :=
  let state := wrap64 (state + 0x9E3779B97F4A7C15) in
  let z := state in
  let z := wrap64 (N.lxor z (N.shiftr z 30) * 0xBF58476D1CE4E5B9) in
  let z := wrap64 (N.lxor z (N.shiftr z 27) * 0x94D049BB133111EB) in
  (N.lxor z (N.shiftr z 31), state).

Definition below (bound : N) (state : N) : N * N :=
  if bound =? 0 then (0, state) else
  let '(value, state) := rng_next state in (value mod bound, state).

(** ** Constants *)

Definition kStampBaseMillis : Z := 1700000000000.
Definition kStampStepMillis : Z := 1000.
Definition kStampTtlMillis : Z := 30000.
Definition kOriginLabel : string := "rack-fabric:synthetic:1.0.0".
Definition kRequestNote : string := "synthetic-cluster-generation".
Definition kTopologyReason : string := "synthetic_topology_epoch_change".
Definition kMaxTopologyEpochChanges : N := 1024.

(** ** Helpers *)

(** The values [start], [start + 1], ... of a counting loop. *)
Definition seqN (start len : N) : list N := N.of_nat <$> seq (N.to_nat start) (N.to_nat len).

Definition make_id {tag} (text : string) : StrongId tag := default no_id (parse_id text).

Definition lower_char (c : ascii) : ascii :=
  if (code "A" <=? code c) && (code c <=? code "Z")
  then Ascii.ascii_of_N (code c - code "A" + code "a") else c.

Definition lowercase (text : string) : string := of_chars (lower_char <$> chars text).

Definition synthetic_stamp (ordinal : Z) : EvidenceStamp :=
  let offset := if (ordinal <? 0)%Z then 0%Z else ordinal in
  stamp_make Prov_Synthetic (MkTs (kStampBaseMillis + offset * kStampStepMillis)) kStampTtlMillis.

(** Arithmetic of doubles. *)
Definition dbl_mul (x y : double) : double :=
  dbl_of_spec (SFmul dbl_prec dbl_emax (dbl_to_spec x) (dbl_to_spec y)).

Definition dbl_sub (x y : double) : double :=
  dbl_of_spec (SFsub dbl_prec dbl_emax (dbl_to_spec x) (dbl_to_spec y)).

(** [static_cast<double>] of an unsigned value. *)
Definition dbl_of_N (n : N) : double :=
  dbl_of_spec (binary_normalize dbl_prec dbl_emax (Z.of_N n) 0 false).

Definition dbl_half : double := dbl_of_spec (S754_finite false (2 ^ 52) (-53)).

Definition dbl_compare (x y : double) : option comparison :=
  SFcompare (dbl_to_spec x) (dbl_to_spec y).

Definition dbl_ge (x y : double) : bool :=
  match dbl_compare x y with Some Eq | Some Gt => true | _ => false end.
Definition dbl_gt (x y : double) : bool :=
  match dbl_compare x y with Some Gt => true | _ => false end.

Definition dbl_opp (x : double) : double := dbl_of_spec (SFopp (dbl_to_spec x)).

(** [static_cast] to an integer: truncation towards zero. *)
Definition dbl_trunc (d : double) : Z :=
  match dbl_to_spec d with
  | S754_finite s m e =>
      let v := if (0 <=? e)%Z then (Zpos m * 2 ^ e)%Z else (Zpos m / 2 ^ (- e))%Z in
      if s then (- v)%Z else v
  | _ => 0%Z
  end.

(** Zeros are put in front until there are more than six digits. *)
Definition pad_seven (digits : string) : string :=
  of_chars (replicate (7 - length (chars digits)) "0"%char ++ chars digits).

Definition fixed_six (value : double) : string :=
  if negb (dbl_ge value value) then "nan" else
  let scaled := dbl_mul value (dbl_of_N 1000000) in
  let limit := dbl_of_N 9000000000000000 in
  if negb (dbl_ge scaled (dbl_opp limit) && dbl_ge limit scaled) then
    if dbl_gt value dbl_zero then "large-positive" else "large-negative" else
  let rounded := dbl_trunc (if dbl_ge scaled dbl_zero then dbl_add scaled dbl_half
                            else dbl_sub scaled dbl_half) in
  let digits := chars (pad_seven (to_decimal (Z.to_N (Z.abs rounded)))) in
  let whole := (length digits - 6)%nat in
  (if (rounded <? 0)%Z then "-" else "") +:+ of_chars (take whole digits) +:+ "." +:+
  of_chars (drop whole digits).

Definition join_indices (values : list N) : string :=
  match values with
  | [] => "none"
  | v :: rest => foldl (λ out v, out +:+ "," +:+ to_decimal v) (to_decimal v) rest
  end.

(** [std::swap(l[i], l[j])]. *)
Definition swap {A} (i j : nat) (l : list A) : list A :=
  match l !! i, l !! j with
  | Some x, Some y => <[j := x]> (<[i := y]> l)
  | _, _ => l
  end.

(** One draw of the partial shuffle. *)
Definition draw (st : list N * N) (i : N) : list N * N :=
  let '(candidates, rng) := st in
  let '(offset, rng) := below (size candidates - i) rng in
  (swap (N.to_nat i) (N.to_nat (i + offset)) candidates, rng).

Definition select_subset (candidates : list N) (count : N) (rng : N) : list N * N :=
  if size candidates <=? count then (candidates, rng) else
  let '(candidates, rng) := foldl draw (candidates, rng) (seqN 0 count) in
  (take (N.to_nat count) candidates, rng).

(** The sums wrap around. *)
Definition effective_group_size (requested item_count limit : N) : N :=
  let group := if requested =? 0 then 1 else requested in
  if (item_count =? 0) || (limit =? 0) then group else
  let minimum := wrap64 (item_count + limit - 1) / limit in
  if group <? minimum then minimum else group.

Definition group_count (item_count group : N) : N :=
  if (item_count =? 0) || (group =? 0) then 0 else wrap64 (item_count + group - 1) / group.

(** ** Identities *)

Definition synthetic_rack_id (index : N) : RackId := make_id ("rack-syn-" +:+ to_decimal index).
Definition synthetic_placement_domain_id (index : N) : PlacementDomainId :=
  make_id ("pd-syn-" +:+ to_decimal index).
Definition synthetic_failure_domain_id (klass : FailureDomainClass) (index : N) : FailureDomainId :=
  make_id ("fd-" +:+ lowercase (string_of_failure_domain_class klass) +:+ "-" +:+ to_decimal index).
Definition synthetic_capacity_domain_id (index : N) : CapacityDomainId :=
  make_id ("cd-syn-" +:+ to_decimal index).
Definition synthetic_network_domain_id (index : N) : NetworkDomainId :=
  make_id ("nd-syn-" +:+ to_decimal index).
Definition synthetic_link_id (source destination : RackId) : InterRackLinkId :=
  make_id ("link-" +:+ id_value source +:+ "-" +:+ id_value destination).
Definition endpoint_id (index : N) : RackEndpointId := make_id ("ep-syn-" +:+ to_decimal index).

Definition member_slice (included : list N) (begin end_ : N) : list RackId :=
  if (size included <=? begin) || (end_ <=? begin) then [] else
  let stop := N.min end_ (size included) in
  synthetic_rack_id <$> take (N.to_nat (stop - begin)) (drop (N.to_nat begin) included).

Definition sort_unique_racks (racks : list RackId) : list RackId := sort_uniq less racks.

Definition rack_ids_of (indices : list N) : list RackId :=
  sort_by less (synthetic_rack_id <$> indices).

(** ** Composition *)

(** [table[index % n]]. *)
Definition pick {A} (first : A) (table : list A) (index : N) : A :=
  default first (table !! N.to_nat (index mod size table)).

Definition kVendors : list AcceleratorVendor := [Vendor_Nvidia; Vendor_Amd; Vendor_Intel; Vendor_Other].
Definition kFamilies : list string := ["H100"; "MI300X"; "Gaudi3"; "SyntheticAccelerator"]%string.
Definition kDeviceCounts : list N := [4; 8; 16; 32].
Definition kMemoryPerDevice : list N := [40; 80; 96; 128].

Definition make_accelerator (vendor_index device_index : N) : AcceleratorClassSummary :=
  let count := pick 4 kDeviceCounts device_index in
  MkAccelerator (pick Vendor_Nvidia kVendors vendor_index) (pick "H100" kFamilies vendor_index)
    (Some count) (Some (pick 40 kMemoryPerDevice device_index * count * 2 ^ 30)).

Definition make_composition (index : N) (heterogeneous : bool) (rng : N) : RackCompositionSummary * N :=
  let '(vendor_index, device_index, rng) :=
    if heterogeneous then
      let '(v, rng) := below 4 rng in let '(d, rng) := below 4 rng in (v, d, rng)
    else (0, 1, rng) in
  let accelerators :=
    [make_accelerator vendor_index device_index] ++
    (if heterogeneous && (index mod 3 =? 2)
     then [make_accelerator (vendor_index + 1) (device_index + 1)] else []) in
  (MkComposition (sort_by accelerator_lt accelerators) (Some 2) (Some (96 + index mod 5 * 32))
     (Some ((512 + index mod 7 * 128) * 2 ^ 30)) (Some (2 + index mod 3 * 2)) (Some 2)
     "synthetic-gpu-dense" Prov_Synthetic, rng).

(** ** Configuration and output *)

Record SyntheticConfig := MkSyntheticConfig {
  sg_seed : N;
  sg_cluster : ClusterId;
  sg_publisher : RackPublisherId;
  sg_boot : RackAgentBootId;
  sg_rack_count : N;
  sg_racks_per_placement_domain : N;
  sg_racks_per_failure_domain : N;
  sg_network_domain_count : N;
  sg_link_density : double;
  sg_heterogeneous : bool;
  sg_missing_rack_count : N;
  sg_stale_rack_count : N;
  sg_rack_generation_changes : N;
  sg_degraded_domain_count : N;
  sg_partition_count : N;
  sg_asymmetric_connectivity : bool;
  sg_topology_epoch_changes : N;
  sg_include_power_cooling : bool;
  sg_mandatory_rack_indices : list N
}.

(** The default values: the density is 0.35. *)
Definition default_synthetic_config : SyntheticConfig :=
  MkSyntheticConfig 1 no_id no_id no_id 8 2 2 2 (MkDouble 0x3FD6666666666666) true 0 0 0 0 0 false 0
    false [].

(** [reproduction_parameters]. *)
Definition bool_text (b : bool) : string := if b then "true" else "false".

Definition identity_field {tag} (i : StrongId tag) : string :=
  if id_known i then id_value i else "<unknown>".

Definition reproduction_fields (c : SyntheticConfig) : list (string * string) :=
  [("seed", to_decimal (sg_seed c)); ("cluster", identity_field (sg_cluster c));
   ("publisher", identity_field (sg_publisher c)); ("boot", identity_field (sg_boot c));
   ("rack_count", to_decimal (sg_rack_count c));
   ("racks_per_placement_domain", to_decimal (sg_racks_per_placement_domain c));
   ("racks_per_failure_domain", to_decimal (sg_racks_per_failure_domain c));
   ("network_domain_count", to_decimal (sg_network_domain_count c));
   ("link_density", fixed_six (sg_link_density c));
   ("heterogeneous", bool_text (sg_heterogeneous c));
   ("missing_rack_count", to_decimal (sg_missing_rack_count c));
   ("stale_rack_count", to_decimal (sg_stale_rack_count c));
   ("rack_generation_changes", to_decimal (sg_rack_generation_changes c));
   ("degraded_domain_count", to_decimal (sg_degraded_domain_count c));
   ("partition_count", to_decimal (sg_partition_count c));
   ("asymmetric_connectivity", bool_text (sg_asymmetric_connectivity c));
   ("topology_epoch_changes", to_decimal (sg_topology_epoch_changes c));
   ("include_power_cooling", bool_text (sg_include_power_cooling c));
   ("mandatory_rack_indices", join_indices (sg_mandatory_rack_indices c))]%string.

Definition reproduction_parameters (c : SyntheticConfig) : string :=
  foldl (λ out f, out +:+ newline +:+ f.1 +:+ "=" +:+ f.2) "synthetic-cluster/v1"
    (sort_by (λ x y, less x.1 y.1) (reproduction_fields c)).

#[global] Instance eta_SyntheticConfig : Eta SyntheticConfig := λ r,
  MkSyntheticConfig (sg_seed r) (sg_cluster r) (sg_publisher r) (sg_boot r) (sg_rack_count r)
    (sg_racks_per_placement_domain r) (sg_racks_per_failure_domain r) (sg_network_domain_count r)
    (sg_link_density r) (sg_heterogeneous r) (sg_missing_rack_count r) (sg_stale_rack_count r)
    (sg_rack_generation_changes r) (sg_degraded_domain_count r) (sg_partition_count r)
    (sg_asymmetric_connectivity r) (sg_topology_epoch_changes r) (sg_include_power_cooling r)
    (sg_mandatory_rack_indices r).
#[global] Instance upd_sg_cluster : Upd sg_cluster := ltac:(derive_upd).
#[global] Instance upd_sg_publisher : Upd sg_publisher := ltac:(derive_upd).
#[global] Instance upd_sg_boot : Upd sg_boot := ltac:(derive_upd).
#[global] Instance upd_sg_rack_count : Upd sg_rack_count := ltac:(derive_upd).
#[global] Instance upd_sg_racks_per_placement_domain : Upd sg_racks_per_placement_domain := ltac:(derive_upd).
#[global] Instance upd_sg_racks_per_failure_domain : Upd sg_racks_per_failure_domain := ltac:(derive_upd).
#[global] Instance upd_sg_link_density : Upd sg_link_density := ltac:(derive_upd).
#[global] Instance upd_sg_stale_rack_count : Upd sg_stale_rack_count := ltac:(derive_upd).
#[global] Instance upd_sg_missing_rack_count : Upd sg_missing_rack_count := ltac:(derive_upd).
#[global] Instance upd_sg_topology_epoch_changes : Upd sg_topology_epoch_changes := ltac:(derive_upd).

Record SyntheticCluster := MkSyntheticCluster {
  sc_config : SyntheticConfig;
  sc_cluster : ClusterId;
  sc_racks : list RackId;
  sc_requests : list MutationRequest;
  sc_stale_racks : list RackId;
  sc_missing_racks : list RackId;
  sc_failure_domains : list FailureDomain;
  sc_placement_domains : list PlacementDomain;
  sc_capacity_domains : list CapacityDomain;
  sc_links : list InterRackLink
}.

(** ** The choice of the racks *)

(** The locals of the generator that are fixed before the first request. *)
Record Selection := MkSelection {
  sl_all : list N;
  sl_mandatory : list N;
  sl_missing : list N;
  sl_included : list N;
  sl_stale : list N;
  sl_advanced : list N;
  sl_partitioned : list N;
  sl_rng : N
}.

(** The indices that are not in a sorted list. *)
Definition without (excluded indices : list N) : list N :=
  List.filter (λ i, negb (binary_search less excluded i)) indices.

(** A sorted subset of the candidates, as many as wanted if there are. *)
Definition choose (candidates : list N) (wanted : N) (rng : N) : list N * N :=
  let '(chosen, rng) := select_subset candidates (N.min wanted (size candidates)) rng in
  (sort_by less chosen, rng).

Definition select (c : SyntheticConfig) : Selection :=
  let rack_count := N.min (sg_rack_count c) kMaxRacksPerCluster in
  let all := seqN 0 rack_count in
  let mandatory := sort_uniq less (List.filter (λ i, i <? rack_count) (sg_mandatory_rack_indices c)) in
  let '(missing, rng) := choose (without mandatory all) (sg_missing_rack_count c) (sg_seed c) in
  let included := without missing all in
  let '(stale, rng) := choose included (sg_stale_rack_count c) rng in
  let '(advanced, rng) := choose (without stale included) (sg_rack_generation_changes c) rng in
  let '(partitioned, rng) := choose (without mandatory included) (sg_partition_count c) rng in
  MkSelection all mandatory missing included stale advanced partitioned rng.

(** The compositions, drawn for every index in turn. *)
Definition draw_compositions (c : SyntheticConfig) (indices : list N) (rng : N) :
    list RackCompositionSummary * N :=
  foldl (λ st i, let '(drawn, rng) := st in
                 let '(composition, rng) := make_composition i (sg_heterogeneous c) rng in
                 (drawn ++ [composition], rng)) ([], rng) indices.

(** ** The scenario under construction *)

Record Synth := MkSynth {
  sy_rng : N;
  sy_requests : list MutationRequest;
  sy_placement_domains : list PlacementDomain;
  sy_capacity_domains : list CapacityDomain;
  sy_failure_domains : list FailureDomain;
  sy_links : list InterRackLink;
  sy_topology_epoch : TopologyEpoch;
  sy_topology_generation : TopologyGeneration;
  sy_rack_publications : list N;
  sy_stamp_ordinal : N
}.

#[global] Instance eta_Synth : Eta Synth := λ r,
  MkSynth (sy_rng r) (sy_requests r) (sy_placement_domains r) (sy_capacity_domains r)
    (sy_failure_domains r) (sy_links r) (sy_topology_epoch r) (sy_topology_generation r)
    (sy_rack_publications r) (sy_stamp_ordinal r).
#[global] Instance upd_sy_rng : Upd sy_rng := ltac:(derive_upd).
#[global] Instance upd_sy_requests : Upd sy_requests := ltac:(derive_upd).
#[global] Instance upd_sy_placement_domains : Upd sy_placement_domains := ltac:(derive_upd).
#[global] Instance upd_sy_capacity_domains : Upd sy_capacity_domains := ltac:(derive_upd).
#[global] Instance upd_sy_failure_domains : Upd sy_failure_domains := ltac:(derive_upd).
#[global] Instance upd_sy_links : Upd sy_links := ltac:(derive_upd).
#[global] Instance upd_sy_topology_epoch : Upd sy_topology_epoch := ltac:(derive_upd).
#[global] Instance upd_sy_topology_generation : Upd sy_topology_generation := ltac:(derive_upd).
#[global] Instance upd_sy_rack_publications : Upd sy_rack_publications := ltac:(derive_upd).
#[global] Instance upd_sy_stamp_ordinal : Upd sy_stamp_ordinal := ltac:(derive_upd).

Section synthetic.
Context (config : SyntheticConfig).

Definition known_boot : option RackAgentBootId :=
  if id_known (sg_boot config) then Some (sg_boot config) else None.
Definition known_publisher : option RackPublisherId :=
  if id_known (sg_publisher config) then Some (sg_publisher config) else None.

Definition push (request : MutationRequest) (sy : Synth) : Synth :=
  sy <| sy_requests := sy_requests sy ++ [request] |>.

Definition next_stamp_ordinal (sy : Synth) : Z * Synth :=
  let ordinal := sy_stamp_ordinal sy + 1 in
  (Z.of_N ordinal, sy <| sy_stamp_ordinal := ordinal |>).

(** [base_request]: the epochs are 1 but for the topology. *)
Definition base_request (kind : MutationKind) (sy : Synth) : MutationRequest :=
  (blank_request kind)
    <| rq_cluster := sg_cluster config |>
    <| rq_authority := MkAuthority (MkCtr 1) (MkCtr 1) (sy_topology_epoch sy)
         (sy_topology_generation sy) None None None None (MkCtr 1) |>
    <| rq_reason := kRequestNote |>.

Definition make_header (generation : N) (label : string) (ordinal : Z) : DomainHeader :=
  MkHeader (synthetic_stamp ordinal) (MkCtr generation) known_publisher (MkCtr 1) (MkCtr 1) label.

Definition make_reference (compositions : list RackCompositionSummary) (index : N)
    (generation : RackGeneration) (publication : N) : RackReference :=
  let stamp := synthetic_stamp (Z.of_N index) in
  MkReference (synthetic_rack_id index) generation RL_Ready Cur_Unknown
    (default no_composition (compositions !! N.to_nat index))
    [MkEndpoint (endpoint_id index) None None Conn_DirectFabric stamp]
    [MkHint FD_Row (synthetic_failure_domain_id FD_Row index) stamp]
    stamp known_publisher (MkCtr publication) (default no_id known_boot) (MkCtr 1) (MkCtr 1)
    Health_Healthy kOriginLabel.

(** Evidence and time of a request. *)
Definition stamped (stamp : EvidenceStamp) (request : MutationRequest) : MutationRequest :=
  request <| rq_evidence := stamp |> <| rq_requested_at := ev_observed_at stamp |>.

(** A request that acts for a rack. *)
Definition rack_request (kind : MutationKind) (index : N) (generation : RackGeneration)
    (publication : N) (sy : Synth) : MutationRequest :=
  let request := base_request kind sy in
  let a := rq_authority request in
  stamped (synthetic_stamp (Z.of_N index))
    (request <| rq_authority := MkAuthority (au_cluster_epoch a) (au_coordinator_epoch a)
       (au_topology_epoch a) (au_topology_generation a) known_boot known_publisher
       (Some (synthetic_rack_id index)) (Some generation) (MkCtr publication) |>).

(** ** The phases *)

Definition declare_request (sel : Selection) (sy : Synth) : MutationRequest :=
  let mandatory := match sl_mandatory sel with [] => sl_included sel | m => m end in
  stamped (synthetic_stamp 0)
    ((base_request MK_DeclareCluster sy)
       <| rq_declared_lifecycle := CL_Forming |>
       <| rq_readiness_contract :=
            MkContract (size (sl_included sel)) (sort_unique_racks (rack_ids_of mandatory)) false
              false 0 [] [] true true true |>).

Definition publications_set (index value : N) (sy : Synth) : Synth :=
  sy <| sy_rack_publications := <[N.to_nat index := value]> (sy_rack_publications sy) |>.

Definition register_rack (compositions : list RackCompositionSummary) (sy : Synth) (index : N) : Synth :=
  let request := rack_request MK_RegisterRackPublisher index (MkCtr 1) 1 sy in
  push (request <| rq_rack_reference := make_reference compositions index (MkCtr 1) 1 |>)
    (publications_set index 1 sy).

Definition admit_rack (compositions : list RackCompositionSummary) (sy : Synth) (index : N) : Synth :=
  let request := rack_request MK_AddRack index (MkCtr 2) 2 sy in
  push (request <| rq_membership := Mem_Active |>
                <| rq_rack_reference := make_reference compositions index (MkCtr 2) 2 |>)
    (publications_set index 2 sy).

Definition kPlacementClasses : list PlacementDomainClass :=
  [PD_LowLatencyFabric; PD_AvailabilityDomain; PD_NetworkTier; PD_PowerBoundary; PD_StorageLocality;
   PD_FailureDomain; PD_PolicyClass].
Definition kCapacityClasses : list CapacityDomainClass :=
  [CD_RackGroup; CD_AcceleratorPool; CD_CpuPool; CD_NetworkDomain; CD_StorageDomain].
Definition kFailureClasses : list FailureDomainClass :=
  [FD_Row; FD_SwitchPlane; FD_PowerFeed; FD_NetworkPlane; FD_AvailabilityZone; FD_CoolingLoop;
   FD_ControlPlane].
Definition kConnectivityClasses : list ConnectivityClass :=
  [Conn_DirectFabric; Conn_SwitchedFabric; Conn_RoutedPath; Conn_Overlay; Conn_ManagementOnly].

(** The members of a group of consecutive racks. *)
Definition group_members (included : list N) (group domain_index : N) : list RackId :=
  let begin := wrap64 (domain_index * group) in
  sort_unique_racks
    (member_slice included begin (N.min (wrap64 (begin + group)) (size included))).

(** A domain request: [label] names the domain, [fill] puts it in the request. *)
Definition publish_domain (kind : MutationKind) (label : string)
    (fill : DomainHeader → MutationRequest → MutationRequest) (sy : Synth) : DomainHeader * Synth :=
  let '(ordinal, sy) := next_stamp_ordinal sy in
  let header := make_header 1 label ordinal in
  (header, push (fill header (stamped (dh_evidence header) (base_request kind sy))) sy).

Definition publish_placement (included : list N) (group degraded_count : N) (sy : Synth)
    (domain_index : N) : Synth :=
  let racks := group_members included group domain_index in
  let racks := if (domain_index <? degraded_count) && (1 <? size racks)
               then removelast racks else racks in
  let domain header := MkPlacement (synthetic_placement_domain_id domain_index)
    (pick PD_LowLatencyFabric kPlacementClasses domain_index) racks header in
  let '(header, sy) := publish_domain MK_PublishPlacementDomain
    ("synthetic placement domain " +:+ to_decimal domain_index)
    (λ h r, r <| rq_placement_domain := Some (domain h) |>) sy in
  sy <| sy_placement_domains := sy_placement_domains sy ++ [domain header] |>.

(** The totals of the compositions of a group. *)
Definition group_indices (included : list N) (group domain_index : N) : list N :=
  let begin := wrap64 (domain_index * group) in
  let end_ := N.min (wrap64 (begin + group)) (size included) in
  take (N.to_nat (end_ - begin)) (drop (N.to_nat begin) included).

Definition add64 (x y : N) : N := wrap64 (x + y).

Definition devices_of (c : RackCompositionSummary) (total : N) : N :=
  foldl (λ t a, add64 t (default 0 (ac_device_count a))) total (rc_accelerators c).
Definition accelerator_memory_of (c : RackCompositionSummary) (total : N) : N :=
  foldl (λ t a, add64 t (default 0 (ac_device_memory_bytes a))) total (rc_accelerators c).
Definition host_memory_of (c : RackCompositionSummary) (total : N) : N :=
  add64 total (default 0 (rc_host_memory_bytes c)).

Definition group_total (f : RackCompositionSummary → N → N)
    (compositions : list RackCompositionSummary) (indices : list N) : N :=
  foldl (λ t i, f (default no_composition (compositions !! N.to_nat i)) t) 0 indices.

Definition synthetic_quantity (unit : string) (value : N) : CapacityQuantity :=
  MkQuantity unit (Some (dbl_of_N value)) Prov_Synthetic true.

Definition publish_capacity (compositions : list RackCompositionSummary) (included : list N)
    (group : N) (sy : Synth) (domain_index : N) : Synth :=
  let indices := group_indices included group domain_index in
  let domain header := MkCapacity (synthetic_capacity_domain_id domain_index)
    (pick CD_RackGroup kCapacityClasses domain_index) (group_members included group domain_index)
    [synthetic_quantity "accelerator_memory_bytes" (group_total accelerator_memory_of compositions indices);
     synthetic_quantity "devices" (group_total devices_of compositions indices);
     synthetic_quantity "host_memory_bytes" (group_total host_memory_of compositions indices)] header in
  let '(header, sy) := publish_domain MK_PublishCapacityDomain
    ("synthetic capacity domain " +:+ to_decimal domain_index)
    (λ h r, r <| rq_capacity_domain := Some (domain h) |>) sy in
  sy <| sy_capacity_domains := sy_capacity_domains sy ++ [domain header] |>.

(** The groups of the failure domains: doubled until they fit. *)
Fixpoint widen_groups (guard : nat) (included failure_group : N) : N :=
  let failure_count := group_count included failure_group in
  let availability_count := group_count failure_count 2 in
  match guard with
  | O => failure_group
  | S guard =>
      if negb (included =? 0) && (kMaxDomainsPerClass <? failure_count + availability_count)
      then widen_groups guard included (wrap64 (failure_group * 2)) else failure_group
  end.

Definition publish_failure (klass : FailureDomainClass) (identity_index : N) (racks : list RackId)
    (label : string) (sy : Synth) : Synth :=
  let domain header := MkFailure (synthetic_failure_domain_id klass identity_index) klass racks header in
  let '(header, sy) := publish_domain MK_PublishFailureDomain label
    (λ h r, r <| rq_failure_domain := Some (domain h) |>) sy in
  sy <| sy_failure_domains := sy_failure_domains sy ++ [domain header] |>.

Definition publish_failure_group (included : list N) (group : N) (sy : Synth) (domain_index : N) : Synth :=
  publish_failure (pick FD_Row kFailureClasses domain_index) domain_index
    (group_members included group domain_index)
    ("synthetic failure domain " +:+ to_decimal domain_index) sy.

(** Zones of two groups each. *)
Definition zone_group (failure_group : N) : N := wrap64 (2 * failure_group).
Definition zone_begin (failure_group zone_index : N) : N := wrap64 (wrap64 (zone_index * 2) * failure_group).

Definition zone_members (included : list N) (failure_group zone_index : N) : list RackId :=
  let begin := zone_begin failure_group zone_index in
  sort_unique_racks (member_slice included begin
    (N.min (wrap64 (begin + zone_group failure_group)) (size included))).

Definition publish_zone (included : list N) (group failure_count : N) (sy : Synth) (zone_index : N) : Synth :=
  publish_failure FD_AvailabilityZone (failure_count + zone_index)
    (zone_members included group zone_index)
    ("synthetic availability zone " +:+ to_decimal zone_index) sy.

(** [domains_of_rack]: the failure domains of every index. *)
Definition push_domain (domain : FailureDomainId) (table : list (list FailureDomainId)) (index : N) :
    list (list FailureDomainId) :=
  alter (λ ids, ids ++ [domain]) (N.to_nat index) table.

Definition zone_indices (included : list N) (failure_group zone_index : N) : list N :=
  let begin := zone_begin failure_group zone_index in
  let end_ := N.min (wrap64 (begin + zone_group failure_group)) (size included) in
  take (N.to_nat (end_ - begin)) (drop (N.to_nat begin) included).

Definition domains_of_rack (rack_count : N) (included : list N) (group failure_count zone_count : N)
    (domains : list FailureDomain) : list (list FailureDomainId) :=
  let identity i := default no_id (fd_id <$> domains !! N.to_nat i) in
  let table := replicate (N.to_nat rack_count) [] in
  let table := foldl (λ t d, foldl (push_domain (identity d)) t (group_indices included group d)) table
                 (seqN 0 failure_count) in
  let table := foldl (λ t z, foldl (push_domain (identity (failure_count + z))) t
                               (zone_indices included group z)) table (seqN 0 zone_count) in
  sort_uniq less <$> table.

(** Racks dealt to the network domains in turn. *)
Definition network_members (included : list N) (network_count domain_index : N) : list RackId :=
  omap (λ e : N * N, if e.1 mod network_count =? domain_index then Some (synthetic_rack_id e.2) else None)
    (zip (seqN 0 (size included)) included).

Definition publish_network (included : list N) (network_count : N) (sy : Synth) (domain_index : N) : Synth :=
  let domain header := MkNetwork (synthetic_network_domain_id domain_index)
    (pick Conn_DirectFabric kConnectivityClasses domain_index)
    (sort_unique_racks (network_members included network_count domain_index)) header in
  snd (publish_domain MK_PublishNetworkDomain ("synthetic network domain " +:+ to_decimal domain_index)
    (λ h r, r <| rq_network_domain := Some (domain h) |>) sy).

Definition publish_power (included : list N) (group : N) (sy : Synth) (domain_index : N) : Synth :=
  let domain header := MkPower (make_id ("power-syn-" +:+ to_decimal domain_index))
    (group_members included group domain_index)
    (if domain_index =? 0 then None else Some (make_id "power-syn-0")) header in
  snd (publish_domain MK_PublishPowerDomain ("synthetic power domain " +:+ to_decimal domain_index)
    (λ h r, r <| rq_power_domain := Some (domain h) |>) sy).

Definition publish_cooling (included : list N) (group : N) (sy : Synth) (domain_index : N) : Synth :=
  let domain header := MkCooling (make_id ("cooling-syn-" +:+ to_decimal domain_index))
    (group_members included group domain_index)
    (if domain_index =? 0 then None else Some (make_id "cooling-syn-0")) header in
  snd (publish_domain MK_PublishCoolingDomain ("synthetic cooling domain " +:+ to_decimal domain_index)
    (λ h r, r <| rq_cooling_domain := Some (domain h) |>) sy).

(** One supersession; nothing once the epoch cannot advance. *)
Definition supersede_topology (sy : Synth) (_ : N) : Synth :=
  match next (sy_topology_epoch sy) with
  | None => sy
  | Some target =>
      let request := base_request MK_SupersedeTopology sy in
      let '(ordinal, sy) := next_stamp_ordinal sy in
      let sy := push (stamped (synthetic_stamp ordinal)
        (request <| rq_target_topology_epoch := Some target |>
                 <| rq_topology_reason := kTopologyReason |>)) sy in
      sy <| sy_topology_epoch := target |>
         <| sy_topology_generation :=
              default (sy_topology_generation sy) (next (sy_topology_generation sy)) |>
  end.

(** ** Links *)

Definition total_pairs (connectable : N) : N :=
  if 1 <? connectable then connectable * (connectable - 1) / 2 else 0.

Definition clamped_density (density : double) : double :=
  let density := if negb (dbl_ge density dbl_zero) then dbl_zero else density in
  if dbl_gt density (dbl_of_N 1) then dbl_of_N 1 else density.

Definition link_target (density : double) (pairs : N) : N :=
  let target := Z.to_N (dbl_trunc (dbl_add (dbl_mul (clamped_density density) (dbl_of_N pairs)) dbl_half)) in
  let target := if pairs <? target then pairs else target in
  if kMaxInterRackLinks <? target then kMaxInterRackLinks else target.

(** The positions of the pairs, in the order of the two loops. *)
Definition position_pairs (count : N) : list (N * N) :=
  flat_map (λ i, pair i <$> seqN (i + 1) (count - (i + 1))) (seqN 0 count).

(** Selection sampling: [ordinal] pairs have been seen, [remaining] are wanted. *)
Record Sampling := MkSampling {
  sp_selected : list (N * N);
  sp_remaining : N;
  sp_ordinal : N;
  sp_rng : N
}.

Definition sample (pairs : N) (st : Sampling) (pair : N * N) : Sampling :=
  if sp_remaining st =? 0 then st else
  let left := pairs - sp_ordinal st in
  let '(taken, rng) :=
    if left =? 0 then (false, sp_rng st) else
    let '(value, rng) := below left (sp_rng st) in (value <? sp_remaining st, rng) in
  MkSampling (if taken then sp_selected st ++ [pair] else sp_selected st)
    (if taken then sp_remaining st - 1 else sp_remaining st) (sp_ordinal st + 1) rng.

Definition select_pairs (count target : N) (rng : N) : Sampling :=
  foldl (sample (total_pairs count)) (MkSampling [] target 0 rng) (position_pairs count).

(** [std::set_intersection] of sorted lists. *)
Fixpoint set_intersection (l1 : list FailureDomainId) : list FailureDomainId → list FailureDomainId :=
  fix inner (l2 : list FailureDomainId) : list FailureDomainId :=
    match l1, l2 with
    | x :: l1', y :: l2' =>
        if less x y then set_intersection l1' l2
        else if less y x then inner l2'
        else x :: set_intersection l1' l2'
    | _, _ => []
    end.

Definition make_link (table : list (list FailureDomainId)) (network_count : N) (source_index destination_index : N)
    (unidirectional : bool) (publication : N) (header : DomainHeader) (sy : Synth) : InterRackLink :=
  let source := synthetic_rack_id source_index in
  let destination := synthetic_rack_id destination_index in
  let domains i := default [] (table !! N.to_nat i) in
  MkLink (synthetic_link_id source destination) source destination
    (if unidirectional then Dir_Unidirectional else Dir_Bidirectional)
    (if network_count =? 0 then Conn_DirectFabric
     else pick Conn_DirectFabric kConnectivityClasses (source_index mod network_count))
    (if network_count =? 0 then None
     else Some (synthetic_network_domain_id (source_index mod network_count)))
    None (Some (endpoint_id source_index)) (Some (endpoint_id destination_index))
    (default BW_Unknown (of_raw (1 + source_index mod 4)))
    (Some (100000000000 * (1 + source_index mod 4)))
    (default Lat_Unknown (of_raw (1 + (source_index + destination_index) mod 4)))
    (Some (400 + destination_index mod 64 * 10)) (Some 1) Reach_Reachable Health_Healthy
    (take (N.to_nat kMaxFailureDomainRefs)
       (set_intersection (domains source_index) (domains destination_index)))
    header (sy_topology_epoch sy) (sy_topology_generation sy) (MkCtr publication) known_boot.

(** One link, with the number of those before it. *)
Definition publish_link (table : list (list FailureDomainId)) (network_count : N) (connectable : list N)
    (st : Synth * N) (pair : N * N) : Synth * N :=
  let '(sy, link_publication) := st in
  let source_index := default 0 (connectable !! N.to_nat pair.1) in
  let destination_index := default 0 (connectable !! N.to_nat pair.2) in
  let '(unidirectional, rng) :=
    if sg_asymmetric_connectivity config then
      let '(value, rng) := rng_next (sy_rng sy) in (negb (N.land value 1 =? 0), rng)
    else (false, sy_rng sy) in
  let sy := sy <| sy_rng := rng |> in
  let link_publication := link_publication + 1 in
  let '(ordinal, sy) := next_stamp_ordinal sy in
  let header := make_header 1 ("synthetic inter-rack link " +:+ id_value (synthetic_rack_id source_index) +:+
    " to " +:+ id_value (synthetic_rack_id destination_index)) ordinal in
  let link := make_link table network_count source_index destination_index unidirectional
                link_publication header sy in
  let sy := push (stamped (dh_evidence header)
    ((base_request MK_PublishInterRackLink sy) <| rq_link := Some link |>)) sy in
  (sy <| sy_links := sy_links sy ++ [link] |>, link_publication).

(** ** The constraint and the generation changes *)

Definition publish_constraint (included : list N) (sy : Synth) : Synth :=
  match included with
  | [] => sy
  | _ =>
      let racks := take (N.to_nat kMaxDomainMembers) (sort_unique_racks (rack_ids_of included)) in
      let reference := match sy_placement_domains sy with
                       | [] => ""
                       | d :: _ => "placement_domain/" +:+ id_value (pd_id d)
                       end in
      let '(ordinal, sy) := next_stamp_ordinal sy in
      let header := make_header 1 "synthetic placement constraint" ordinal in
      let constraint := MkConstraint (make_id "constraint-syn-0") CK_PlacementScope racks reference
        "synthetic scenario keeps every admitted rack inside one declared placement scope" header in
      push (stamped (dh_evidence header)
        ((base_request MK_PublishConstraint sy) <| rq_constraint := Some constraint |>)) sy
  end.

Definition relabel (label : string) (r : RackReference) : RackReference :=
  r <| rr_composition := (rr_composition r) <| rc_composition_label := label |> |>.

Definition advance_rack (compositions : list RackCompositionSummary) (change : RackReference → RackReference)
    (sy : Synth) (index : N) : Synth :=
  let publication := wrap64 (default 0 (sy_rack_publications sy !! N.to_nat index) + 1) in
  let request := rack_request MK_UpdateRackGeneration index (MkCtr 2) publication sy in
  push (request <| rq_expected_rack_generation := Some (MkCtr 2) |>
                <| rq_new_rack_generation := Some (MkCtr 3) |>
                <| rq_rack_reference := change (make_reference compositions index (MkCtr 3) publication) |>)
    (publications_set index publication sy).

(** ** The whole generation *)

(** The sizes of the groups. *)
Definition placement_group (included : N) : N :=
  effective_group_size (sg_racks_per_placement_domain config) included kMaxDomainsPerClass.
Definition placement_count (included : N) : N := group_count included (placement_group included).
Definition failure_group (included : N) : N :=
  widen_groups 64 included
    (if sg_racks_per_failure_domain config =? 0 then 1 else sg_racks_per_failure_domain config).
Definition failure_count (included : N) : N := group_count included (failure_group included).
Definition availability_count (included : N) : N := group_count (failure_count included) 2.
Definition network_count : N := N.min (sg_network_domain_count config) kMaxDomainsPerClass.

(** Steps 1 to 3: the declaration, the registrations and the admissions. *)
Definition admissions (sel : Selection) (compositions : list RackCompositionSummary) (sy : Synth) : Synth :=
  let sy := push (declare_request sel sy) sy in
  let sy := foldl (register_rack compositions) sy (sl_all sel) in
  foldl (admit_rack compositions) sy (sl_included sel).

(** Steps 4 to 8: the domains. *)
Definition domains (sel : Selection) (compositions : list RackCompositionSummary) (sy : Synth) : Synth :=
  let included := sl_included sel in
  let n := size included in
  let groups := seqN 0 (placement_count n) in
  let degraded := N.min (sg_degraded_domain_count config) (placement_count n) in
  let sy := foldl (publish_placement included (placement_group n) degraded) sy groups in
  let sy := foldl (publish_capacity compositions included (placement_group n)) sy groups in
  let sy := foldl (publish_failure_group included (failure_group n)) sy (seqN 0 (failure_count n)) in
  let sy := foldl (publish_zone included (failure_group n) (failure_count n)) sy
              (seqN 0 (availability_count n)) in
  let sy := foldl (publish_network included network_count) sy (seqN 0 network_count) in
  if sg_include_power_cooling config then
    let hierarchy := seqN 0 (N.min (placement_count n) kMaxDomainsPerClass) in
    let sy := foldl (publish_power included (placement_group n)) sy hierarchy in
    foldl (publish_cooling included (placement_group n)) sy hierarchy
  else sy.

(** Step 9: the supersessions. *)
Definition supersessions (sy : Synth) : Synth :=
  foldl supersede_topology sy
    (seqN 0 (N.min (sg_topology_epoch_changes config) kMaxTopologyEpochChanges)).

(** Step 10: the links. *)
Definition connectable_of (sel : Selection) : list N := without (sl_partitioned sel) (sl_included sel).

Definition links (sel : Selection) (sy : Synth) : Synth :=
  let n := size (sl_included sel) in
  let table := domains_of_rack (size (sl_all sel)) (sl_included sel) (failure_group n)
                 (failure_count n) (availability_count n) (sy_failure_domains sy) in
  let connectable := connectable_of sel in
  let pairs := total_pairs (size connectable) in
  let sampling := select_pairs (size connectable) (link_target (sg_link_density config) pairs)
                    (sy_rng sy) in
  fst (foldl (publish_link table network_count connectable)
         (sy <| sy_rng := sp_rng sampling |>, 0) (sp_selected sampling)).

(** Step 12: the superseded references, then the advanced ones. *)
Definition advances (sel : Selection) (compositions : list RackCompositionSummary) (sy : Synth) : Synth :=
  let sy := foldl (advance_rack compositions (relabel "synthetic-superseding-composition")) sy
              (sl_stale sel) in
  foldl (advance_rack compositions (λ r, r)) sy (sl_advanced sel).

Definition generate_synthetic_cluster : SyntheticCluster :=
  let sel := select config in
  let '(compositions, rng) := draw_compositions config (sl_all sel) (sl_rng sel) in
  let sy := MkSynth rng [] [] [] [] [] (MkCtr 1) (MkCtr 1)
              (replicate (length (sl_all sel)) 0) 0 in
  let sy := admissions sel compositions sy in
  let sy := domains sel compositions sy in
  let sy := supersessions sy in
  let sy := links sel sy in
  let sy := publish_constraint (sl_included sel) sy in
  let sy := advances sel compositions sy in
  MkSyntheticCluster config (sg_cluster config) (synthetic_rack_id <$> sl_all sel) (sy_requests sy)
    (rack_ids_of (sl_stale sel)) (rack_ids_of (sl_missing sel)) (sy_failure_domains sy)
    (sy_placement_domains sy) (sy_capacity_domains sy) (sy_links sy).

End synthetic.
