(* ===== verification/SyntheticProofs.v ===== *)
(** * What the synthetic generator guarantees

    The sets of racks it chooses are what the configuration asks for, links are
    sampled exactly, every scenario is bounded whatever the configuration, and
    the identities it makes are valid and distinct. *)

From Stdlib Require Import SpecFloat.
From S2P Require Import Prelude Identity Counter Taxonomy Evidence Types State Readiness Invariant.
From S2P Require Import Queries RackRef EngineBase EngineRack Explain Durable Commit Scenario Process Session Synthetic.

Local Open Scope N_scope.

(** ** Drawing *)

Lemma below_lt bound rng : 0 < bound → fst (below bound rng) < bound.
Proof.
  intros H. unfold below. destruct (N.eqb_spec bound 0); [lia|].
  destruct (rng_next rng) as [v s]. cbn. apply N.mod_lt. lia.
Qed.

Lemma swap_perm {A} i j (l : list A) : swap i j l ≡ₚ l.
Proof.
  unfold swap. destruct (l !! i) eqn:Ei; [|done]. destruct (l !! j) eqn:Ej; [|done].
  by apply Permutation_insert_swap.
Qed.

Lemma draws_perm indices : ∀ st, fst (foldl draw st indices) ≡ₚ fst st.
Proof.
  induction indices as [|i indices IH]; intros [l rng]; [done|]. cbn [foldl]. rewrite IH.
  unfold draw. destruct (below _ rng). apply swap_perm.
Qed.

(** [select_subset] yields that many of the candidates. *)
Lemma select_subset_spec candidates count rng :
  let chosen := fst (select_subset candidates count rng) in
  (∃ rest, chosen ++ rest ≡ₚ candidates) ∧ size chosen = N.min count (size candidates).
Proof.
  unfold select_subset. destruct (N.leb_spec (size candidates) count) as [H|H]; cbn [fst].
  { split; [|lia]. exists []. by rewrite app_nil_r. }
  pose proof (draws_perm (seqN 0 count) (candidates, rng)) as Hp.
  destruct (foldl draw _ _) as [l r]. cbn [fst] in *. split.
  - exists (drop (N.to_nat count) l). by rewrite take_drop.
  - unfold size in *. rewrite length_take. apply Permutation_length in Hp. lia.
Qed.

(** ** Sets of indices *)

(** A strictly increasing list of indices. *)
Abbreviation increasing := (ssorted (A := N) less).

Lemma less_N (x y : N) : less x y = true ↔ x < y.
Proof. apply N.ltb_lt. Qed.

Lemma seqN_elem n i : i ∈ seqN 0 n ↔ i < n.
Proof.
  unfold seqN. rewrite list_elem_of_fmap. setoid_rewrite elem_of_seq. split.
  - intros (k&->&?). lia.
  - intros H. exists (N.to_nat i). lia.
Qed.

Lemma seqN_increasing start n : increasing (seqN start n).
Proof.
  unfold seqN, ssorted. generalize (N.to_nat start). induction (N.to_nat n) as [|k IH]; intros s; cbn.
  - constructor.
  - constructor; [apply IH|]. apply Forall_fmap, Forall_forall. intros x Hx%elem_of_seq.
    apply less_N. cbn. lia.
Qed.

Lemma size_seqN start n : size (seqN start n) = n.
Proof. unfold size, seqN. rewrite length_fmap, length_seq. lia. Qed.

Lemma increasing_filter (P : N → bool) l : increasing l → increasing (List.filter P l).
Proof.
  unfold ssorted. induction 1 as [|x l Hl IH Hx]; cbn; [constructor|].
  destruct (P x); [|done]. constructor; [done|].
  apply Forall_forall. intros y Hy. rewrite Forall_forall in Hx. apply Hx.
  apply list_elem_of_In in Hy. apply filter_In in Hy as [Hy _]. by apply list_elem_of_In.
Qed.

Lemma elem_of_without excluded l i :
  increasing excluded → i ∈ without excluded l ↔ i ∈ l ∧ i ∉ excluded.
Proof.
  intros He. unfold without. rewrite !list_elem_of_In, filter_In, <-!list_elem_of_In.
  rewrite negb_true_iff. rewrite <-(binary_search_spec less excluded i He).
  destruct (binary_search less excluded i); naive_solver.
Qed.

Lemma without_increasing excluded l : increasing l → increasing (without excluded l).
Proof. apply increasing_filter. Qed.

Lemma size_without excluded l :
  increasing excluded → increasing l → (∀ i, i ∈ excluded → i ∈ l) →
  size (without excluded l) = size l - size excluded.
Proof.
  intros He Hl Hsub.
  assert (Hp : without excluded l ++ excluded ≡ₚ l).
  { apply NoDup_Permutation.
    - apply NoDup_app. split_and!.
      + by eapply ssorted_NoDup, without_increasing; [apply _|].
      + intros i. rewrite elem_of_without by done. tauto.
      + by eapply ssorted_NoDup; [apply _|].
    - by eapply ssorted_NoDup; [apply _|].
    - intros i. rewrite elem_of_app, elem_of_without by done.
      destruct (decide (i ∈ excluded)); naive_solver. }
  apply Permutation_length in Hp. rewrite length_app in Hp. unfold size. lia.
Qed.

(** What is chosen: an increasing list of candidates, as many as wanted. *)
Lemma choose_spec candidates wanted rng :
  increasing candidates →
  let chosen := fst (choose candidates wanted rng) in
  increasing chosen ∧ (∀ i, i ∈ chosen → i ∈ candidates) ∧
  size chosen = N.min wanted (size candidates).
Proof.
  intros Hc. unfold choose.
  destruct (select_subset_spec candidates (N.min wanted (size candidates)) rng) as [[rest Hp] Hs].
  destruct (select_subset _ _ _) as [l r]. cbn [fst] in *. split_and!.
  - apply sort_by_ssorted; [apply _|]. apply ssorted_NoDup in Hc; [|apply _].
    rewrite <-Hp in Hc. by apply NoDup_app in Hc as [? _].
  - intros i Hi%elem_of_sort_by. rewrite <-Hp. apply elem_of_app. by left.
  - unfold size in *. rewrite length_sort_by. lia.
Qed.

(** ** The selection *)

Lemma select_spec config :
  let sel := select config in
  let racks := N.min (sg_rack_count config) kMaxRacksPerCluster in
  (∀ i, i ∈ sl_all sel ↔ i < racks) ∧
  (∀ i, i ∈ sl_mandatory sel ↔ i ∈ sg_mandatory_rack_indices config ∧ i < racks) ∧
  (∀ i, i ∈ sl_missing sel → i < racks ∧ i ∉ sl_mandatory sel) ∧
  size (sl_missing sel) = N.min (sg_missing_rack_count config) (racks - size (sl_mandatory sel)) ∧
  (∀ i, i ∈ sl_included sel ↔ i < racks ∧ i ∉ sl_missing sel) ∧
  (∀ i, i ∈ sl_stale sel → i ∈ sl_included sel) ∧
  size (sl_stale sel) = N.min (sg_stale_rack_count config) (size (sl_included sel)) ∧
  (∀ i, i ∈ sl_advanced sel → i ∈ sl_included sel ∧ i ∉ sl_stale sel) ∧
  size (sl_advanced sel) = N.min (sg_rack_generation_changes config)
                             (size (sl_included sel) - size (sl_stale sel)) ∧
  (∀ i, i ∈ sl_partitioned sel → i ∈ sl_included sel ∧ i ∉ sl_mandatory sel) ∧
  increasing (sl_all sel) ∧ increasing (sl_included sel) ∧ increasing (sl_stale sel) ∧
  increasing (sl_advanced sel) ∧ increasing (sl_partitioned sel).
Proof.
  cbv zeta. unfold select. set (racks := N.min _ _). set (all := seqN 0 racks).
  set (mandatory := sort_uniq less _).
  assert (Ha : increasing all) by apply seqN_increasing.
  assert (Hm : increasing mandatory) by (apply sort_uniq_ssorted, _).
  assert (Em : ∀ i, i ∈ mandatory ↔ i ∈ sg_mandatory_rack_indices config ∧ i < racks).
  { intros i. unfold mandatory. rewrite elem_of_sort_uniq by apply _.
    rewrite !list_elem_of_In, filter_In. by rewrite N.ltb_lt. }
  assert (Ea : ∀ i, i ∈ all ↔ i < racks) by (intros; apply seqN_elem).
  pose proof (choose_spec (without mandatory all) (sg_missing_rack_count config) (sg_seed config)
    (without_increasing _ _ Ha)) as (M1&M2&M3).
  destruct (choose (without mandatory all) _ _) as [missing r1]. cbn [fst] in M1, M2, M3.
  assert (M2' : ∀ i, i ∈ missing → i ∈ all ∧ i ∉ mandatory)
    by (intros i Hi%M2; by apply elem_of_without in Hi).
  set (included := without missing all).
  assert (Hi : increasing included) by by apply without_increasing.
  assert (Ei : ∀ i, i ∈ included ↔ i < racks ∧ i ∉ missing)
    by (intros i; unfold included; by rewrite elem_of_without, Ea).
  pose proof (choose_spec included (sg_stale_rack_count config) r1 Hi) as (S1&S2&S3).
  destruct (choose included _ _) as [stale r2]. cbn [fst] in S1, S2, S3.
  pose proof (choose_spec (without stale included) (sg_rack_generation_changes config) r2
    (without_increasing _ _ Hi)) as (A1&A2&A3).
  destruct (choose (without stale included) _ _) as [advanced r3]. cbn [fst] in A1, A2, A3.
  pose proof (choose_spec (without mandatory included) (sg_partition_count config) r3
    (without_increasing _ _ Hi)) as (P1&P2&P3).
  destruct (choose (without mandatory included) _ _) as [partitioned r4]. cbn [fst] in P1, P2, P3.
  cbn [sl_all sl_mandatory sl_missing sl_included sl_stale sl_advanced sl_partitioned].
  rewrite size_without in M3; [|done|done|intros i; rewrite Em, Ea; tauto].
  rewrite size_without in A3 by done. unfold all in M3. rewrite size_seqN in M3.
  split_and!; try done.
  - intros i H%M2'. by rewrite <-Ea.
  - intros i H%A2. by apply elem_of_without in H.
  - intros i H%P2. by apply elem_of_without in H.
Qed.

(** The racks of a scenario.  For every configuration the indices are those
    below the rack count, clamped; exactly as many racks are left out as asked
    for and possible, and never a mandatory one; the racks included are all the
    others; as many of them are superseded, and as many of the rest advanced, as
    asked for and possible; and the partitioned racks are included ones that are
    not mandatory. *)
Theorem selection_correct config :
  let sel := select config in
  let racks := N.min (sg_rack_count config) kMaxRacksPerCluster in
  (∀ i, i ∈ sl_all sel ↔ i < racks) ∧
  (∀ i, i ∈ sl_mandatory sel ↔ i ∈ sg_mandatory_rack_indices config ∧ i < racks) ∧
  (∀ i, i ∈ sl_missing sel → i < racks ∧ i ∉ sl_mandatory sel) ∧
  size (sl_missing sel) = N.min (sg_missing_rack_count config) (racks - size (sl_mandatory sel)) ∧
  (∀ i, i ∈ sl_included sel ↔ i < racks ∧ i ∉ sl_missing sel) ∧
  (∀ i, i ∈ sl_stale sel → i ∈ sl_included sel) ∧
  size (sl_stale sel) = N.min (sg_stale_rack_count config) (size (sl_included sel)) ∧
  (∀ i, i ∈ sl_advanced sel → i ∈ sl_included sel ∧ i ∉ sl_stale sel) ∧
  size (sl_advanced sel) = N.min (sg_rack_generation_changes config)
                             (size (sl_included sel) - size (sl_stale sel)) ∧
  (∀ i, i ∈ sl_partitioned sel → i ∈ sl_included sel ∧ i ∉ sl_mandatory sel) ∧
  NoDup (sl_all sel) ∧ NoDup (sl_included sel) ∧ NoDup (sl_stale sel) ∧ NoDup (sl_advanced sel).
Proof.
  destruct (select_spec config) as (?&?&?&?&?&?&?&?&?&?&?&?&?&?&_). cbv zeta.
  split_and!; try done; by eapply ssorted_NoDup; [apply _|].
Qed.

(** ** The sampling of the links *)

Lemma seqN_elem_from start n i : i ∈ seqN start n ↔ start <= i < start + n.
Proof.
  unfold seqN. rewrite list_elem_of_fmap. setoid_rewrite elem_of_seq. split.
  - intros (k&->&?). lia.
  - intros H. exists (N.to_nat i). lia.
Qed.

Lemma seqN_S start n : 0 < n → seqN start n = start :: seqN (start + 1) (n - 1).
Proof.
  intros H. unfold seqN. replace (N.to_nat n) with (S (N.to_nat (n - 1))) by lia. cbn [seq fmap list_fmap].
  f_equal; [lia|]. do 2 f_equal. lia.
Qed.

(** The pairs of positions from [start] on. *)
Lemma pairs_from_spec count k : ∀ start, start + N.of_nat k = count →
  let l := flat_map (λ i, pair i <$> seqN (i + 1) (count - (i + 1))) (seqN start (N.of_nat k)) in
  (∀ p, p ∈ l ↔ start <= p.1 ∧ p.1 < p.2 ∧ p.2 < count) ∧ NoDup l ∧
  2 * size l = N.of_nat k * (N.of_nat k - 1).
Proof.
  induction k as [|k IH]; intros start Hs; cbv zeta.
  { change (seqN start (N.of_nat 0)) with (@nil N). cbn [flat_map].
    split_and!; [|apply NoDup_nil_2|done]. intros [i j]. cbn. split; [intros []%not_elem_of_nil|lia]. }
  rewrite seqN_S by lia. cbn [flat_map]. replace (N.of_nat (S k) - 1) with (N.of_nat k) by lia.
  destruct (IH (start + 1) ltac:(lia)) as (E&ND&Hl). set (rest := flat_map _ _) in *.
  split_and!.
  - intros [i j]. rewrite elem_of_app, E, list_elem_of_fmap. cbn [fst snd]. split.
    + intros [(j'&[= -> ->]&Hj%seqN_elem_from)|]; lia.
    + intros H. destruct (decide (i = start)) as [->|]; [left|right; lia].
      exists j. split; [done|]. apply seqN_elem_from. lia.
  - apply NoDup_app. split_and!; [|intros [i j]|done].
    + apply NoDup_fmap_2; [congruence|]. by eapply ssorted_NoDup, seqN_increasing; apply _.
    + rewrite list_elem_of_fmap. intros (j'&[= -> ->]&_). rewrite E. cbn. lia.
  - unfold size in *. rewrite length_app, length_fmap. pose proof (size_seqN (start + 1) (count - (start + 1))).
    unfold size in *. nia.
Qed.

Lemma position_pairs_spec count :
  (∀ p, p ∈ position_pairs count ↔ p.1 < p.2 ∧ p.2 < count) ∧ NoDup (position_pairs count) ∧
  size (position_pairs count) = total_pairs count.
Proof.
  destruct (pairs_from_spec count (N.to_nat count) 0 ltac:(lia)) as (E&ND&Hl).
  rewrite N2Nat.id in *. fold (position_pairs count) in *. split_and!; [|done|].
  - intros p. rewrite E. lia.
  - unfold total_pairs. destruct (N.ltb_spec 1 count) as [H|H].
    + rewrite <-Hl, N.mul_comm, N.div_mul; lia.
    + nia.
Qed.

(** Selection sampling takes exactly as many as remain to be taken. *)
Lemma sample_run pairs l : ∀ st,
  (sp_remaining st ≠ 0 → sp_ordinal st + size l = pairs) → sp_remaining st <= size l →
  ∃ chosen, sp_selected (foldl (sample pairs) st l) = sp_selected st ++ chosen ∧
    chosen `sublist_of` l ∧ size chosen = sp_remaining st.
Proof.
  induction l as [|p l IH]; intros st Ho Hr.
  { exists []. rewrite app_nil_r. split_and!; [done|constructor|]. unfold size in *. cbn [length] in *. lia. }
  assert (Hs : size (p :: l) = size l + 1) by (unfold size; cbn [length]; lia).
  cbn [foldl]. unfold sample at 2. destruct (N.eqb_spec (sp_remaining st) 0) as [H0|H0].
  { destruct (IH st) as (chosen&->&Hc&Hn); [by rewrite H0|lia|]. exists chosen.
    split_and!; [done| |done]. by constructor. }
  specialize (Ho H0). destruct (N.eqb_spec (pairs - sp_ordinal st) 0); [lia|].
  pose proof (below_lt (pairs - sp_ordinal st) (sp_rng st) ltac:(lia)) as Hb.
  destruct (below _ _) as [v rng]. cbn [fst] in Hb. destruct (N.ltb_spec v (sp_remaining st)) as [Hv|Hv].
  - edestruct IH as (chosen&->&Hc&Hn); [| |exists (p :: chosen); split_and!];
      cbn [sp_selected sp_remaining sp_ordinal] in *; try lia.
    + by rewrite <-app_assoc.
    + by constructor.
    + unfold size in *. cbn [length]. lia.
  - edestruct IH as (chosen&->&Hc&Hn); [| |exists chosen; split_and!];
      cbn [sp_selected sp_remaining sp_ordinal] in *; try lia; [done|by constructor].
Qed.

Lemma select_pairs_spec count target rng : target <= total_pairs count →
  let selected := sp_selected (select_pairs count target rng) in
  size selected = target ∧ NoDup selected ∧ ∀ p, p ∈ selected → p.1 < p.2 ∧ p.2 < count.
Proof.
  intros H. destruct (position_pairs_spec count) as (E&ND&Hl). unfold select_pairs.
  destruct (sample_run (total_pairs count) (position_pairs count) (MkSampling [] target 0 rng))
    as (chosen&->&Hc&Hn); cbn [sp_remaining sp_ordinal sp_selected] in *; [lia|lia|]. cbn [app].
  split_and!; [done| |].
  - by eapply sublist_NoDup.
  - intros p Hp. apply E. by eapply elem_of_sublist.
Qed.

(** ** Folds over the scenario *)

Section folds.
Context {A B : Type} (f : Synth → A → Synth).

Lemma fold_keeps (p : Synth → B) : (∀ sy x, p (f sy x) = p sy) → ∀ l sy, p (foldl f sy l) = p sy.
Proof. intros H l. induction l as [|x l IH]; intros sy; [done|]. cbn [foldl]. by rewrite IH, H. Qed.

Lemma fold_grows (p : Synth → list B) : (∀ sy x, size (p (f sy x)) = size (p sy) + 1) →
  ∀ l sy, size (p (foldl f sy l)) = size (p sy) + size l.
Proof.
  intros H l. induction l as [|x l IH]; intros sy; cbn [foldl]; [unfold size; cbn [length]; lia|].
  rewrite IH, H. unfold size. cbn [length]. lia.
Qed.

Lemma fold_appends {C} (p : Synth → list B) (g : B → C) (h : A → C) :
  (∀ sy x, g <$> p (f sy x) = (g <$> p sy) ++ [h x]) →
  ∀ l sy, g <$> p (foldl f sy l) = (g <$> p sy) ++ (h <$> l).
Proof.
  intros H l. induction l as [|x l IH]; intros sy; cbn [foldl]; [by rewrite app_nil_r|].
  by rewrite IH, H, <-app_assoc.
Qed.

End folds.

(** A step adds one request. *)
Lemma size_snoc {A} (l : list A) x : size (l ++ [x]) = size l + 1.
Proof. unfold size. rewrite length_app. cbn [length]. lia. Qed.

Ltac one_more := intros; unfold publish_failure_group, publish_zone, publish_failure; apply size_snoc.
Ltac added g p := intros sy0 ?; etransitivity; [exact (fmap_app g (p sy0) [_])|reflexivity].
Ltac kept := intros; reflexivity.
Ltac keep p := repeat rewrite (fold_keeps _ p) by kept.

(** ** Identities *)

Lemma make_id_value {tag} text :
  text ≠ EmptyString → strlen text <= kMaxIdentityLength →
  Forall (λ c, is_identity_char c = true ∧ c ≠ "."%char) (chars text) →
  make_id (tag := tag) text = MkId text.
Proof.
  intros H0 Hl Hc. unfold make_id.
  assert (parse_id (tag := tag) text = Some (MkId text)) as ->; [|done].
  apply parse_id_Some. split; [|done]. apply is_valid_id_spec. rewrite Forall_forall in Hc.
  split_and!; [done|done| | |].
  - apply Forall_forall. intros c H%Hc. tauto.
  - intros ->. by destruct (Hc "."%char) as [_ ?]; [cbn; left|].
  - intros k [H _]. apply list_elem_of_lookup_2, Hc in H as [_ ?]. done.
Qed.

Lemma dec_chars_undotted i : Forall (λ c, is_identity_char c = true ∧ c ≠ "."%char) (dec_chars i).
Proof. eapply Forall_impl; [apply dec_chars_plain|]. intros c (?&_&?). done. Qed.

(** A short prefix and an index. *)
Lemma indexed_id {tag} prefix i :
  0 < strlen prefix <= 100 → Forall (λ c, is_identity_char c = true ∧ c ≠ "."%char) (chars prefix) →
  i <= u64_max → make_id (tag := tag) (prefix +:+ to_decimal i) = MkId (prefix +:+ to_decimal i).
Proof.
  intros Hl Hc Hi. pose proof (dec_chars_bounds i Hi) as [_ Hd]. rewrite strlen_chars in Hl.
  apply make_id_value.
  - intros E%(f_equal chars). rewrite chars_app in E. apply app_eq_nil in E as [E _].
    rewrite E in Hl. cbn in Hl. lia.
  - rewrite strlen_chars, chars_app, chars_to_decimal, length_app. change kMaxIdentityLength with 128. lia.
  - rewrite chars_app, chars_to_decimal. apply Forall_app. split; [done|apply dec_chars_undotted].
Qed.

Lemma indexed_inj prefix i j :
  i <= u64_max → j <= u64_max → prefix +:+ to_decimal i = prefix +:+ to_decimal j → i = j.
Proof.
  intros Hi Hj E%(f_equal chars). rewrite !chars_app, !chars_to_decimal in E.
  apply app_inv_head in E. by apply dec_chars_inj.
Qed.

Ltac alphabet := repeat constructor; by vm_compute.

(** Identities made of a constant prefix and an index are valid and distinct. *)
Lemma indexed_id_inj {tag} prefix i j :
  0 < strlen prefix <= 100 → Forall (λ c, is_identity_char c = true ∧ c ≠ "."%char) (chars prefix) →
  i <= u64_max → j <= u64_max →
  make_id (tag := tag) (prefix +:+ to_decimal i) = make_id (prefix +:+ to_decimal j) → i = j.
Proof.
  intros Hl Hc Hi Hj. rewrite !indexed_id by done. intros [= E]. by eapply indexed_inj.
Qed.

Lemma rack_id_value i :
  i <= u64_max → id_value (synthetic_rack_id i) = "rack-syn-" +:+ to_decimal i.
Proof. intros H. unfold synthetic_rack_id. rewrite indexed_id; [done|by vm_compute|alphabet|done]. Qed.

Lemma rack_id_inj i j : i <= u64_max → j <= u64_max → synthetic_rack_id i = synthetic_rack_id j → i = j.
Proof. intros. eapply indexed_id_inj; [..|done]; [by vm_compute|alphabet|done|done]. Qed.

Lemma placement_id_inj i j :
  i <= u64_max → j <= u64_max → synthetic_placement_domain_id i = synthetic_placement_domain_id j → i = j.
Proof. intros. eapply indexed_id_inj; [..|done]; [by vm_compute|alphabet|done|done]. Qed.

Lemma capacity_id_inj i j :
  i <= u64_max → j <= u64_max → synthetic_capacity_domain_id i = synthetic_capacity_domain_id j → i = j.
Proof. intros. eapply indexed_id_inj; [..|done]; [by vm_compute|alphabet|done|done]. Qed.

Definition failure_prefix (klass : FailureDomainClass) : string :=
  "fd-" +:+ lowercase (string_of_failure_domain_class klass).

Lemma failure_id_value klass i : i <= u64_max →
  synthetic_failure_domain_id klass i = MkId (failure_prefix klass +:+ "-" +:+ to_decimal i).
Proof.
  intros Hi. unfold synthetic_failure_domain_id.
  assert (∀ s, "fd-" +:+ lowercase s +:+ "-" +:+ to_decimal i =
               (("fd-" +:+ lowercase s) +:+ "-") +:+ to_decimal i) as Ha.
  { intros s. apply chars_inj. rewrite !chars_app. by rewrite <-!app_assoc. }
  rewrite Ha. rewrite indexed_id; [..|done].
  - f_equal. apply chars_inj. unfold failure_prefix. rewrite !chars_app. by rewrite <-!app_assoc.
  - by destruct klass; vm_compute.
  - destruct klass; alphabet.
Qed.

Lemma failure_id_inj k1 k2 i j : i <= u64_max → j <= u64_max →
  synthetic_failure_domain_id k1 i = synthetic_failure_domain_id k2 j → i = j.
Proof.
  intros Hi Hj. rewrite !failure_id_value by done. intros [= E%(f_equal chars)].
  rewrite !chars_app, !chars_to_decimal in E. change (chars "-") with ["-"%char] in E. cbn [app] in E.
  apply split_last in E as [_ E]; [|apply plain_no_dash, dec_chars_plain..]. by apply dec_chars_inj.
Qed.

Lemma link_id_value i j : i <= u64_max → j <= u64_max →
  synthetic_link_id (synthetic_rack_id i) (synthetic_rack_id j) =
  MkId (("link-rack-syn-" +:+ to_decimal i +:+ "-rack-syn") +:+ "-" +:+ to_decimal j).
Proof.
  intros Hi Hj. unfold synthetic_link_id. rewrite !rack_id_value by done.
  assert ("link-" +:+ ("rack-syn-" +:+ to_decimal i) +:+ "-" +:+ "rack-syn-" +:+ to_decimal j =
          ("link-rack-syn-" +:+ to_decimal i +:+ "-rack-syn-") +:+ to_decimal j) as ->.
  { apply chars_inj. rewrite !chars_app. by rewrite <-!app_assoc. }
  pose proof (dec_chars_bounds i Hi) as [_ Hd]. rewrite indexed_id; [| |  |done].
  - f_equal. apply chars_inj. rewrite !chars_app. by rewrite <-!app_assoc.
  - rewrite strlen_chars, !chars_app, chars_to_decimal, !length_app.
    change (length (chars "link-rack-syn-")) with 14%nat.
    change (length (chars "-rack-syn-")) with 10%nat. lia.
  - rewrite !chars_app, chars_to_decimal. apply Forall_app. split; [alphabet|].
    apply Forall_app. split; [apply dec_chars_undotted|alphabet].
Qed.

Lemma link_id_inj i j i' j' :
  i <= u64_max → j <= u64_max → i' <= u64_max → j' <= u64_max →
  synthetic_link_id (synthetic_rack_id i) (synthetic_rack_id j) =
  synthetic_link_id (synthetic_rack_id i') (synthetic_rack_id j') → i = i' ∧ j = j'.
Proof.
  intros Hi Hj Hi' Hj'. rewrite !link_id_value by done. intros [= E%(f_equal chars)].
  rewrite !chars_app, !chars_to_decimal in E. change (chars "-") with ["-"%char] in E.
  cbn [app] in E.
  apply split_last in E as [E Ej]; [|apply plain_no_dash, dec_chars_plain..].
  split; [|by apply dec_chars_inj].
  apply app_inv_head, app_inv_tail in E. by apply dec_chars_inj.
Qed.

(** ** The links of a scenario *)

Section scenario_links.
Context (config : SyntheticConfig) (table : list (list FailureDomainId)) (networks : N) (connectable : list N).

Abbreviation step := (publish_link config table networks connectable).

(** The link of a pair of positions. *)
Definition link_of (p : N * N) (l : InterRackLink) : Prop :=
  lk_source l = synthetic_rack_id (default 0 (connectable !! N.to_nat p.1)) ∧
  lk_destination l = synthetic_rack_id (default 0 (connectable !! N.to_nat p.2)) ∧
  lk_id l = synthetic_link_id (lk_source l) (lk_destination l).

Lemma publish_link_step st p :
  ∃ l request, link_of p l ∧ sy_links (fst (step st p)) = sy_links (fst st) ++ [l] ∧
    sy_requests (fst (step st p)) = sy_requests (fst st) ++ [request].
Proof.
  destruct st as [sy k]. unfold publish_link.
  destruct (if sg_asymmetric_connectivity config then _ else _) as [u r].
  do 2 eexists. split_and!; [|reflexivity|reflexivity]. by split_and!.
Qed.

Lemma publish_links_spec pairs : ∀ st,
  ∃ made, sy_links (fst (foldl step st pairs)) = sy_links (fst st) ++ made ∧ Forall2 link_of pairs made ∧
    size (sy_requests (fst (foldl step st pairs))) = size (sy_requests (fst st)) + size pairs.
Proof.
  induction pairs as [|p pairs IH]; intros st.
  { exists []. split_and!; [by rewrite app_nil_r|constructor|]. unfold size. cbn. lia. }
  cbn [foldl]. destruct (publish_link_step st p) as (l&request&Hl&E1&E2).
  destruct (IH (step st p)) as (made&->&Hm&->). exists (l :: made). rewrite E1, E2, size_snoc. split_and!.
  - by rewrite <-app_assoc.
  - by constructor.
  - unfold size. cbn [length]. lia.
Qed.

End scenario_links.

Lemma publish_link_keeps {A} (g : Synth → A) config table networks connectable :
  (∀ sy r o q ls, g (sy <| sy_rng := r |> <| sy_stamp_ordinal := o |> <| sy_requests := q |>
                        <| sy_links := ls |>) = g sy) →
  ∀ pairs st, g (fst (foldl (publish_link config table networks connectable) st pairs)) = g (fst st).
Proof.
  intros H pairs. induction pairs as [|p pairs IH]; intros st; [done|]. cbn [foldl]. rewrite IH.
  destruct st as [sy k]. unfold publish_link.
  destruct (if sg_asymmetric_connectivity config then _ else _) as [u r]. apply H.
Qed.

(** ** The whole scenario *)

Lemma link_target_le density pairs :
  link_target density pairs <= pairs ∧ link_target density pairs <= kMaxInterRackLinks.
Proof.
  unfold link_target. generalize (Z.to_N (dbl_trunc (dbl_add (dbl_mul (clamped_density density)
    (dbl_of_N pairs)) dbl_half))). intros t. cbv zeta.
  destruct (N.ltb_spec pairs t); destruct (N.ltb_spec kMaxInterRackLinks pairs);
    destruct (N.ltb_spec kMaxInterRackLinks t); lia.
Qed.

(** The links wanted of a scenario. *)
Definition wanted_links (config : SyntheticConfig) (sel : Selection) : N :=
  link_target (sg_link_density config) (total_pairs (size (connectable_of sel))).

Lemma links_spec config sel sy :
  ∃ pairs made, sy_links (links config sel sy) = sy_links sy ++ made ∧
    Forall2 (link_of (connectable_of sel)) pairs made ∧ NoDup pairs ∧
    (∀ p, p ∈ pairs → p.1 < p.2 ∧ p.2 < size (connectable_of sel)) ∧
    size pairs = wanted_links config sel ∧
    size (sy_requests (links config sel sy)) = size (sy_requests sy) + size pairs.
Proof.
  unfold links, wanted_links. cbv zeta. set (connectable := connectable_of sel).
  set (target := link_target _ _).
  destruct (select_pairs_spec (size connectable) target (sy_rng sy)) as (Hn&Hd&Hp);
    [apply link_target_le|].
  set (sampling := select_pairs _ _ _) in *.
  edestruct (publish_links_spec config) as (made&->&Hm&->).
  exists (sp_selected sampling), made. by split_and!.
Qed.

(** A field that the links leave alone. *)
Lemma links_keep {A} (g : Synth → A) config sel sy :
  (∀ sy r o q ls, g (sy <| sy_rng := r |> <| sy_stamp_ordinal := o |> <| sy_requests := q |>
                        <| sy_links := ls |>) = g sy) →
  g (links config sel sy) = g sy.
Proof.
  intros H. unfold links. cbv zeta. fold (wanted_links config sel). rewrite publish_link_keeps by done. cbn [fst].
  generalize (sp_rng (select_pairs (size (connectable_of sel)) (wanted_links config sel) (sy_rng sy))).
  intros r. rewrite <-(H sy r (sy_stamp_ordinal sy) (sy_requests sy) (sy_links sy)). by destruct sy.
Qed.

(** What a capacity domain is known by, and what it is made of. *)
Definition capacity_view (d : CapacityDomain) : CapacityDomainId * list RackId := (cd_id d, cd_racks d).

Definition capacity_made (config : SyntheticConfig) (included : list N) (i : N) : CapacityDomainId * list RackId :=
  (synthetic_capacity_domain_id i, group_members included (placement_group config (size included)) i).

(** What every phase adds. *)
Section phases.
Context (config : SyntheticConfig) (sel : Selection) (compositions : list RackCompositionSummary).

Abbreviation n := (size (sl_included sel)).
Abbreviation placements := (placement_count config n).
Abbreviation failures := (failure_count config n).
Abbreviation zones := (availability_count config n).

Lemma admissions_spec sy :
  let sy' := admissions config sel compositions sy in
  sy_links sy' = sy_links sy ∧ sy_placement_domains sy' = sy_placement_domains sy ∧
  sy_capacity_domains sy' = sy_capacity_domains sy ∧ sy_failure_domains sy' = sy_failure_domains sy ∧
  sy_topology_epoch sy' = sy_topology_epoch sy ∧
  size (sy_requests sy') = size (sy_requests sy) + 1 + size (sl_all sel) + n.
Proof.
  unfold admissions. cbv zeta. split_and!.
  - by keep sy_links.
  - by keep sy_placement_domains.
  - by keep sy_capacity_domains.
  - by keep sy_failure_domains.
  - by keep sy_topology_epoch.
  - do 2 rewrite (fold_grows _ sy_requests) by one_more. cbn [push]. by rewrite <-size_snoc with (x := declare_request config sel sy).
Qed.

Lemma domains_spec sy :
  let sy' := domains config sel compositions sy in
  sy_links sy' = sy_links sy ∧ sy_topology_epoch sy' = sy_topology_epoch sy ∧
  pd_id <$> sy_placement_domains sy' =
    (pd_id <$> sy_placement_domains sy) ++ (synthetic_placement_domain_id <$> seqN 0 placements) ∧
  capacity_view <$> sy_capacity_domains sy' =
    (capacity_view <$> sy_capacity_domains sy) ++ (capacity_made config (sl_included sel) <$> seqN 0 placements) ∧
  fd_id <$> sy_failure_domains sy' =
    (fd_id <$> sy_failure_domains sy) ++
    ((λ i, synthetic_failure_domain_id (pick FD_Row kFailureClasses i) i) <$> seqN 0 failures) ++
    ((λ z, synthetic_failure_domain_id FD_AvailabilityZone (failures + z)) <$> seqN 0 zones) ∧
  size (sy_requests sy') = size (sy_requests sy) + 2 * placements + failures + zones +
    network_count config +
    (if sg_include_power_cooling config then 2 * N.min placements kMaxDomainsPerClass else 0).
Proof.
  unfold domains. cbv zeta. split_and!.
  - destruct (sg_include_power_cooling config); by keep sy_links.
  - destruct (sg_include_power_cooling config); by keep sy_topology_epoch.
  - set (sy1 := foldl (publish_placement _ _ _ _) _ _). transitivity (pd_id <$> sy_placement_domains sy1).
    + destruct (sg_include_power_cooling config); by keep sy_placement_domains.
    + apply fold_appends. added pd_id sy_placement_domains.
  - set (sy1 := foldl (publish_capacity _ _ _ _) _ _). transitivity (capacity_view <$> sy_capacity_domains sy1).
    + destruct (sg_include_power_cooling config); by keep sy_capacity_domains.
    + unfold sy1. erewrite (fold_appends _ sy_capacity_domains capacity_view); [by keep sy_capacity_domains|].
      added capacity_view sy_capacity_domains.
  - set (sy1 := foldl (publish_zone _ _ _ _) _ _). transitivity (fd_id <$> sy_failure_domains sy1).
    + destruct (sg_include_power_cooling config); by keep sy_failure_domains.
    + unfold sy1. erewrite (fold_appends (publish_zone _ _ _ _) sy_failure_domains fd_id).
      * erewrite (fold_appends _ sy_failure_domains fd_id).
        -- keep sy_failure_domains. by rewrite <-app_assoc.
        -- added fd_id sy_failure_domains.
      * added fd_id sy_failure_domains.
  - destruct (sg_include_power_cooling config); repeat rewrite (fold_grows _ sy_requests) by one_more;
      rewrite !size_seqN; lia.
Qed.

Lemma constraint_spec sy :
  let sy' := publish_constraint config (sl_included sel) sy in
  sy_links sy' = sy_links sy ∧ sy_placement_domains sy' = sy_placement_domains sy ∧
  sy_capacity_domains sy' = sy_capacity_domains sy ∧ sy_failure_domains sy' = sy_failure_domains sy ∧
  size (sy_requests sy') = size (sy_requests sy) + N.min 1 n.
Proof.
  unfold publish_constraint. destruct (sl_included sel) as [|i l]; cbv zeta; split_and!; try done.
  - unfold size. cbn [length]. lia.
  - etransitivity; [apply (size_snoc (sy_requests sy))|]. f_equal. unfold size. cbn [length]. lia.
Qed.

Lemma advances_spec sy :
  let sy' := advances config sel compositions sy in
  sy_links sy' = sy_links sy ∧ sy_placement_domains sy' = sy_placement_domains sy ∧
  sy_capacity_domains sy' = sy_capacity_domains sy ∧ sy_failure_domains sy' = sy_failure_domains sy ∧
  size (sy_requests sy') = size (sy_requests sy) + size (sl_stale sel) + size (sl_advanced sel).
Proof.
  unfold advances. cbv zeta. split_and!.
  - by keep sy_links.
  - by keep sy_placement_domains.
  - by keep sy_capacity_domains.
  - by keep sy_failure_domains.
  - do 2 rewrite (fold_grows _ sy_requests) by one_more. lia.
Qed.

Lemma supersede_keeps {A} (g : Synth → A) l :
  (∀ sy o q e t, g (sy <| sy_stamp_ordinal := o |> <| sy_requests := q |>
                       <| sy_topology_epoch := e |> <| sy_topology_generation := t |>) = g sy) →
  ∀ sy, g (foldl (supersede_topology config) sy l) = g sy.
Proof.
  intros H. apply fold_keeps. intros sy i. unfold supersede_topology.
  destruct (next (sy_topology_epoch sy)); [|done]. apply H.
Qed.

Lemma supersede_grows l : ∀ sy, ctr (sy_topology_epoch sy) + size l <= u64_max →
  size (sy_requests (foldl (supersede_topology config) sy l)) = size (sy_requests sy) + size l.
Proof.
  induction l as [|i l IH]; intros sy H; cbn [foldl]; [unfold size; cbn [length]; lia|].
  assert (size (i :: l) = size l + 1) as E by (unfold size; cbn [length]; lia). rewrite E in *.
  destruct (next_below (sy_topology_epoch sy) ltac:(lia)) as (target&En&Et).
  unfold supersede_topology at 2. rewrite En. cbv zeta. cbn [next_stamp_ordinal].
  rewrite IH; cbn [sy_topology_epoch upd upd_sy_topology_epoch upd_sy_topology_generation]; [|cbn; lia].
  etransitivity; [apply N.add_cancel_r, (size_snoc (sy_requests sy))|lia].
Qed.

Lemma supersessions_spec sy : sy_topology_epoch sy = MkCtr 1 →
  let sy' := supersessions config sy in
  sy_links sy' = sy_links sy ∧ sy_placement_domains sy' = sy_placement_domains sy ∧
  sy_capacity_domains sy' = sy_capacity_domains sy ∧ sy_failure_domains sy' = sy_failure_domains sy ∧
  size (sy_requests sy') = size (sy_requests sy) +
    N.min (sg_topology_epoch_changes config) kMaxTopologyEpochChanges.
Proof.
  intros He. unfold supersessions. cbv zeta. split_and!; try by apply supersede_keeps.
  rewrite supersede_grows; rewrite size_seqN; [done|]. rewrite He. cbn [ctr].
  change kMaxTopologyEpochChanges with 1024. change u64_max with 18446744073709551615. lia.
Qed.

End phases.

(** The requests of a scenario, one by one: the declaration, a registration for
    every rack, an admission for every rack included, the domains, the
    supersessions, the links, the constraint and the generation changes. *)
Definition request_count (config : SyntheticConfig) (sel : Selection) : N :=
  let n := size (sl_included sel) in
  let placements := placement_count config n in
  1 + size (sl_all sel) + n +
  2 * placements + failure_count config n + availability_count config n + network_count config +
  (if sg_include_power_cooling config then 2 * N.min placements kMaxDomainsPerClass else 0) +
  N.min (sg_topology_epoch_changes config) kMaxTopologyEpochChanges + wanted_links config sel +
  N.min 1 n + size (sl_stale sel) + size (sl_advanced sel).

Lemma generate_spec config :
  let sel := select config in
  let out := generate_synthetic_cluster config in
  let n := size (sl_included sel) in
  sc_racks out = synthetic_rack_id <$> sl_all sel ∧
  pd_id <$> sc_placement_domains out = synthetic_placement_domain_id <$> seqN 0 (placement_count config n) ∧
  capacity_view <$> sc_capacity_domains out =
    capacity_made config (sl_included sel) <$> seqN 0 (placement_count config n) ∧
  fd_id <$> sc_failure_domains out =
    ((λ i, synthetic_failure_domain_id (pick FD_Row kFailureClasses i) i) <$> seqN 0 (failure_count config n)) ++
    ((λ z, synthetic_failure_domain_id FD_AvailabilityZone (failure_count config n + z)) <$>
       seqN 0 (availability_count config n)) ∧
  (∃ pairs, Forall2 (link_of (connectable_of sel)) pairs (sc_links out) ∧ NoDup pairs ∧
    (∀ p, p ∈ pairs → p.1 < p.2 ∧ p.2 < size (connectable_of sel)) ∧ size pairs = wanted_links config sel) ∧
  size (sc_requests out) = request_count config sel.
Proof.
  cbv zeta. unfold generate_synthetic_cluster, request_count. cbv zeta. set (sel := select config).
  destruct (draw_compositions config (sl_all sel) (sl_rng sel)) as [compositions rng].
  set (sy0 := MkSynth _ _ _ _ _ _ _ _ _ _).
  destruct (admissions_spec config sel compositions sy0) as (A1&A2&A3&A4&A5&A6).
  set (sy1 := admissions _ _ _ sy0) in *.
  destruct (domains_spec config sel compositions sy1) as (D1&D2&D3&D4&D5&D6).
  set (sy2 := domains _ _ _ sy1) in *.
  destruct (supersessions_spec config sy2) as (S1&S2&S3&S4&S5); [by rewrite D2, A5|].
  set (sy3 := supersessions config sy2) in *.
  destruct (links_spec config sel sy3) as (pairs&made&L1&L2&L3&L4&L5&L6).
  pose proof (links_keep sy_placement_domains config sel sy3 ltac:(done)) as K1.
  pose proof (links_keep sy_capacity_domains config sel sy3 ltac:(done)) as K2.
  pose proof (links_keep sy_failure_domains config sel sy3 ltac:(done)) as K3.
  set (sy4 := links config sel sy3) in *.
  destruct (constraint_spec config sel sy4) as (C1&C2&C3&C4&C5).
  set (sy5 := publish_constraint _ _ sy4) in *.
  destruct (advances_spec config sel compositions sy5) as (V1&V2&V3&V4&V5).
  set (sy6 := advances _ _ _ sy5) in *.
  cbn [sc_racks sc_placement_domains sc_capacity_domains sc_failure_domains sc_links sc_requests].
  split_and!; [done| | | | |].
  - by rewrite V2, C2, K1, S2, D3, A2.
  - by rewrite V3, C3, K2, S3, D4, A3.
  - by rewrite V4, C4, K3, S4, D5, A4.
  - exists pairs. rewrite V1, C1, L1, S1, D1, A1. by split_and!.
  - rewrite V5, C5, L6, L5, S5, D6, A6. change (size (sy_requests sy0)) with 0. lia.
Qed.

(** ** Bounds *)

Lemma wrap64_le x : wrap64 x <= x.
Proof. apply N.Div0.mod_le. Qed.

(** The number of groups, however the sum wraps around. *)
Lemma group_count_le n group : group_count n group <= n.
Proof.
  unfold group_count. destruct (N.eqb_spec n 0), (N.eqb_spec group 0); cbn [orb]; try lia.
  etransitivity; [apply N.Div0.div_le_mono, wrap64_le|].
  apply N.lt_succ_r, N.Div0.div_lt_upper_bound. nia.
Qed.

Lemma group_count_half n group : 2 <= group → group_count n group <= n / 2 + 1.
Proof.
  intros Hg. unfold group_count. destruct (N.eqb_spec n 0), (N.eqb_spec group 0); cbn [orb]; [apply N.le_0_l..|].
  etransitivity; [apply N.Div0.div_le_mono, wrap64_le|].
  replace (n + group - 1) with (n - 1 + 1 * group) by lia. rewrite N.div_add by done.
  apply N.add_le_mono_r. etransitivity; [apply N.div_le_compat_l; split; [|exact Hg]; lia|].
  apply N.Div0.div_le_mono. lia.
Qed.

(** One doubling is enough: a cluster has at most as many racks as a class has
    domains. *)
Lemma widen_groups_fits guard n group : (2 ≤ guard)%nat → 1 <= group → n <= kMaxRacksPerCluster →
  let count := group_count n (widen_groups guard n group) in
  count + group_count count 2 <= kMaxDomainsPerClass.
Proof.
  intros Hg Hp Hn. change kMaxRacksPerCluster with 16384 in Hn. change kMaxDomainsPerClass with 16384.
  assert (H : ∀ g, 2 <= g → group_count n g + group_count (group_count n g) 2 <= 16384).
  { intros g Hg2. pose proof (group_count_half n g Hg2). pose proof (group_count_half (group_count n g) 2).
    assert (n / 2 <= 8192) by (apply N.Div0.div_le_upper_bound; lia).
    assert (group_count n g / 2 <= 8193 / 2) by (apply N.Div0.div_le_mono; lia).
    change (8193 / 2) with 4096 in *. lia. }
  destruct guard as [|[|guard]]; [lia|lia|]. cbn [widen_groups]. cbv zeta.
  change kMaxDomainsPerClass with 16384.
  destruct (N.eqb_spec n 0) as [->|Hn0]; cbn [negb andb]; [done|].
  destruct (N.ltb_spec 16384 (group_count n group + group_count (group_count n group) 2)) as [Ho|Ho]; [|done].
  assert (group = 1) as -> by (destruct (decide (2 <= group)) as [G|]; [specialize (H group G); lia|lia]).
  change (wrap64 (1 * 2)) with 2. specialize (H 2 ltac:(lia)).
  destruct (N.ltb_spec 16384 (group_count n 2 + group_count (group_count n 2) 2)); [lia|done].
Qed.

Lemma failure_domains_fit config n : n <= kMaxRacksPerCluster →
  failure_count config n + availability_count config n <= kMaxDomainsPerClass.
Proof.
  intros Hn. apply widen_groups_fits; [lia| |done].
  destruct (N.eqb_spec (sg_racks_per_failure_domain config) 0); lia.
Qed.

Lemma select_all config :
  sl_all (select config) = seqN 0 (N.min (sg_rack_count config) kMaxRacksPerCluster).
Proof. unfold select. by repeat destruct (choose _ _ _). Qed.

Lemma included_bounds config : size (sl_all (select config)) <= kMaxRacksPerCluster ∧
  size (sl_included (select config)) <= size (sl_all (select config)) ∧
  ∀ i, i ∈ sl_included (select config) → i <= u64_max.
Proof.
  destruct (select_spec config) as (Ha&_&_&_&Hi&_&_&_&_&_&Ia&Ii&_).
  set (racks := N.min _ _) in *.
  assert (Hr : racks <= 16384) by (change 16384 with kMaxRacksPerCluster; unfold racks; lia).
  rewrite select_all. fold racks. rewrite size_seqN. split_and!; [done| |].
  - assert (length (sl_included (select config)) ≤ length (seqN 0 racks))%nat.
    { apply submseteq_length, NoDup_submseteq; [by eapply ssorted_NoDup; [apply _|]|].
      intros i H. apply seqN_elem. by apply Hi in H as [? _]. }
    pose proof (size_seqN 0 racks). unfold size in *. lia.
  - intros i [H _]%Hi. change u64_max with 18446744073709551615. lia.
Qed.

Lemma connectable_spec config :
  let connectable := connectable_of (select config) in
  increasing connectable ∧
  ∀ i, i ∈ connectable ↔ i ∈ sl_included (select config) ∧ i ∉ sl_partitioned (select config).
Proof.
  destruct (select_spec config) as (_&_&_&_&_&_&_&_&_&_&_&Ii&_&_&Ip). split.
  - by apply without_increasing.
  - intros i. by apply elem_of_without.
Qed.

(** Positions of an increasing list. *)
Lemma increasing_lookup l x y : increasing l → ∀ i j, l !! i = Some x → l !! j = Some y → (i < j)%nat → x < y.
Proof.
  unfold ssorted. induction 1 as [|z l Hl IH Hz]; intros i j Hi Hj Hij; [done|].
  destruct j as [|j]; [lia|]. cbn in Hj. destruct i as [|i]; cbn in Hi; [|eapply IH; [done..|lia]].
  injection Hi as <-. rewrite Forall_forall in Hz. apply less_N, Hz. by eapply list_elem_of_lookup_2.
Qed.

(** The racks of a pair of positions. *)
Definition ends_of (connectable : list N) (p : N * N) : N * N :=
  (default 0 (connectable !! N.to_nat p.1), default 0 (connectable !! N.to_nat p.2)).

Section ends.
Context (connectable : list N) (Hc : increasing connectable).

Lemma position_lookup i : i < size connectable →
  connectable !! N.to_nat i = Some (default 0 (connectable !! N.to_nat i)).
Proof.
  intros H. destruct (lookup_lt_is_Some_2 connectable (N.to_nat i)) as [x ->]; [|done].
  unfold size in H. lia.
Qed.

Lemma position_inj i j : i < size connectable → j < size connectable →
  default 0 (connectable !! N.to_nat i) = default 0 (connectable !! N.to_nat j) → i = j.
Proof.
  intros Hi%position_lookup Hj%position_lookup E. rewrite E in Hi.
  apply N2Nat.inj. eapply NoDup_lookup; [|exact Hi|exact Hj]. by eapply ssorted_NoDup; [apply _|].
Qed.

Lemma ends_distinct pairs : NoDup pairs → (∀ p, p ∈ pairs → p.1 < p.2 ∧ p.2 < size connectable) →
  NoDup (ends_of connectable <$> pairs) ∧
  ∀ e, e ∈ ends_of connectable <$> pairs → e.1 < e.2 ∧ e.1 ∈ connectable ∧ e.2 ∈ connectable.
Proof.
  intros Hd Hp. split.
  - eapply NoDup_fmap_2_strong; [|done]. intros [i j] [i' j'] [? ?]%Hp [? ?]%Hp [= E1 E2].
    cbn [fst snd] in *. f_equal; apply position_inj; by (lia || done).
  - intros e ([i j]&->&[H1 H2]%Hp)%list_elem_of_fmap. cbn [ends_of fst snd] in *.
    pose proof (position_lookup i ltac:(lia)) as Hi. pose proof (position_lookup j H2) as Hj.
    split_and!.
    + eapply increasing_lookup; [done|exact Hi|exact Hj|lia].
    + by eapply list_elem_of_lookup_2.
    + by eapply list_elem_of_lookup_2.
Qed.

End ends.

(** C40: the links of a scenario.  For every configuration there are exactly as
    many links as its density asks of the pairs of connectable racks, within
    the bound on links; every link joins two different racks that are included
    and not partitioned, under the identity made of both; no two links join the
    same pair, and no two share their identity. *)
Theorem links_sampled_exactly config :
  let sel := select config in
  let out := generate_synthetic_cluster config in
  let pairs := total_pairs (size (connectable_of sel)) in
  size (sc_links out) = link_target (sg_link_density config) pairs ∧
  size (sc_links out) <= N.min pairs kMaxInterRackLinks ∧
  NoDup (lk_id <$> sc_links out) ∧
  ∃ ends, NoDup ends ∧
    (∀ e, e ∈ ends → e.1 < e.2 ∧ ∀ i, i = e.1 ∨ i = e.2 →
       i ∈ sl_included sel ∧ i ∉ sl_partitioned sel) ∧
    Forall2 (λ e l, lk_source l = synthetic_rack_id e.1 ∧ lk_destination l = synthetic_rack_id e.2 ∧
                    lk_id l = synthetic_link_id (lk_source l) (lk_destination l)) ends (sc_links out).
Proof.
  cbv zeta. destruct (generate_spec config) as (_&_&_&_&(pairs&Hl&Hd&Hp&Hn)&_).
  destruct (connectable_spec config) as [Ic Ec]. destruct (included_bounds config) as (_&_&Hu).
  set (connectable := connectable_of _) in *. unfold wanted_links in Hn. fold connectable in Hn.
  destruct (ends_distinct connectable Ic pairs Hd Hp) as [Nd He].
  assert (size (sc_links (generate_synthetic_cluster config)) = size pairs) as Hs
    by (unfold size; f_equal; symmetry; by eapply Forall2_length).
  pose proof (link_target_le (sg_link_density config) (total_pairs (size connectable))).
  assert (lk_id <$> sc_links (generate_synthetic_cluster config) =
          (λ e, synthetic_link_id (synthetic_rack_id e.1) (synthetic_rack_id e.2)) <$>
            (ends_of connectable <$> pairs)) as Ei.
  { clear -Hl. induction Hl as [|p l ps ls (Es&Ed&Ei) _ IH]; [done|]. rewrite !fmap_cons, IH.
    f_equal. by rewrite Ei, Es, Ed. }
  split_and!; [lia|lia| |].
  - rewrite Ei. eapply NoDup_fmap_2_strong; [|done].
    intros [a b] [a' b'] (_&[A _]%Ec&[B _]%Ec)%He (_&[A' _]%Ec&[B' _]%Ec)%He E.
    cbn [fst snd] in *. apply link_id_inj in E as [-> ->]; try done; by apply Hu.
  - exists (ends_of connectable <$> pairs). split_and!; [done| |].
    + intros e (Hlt&H1&H2)%He. split; [done|]. intros i [->| ->]; by apply Ec.
    + apply Forall2_fmap_l. exact Hl.
Qed.

Lemma size_fmap {A B} (g : A → B) l : size (g <$> l) = size l.
Proof. unfold size. by rewrite length_fmap. Qed.

Lemma NoDup_ids {A} (make : N → A) l : increasing l → (∀ i, i ∈ l → i <= u64_max) →
  (∀ i j, i <= u64_max → j <= u64_max → make i = make j → i = j) → NoDup (make <$> l).
Proof.
  intros Hl Hu Hi. eapply NoDup_fmap_2_strong.
  - intros i j H%Hu H'%Hu. by apply Hi.
  - by eapply ssorted_NoDup; [apply _|].
Qed.

Lemma counts_u64 k i : k <= kMaxDomainsPerClass → i ∈ seqN 0 k → i <= u64_max.
Proof.
  intros Hk Hi%seqN_elem. change kMaxDomainsPerClass with 16384 in Hk.
  change u64_max with 18446744073709551615. lia.
Qed.

(** The failure domains are numbered throughout, the zones after the groups. *)
Lemma failure_ids_distinct failures zones klass : failures + zones <= kMaxDomainsPerClass →
  NoDup (((λ i, synthetic_failure_domain_id (klass i) i) <$> seqN 0 failures) ++
         ((λ z, synthetic_failure_domain_id FD_AvailabilityZone (failures + z)) <$> seqN 0 zones)).
Proof.
  intros H. change kMaxDomainsPerClass with 16384 in H.
  assert (Hu : ∀ i, i <= 16384 → i <= u64_max) by (change u64_max with 18446744073709551615; lia).
  apply NoDup_app. split_and!.
  - eapply NoDup_fmap_2_strong; [|by eapply ssorted_NoDup, seqN_increasing; apply _].
    intros i j Hi%seqN_elem Hj%seqN_elem E. by apply failure_id_inj in E; [|apply Hu; lia..].
  - intros x (i&->&Hi%seqN_elem)%list_elem_of_fmap (z&E&Hz%seqN_elem)%list_elem_of_fmap.
    apply failure_id_inj in E; [lia|apply Hu; lia..].
  - eapply NoDup_fmap_2_strong; [|by eapply ssorted_NoDup, seqN_increasing; apply _].
    intros i j Hi%seqN_elem Hj%seqN_elem E. apply failure_id_inj in E; [lia|apply Hu; lia..].
Qed.

Lemma request_count_bounded config : request_count config (select config) < 2 ^ 19.
Proof.
  destruct (included_bounds config) as (Ha&Hi&_). set (sel := select config) in *.
  destruct (select_spec config) as (_&_&_&_&_&_&Hs&_&Hv&_). fold sel in Hs, Hv.
  pose proof (group_count_le (size (sl_included sel)) (placement_group config (size (sl_included sel)))).
  pose proof (failure_domains_fit config (size (sl_included sel)) ltac:(lia)).
  pose proof (link_target_le (sg_link_density config) (total_pairs (size (connectable_of sel)))) as [_ Hl].
  unfold request_count, wanted_links, placement_count, network_count.
  change kMaxRacksPerCluster with 16384 in *. change kMaxDomainsPerClass with 16384 in *.
  change kMaxInterRackLinks with 262144 in *. change kMaxTopologyEpochChanges with 1024.
  change (2 ^ 19) with 524288. destruct (sg_include_power_cooling config); lia.
Qed.


(** ** Groups of racks *)

(** A list cut into pieces of [g] elements. *)
Lemma chunks_concat {A} g (c : nat) : ∀ l : list A, (length l ≤ c * g)%nat →
  concat ((λ k, take g (drop (k * g) l)) <$> seq 0 c) = l.
Proof.
  induction c as [|c IH]; intros l Hl; [by destruct l; cbn in *; [|lia]|].
  rewrite <-cons_seq, <-fmap_S_seq. cbn [fmap list_fmap concat]. rewrite <-list_fmap_compose.
  transitivity (take g l ++ drop g l); [|apply take_drop]. cbn [Nat.mul]. rewrite drop_0.
  f_equal. rewrite <-(IH (drop g l)) by (rewrite length_drop; lia).
  f_equal. apply list_fmap_ext. intros _ k _. cbn. by rewrite drop_drop.
Qed.

Lemma concat_perm {A B} (f g : A → list B) l :
  (∀ x, x ∈ l → f x ≡ₚ g x) → concat (f <$> l) ≡ₚ concat (g <$> l).
Proof.
  induction l as [|x l IH]; intros H; [done|]. cbn. rewrite (H x) by by left.
  by rewrite IH by (intros; apply H; by right).
Qed.

Lemma fmap_concat {A B} (f : A → B) (ls : list (list A)) : 
  fmap (M := list) f (concat ls) = concat (fmap (M := list) (fmap (M := list) f) ls).
Proof. induction ls as [|l ls IH]; [done|]. cbn [concat]. by rewrite fmap_app, IH. Qed.

Section groups.
Context (included : list N) (group : N).
Context (Hu : ∀ i, i ∈ included → i <= u64_max) (Hi : increasing included).
Context (Hg : 1 <= group) (Hw : group + size included <= 2 ^ 64).

Abbreviation slice k := (take (N.to_nat group) (drop (k * N.to_nat group) included)).

Lemma group_count_exact : size included <= group_count (size included) group * group ∧
  ∀ k, k < group_count (size included) group → k * group < size included.
Proof.
  unfold group_count. destruct (N.eqb_spec (size included) 0) as [->|H0]; cbn [orb]; [split; [done|by intros k ?%N.nlt_0_r]|].
  destruct (N.eqb_spec group 0); [lia|]. unfold wrap64. rewrite N.mod_small by lia.
  generalize dependent (size included). intros s _ H0.
  pose proof (N.div_mod (s + group - 1) group ltac:(lia)) as Hq.
  pose proof (N.mod_lt (s + group - 1) group ltac:(lia)) as Hr.
  generalize dependent ((s + group - 1) mod group). generalize ((s + group - 1) / group).
  intros q r Hq Hr. split; [nia|].
  intros k Hk. pose proof (N.mul_le_mono_r (k + 1) q group ltac:(lia)). nia.
Qed.

Lemma group_members_perm k : k < group_count (size included) group →
  group_members included group k ≡ₚ synthetic_rack_id <$> slice (N.to_nat k).
Proof.
  intros Hk. pose proof (proj2 group_count_exact k Hk) as Hb. unfold group_members, wrap64.
  rewrite (N.mod_small (k * group)) by lia.
  assert (member_slice included (k * group) (N.min ((k * group + group) mod 2 ^ 64) (size included)) =
          synthetic_rack_id <$> slice (N.to_nat k)) as E.
  { unfold member_slice. rewrite N.mod_small by lia.
    destruct (N.leb_spec (size included) (k * group)); [lia|].
    destruct (N.leb_spec (N.min (k * group + group) (size included)) (k * group)); [lia|]. cbn [orb].
    rewrite <-N2Nat.inj_mul. f_equal.
    destruct (decide (k * group + group <= size included)) as [Hs|Hs]; [f_equal; lia|].
    rewrite !take_ge; [done|rewrite length_drop; unfold size in *; lia..]. }
  rewrite E. assert (Hsub : slice (N.to_nat k) `sublist_of` included)
    by (etransitivity; [apply sublist_take|apply sublist_drop]).
  apply NoDup_Permutation.
  - eapply ssorted_NoDup, sort_uniq_ssorted; apply _.
  - eapply NoDup_fmap_2_strong.
    + intros i j Hxi Hxj. by apply rack_id_inj; apply Hu; eapply elem_of_sublist, Hsub.
    + eapply sublist_NoDup, Hsub. by eapply ssorted_NoDup; [apply _|].
  - intros x. apply elem_of_sort_uniq, _.
Qed.

(** The groups are a partition. *)
Lemma groups_partition :
  concat (group_members included group <$> seqN 0 (group_count (size included) group)) ≡ₚ
  synthetic_rack_id <$> included.
Proof.
  set (c := group_count _ _).
  rewrite (concat_perm _ (λ k, synthetic_rack_id <$> slice (N.to_nat k)))
    by (intros k Hk%seqN_elem; by apply group_members_perm).
  pose proof (proj1 group_count_exact) as Hc. fold c in Hc. unfold size in Hc.
  transitivity (synthetic_rack_id <$> concat ((λ k, slice k) <$> seq 0 (N.to_nat c)));
    [|rewrite chunks_concat; [done|nia]].
  rewrite fmap_concat. unfold seqN. rewrite <-!list_fmap_compose.
  apply reflexive_eq. f_equal. apply list_fmap_ext. intros _ k _. cbn. by rewrite Nat2N.id.
Qed.

End groups.

Lemma placement_group_eq config n : n <= kMaxRacksPerCluster →
  placement_group config n = N.max 1 (sg_racks_per_placement_domain config).
Proof.
  change kMaxRacksPerCluster with 16384. intros Hn. unfold placement_group, effective_group_size.
  change kMaxDomainsPerClass with 16384. change (16384 =? 0) with false.
  set (r := sg_racks_per_placement_domain config).
  assert (E : (if r =? 0 then 1 else r) = N.max 1 r) by (destruct (N.eqb_spec r 0); lia). rewrite E.
  destruct (N.eqb_spec n 0); [done|]. cbn [orb]. unfold wrap64.
  rewrite N.mod_small by (change (2 ^ 64) with 18446744073709551616; lia).
  replace ((n + 16384 - 1) / 16384) with 1; [destruct (N.ltb_spec (N.max 1 r) 1); lia|].
  apply (N.div_unique _ _ _ (n - 1)); lia.
Qed.

(** The capacity domains of a scenario are a partition of its racks: every
    rack included is a member of exactly one capacity domain, once, and the
    domains have no other members. *)
Theorem capacity_domains_partition config :
  sg_racks_per_placement_domain config <= 2 ^ 64 - kMaxRacksPerCluster →
  concat (cd_racks <$> sc_capacity_domains (generate_synthetic_cluster config)) ≡ₚ
  synthetic_rack_id <$> sl_included (select config).
Proof.
  intros Hg. destruct (generate_spec config) as (_&_&Ec&_). destruct (included_bounds config) as (Ha&Hi&Hu).
  destruct (select_spec config) as (_&_&_&_&_&_&_&_&_&_&_&Ii&_).
  apply (f_equal (fmap snd)) in Ec. rewrite <-!list_fmap_compose in Ec.
  change (snd ∘ capacity_view) with cd_racks in Ec. rewrite Ec.
  set (included := sl_included (select config)) in *.
  pose proof (placement_group_eq config (size included) ltac:(lia)) as Eg.
  apply groups_partition; [done|done| |]; rewrite Eg; [lia|].
  change kMaxRacksPerCluster with 16384 in *. change (2 ^ 64) with 18446744073709551616 in *. lia.
Qed.

Lemma capacity_domains_partition_witness :
  concat (cd_racks <$> sc_capacity_domains (generate_synthetic_cluster default_synthetic_config)) ≡ₚ
  synthetic_rack_id <$> sl_included (select default_synthetic_config).
Proof. apply (capacity_domains_partition default_synthetic_config). by vm_compute. Defined.

(** ** Provenance *)

(** The headers of the domains, the constraint and the link a request carries. *)
Definition headers_of (r : MutationRequest) : list DomainHeader :=
  option_list (pd_header <$> rq_placement_domain r) ++ option_list (cd_header <$> rq_capacity_domain r) ++
  option_list (fd_header <$> rq_failure_domain r) ++ option_list (nd_header <$> rq_network_domain r) ++
  option_list (sd_header <$> rq_storage_domain r) ++ option_list (pw_header <$> rq_power_domain r) ++
  option_list (co_header <$> rq_cooling_domain r) ++ option_list (ld_header <$> rq_link_domain r) ++
  option_list (cc_header <$> rq_constraint r) ++ option_list (lk_header <$> rq_link r).

(** The stamps of the rack reference of a request, if it carries one. *)
Definition reference_stamps (ref : RackReference) : list EvidenceStamp :=
  if id_known (rr_rack ref)
  then rr_evidence ref :: (ep_evidence <$> rr_endpoints ref) ++ (fh_evidence <$> rr_failure_domain_hints ref)
  else [].

Definition stamps_of (r : MutationRequest) : list EvidenceStamp :=
  rq_evidence r :: reference_stamps (rq_rack_reference r) ++ (dh_evidence <$> headers_of r).

Definition synthetic_request (r : MutationRequest) : Prop :=
  Forall (λ s, ev_provenance s = Prov_Synthetic) (stamps_of r) ∧
  (id_known (rr_rack (rq_rack_reference r)) = true →
   rc_provenance (rr_composition (rq_rack_reference r)) = Prov_Synthetic).

Definition synthetic_requests (sy : Synth) : Prop := Forall synthetic_request (sy_requests sy).

Lemma fold_synthetic {A} (f : Synth → A → Synth) l :
  (∀ sy x, x ∈ l → ∃ r, synthetic_request r ∧ sy_requests (f sy x) = sy_requests sy ++ [r]) →
  ∀ sy, synthetic_requests sy → synthetic_requests (foldl f sy l).
Proof.
  induction l as [|x l IH]; intros H sy Hs; [done|]. cbn [foldl]. apply IH.
  - intros sy' y Hy. apply H. by right.
  - destruct (H sy x) as (r&Hr&E); [by left|]. unfold synthetic_requests. rewrite E.
    apply Forall_app. split; [done|]. by constructor.
Qed.

Lemma synthetic_stamp_provenance ordinal : ev_provenance (synthetic_stamp ordinal) = Prov_Synthetic.
Proof. done. Qed.

(** A request that publishes one object under a header of the generator. *)
Lemma synthetic_object config label ordinal r :
  headers_of r = [make_header config 1 label ordinal] → rq_evidence r = synthetic_stamp ordinal →
  rq_rack_reference r = no_reference → synthetic_request r.
Proof.
  intros Hh He Hr. unfold synthetic_request, stamps_of. rewrite Hh, He, Hr. split; [|done].
  by repeat constructor.
Qed.

Ltac object := eexists; split; [|reflexivity]; eapply synthetic_object; reflexivity.

Section provenance.
Context (config : SyntheticConfig) (sel : Selection) (compositions : list RackCompositionSummary).
Context (Hc : Forall (λ c, rc_provenance c = Prov_Synthetic) compositions).
Context (Hn : ∀ i, i ∈ sl_all sel → (N.to_nat i < length compositions)%nat).

Lemma domains_synthetic sy : synthetic_requests sy → synthetic_requests (domains config sel compositions sy).
Proof.
  intros Hs. unfold domains. cbv zeta.
  destruct (sg_include_power_cooling config); repeat (apply fold_synthetic; [intros; object|]); done.
Qed.

(** A request for a rack, with a reference of the generator in it. *)
Lemma synthetic_rack index r :
  index ∈ sl_all sel →
  let ref := make_reference config compositions index (MkCtr 1) 1 in
  headers_of r = [] → rq_evidence r = synthetic_stamp (Z.of_N index) →
  reference_stamps (rq_rack_reference r) = reference_stamps ref →
  rc_provenance (rr_composition (rq_rack_reference r)) = rc_provenance (rr_composition ref) →
  synthetic_request r.
Proof.
  intros Hi ref Hh He Hs Hp. unfold synthetic_request, stamps_of. rewrite Hh, He, Hs, Hp. split.
  - unfold reference_stamps. destruct (id_known (rr_rack ref)); by repeat constructor.
  - intros _. unfold ref, make_reference. cbn [rr_composition].
    destruct (lookup_lt_is_Some_2 compositions (N.to_nat index) (Hn index Hi)) as [c E]. rewrite E.
    rewrite Forall_forall in Hc. apply Hc. by eapply list_elem_of_lookup_2.
Qed.

Context (Hi : ∀ i, i ∈ sl_included sel → i ∈ sl_all sel).
Context (Hs : ∀ i, i ∈ sl_stale sel → i ∈ sl_included sel).
Context (Ha : ∀ i, i ∈ sl_advanced sel → i ∈ sl_included sel).

Ltac reference := eexists; split; [|reflexivity]; eapply synthetic_rack; [eauto|reflexivity..].

Lemma admissions_synthetic sy : synthetic_requests sy → synthetic_requests (admissions config sel compositions sy).
Proof.
  intros H. unfold admissions. cbv zeta. do 2 (apply fold_synthetic; [intros; reference|]).
  apply Forall_app. split; [done|]. constructor; [|constructor]. split; [by repeat constructor|done].
Qed.

Lemma advances_synthetic sy : synthetic_requests sy → synthetic_requests (advances config sel compositions sy).
Proof. intros H. unfold advances. cbv zeta. by do 2 (apply fold_synthetic; [intros; reference|]). Qed.

Lemma supersessions_synthetic sy : synthetic_requests sy → synthetic_requests (supersessions config sy).
Proof.
  unfold supersessions. generalize (seqN 0 (N.min (sg_topology_epoch_changes config) kMaxTopologyEpochChanges)).
  intros l. revert sy. induction l as [|i l IH]; intros sy H; [done|]. cbn [foldl]. apply IH.
  unfold supersede_topology. destruct (next (sy_topology_epoch sy)); [|done]. cbn [next_stamp_ordinal].
  apply Forall_app. split; [done|]. constructor; [|constructor]. split; [by repeat constructor|done].
Qed.

Lemma constraint_synthetic included sy :
  synthetic_requests sy → synthetic_requests (publish_constraint config included sy).
Proof.
  intros H. unfold publish_constraint. destruct included; [done|].
  cbn [next_stamp_ordinal]. apply Forall_app. split; [done|]. constructor; [|constructor].
  eapply synthetic_object; reflexivity.
Qed.

Lemma publish_link_synthetic table networks connectable pairs : ∀ st, synthetic_requests (fst st) →
  synthetic_requests (fst (foldl (publish_link config table networks connectable) st pairs)).
Proof.
  induction pairs as [|p pairs IH]; intros [sy k] H; [done|]. cbn [foldl]. apply IH. unfold publish_link.
  destruct (if sg_asymmetric_connectivity config then _ else _) as [u r]. cbn [next_stamp_ordinal fst].
  apply Forall_app. split; [exact H|]. constructor; [|constructor]. eapply synthetic_object; reflexivity.
Qed.

Lemma links_synthetic sy : synthetic_requests sy → synthetic_requests (links config sel sy).
Proof. intros H. unfold links. by apply publish_link_synthetic. Qed.

End provenance.

Lemma draw_compositions_spec config indices : ∀ drawn rng,
  Forall (λ c, rc_provenance c = Prov_Synthetic) drawn →
  let out := fst (foldl (λ st i, let '(drawn, rng) := st in
                   let '(composition, rng) := make_composition i (sg_heterogeneous config) rng in
                   (drawn ++ [composition], rng)) (drawn, rng) indices) in
  Forall (λ c, rc_provenance c = Prov_Synthetic) out ∧ length out = (length drawn + length indices)%nat.
Proof.
  induction indices as [|i indices IH]; intros drawn rng H; cbn [foldl]; [split; [done|cbn; lia]|].
  assert (P : rc_provenance (fst (make_composition i (sg_heterogeneous config) rng)) = Prov_Synthetic).
  { unfold make_composition. by destruct (if sg_heterogeneous config then _ else _) as [[? ?] ?]. }
  destruct (make_composition _ _ _) as [composition rng']. cbn [fst] in P.
  destruct (IH (drawn ++ [composition]) rng') as [F L].
  { apply Forall_app. split; [done|]. by constructor. }
  split; [done|]. cbv zeta in L. rewrite L, length_app. cbn [length]. lia.
Qed.

(** C38: nothing of a scenario can be taken for a physical observation.  Every
    stamp of every request, of the rack references, endpoints and hints, of the
    domains, the constraint and the links in them, says SYNTHETIC, and so does
    every composition; none of them counts as current evidence. *)
Theorem scenario_synthetic config r :
  r ∈ sc_requests (generate_synthetic_cluster config) →
  Forall (λ s, ev_provenance s = Prov_Synthetic ∧ is_current s = false) (stamps_of r) ∧
  (id_known (rr_rack (rq_rack_reference r)) = true →
   rc_provenance (rr_composition (rq_rack_reference r)) = Prov_Synthetic).
Proof.
  intros Hr.
  assert (H : Forall synthetic_request (sc_requests (generate_synthetic_cluster config))).
  { clear Hr. unfold generate_synthetic_cluster. destruct (select_spec config) as
      (Ea&_&_&_&Ei&Es&_&Ev&_&_&Ia&_). destruct (included_bounds config) as (Hb&_).
    set (sel := select config) in *. unfold draw_compositions.
    pose proof (draw_compositions_spec config (sl_all sel) [] (sl_rng sel) ltac:(constructor)) as [Hc Hl].
    destruct (foldl _ _ (sl_all sel)) as [compositions rng]. cbn [fst length] in Hc, Hl.
    cbn [sc_requests]. assert (Hn : ∀ i, i ∈ sl_all sel → (N.to_nat i < length compositions)%nat).
    { intros i Hi. rewrite Hl. pose proof (select_all config) as E. fold sel in E. rewrite E in Hi |- *.
      apply seqN_elem in Hi. pose proof (size_seqN 0 (N.min (sg_rack_count config) kMaxRacksPerCluster)).
      unfold size in *. lia. }
    assert (Hi : ∀ i, i ∈ sl_included sel → i ∈ sl_all sel) by (intros i [H _]%Ei; by apply Ea).
    assert (Hv : ∀ i, i ∈ sl_advanced sel → i ∈ sl_included sel) by by intros i [H _]%Ev.
    apply advances_synthetic; [done..|]. apply constraint_synthetic, links_synthetic.
    apply supersessions_synthetic, domains_synthetic. apply admissions_synthetic; [done..|].
    constructor. }
  rewrite Forall_forall in H. destruct (H r Hr) as [Hp Hc]. split; [|done].
  eapply Forall_impl; [exact Hp|]. intros s E. split; [done|]. unfold is_current. by rewrite E.
Qed.

(** ** A scenario, generated and played *)

(** Five racks, one left out and one superseded, one change of the topology. *)
Definition small_config : SyntheticConfig :=
  default_synthetic_config <| sg_cluster := demo_cluster |> <| sg_publisher := owner |>
    <| sg_boot := boot_a |> <| sg_rack_count := 5 |> <| sg_missing_rack_count := 1 |>
    <| sg_stale_rack_count := 1 |> <| sg_topology_epoch_changes := 1 |>.

Lemma scenario_synthetic_witness :
  let r := default (blank_request MK_DeclareCluster)
             (sc_requests (generate_synthetic_cluster small_config) !! 7%nat) in
  rq_kind r = MK_AddRack ∧
  Forall (λ s, ev_provenance s = Prov_Synthetic ∧ is_current s = false) (stamps_of r).
Proof.
  split; [by vm_compute|]. refine (proj1 (scenario_synthetic small_config _ _)).
  apply (list_elem_of_lookup_2 _ 7). by vm_compute.
Defined.

(** A coordinator without a store, in the time of the stamps. *)
Definition scenario_now : Timestamp := MkTs (kStampBaseMillis + 20000).

Definition laboratory : Coordinator :=
  MkCoordinator (default_config demo_cluster default_contract) None
    (fst (load_durable_state (default_config demo_cluster default_contract) None scenario_now)) 0
    false no_stats.

Definition play (requests : list MutationRequest) (c : Coordinator) : Coordinator * list MutationOutcome :=
  foldl (λ st r, let '(c, result) := apply_and_commit scenario_now r st.1 in
                 (c, st.2 ++ [mr_outcome result])) (c, []) requests.

(** The coordinator accepts every request of it; the cluster is not ready, for
    synthetic evidence makes no rack current. *)
Example small_scenario_accepted :
  let '(c, outcomes) := play (sc_requests (generate_synthetic_cluster small_config)) laboratory in
  (length outcomes, forallb (λ o, bool_decide (o = Out_Accepted)) outcomes,
   cs_lifecycle (co_canonical c)) = (24%nat, true, CL_RevalidationRequired).
Proof. vm_compute. reflexivity. Qed.

(** ** Limits of the generator *)

(** The parameters that are printed do not determine the scenario: the density
    is rounded to six decimals, 0.4999999 and 0.5 print alike, and of two racks
    only the second gets a link. *)
Example reproduction_parameters_ambiguous :
  let half := default_synthetic_config <| sg_rack_count := 2 |>
                <| sg_link_density := MkDouble 0x3FE0000000000000 |> in
  let less_than_half := half <| sg_link_density := MkDouble 0x3FDFFFFF94A03595 |> in
  reproduction_parameters half = reproduction_parameters less_than_half ∧
  length (sc_links (generate_synthetic_cluster half)) = 1%nat ∧
  length (sc_links (generate_synthetic_cluster less_than_half)) = 0%nat.
Proof. by vm_compute. Qed.

(** Group sizes near 2^64 wrap around: no placement or capacity domain is left,
    and with 2^63 racks per failure domain the availability zone is empty. *)
Example wide_groups_wrap :
  let wide := default_synthetic_config <| sg_racks_per_placement_domain := 2 ^ 64 - 1 |>
                <| sg_racks_per_failure_domain := 2 ^ 63 |> in
  sc_capacity_domains (generate_synthetic_cluster wide) = [] ∧
  ((λ d, (fd_klass d, length (fd_racks d))) <$> sc_failure_domains (generate_synthetic_cluster wide)) =
    [(FD_Row, 8%nat); (FD_AvailabilityZone, 0%nat)].
Proof. by vm_compute. Qed.
