(* ===== verification/Inspect.v ===== *)
(** * The inspection tool

    [apps/inspect_main.cpp]: options, the report on a durable container, and the
    report on a live coordinator.  What the operating system answers (the disk,
    the calls of the socket) is an argument; what the tool writes to its two
    streams, and its exit code, is its result. *)

From S2P Require Import Prelude Identity Counter Taxonomy Evidence Types State Explain Durable Snapshot.
From S2P Require Import Wire Codec WireStream WireRecords WireMessages Frame PersistValid Persist Stores.
From S2P Require Import Process Transport Session Agent.

Local Open Scope N_scope.

(** ** Output *)

(** An exit code, the standard output and the standard error. *)
Record ToolReport := MkToolReport { tr_code : N; tr_out : string; tr_err : string }.

Definition line (text : string) : string := text +:+ newline.
Definition quote : string := String "034" EmptyString.
Definition quoted (text : string) : string := quote +:+ text +:+ quote.

Definition concat_text (l : list string) : string := foldr String.append EmptyString l.

(** [%04x]. *)
Definition hex4 (value : N) : list ascii :=
  (λ shift, hex_digit (N.shiftr value shift mod 16)) <$> [12; 8; 4; 0].

Definition escape_char (c : ascii) : list ascii :=
  if bool_decide (c = "034"%char) then ["\"; "034"]%char else
  if bool_decide (c = "\"%char) then ["\"; "\"]%char else
  if bool_decide (c = "010"%char) then ["\"; "n"]%char else
  if bool_decide (c = "013"%char) then ["\"; "r"]%char else
  if bool_decide (c = "009"%char) then ["\"; "t"]%char else
  if code c <? 0x20 then ["\"; "u"]%char ++ hex4 (code c) else [c].

Definition json_escape (text : string) : string := of_chars (flat_map escape_char (chars text)).

(** ** Options *)

Record Options := MkOptions {
  op_file : string;
  op_host : string;
  op_port : N;
  op_json : bool;
  op_verbose : bool
}.

#[global] Instance eta_Options : Eta Options := λ r,
  MkOptions (op_file r) (op_host r) (op_port r) (op_json r) (op_verbose r).
#[global] Instance upd_op_file : Upd op_file := ltac:(derive_upd).
#[global] Instance upd_op_host : Upd op_host := ltac:(derive_upd).
#[global] Instance upd_op_port : Upd op_port := ltac:(derive_upd).
#[global] Instance upd_op_json : Upd op_json := ltac:(derive_upd).
#[global] Instance upd_op_verbose : Upd op_verbose := ltac:(derive_upd).

Definition default_options : Options := MkOptions "" "" 0 false false.

Definition usage : string := concat_text (line <$>
  ["cluster_fabric_inspect [options]";
   "  --file <path>            inspect a durable state container (read-only)";
   "  --coordinator <host:port> inspect a live coordinator (read-only)";
   "  --json                   emit machine-readable JSON";
   "  --verbose                include per-rack and per-link detail";
   "  --help                   print this text"]%string).

(** The loop the three programs share: digits, bounded after each one. *)
Fixpoint parse_digits_bounded (limit value : N) (l : list ascii) : option N :=
  match l with
  | [] => Some value
  | c :: l =>
      if (code c <? code "0") || (code "9" <? code c) then None else
      let value := (value * 10 + (code c - code "0")) mod 2 ^ 64 in
      if limit <? value then None else parse_digits_bounded limit value l
  end.

Definition parse_bounded (limit : N) (text : string) : option N :=
  if is_empty text then None else parse_digits_bounded limit 0 (chars text).

Definition parse_u64 : string → option N := parse_bounded 65535.

(** [rfind] of a colon: what is before it and what is after. *)
Fixpoint rsplit (sep : ascii) (l : list ascii) : option (list ascii * list ascii) :=
  match l with
  | [] => None
  | c :: l =>
      match rsplit sep l with
      | Some (before, after) => Some (c :: before, after)
      | None => if bool_decide (c = sep) then Some ([], l) else None
      end
  end.

Definition split_endpoint (text : string) : option (string * string) :=
  match rsplit ":" (chars text) with
  | Some (host, port) => Some (of_chars host, of_chars port)
  | None => None
  end.

(** What was written when the options are refused, or the options. *)
Definition Parsed (A : Type) : Type := (string * string) + A.

Definition complaint {A} (text : string) : Parsed A := inl (EmptyString, line text).

Fixpoint parse_arguments (args : list string) (options : Options) : Parsed Options :=
  match args with
  | [] =>
      if bool_decide (is_empty (op_file options) = is_empty (op_host options))
      then complaint "exactly one of --file or --coordinator is required" else inr options
  | arg :: rest =>
      if bool_decide (arg = "--help") || bool_decide (arg = "-h") then inl (usage, EmptyString) else
      if bool_decide (arg = "--json") then parse_arguments rest (options <| op_json := true |>) else
      if bool_decide (arg = "--verbose") then parse_arguments rest (options <| op_verbose := true |>) else
      if bool_decide (arg = "--file") || bool_decide (arg = "--coordinator") then
        match rest with
        | [] => complaint ("missing value for " +:+ arg)
        | value :: rest =>
            if bool_decide (arg = "--file") then parse_arguments rest (options <| op_file := value |>) else
            match split_endpoint value with
            | None => complaint ("invalid endpoint: " +:+ value)
            | Some (host, port_text) =>
                match parse_u64 port_text with
                | None | Some 0 => complaint ("invalid endpoint: " +:+ value)
                | Some port => parse_arguments rest (options <| op_host := host |> <| op_port := port |>)
                end
            end
        end
      else complaint ("unknown option: " +:+ arg)
  end.

Definition parse_options (args : list string) : Parsed Options := parse_arguments args default_options.

(** ** A durable container *)

(** A line of the JSON object: a key and a value that is already rendered. *)
Definition json_field (key value : string) : string := "  " +:+ quoted key +:+ ": " +:+ value.
Definition json_member (key value : string) : string := line (json_field key value +:+ ",").
Definition json_text (key value : string) : string := json_member key (quoted value).
Definition json_number (key : string) (value : N) : string := json_member key (to_decimal value).
Definition bool_name (b : bool) : string := if b then "true" else "false".

(** A row of the table: the label is padded by the caller. *)
Definition row (label value : string) : string := line (label +:+ ": " +:+ value).

Definition rack_record_json (rack : DurableRack) : string :=
  "    {" +:+ quoted "rack" +:+ ": " +:+ quoted (json_escape (id_value (du_rack rack))) +:+ ", " +:+
  quoted "generation" +:+ ": " +:+ to_decimal (ctr (du_generation rack)) +:+ ", " +:+
  quoted "membership" +:+ ": " +:+ quoted (string_of_rack_membership_state (du_membership rack)) +:+ ", " +:+
  quoted "publisher" +:+ ": " +:+ quoted (json_escape (id_value (du_publisher rack))) +:+ ", " +:+
  quoted "boot" +:+ ": " +:+ quoted (json_escape (id_value (du_last_boot rack))) +:+ "}".

Definition rack_records_json (racks : list DurableRack) : string :=
  "  " +:+ quoted "rack_records" +:+ ": [" +:+
  concat_text (imap (λ i r, (if decide (i = 0%nat) then newline else "," +:+ newline) +:+
                            rack_record_json r) racks) +:+
  (if bool_decide (racks = []) then "" else newline +:+ "  ") +:+ line "]".

Section inspect.
(** The name of the build. *)
Context (build_identity : string).

Definition banner : string := version_banner build_identity.

Definition state_json (state : PersistedState) : string :=
  concat_text [
    json_text "cluster" (json_escape (id_value (ps_id state)));
    json_number "cluster_epoch" (ctr (ps_epoch state));
    json_number "last_coordinator_epoch" (ctr (ps_last_coordinator_epoch state));
    json_number "generation" (ctr (ps_generation state));
    json_number "membership_generation" (ctr (ps_membership_generation state));
    json_number "topology_epoch" (ctr (ps_topology_epoch state));
    json_number "topology_generation" (ctr (ps_topology_generation state));
    json_number "connectivity_generation" (ctr (ps_connectivity_generation state));
    json_number "health_generation" (ctr (ps_health_generation state));
    json_text "lifecycle" (string_of_cluster_lifecycle (ps_lifecycle state));
    json_number "racks" (size (ps_racks state));
    json_number "links" (size (ps_links state));
    json_number "constraints" (size (ps_constraints state));
    json_number "retired_racks" (size (ps_retired_racks state));
    json_number "withdrawn_racks" (size (ps_withdrawn_racks state));
    json_number "fenced_authorities" (size (ps_fenced_authorities state));
    json_number "placement_domains" (size (ps_placement_domains state));
    json_number "capacity_domains" (size (ps_capacity_domains state));
    json_number "failure_domains" (size (ps_failure_domains state));
    json_number "network_domains" (size (ps_network_domains state));
    json_number "storage_domains" (size (ps_storage_domains state));
    json_number "power_domains" (size (ps_power_domains state));
    json_number "cooling_domains" (size (ps_cooling_domains state));
    json_number "link_domains" (size (ps_link_domains state));
    rack_records_json (ps_racks state)].

Definition file_json (options : Options) (loaded : LoadOutcome) : ToolReport :=
  let ok := lo_ok loaded in
  let head := concat_text [
    line "{";
    json_text "tool" "cluster_fabric_inspect";
    json_text "version" (json_escape banner);
    json_text "source" "file";
    json_text "path" (json_escape (op_file options));
    json_text "container_status" (string_of_persistence_status (lo_status loaded));
    json_member "container_ok" (bool_name (bool_decide (is_Some ok)))] in
  let body :=
    match ok with
    | Some state =>
        json_text "validation_status"
          (string_of_persistence_status (fst (validate_persisted_state state))) +:+ state_json state
    | None => line (json_field "error" (quoted (json_escape (lo_message loaded))))
    end in
  MkToolReport (if bool_decide (is_Some ok) then 0 else 3) (head +:+ body +:+ line "}") "".

Definition domains_row (s : PersistedState) : string :=
  "placement " +:+ to_decimal (size (ps_placement_domains s)) +:+
  " capacity " +:+ to_decimal (size (ps_capacity_domains s)) +:+
  " failure " +:+ to_decimal (size (ps_failure_domains s)) +:+
  " network " +:+ to_decimal (size (ps_network_domains s)) +:+
  " storage " +:+ to_decimal (size (ps_storage_domains s)) +:+
  " power " +:+ to_decimal (size (ps_power_domains s)) +:+
  " cooling " +:+ to_decimal (size (ps_cooling_domains s)) +:+
  " link " +:+ to_decimal (size (ps_link_domains s)).

Definition rack_row (rack : DurableRack) : string :=
  line ("  rack " +:+ id_value (du_rack rack) +:+ " generation " +:+ ctr_str (du_generation rack) +:+
        " membership " +:+ string_of_rack_membership_state (du_membership rack) +:+
        " publisher " +:+ id_value (du_publisher rack) +:+ " boot " +:+ id_value (du_last_boot rack)).

Definition state_text (options : Options) (s : PersistedState) : string :=
  let '(validation, detail) := validate_persisted_state s in
  concat_text [
    row "structural check  " (string_of_persistence_status validation +:+
      (if is_empty detail then "" else " (" +:+ detail +:+ ")"));
    row "cluster           " (id_value (ps_id s));
    row "cluster epoch     " (ctr_str (ps_epoch s));
    row "coordinator epoch " (ctr_str (ps_last_coordinator_epoch s) +:+
      " (recorded; a live coordinator advances it on restart)");
    row "generation        " (ctr_str (ps_generation s));
    row "membership        " (ctr_str (ps_membership_generation s));
    row "topology          " ("epoch " +:+ ctr_str (ps_topology_epoch s) +:+ " generation " +:+
      ctr_str (ps_topology_generation s));
    row "connectivity      " (ctr_str (ps_connectivity_generation s));
    row "health            " (ctr_str (ps_health_generation s));
    row "lifecycle         " (string_of_cluster_lifecycle (ps_lifecycle s));
    row "racks             " (to_decimal (size (ps_racks s)));
    row "links             " (to_decimal (size (ps_links s)));
    row "constraints       " (to_decimal (size (ps_constraints s)));
    row "domains           " (domains_row s);
    row "retired racks     " (to_decimal (size (ps_retired_racks s)));
    row "withdrawn racks   " (to_decimal (size (ps_withdrawn_racks s)));
    row "fenced authorities" (to_decimal (size (ps_fenced_authorities s)));
    if op_verbose options then concat_text (rack_row <$> ps_racks s) else EmptyString].

Definition file_text (options : Options) (loaded : LoadOutcome) : ToolReport :=
  let head := concat_text [
    line ("cluster_fabric_inspect " +:+ banner);
    row "source            " ("file " +:+ op_file options);
    row "container         " (string_of_persistence_status (lo_status loaded))] in
  match lo_ok loaded with
  | None => MkToolReport 3 (head +:+ row "detail            " (lo_message loaded)) ""
  | Some state => MkToolReport 0 (head +:+ state_text options state) ""
  end.

Definition inspect_file (io_reads : bool) (disk : Disk) (options : Options) : ToolReport :=
  let loaded := file_load io_reads disk (MkFileStore (op_file options) "" 0) in
  if op_json options then file_json options loaded else file_text options loaded.

(** ** A live coordinator *)

(** A connection: what the reads meet, what the writes are answered, and what
    went out.  The tool does not retry an interrupted call. *)
Record Conn := MkConn { cn_socket : list Arrival; cn_sends : list SendAnswer; cn_sent : bytes }.

Fixpoint tool_send (answers : list SendAnswer) (data : bytes) : bytes * list SendAnswer * bool :=
  match data with
  | [] => ([], answers, true)
  | _ =>
      match answers with
      | [] => ([], [], false)
      | Sent (S n) :: answers =>
          let '(out, answers, ok) := tool_send answers (drop (S n) data) in
          (take (S n) data ++ out, answers, ok)
      | _ :: answers => ([], answers, false)
      end
  end.

Fixpoint tool_receive (count : nat) (received : bytes) (socket : list Arrival) :
    option bytes * list Arrival :=
  if (count <=? length received)%nat then (Some received, socket) else
  match socket with
  | Ar_Bytes (c :: data) :: rest =>
      let data := c :: data in
      let wanted := (count - length received)%nat in
      let received := received ++ take wanted data in
      if (wanted <=? length data)%nat then (Some received, unread (drop wanted data) rest)
      else tool_receive count received rest
  | _ :: rest => (None, rest)
  | [] => (None, [])
  end.

Definition transport_error (code message : string) : StructuredError :=
  error_make EC_Transport ES_Transport code message.
Definition protocol_problem (code message : string) : StructuredError :=
  error_make EC_Protocol ES_Decode code message.

(** What a whole response amounts to. *)
Definition judge (expected : MessageType) (frame : FrameOutcome) : StructuredError + bytes :=
  if negb (bool_decide (fo_status frame = Wire_Ok)) then
    inl (protocol_problem (string_of_protocol_status (fo_status frame)) "the response frame is not valid")
  else if hd_type (fo_header frame) =? raw Msg_Error then
    inl (default no_error (em_error <$> snd (decode_error (fo_payload frame))))
  else if negb (hd_type (fo_header frame) =? raw expected) then
    inl (protocol_problem "unexpected_message"
           "the coordinator answered with an unexpected message type")
  else inr (fo_payload frame).

Definition exchange (type : MessageType) (sequence : N) (payload : bytes) (expected : MessageType)
    (conn : Conn) : (StructuredError + bytes) * Conn :=
  let frame := encode_frame type sequence payload 0 kMaxFramePayloadBytes in
  let '(sent, answers, written) :=
    match frame with [] => ([], cn_sends conn, false) | _ => tool_send (cn_sends conn) frame end in
  let conn := MkConn (cn_socket conn) answers (cn_sent conn ++ sent) in
  if negb written then
    (inl (transport_error "send_failed" "the request frame could not be written"), conn) else
  match tool_receive (N.to_nat kFrameHeaderSize) [] (cn_socket conn) with
  | (None, socket) =>
      (inl (transport_error "read_failed" "the response header could not be read"),
       MkConn socket answers (cn_sent conn))
  | (Some header, socket) =>
      let length := hd_payload_length (fo_header (decode_frame header kMaxFramePayloadBytes)) in
      if kMaxFramePayloadBytes <? length then
        (inl (protocol_problem "oversized_frame" "the response declares an unacceptable payload length"),
         MkConn socket answers (cn_sent conn))
      else
      match tool_receive (N.to_nat length) [] socket with
      | (None, socket) =>
          (inl (transport_error "read_failed" "the response body could not be read"),
           MkConn socket answers (cn_sent conn))
      | (Some body, socket) =>
          (judge expected (decode_frame (header ++ body) kMaxFramePayloadBytes),
           MkConn socket answers (cn_sent conn))
      end
  end.

Definition inspector_cluster : ClusterId := MkId "cluster-fabric-inspect".

Definition inspector_hello (boot : RackAgentBootId) : HelloMessage :=
  MkHello kProtocolVersion inspector_cluster boot "inspector" banner.

(** A failure after the connection was made. *)
Definition failed (text : string) : ToolReport := MkToolReport 4 "" (line text).

Definition endpoint_text (options : Options) : string :=
  op_host options +:+ ":" +:+ to_decimal (op_port options).

Definition view_json (options : Options) (view : SnapshotView) (v : WireValidation) : ToolReport :=
  MkToolReport 0 (concat_text [
    line "{";
    json_text "tool" "cluster_fabric_inspect";
    json_text "version" (json_escape banner);
    json_text "source" "coordinator";
    json_text "endpoint" (json_escape (op_host options) +:+ ":" +:+ to_decimal (op_port options));
    json_text "cluster" (json_escape (id_value (vw_cluster view)));
    json_number "coordinator_epoch" (ctr (vw_coordinator_epoch view));
    json_number "cluster_epoch" (ctr (vw_cluster_epoch view));
    json_number "generation" (ctr (vw_cluster_generation view));
    json_number "membership_generation" (ctr (vw_membership_generation view));
    json_number "topology_epoch" (ctr (vw_topology_epoch view));
    json_number "topology_generation" (ctr (vw_topology_generation view));
    json_text "lifecycle" (string_of_cluster_lifecycle (vw_lifecycle view));
    json_number "rack_count" (vw_rack_count view);
    json_number "link_count" (vw_link_count view);
    json_number "domain_count" (vw_domain_count view);
    json_text "semantic_digest" (json_escape (vw_semantic_digest view));
    json_member "current" (bool_name (wv_current v));
    line (json_field "consumable" (bool_name (wv_consumable v)));
    line "}"]) "".

Definition yes_no (b : bool) : string := if b then "yes" else "no".

(** The name of a reason as it was received. *)
Definition stale_reason_name (value : N) : string :=
  match of_raw value with Some reason => string_of_stale_reason reason | None => "NONE" end.

Definition reason_row (subjects : list string) (i : nat) (reason : N) : string :=
  line ("stale reason      : " +:+ stale_reason_name reason +:+
        match subjects !! i with Some subject => " " +:+ subject | None => "" end).

Definition binding_row (b : RackGenerationBinding) : string :=
  line ("  rack " +:+ id_value (rb_rack b) +:+ " generation " +:+ ctr_str (rb_generation b) +:+
        " membership " +:+ string_of_rack_membership_state (rb_membership b) +:+
        " boot " +:+ id_value (rb_boot b)).

Definition view_text (options : Options) (view : SnapshotView) (v : WireValidation) : ToolReport :=
  MkToolReport 0 (concat_text [
    line ("cluster_fabric_inspect " +:+ banner);
    row "source            " ("coordinator " +:+ endpoint_text options);
    row "cluster           " (id_value (vw_cluster view));
    row "coordinator epoch " (ctr_str (vw_coordinator_epoch view));
    row "cluster epoch     " (ctr_str (vw_cluster_epoch view));
    row "generation        " (ctr_str (vw_cluster_generation view));
    row "membership        " (ctr_str (vw_membership_generation view));
    row "topology          " ("epoch " +:+ ctr_str (vw_topology_epoch view) +:+ " generation " +:+
      ctr_str (vw_topology_generation view));
    row "connectivity      " (ctr_str (vw_connectivity_generation view));
    row "health            " (ctr_str (vw_health_generation view));
    row "lifecycle         " (string_of_cluster_lifecycle (vw_lifecycle view));
    row "racks             " (to_decimal (vw_rack_count view));
    row "links             " (to_decimal (vw_link_count view));
    row "domains           " (to_decimal (vw_domain_count view));
    row "semantic digest   " (vw_semantic_digest view);
    row "snapshot current  " (yes_no (wv_current v));
    row "snapshot consumable" (yes_no (wv_consumable v));
    concat_text (imap (reason_row (wv_subjects v)) (wv_reasons v));
    if op_verbose options then concat_text (binding_row <$> vw_rack_bindings view) else EmptyString]) "".

(** The default-constructed messages. *)
Definition blank_hello_ack : HelloAckMessage :=
  MkHelloAck kProtocolVersion no_id no_ctr no_ctr no_ctr no_ctr CL_Declared false Rej_None "".

(** The three exchanges, and the report. *)
Definition converse (options : Options) (boot : RackAgentBootId) (conn : Conn) : ToolReport * Conn :=
  match exchange Msg_Hello 1 (encode_hello (inspector_hello boot)) Msg_HelloAck conn with
  | (inl error, conn) => (failed ("handshake failed: " +:+ er_message error), conn)
  | (inr payload, conn) =>
    let ack := default blank_hello_ack (snd (decode_hello_ack payload)) in
    if negb (ha_accepted ack) then
      (failed ("handshake rejected: " +:+ string_of_rejection_reason (ha_reason ack) +:+ " " +:+
               ha_detail ack), conn) else
    match exchange Msg_SnapshotRequest 2 (encode_snapshot_request (MkSnapshotRequest (ha_cluster ack)))
            Msg_SnapshotResponse conn with
    | (inl error, conn) => (failed ("snapshot request failed: " +:+ er_message error), conn)
    | (inr payload, conn) =>
      let snapshot := default blank_snapshot (snd (decode_snapshot_response payload)) in
      if negb (sr_accepted snapshot) then
        (failed ("snapshot refused: " +:+ string_of_rejection_reason (sr_reason snapshot) +:+ " " +:+
                 sr_detail snapshot), conn) else
      let '(answer, conn) :=
        exchange Msg_ValidateSnapshotRequest 3
          (encode_validate_request (MkValidateRequest (sr_view snapshot)))
          Msg_ValidateSnapshotResponse conn in
      let validation :=
        match answer with
        | inl _ => blank_validation
        | inr payload => default blank_validation (snd (decode_validate_response payload))
        end in
      ((if op_json options then view_json else view_text) options (sr_view snapshot)
         (ts_validation validation), conn)
    end
  end.

Definition inspect_coordinator (dial : Dial) (boot : RackAgentBootId) (sends : list SendAnswer)
    (options : Options) : ToolReport * Conn :=
  let untouched := MkConn [] sends [] in
  if negb (dl_sockets dial) then (failed "socket library initialization failed", untouched) else
  if negb (dl_created dial) then (failed "socket creation failed", untouched) else
  if negb (dl_address_valid dial && dl_connects dial) then
    (failed ("connect to " +:+ endpoint_text options +:+ " failed"), untouched) else
  converse options boot (MkConn (dl_socket dial) sends []).

(** ** The program *)

Definition inspect_main (args : list string) (io_reads : bool) (disk : Disk) (dial : Dial)
    (boot : RackAgentBootId) (sends : list SendAnswer) : ToolReport :=
  match parse_options args with
  | inl (out, err) => MkToolReport 2 (out +:+ usage) err
  | inr options =>
      if is_empty (op_file options) then fst (inspect_coordinator dial boot sends options)
      else inspect_file io_reads disk options
  end.

End inspect.
