(* ===== verification/InspectProofs.v ===== *)
(** * What the inspection tool guarantees

    Its JSON strings decode to what they stand for, its numbers are read exactly,
    it sends nothing but the three read-only requests, and against a live
    coordinator it reports the state the coordinator has. *)

From S2P Require Import Prelude Identity Counter Taxonomy Evidence Types State Readiness Invariant Explain.
From S2P Require Import EngineBase Durable Commit Snapshot Wire Codec WireStream WireRecords WireMessages.
From S2P Require Import Frame FrameProofs PersistValid Persist Stores Scenario Process ProcessProofs Transport.
From S2P Require Import StoreProofs Session SessionProofs Agent AgentProofs EndToEnd Inspect.

Local Open Scope N_scope.

(** ** JSON strings *)

Definition hex_of (c : ascii) : option N :=
  if (48 <=? code c) && (code c <=? 57) then Some (code c - 48) else
  if (97 <=? code c) && (code c <=? 102) then Some (code c - 87) else None.

(** The body of a JSON string as a reader takes it: a backslash begins an escape,
    and neither a quote nor a control character stands for itself. *)
Fixpoint json_unescape (l : list ascii) : option (list ascii) :=
  match l with
  | [] => Some []
  | "\"%char :: c :: rest =>
      if bool_decide (c = "u"%char) then
        match rest with
        | c1 :: c2 :: c3 :: c4 :: rest =>
            h1 ← hex_of c1; h2 ← hex_of c2; h3 ← hex_of c3; h4 ← hex_of c4;
            let v := h1 * 4096 + h2 * 256 + h3 * 16 + h4 in
            if v <? 256 then (λ out, Ascii.ascii_of_N v :: out) <$> json_unescape rest else None
        | _ => None
        end
      else
      let plain c := (λ out, c :: out) <$> json_unescape rest in
      if bool_decide (c = "034"%char) then plain "034"%char else
      if bool_decide (c = "\"%char) then plain "\"%char else
      if bool_decide (c = "n"%char) then plain "010"%char else
      if bool_decide (c = "r"%char) then plain "013"%char else
      if bool_decide (c = "t"%char) then plain "009"%char else None
  | c :: rest =>
      if bool_decide (c = "034"%char) || bool_decide (c = "\"%char) || (code c <? 32) then None
      else (λ out, c :: out) <$> json_unescape rest
  end.

Lemma json_unescape_char c rest :
  json_unescape (escape_char c ++ rest) = (λ out, c :: out) <$> json_unescape rest.
Proof. destruct c as [[] [] [] [] [] [] [] []]; reflexivity. Qed.

(** A string of the report stands for what it was made of: a JSON reader that
    meets the escaped text between quotes gets back exactly the text, whatever
    bytes it has. *)
Theorem json_escape_round_trip text :
  json_unescape (chars (json_escape text)) = Some (chars text).
Proof.
  unfold json_escape. rewrite chars_of_chars. induction (chars text) as [|c l IH]; [done|].
  cbn [flat_map]. rewrite json_unescape_char, IH. done.
Qed.

(** ** Numbers *)

Definition is_digit (c : ascii) : bool := (code "0" <=? code c) && (code c <=? code "9").

Definition decimal_value (value : N) (l : list ascii) : N :=
  foldl (λ v c, v * 10 + (code c - code "0")) value l.

Lemma decimal_value_mono l : ∀ v, v <= decimal_value v l.
Proof.
  induction l as [|c l IH]; intros v; cbn; [lia|]. etransitivity; [|apply IH]. lia.
Qed.

(** The loop reads the decimal value, and nothing wraps around. *)
Lemma parse_digits_bounded_spec limit l : limit < 2 ^ 60 → ∀ value n, value <= limit →
  parse_digits_bounded limit value l = Some n ↔
  Forall (λ c, is_digit c = true) l ∧ n = decimal_value value l ∧ n <= limit.
Proof.
  intros Hl. induction l as [|c l IH]; intros value n Hv; cbn [parse_digits_bounded].
  { split; [intros [= <-]; split_and!; [constructor|done|done]|intros (_&->&_); done]. }
  assert (Hd : is_digit c = negb ((code c <? code "0") || (code "9" <? code c))).
  { unfold is_digit. rewrite negb_orb, <-!N.leb_antisym. done. }
  rewrite Forall_cons, Hd. destruct ((code c <? code "0") || (code "9" <? code c)) eqn:Ec; cbn [negb].
  { split; [done|]. intros ((?&_)&_). done. }
  assert (Hdigit : code c - code "0" <= 9).
  { apply orb_false_iff in Ec as [_ H%N.ltb_ge]. change (code "9") with 57 in H.
    change (code "0") with 48. lia. }
  rewrite N.mod_small by (change (2 ^ 60) with 1152921504606846976 in Hl;
                          change (2 ^ 64) with 18446744073709551616; lia).
  change (decimal_value value (c :: l)) with (decimal_value (value * 10 + (code c - code "0")) l).
  set (v := value * 10 + (code c - code "0")). pose proof (decimal_value_mono l v).
  destruct (N.ltb_spec limit v).
  - split; [done|]. intros (_&->&?). lia.
  - rewrite IH by done. tauto.
Qed.

Lemma parse_bounded_spec limit text n : limit < 2 ^ 60 →
  parse_bounded limit text = Some n ↔
  text ≠ EmptyString ∧ Forall (λ c, is_digit c = true) (chars text) ∧
  n = decimal_value 0 (chars text) ∧ n <= limit.
Proof.
  intros Hl. unfold parse_bounded. destruct (is_empty text) eqn:E.
  - apply is_empty_spec in E as ->. naive_solver.
  - rewrite parse_digits_bounded_spec by (done || lia). split; [|tauto]. intros H. split; [|done].
    intros ->. done.
Qed.

(** ** What is sent *)

#[local] Strategy 1000 [encode_message decode_message].

Lemma tool_send_prefix answers : ∀ data,
  let '(out, _, ok) := tool_send answers data in out `prefix_of` data ∧ (ok = true → out = data).
Proof.
  induction answers as [|a answers IH]; intros data; (destruct data as [|c data]; cbn [tool_send]; [done|]).
  - split; [apply prefix_nil|done].
  - destruct a as [[|n]| |]; try (split; [apply prefix_nil|done]).
    specialize (IH (drop (S n) (c :: data))). destruct (tool_send answers _) as [[out rest] ok].
    destruct IH as [Hp Ho]. rewrite <-(take_drop (S n) (c :: data)). split.
    + rewrite take_drop at 1. by apply prefix_app.
    + intros E. rewrite (Ho E). f_equal. by rewrite take_drop.
Qed.

(** The frame of a request of the tool. *)
Definition tool_frame (type : MessageType) (sequence : N) (payload : bytes) : bytes :=
  encode_frame type sequence payload 0 kMaxFramePayloadBytes.

Lemma exchange_sent type sequence payload expected conn :
  let '(r, conn') := exchange type sequence payload expected conn in
  ∃ out, cn_sent conn' = cn_sent conn ++ out ∧ out `prefix_of` tool_frame type sequence payload ∧
    (∀ answer, r = inr answer → out = tool_frame type sequence payload).
Proof.
  unfold exchange. fold (tool_frame type sequence payload). set (frame := tool_frame _ _ _).
  assert (Hw : let '(sent, answers, written) :=
                 match frame with [] => ([], cn_sends conn, false) | _ => tool_send (cn_sends conn) frame end in
               sent `prefix_of` frame ∧ (written = true → sent = frame)).
  { destruct frame; [done|]. apply tool_send_prefix. }
  destruct (match frame with [] => _ | _ => _ end) as [[sent answers] written]. destruct Hw as [Hp Hf].
  destruct written; cbn [negb cn_socket cn_sent]; [|by exists sent].
  destruct (tool_receive _ _ _) as [[header|] socket]; [|by exists sent].
  destruct (kMaxFramePayloadBytes <? _); [by exists sent|].
  destruct (tool_receive _ _ _) as [[body|] socket']; [|by exists sent].
  exists sent. split_and!; [done|done|]. intros. by apply Hf.
Qed.

(** C37: the inspection of a live coordinator only reads.  Whatever the peer
    answers and however the calls fare, what the tool has sent is the beginning of
    a HELLO, a SNAPSHOT_REQUEST and a VALIDATE_SNAPSHOT_REQUEST, in this order. *)
Theorem inspector_only_reads build dial boot sends options :
  let conn := snd (inspect_coordinator build dial boot sends options) in
  ∃ cluster view, cn_sent conn `prefix_of`
    tool_frame Msg_Hello 1 (encode_hello (inspector_hello build boot)) ++
    tool_frame Msg_SnapshotRequest 2 (encode_snapshot_request (MkSnapshotRequest cluster)) ++
    tool_frame Msg_ValidateSnapshotRequest 3 (encode_validate_request (MkValidateRequest view)).
Proof.
  cbv zeta. unfold inspect_coordinator.
  destruct (dl_sockets dial), (dl_created dial), (dl_address_valid dial && dl_connects dial);
    cbn [negb snd cn_sent]; try (exists no_id, (from_snapshot None); apply prefix_nil).
  unfold converse. set (conn0 := MkConn (dl_socket dial) sends []).
  pose proof (exchange_sent Msg_Hello 1 (encode_hello (inspector_hello build boot)) Msg_HelloAck conn0) as H1.
  destruct (exchange Msg_Hello _ _ _ conn0) as [[e1|p1] conn1]; destruct H1 as (out1&E1&P1&F1);
    cbn [cn_sent conn0 app] in E1.
  { exists no_id, (from_snapshot None). cbn [snd]. rewrite E1. by apply prefix_app_r. }
  rewrite (F1 p1 eq_refl) in E1. set (ack := default _ _).
  destruct (ha_accepted ack); cbn [negb snd].
  2: { exists no_id, (from_snapshot None). rewrite E1. by apply prefix_app_r. }
  pose proof (exchange_sent Msg_SnapshotRequest 2
    (encode_snapshot_request (MkSnapshotRequest (ha_cluster ack))) Msg_SnapshotResponse conn1) as H2.
  destruct (exchange Msg_SnapshotRequest _ _ _ conn1) as [[e2|p2] conn2]; destruct H2 as (out2&E2&P2&F2);
    exists (ha_cluster ack).
  { exists (from_snapshot None). cbn [snd]. rewrite E2, E1. apply prefix_app. by apply prefix_app_r. }
  rewrite (F2 p2 eq_refl) in E2. set (snapshot := default _ _).
  destruct (sr_accepted snapshot); cbn [negb snd].
  2: { exists (from_snapshot None). rewrite E2, E1. apply prefix_app. by apply prefix_app_r. }
  exists (sr_view snapshot).
  pose proof (exchange_sent Msg_ValidateSnapshotRequest 3
    (encode_validate_request (MkValidateRequest (sr_view snapshot))) Msg_ValidateSnapshotResponse conn2) as H3.
  destruct (exchange Msg_ValidateSnapshotRequest _ _ _ conn2) as [r3 conn3]. destruct H3 as (out3&E3&P3&_).
  cbn [snd]. rewrite E3, E2, E1, <-!app_assoc. by do 2 apply prefix_app.
Qed.

(** ** A conversation *)

(** A socket that delivers bytes and nothing else. *)
Definition steady (socket : list Arrival) : Prop := Forall (λ a, ∃ c data, a = Ar_Bytes (c :: data)) socket.

Lemma steady_unread data rest : steady rest → steady (unread data rest).
Proof. intros H. destruct data as [|c data]; [done|]. constructor; [eauto|done]. Qed.

(** On such a socket the tool receives what the library does. *)
Lemma tool_receive_steady count socket : ∀ received data rest, steady socket →
  receive_loop count received socket = (Tr_Ok data, rest) →
  tool_receive count received socket = (Some data, rest) ∧ steady rest.
Proof.
  induction socket as [|a socket IH]; intros received data rest Hs; cbn [receive_loop tool_receive];
    destruct (Nat.leb_spec count (length received)); try by intros [= <- <-].
  inversion Hs as [|? ? (c&d&->) Hs']; subst. cbn [receive_loop tool_receive].
  destruct (_ <=? _)%nat; [intros [= <- <-]; split; [done|by apply steady_unread]|by apply IH].
Qed.

Lemma tool_receives count socket s : steady socket → stream socket = Some s → (count ≤ length s)%nat →
  ∃ rest, tool_receive count [] socket = (Some (take count s), rest) ∧ stream rest = Some (drop count s) ∧
    steady rest.
Proof.
  intros Hs Hst Hc. destruct (receive_loop_spec count socket [] s Hst) as (rest&E&Er); [cbn; lia|cbn; lia|].
  change (length (A := ascii) []) with 0%nat in *. rewrite Nat.sub_0_r in *. cbn [app] in E.
  destruct (tool_receive_steady _ _ _ _ _ Hs E). eauto.
Qed.

(** One exchange: the request goes out and the answer comes back. *)
Lemma tool_exchange request reply number sequence answers conn more :
  steady (cn_socket conn) → payload_type reply ≠ Msg_Error → sequence < 2 ^ 64 →
  carries kMaxFramePayloadBytes request → carries kMaxFramePayloadBytes reply →
  tool_send (cn_sends conn) (on_wire number request) = (on_wire number request, answers, true) →
  stream (cn_socket conn) = Some (on_wire sequence reply ++ more) →
  ∃ socket, exchange (payload_type request) number (encode_payload request) (payload_type reply) conn =
      (inr (encode_payload reply), MkConn socket answers (cn_sent conn ++ on_wire number request)) ∧
    steady socket ∧ stream socket = Some more.
Proof.
  intros Hs Ht Hq Hm Hy Hw Hst. unfold exchange. fold (on_wire number request).
  assert (match on_wire number request with [] => ([], cn_sends conn, false)
          | _ => tool_send (cn_sends conn) (on_wire number request) end =
          (on_wire number request, answers, true)) as ->.
  { destruct (on_wire number request) eqn:E; [by apply on_wire_nonempty in E|done]. }
  cbn [negb cn_socket cn_sent]. destruct Hy as (Hy1&Hy2&Hy3).
  pose proof (decode_frame_bytes (payload_type reply) sequence 0 (encode_payload reply) [] kMaxFramePayloadBytes
    Hq eq_refl Hy3) as (_&_&_&Hsz).
  destruct (decode_header_alone (payload_type reply) sequence (encode_payload reply) 0 kMaxFramePayloadBytes
    Hq eq_refl Hy3 Hy2) as [_ Dl].
  pose proof (decode_encode_frame (payload_type reply) sequence (encode_payload reply) 0 kMaxFramePayloadBytes []
    Hq eq_refl Hy3) as D.
  fold (on_wire sequence reply) in Hsz, Dl, D. rewrite app_nil_r in D, Hsz.
  set (frame := on_wire sequence reply) in *. set (pl := encode_payload reply) in *.
  assert (Hlen : length frame = (28 + length pl)%nat) by (unfold size in Hsz; cbn [length] in Hsz; lia).
  destruct (tool_receives 28 (cn_socket conn) _ Hs Hst) as (mid&E&Em&Sm); [rewrite length_app; lia|].
  change (N.to_nat kFrameHeaderSize) with 28%nat. rewrite E.
  rewrite take_app_le in * by lia. rewrite drop_app_le in Em by lia. rewrite Dl.
  destruct (N.ltb_spec kMaxFramePayloadBytes (size pl)) as [Hbad|_].
  { unfold bounded_payload in Hy3. change (kAbsoluteMaxFramePayloadBytes <? kMaxFramePayloadBytes) with false in Hy3.
    cbn iota in Hy3. lia. }
  assert (Hn : N.to_nat (size pl) = length pl) by (unfold size; lia). rewrite Hn.
  destruct (tool_receives (length pl) mid _ Sm Em) as (fin&E2&Ef&Sf); [rewrite length_app, length_drop; lia|].
  rewrite E2. rewrite take_app_le by (rewrite length_drop; lia).
  rewrite (take_ge (drop 28 frame)) by (rewrite length_drop; lia). rewrite take_drop, D.
  rewrite drop_app_le, drop_ge in Ef by (rewrite ?length_drop; lia).
  exists fin. split_and!; [|done|done]. f_equal. unfold judge, framed. cbn [fo_status fo_header fo_payload hd_type].
  rewrite bool_decide_true by done. cbn [negb].
  destruct (N.eqb_spec (raw (payload_type reply)) (raw Msg_Error)) as [Hbad|_]; [by apply raw_inj in Hbad|].
  by rewrite N.eqb_refl.
Qed.

(** Decoding what was encoded, for the messages of the conversation. *)
Lemma snapshot_request_decodes max m :
  carries max (P_SnapshotRequest m) → snd (decode_snapshot_request (encode_snapshot_request m)) = Some m.
Proof.
  intros H%carried_decodes. cbn [payload_type encode_payload decode_payload] in H.
  destruct (snd (decode_snapshot_request _)); cbn in H; congruence.
Qed.

Lemma snapshot_response_decodes max m :
  carries max (P_SnapshotResponse m) → snd (decode_snapshot_response (encode_snapshot_response m)) = Some m.
Proof.
  intros H%carried_decodes. cbn [payload_type encode_payload decode_payload] in H.
  destruct (snd (decode_snapshot_response _)); cbn in H; congruence.
Qed.

Lemma validate_request_decodes max m :
  carries max (P_ValidateSnapshotRequest m) → snd (decode_validate_request (encode_validate_request m)) = Some m.
Proof.
  intros H%carried_decodes. cbn [payload_type encode_payload decode_payload] in H.
  destruct (snd (decode_validate_request _)); cbn in H; congruence.
Qed.

Lemma validate_response_decodes max m :
  carries max (P_ValidateSnapshotResponse m) →
  snd (decode_validate_response (encode_validate_response m)) = Some m.
Proof.
  intros H%carried_decodes. cbn [payload_type encode_payload decode_payload] in H.
  destruct (snd (decode_validate_response _)); cbn in H; congruence.
Qed.

(** The writes of some frames, one after the other, all succeed. *)
Fixpoint written (answers : list SendAnswer) (frames : list bytes) : Prop :=
  match frames with
  | [] => True
  | frame :: frames =>
      let '(out, answers, ok) := tool_send answers frame in ok = true ∧ written answers frames
  end.

Lemma written_cons answers frame frames : written answers (frame :: frames) →
  ∃ rest, tool_send answers frame = (frame, rest, true) ∧ written rest frames.
Proof.
  cbn [written]. pose proof (tool_send_prefix answers frame) as H.
  destruct (tool_send answers frame) as [[out rest] ok]. destruct H as [_ H]. intros [-> Hw].
  exists rest. by rewrite (H eq_refl).
Qed.

Section live.
Context (build : string) (options : Options) (boot : RackAgentBootId) (now : Timestamp) (session : Session).
(** The states of the coordinator when it meets the three requests. *)
Context (s1 s2 s3 : ClusterState).

Abbreviation fits := (carries kMaxFramePayloadBytes).
Abbreviation hello := (P_Hello (inspector_hello build boot)).

(** The coordinator of another cluster. *)
Lemma inspection_refused cluster sequence answers socket more :
  cluster ≠ inspector_cluster →
  let refusal := P_HelloAck (refused_hello cluster Rej_WrongCluster "peer targets a different cluster") in
  fits hello → fits refusal → sequence < 2 ^ 64 → written answers [on_wire 1 hello] →
  steady socket → stream socket = Some (on_wire sequence refusal ++ more) →
  dispatch cluster now s1 (raw Msg_Hello) (encode_payload hello) session =
    (session, Act_Reply refusal false) ∧
  fst (converse build options boot (MkConn socket answers [])) =
    failed "handshake rejected: REJECT_WRONG_CLUSTER peer targets a different cluster".
Proof.
  intros Hc refusal Hh Hr Hq Hw Hs Hst. split.
  - unfold dispatch. rewrite N.eqb_refl. unfold on_hello. cbn [encode_payload].
    rewrite (hello_decodes _ _ Hh). unfold inspector_hello. cbn [he_protocol_version he_cluster].
    rewrite N.eqb_refl. cbn [negb]. by rewrite decide_True by congruence.
  - apply written_cons in Hw as (rest&Hw&_). unfold converse.
    destruct (tool_exchange hello refusal 1 sequence rest (MkConn socket answers []) more Hs ltac:(done) Hq Hh Hr
      Hw Hst) as (socket'&E&_&_).
    unfold refusal in E, Hr. cbn [payload_type encode_payload] in E. rewrite E.
    by rewrite (hello_ack_decodes _ _ Hr).
Qed.

Abbreviation view := (from_snapshot (Some (capture s2))).
Abbreviation ack := (P_HelloAck (ack_of inspector_cluster s1)).
Abbreviation ask := (P_SnapshotRequest (MkSnapshotRequest inspector_cluster)).
Abbreviation answer := (P_SnapshotResponse (MkSnapshotResponse true Rej_None "" view)).
Abbreviation verdict := (wire_validation (validate_view view s3)).
Abbreviation query := (P_ValidateSnapshotRequest (MkValidateRequest view)).
Abbreviation reply := (P_ValidateSnapshotResponse (MkValidateResponse verdict)).
Abbreviation shaken := (session <| se_boot := Some boot |> <| se_handshake := true |>).

(** What a session of the coordinator answers. *)
Lemma inspection_answers : fits hello → fits ask → fits query →
  dispatch inspector_cluster now s1 (raw Msg_Hello) (encode_payload hello) session =
    (shaken, Act_Reply ack true) ∧
  dispatch inspector_cluster now s2 (raw Msg_SnapshotRequest) (encode_payload ask) shaken =
    (shaken, Act_Reply answer true) ∧
  dispatch inspector_cluster now s3 (raw Msg_ValidateSnapshotRequest) (encode_payload query) shaken =
    (shaken, Act_Reply reply true).
Proof.
  intros Hh Ha Hq. split_and!.
  - unfold dispatch. rewrite N.eqb_refl. unfold on_hello. cbn [encode_payload].
    rewrite (hello_decodes _ _ Hh). unfold inspector_hello. cbn [he_protocol_version he_cluster he_boot].
    rewrite N.eqb_refl. cbn [negb]. by rewrite decide_False by tauto.
  - unfold dispatch. change (raw Msg_SnapshotRequest =? raw Msg_Hello) with false. cbn [se_handshake negb].
    change (of_raw (raw Msg_SnapshotRequest)) with (Some Msg_SnapshotRequest).
    unfold on_snapshot_request. cbn [encode_payload]. rewrite (snapshot_request_decodes _ _ Ha).
    cbn [sq_cluster]. by rewrite decide_False by tauto.
  - unfold dispatch. change (raw Msg_ValidateSnapshotRequest =? raw Msg_Hello) with false. cbn [se_handshake negb].
    change (of_raw (raw Msg_ValidateSnapshotRequest)) with (Some Msg_ValidateSnapshotRequest).
    unfold on_validate_request. cbn [encode_payload]. by rewrite (validate_request_decodes _ _ Hq).
Qed.

Lemma converse_reports n1 n2 n3 answers socket more :
  fits hello → fits ack → fits ask → fits answer → fits query → fits reply →
  n1 < 2 ^ 64 → n2 < 2 ^ 64 → n3 < 2 ^ 64 →
  written answers [on_wire 1 hello; on_wire 2 ask; on_wire 3 query] →
  steady socket → stream socket = Some (on_wire n1 ack ++ on_wire n2 answer ++ on_wire n3 reply ++ more) →
  fst (converse build options boot (MkConn socket answers [])) =
    (if op_json options then view_json else view_text) build options view verdict.
Proof.
  intros Hh Hk Ha Hy Hq Hr B1 B2 B3 Hw Hs Hst.
  apply written_cons in Hw as (r1&W1&(r2&W2&(r3&W3&_)%written_cons)%written_cons). unfold converse.
  destruct (tool_exchange hello ack 1 n1 r1 (MkConn socket answers []) _ Hs ltac:(done) B1 Hh Hk W1 Hst)
    as (k1&E1&S1&T1).
  cbn [payload_type encode_payload] in E1. rewrite E1, (hello_ack_decodes _ _ Hk).
  unfold ack_of. cbn [from_option id ha_accepted ha_cluster negb].
  set (conn1 := MkConn k1 _ _).
  destruct (tool_exchange ask answer 2 n2 r2 conn1 _ S1 ltac:(done) B2 Ha Hy W2 T1) as (k2&E2&S2&T2).
  cbn [payload_type encode_payload] in E2. rewrite E2, (snapshot_response_decodes _ _ Hy).
  cbn [from_option id sr_accepted sr_view negb].
  set (conn2 := MkConn k2 _ _).
  destruct (tool_exchange query reply 3 n3 r3 conn2 _ S2 ltac:(done) B3 Hq Hr W3 T2) as (k3&E3&_&_).
  cbn [payload_type encode_payload] in E3. rewrite E3, (validate_response_decodes _ _ Hr).
  cbn [from_option id ts_validation fst]. by destruct (op_json options).
Qed.


End live.

(** A coordinator of the cluster the tool names, just started. *)
Definition inspected_state : ClusterState := start_state <| cs_id := inspector_cluster |>.

Definition inspected_view : SnapshotView := from_snapshot (Some (capture inspected_state)).

Definition demo_answers : bytes :=
  on_wire 1 (P_HelloAck (ack_of inspector_cluster inspected_state)) ++
  on_wire 2 (P_SnapshotResponse (MkSnapshotResponse true Rej_None "" inspected_view)) ++
  on_wire 3 (P_ValidateSnapshotResponse
    (MkValidateResponse (wire_validation (validate_view inspected_view inspected_state)))).

(** The answers in three segments. *)
Definition inspected_socket : list Arrival :=
  [Ar_Bytes (take 10 demo_answers); Ar_Bytes (take 200 (drop 10 demo_answers));
   Ar_Bytes (drop 210 demo_answers)].

Definition whole_writes : list SendAnswer := [Sent 4096; Sent 4096; Sent 4096].


(** ** A saved container *)

(** What was saved is what is inspected: after a save that succeeded, the tool
    reports the container sound and shows the saved state. *)
Theorem saved_state_inspected build io pid p store disk options :
  file_inv store → recoverable p → (disk_save io pid p (store, disk)).1 = SaveOk →
  op_file options = fs_path store →
  inspect_file build true (disk_save io pid p (store, disk)).2.2 options =
  (if op_json options then file_json else file_text) build options (MkLoad PS_Ok (Some p) "").
Proof.
  intros Hi Hp Hs Hf. pose proof (@ds_saved _ _ (file_store_laws io pid) p (store, disk) Hi Hp Hs) as H.
  cbn [ds_save ds_load file_store] in H. unfold inspect_file.
  set (saved := (disk_save io pid p (store, disk)).2) in *.
  rewrite (file_load_path saved.2 saved.2 saved.1 (MkFileStore (op_file options) EmptyString 0)).
  - rewrite H. by destruct (op_json options).
  - cbn [fs_path]. rewrite Hf. unfold saved. pose proof (file_save_shape io pid p store Hi) as Hsh. unfold disk_save.
    cbn [fst]. destruct (file_save io pid p store) as [[ops outcome] store']. cbn [fst snd].
    by destruct Hsh as (_&E&_).
  - done.
Qed.
