(* ===== verification/Programs.v ===== *)
(** * The coordinator and rack agent programs

    [apps/coordinator_main.cpp] and [apps/rack_agent_main.cpp]: their options, and
    [main] as the sequence of what it does to the library; and the part of the
    probe that needs no device, [src/cuda_probe.cpp].  What the operating system
    answers, and the result of a probe, are arguments. *)

From S2P Require Import Prelude Identity Counter Taxonomy Evidence Types State Readiness Invariant Explain.
From S2P Require Import Queries EngineBase EngineRack Durable Commit Snapshot Wire Codec WireStream WireRecords.
From S2P Require Import WireMessages Frame Persist Stores Process Transport Session Agent Inspect.

Local Open Scope N_scope.

(** ** The options of the coordinator *)

Module Coordinating.

Record Options := MkOptions {
  op_cluster : string;
  op_bind_address : string;
  op_port : N;
  op_state_path : string;
  op_persist : bool;
  op_minimum_racks : N;
  op_allow_partial : bool;
  op_allow_degraded : bool;
  op_quiet : bool
}.

#[global] Instance eta_Options : Eta Options := λ r,
  MkOptions (op_cluster r) (op_bind_address r) (op_port r) (op_state_path r) (op_persist r)
    (op_minimum_racks r) (op_allow_partial r) (op_allow_degraded r) (op_quiet r).
#[global] Instance upd_op_cluster : Upd op_cluster := ltac:(derive_upd).
#[global] Instance upd_op_bind_address : Upd op_bind_address := ltac:(derive_upd).
#[global] Instance upd_op_port : Upd op_port := ltac:(derive_upd).
#[global] Instance upd_op_state_path : Upd op_state_path := ltac:(derive_upd).
#[global] Instance upd_op_persist : Upd op_persist := ltac:(derive_upd).
#[global] Instance upd_op_minimum_racks : Upd op_minimum_racks := ltac:(derive_upd).
#[global] Instance upd_op_allow_partial : Upd op_allow_partial := ltac:(derive_upd).
#[global] Instance upd_op_allow_degraded : Upd op_allow_degraded := ltac:(derive_upd).
#[global] Instance upd_op_quiet : Upd op_quiet := ltac:(derive_upd).

Definition default_options : Options :=
  MkOptions "cluster-fabric-lab" "127.0.0.1" 0 "" true 1 true true false.

Definition usage : string := concat_text (line <$>
  ["cluster_fabric_coordinator [options]";
   "  --cluster <id>        cluster identity (default cluster-fabric-lab)";
   "  --bind <address>      listener address (default 127.0.0.1)";
   "  --port <n>            listener port, 0 selects an ephemeral port (default 0)";
   "  --state <path>        durable state container path";
   "  --no-persist          do not write durable state";
   "  --min-racks <n>       readiness contract minimum current racks (default 1)";
   "  --no-partial          readiness contract forbids PARTIAL";
   "  --no-degraded         readiness contract forbids DEGRADED";
   "  --quiet               print only the bound port and terminal lifecycle";
   "  --help                print this text"]%string).

Definition parse_size : string → option N := parse_bounded 1000000.

(** A refusal without a message. *)
Definition refused {A} : Parsed A := inl (EmptyString, EmptyString).

Fixpoint parse_options (args : list string) (o : Options) : Parsed Options :=
  match args with
  | [] => inr o
  | arg :: rest =>
      if bool_decide (arg = "--help") || bool_decide (arg = "-h") then inl (usage, EmptyString) else
      if bool_decide (arg = "--cluster") then
        match rest with [] => refused | v :: rest => parse_options rest (o <| op_cluster := v |>) end else
      if bool_decide (arg = "--bind") then
        match rest with [] => refused | v :: rest => parse_options rest (o <| op_bind_address := v |>) end else
      if bool_decide (arg = "--state") then
        match rest with [] => refused | v :: rest => parse_options rest (o <| op_state_path := v |>) end else
      if bool_decide (arg = "--port") then
        match rest with
        | [] => refused
        | v :: rest =>
            match parse_size v with
            | None => refused
            | Some n => if 65535 <? n then refused else parse_options rest (o <| op_port := n |>)
            end
        end else
      if bool_decide (arg = "--min-racks") then
        match rest with
        | [] => refused
        | v :: rest =>
            match parse_size v with
            | None => refused
            | Some n => parse_options rest (o <| op_minimum_racks := n |>)
            end
        end else
      if bool_decide (arg = "--no-partial") then parse_options rest (o <| op_allow_partial := false |>) else
      if bool_decide (arg = "--no-degraded") then parse_options rest (o <| op_allow_degraded := false |>) else
      if bool_decide (arg = "--no-persist") then parse_options rest (o <| op_persist := false |>) else
      if bool_decide (arg = "--quiet") then parse_options rest (o <| op_quiet := true |>) else
      inl (usage, line ("unknown option: " +:+ arg))
  end.

(** ** Its configuration *)

Definition has_store (o : Options) : bool := op_persist o && negb (is_empty (op_state_path o)).

Definition contract (o : Options) : ReadinessContract :=
  contract_permissive <| ct_minimum_current_racks := op_minimum_racks o |>
    <| ct_allow_partial := op_allow_partial o |> <| ct_allow_degraded := op_allow_degraded o |>.

Definition configuration (cluster : ClusterId) (o : Options) : CoordinatorConfig :=
  MkConfig cluster (contract o) kMaxRacksPerCluster kMaxInterRackLinks kMaxDomainsPerClass
    kMaxConstraints (op_persist o && has_store o).

(** The coordinator of the program; [save] is what its store answers. *)
Definition coordinator (cluster : ClusterId) (o : Options) (save : PersistedState → SaveOutcome) :
    Coordinator :=
  let config := configuration cluster o in
  MkCoordinator config (if has_store o then Some save else None)
    (empty_state <| cs_id := cf_cluster config |>
                 <| cs_readiness_contract := cf_readiness_contract config |>
                 <| cs_coordinator_epoch := MkCtr 1 |>)
    0 false (MkStats 0 0 0 0 0 0 0 0).

(** The declaration of a cluster that is not declared yet. *)
Definition declaration (cluster : ClusterId) (o : Options) (epoch : CoordinatorEpoch) (now : Timestamp) :
    MutationRequest :=
  (blank_request MK_DeclareCluster)
    <| rq_cluster := cluster |>
    <| rq_authority := MkAuthority (MkCtr 1) epoch no_ctr no_ctr None None None None no_ctr |>
    <| rq_declared_lifecycle := CL_Forming |>
    <| rq_readiness_contract := contract o |>
    <| rq_reason := "coordinator_process_start" |>
    <| rq_evidence := stamp_make Prov_Reported now 0 |>.

(** ** [main] *)

(** The checks before anything is started: a report, or what to run. *)
Definition prepare (args : list string) : ToolReport + (ClusterId * Options) :=
  match parse_options args default_options with
  | inl (out, err) => inl (MkToolReport 2 out err)
  | inr o =>
      match parse_id (op_cluster o) with
      | None => inl (MkToolReport 2 "" (line ("invalid cluster identity: " +:+ op_cluster o)))
      | Some cluster =>
          if op_minimum_racks o =? 0
          then inl (MkToolReport 2 "" (line "--min-racks must be at least 1"))
          else inr (cluster, o)
      end
  end.

(** Where the main thread is.  The summary that is printed at the end is made
    when the program is asked to stop.  After an exit the destructor stops the
    coordinator. *)
Inductive Phase :=
  | Ph_Starting
  | Ph_Listening
  | Ph_StartFailed
  | Ph_Up
  | Ph_Declaring (slot : nat)
  | Ph_Serving
  | Ph_StopFlagged (summary : string)
  | Ph_StopQueued (summary : string)
  | Ph_Exit (code : N).

#[global] Instance Phase_eq_dec : EqDecision Phase.
Proof. solve_decision. Defined.

Record Program := MkProgram {
  pg_process : Process;
  pg_phase : Phase;
  pg_recovery : RecoveryReport;
  pg_out : string;
  pg_err : string
}.

#[global] Instance eta_Program : Eta Program := λ r,
  MkProgram (pg_process r) (pg_phase r) (pg_recovery r) (pg_out r) (pg_err r).
#[global] Instance upd_pg_process : Upd pg_process := ltac:(derive_upd).
#[global] Instance upd_pg_phase : Upd pg_phase := ltac:(derive_upd).
#[global] Instance upd_pg_recovery : Upd pg_recovery := ltac:(derive_upd).
#[global] Instance upd_pg_out : Upd pg_out := ltac:(derive_upd).
#[global] Instance upd_pg_err : Upd pg_err := ltac:(derive_upd).

(** What happens next: a step of the main thread, with what the environment
    answers it, or a step of another thread. *)
Inductive Step :=
  | St_Launch (input : StartInput)
  | St_Listen (listens : bool) (port : N)
  | St_JoinFailed
  | St_Declare (now : Timestamp)
  | St_Answer
  | St_StopFlag (sessions_opened : N)
  | St_StopQueue
  | St_StopJoin
  | St_Other (e : Event).

(** The events of the sessions and of the commit thread. *)
Definition others_event (e : Event) : bool :=
  match e with Ev_Submit _ | Ev_Fence _ _ | Ev_Take | Ev_Apply _ _ => true | _ => false end.

Section main.
Context (build_identity socket_error_text : string) (cluster : ClusterId) (o : Options).

Definition print (text : string) (g : Program) : Program := g <| pg_out := pg_out g +:+ text |>.
Definition complain (text : string) (g : Program) : Program := g <| pg_err := pg_err g +:+ line text |>.
Definition at_phase (phase : Phase) (g : Program) : Program := g <| pg_phase := phase |>.

Definition start_failed (status : ProtocolStatus) (g : Program) : Program :=
  complain ("coordinator failed to start: " +:+ string_of_protocol_status status +:+ " " +:+ socket_error_text) g.

Definition recovered_text (r : RecoveryReport) : string :=
  if rp_loaded r then
    "yes (racks " +:+ to_decimal (rp_racks_recovered r) +:+ " domains " +:+ to_decimal (rp_domains_recovered r) +:+
    " links " +:+ to_decimal (rp_links_recovered r) +:+ " fenced " +:+ to_decimal (rp_fenced_recovered r) +:+ ")"
  else "no".

Definition greeting (port : N) (r : RecoveryReport) : string :=
  if op_quiet o then line (to_decimal port) else
  concat_text ([
    line ("cluster_fabric_coordinator " +:+ version_banner build_identity);
    row "cluster          " (id_value cluster);
    row "listening        " (op_bind_address o +:+ ":" +:+ to_decimal port);
    row "durable state    " (if cf_persist_on_commit (configuration cluster o) then op_state_path o else "disabled");
    row "recovered        " (recovered_text r);
    row "coordinator epoch" (ctr_str (rp_current_coordinator_epoch r))] ++
    (row "note             " <$> rp_notes r)).

(** What the result of the declaration leads to: a refusal ends the program
    unless it is quiet. *)
Definition declared (result : MutationResult) (g : Program) : Program :=
  if negb (accepted result) && negb (op_quiet o) then
    at_phase (Ph_Exit 4) (complain ("cluster declaration refused: " +:+
      string_of_rejection_reason (mr_reason result) +:+ " " +:+ er_message (mr_error result)) g)
  else
    at_phase Ph_Serving
      (if op_quiet o then g
       else print (row "declared         " ("cluster epoch " +:+ ctr_str (mr_cluster_epoch result))) g).

Definition farewell (sessions_opened : N) (g : Program) : string :=
  let stats := co_stats (pr_coordinator (pg_process g)) in
  if op_quiet o then "" else
  row "stopped          "
    ("commits " +:+ to_decimal (st_commits stats) +:+ " accepted " +:+ to_decimal (st_mutations_accepted stats) +:+
     " rejected " +:+ to_decimal (st_mutations_rejected stats) +:+ " sessions " +:+ to_decimal sessions_opened).

(** An event of the process, in a phase of the main thread. *)
Definition advance (from : Phase) (e : Event) (then_ : Program → Program) (g : Program) : option Program :=
  if decide (pg_phase g = from) then
    p ← perform e (pg_process g); Some (then_ (g <| pg_process := p |>))
  else None.

Definition main_step (step : Step) (g : Program) : option Program :=
  match step with
  | St_Launch input =>
      advance Ph_Starting (Ev_Launch input) (λ g,
        if si_sockets input
        then at_phase Ph_Listening (g <| pg_recovery :=
               snd (load_durable_state (configuration cluster o) (si_load input) (si_now input)) |>)
        else at_phase (Ph_Exit 3) (start_failed Wire_IoError g)) g
  | St_Listen listens port =>
      advance Ph_Listening (Ev_Listen listens) (λ g,
        if listens then at_phase Ph_Up (print (greeting port (pg_recovery g)) g)
        else at_phase Ph_StartFailed g) g
  | St_JoinFailed =>
      advance Ph_StartFailed Ev_StartFailedJoin (λ g, at_phase (Ph_Exit 3) (start_failed Wire_IoError g)) g
  | St_Declare now =>
      if decide (pg_phase g = Ph_Up) then
        if ctr_known (cs_epoch (co_canonical (pr_coordinator (pg_process g)))) then Some (at_phase Ph_Serving g)
        else
          let request := declaration cluster o (rp_current_coordinator_epoch (pg_recovery g)) now in
          let '(p, answer) := submit request (pg_process g) in
          let g := g <| pg_process := p |> in
          Some (match answer with
                | inl result => declared result g
                | inr slot => at_phase (Ph_Declaring slot) g
                end)
      else None
  | St_Answer =>
      match pg_phase g with
      | Ph_Declaring slot => (λ result, declared result g) <$> slot_result slot (pg_process g)
      | _ => None
      end
  | St_StopFlag sessions_opened =>
      advance Ph_Serving Ev_StopFlag (at_phase (Ph_StopFlagged (farewell sessions_opened g))) g
  | St_StopQueue =>
      match pg_phase g with
      | Ph_StopFlagged summary => advance (Ph_StopFlagged summary) Ev_StopQueue (at_phase (Ph_StopQueued summary)) g
      | _ => None
      end
  | St_StopJoin =>
      match pg_phase g with
      | Ph_StopQueued summary =>
          advance (Ph_StopQueued summary) Ev_StopJoin (λ g, at_phase (Ph_Exit 0) (print summary g)) g
      | _ => None
      end
  | St_Other e =>
      if others_event e then p ← perform e (pg_process g); Some (g <| pg_process := p |>) else None
  end.

Fixpoint main_run (steps : list Step) (g : Program) : option Program :=
  match steps with
  | [] => Some g
  | s :: steps => g ← main_step s g; main_run steps g
  end.

Definition no_recovery : RecoveryReport :=
  MkReport false false PS_Ok 0 0 0 0 0 false no_ctr no_ctr false [].

Definition main_start (save : PersistedState → SaveOutcome) : Program :=
  MkProgram (constructed (coordinator cluster o save)) Ph_Starting no_recovery "" "".

End main.
End Coordinating.

(** ** The device probe, without a device *)

Module Probe.

Record CudaDeviceInfo := MkDevice {
  cd_device_index : Z;
  cd_name : string;
  cd_compute_major : Z;
  cd_compute_minor : Z;
  cd_multiprocessor_count : Z;
  cd_total_memory_bytes : N;
  cd_driver_version : Z;
  cd_runtime_version : Z;
  cd_uuid : string;
  cd_clock_rate_khz : Z;
  cd_memory_bus_width_bits : Z
}.

Record CudaProbeResult := MkProbe {
  pb_compiled_with_cuda : bool;
  pb_device_available : bool;
  pb_success : bool;
  pb_device : CudaDeviceInfo;
  pb_reason : string;
  pb_detail : string;
  pb_element_count : N;
  pb_h2d_millis : double;
  pb_kernel_millis : double;
  pb_d2h_millis : double;
  pb_max_abs_error : double;
  pb_device_memory_before_bytes : N;
  pb_device_memory_after_bytes : N;
  pb_resources_returned_to_baseline : bool;
  pb_output_digest : N
}.

Definition no_device : CudaDeviceInfo := MkDevice (-1) "" 0 0 0 0 0 0 "" 0 0.

Definition kOriginLabel : string := "cluster-fabric:cuda-probe".
Definition kEndpointId : string := "gpu0".
Definition kFallbackIdentity : string := "cuda-probe".

Definition signed_decimal (value : Z) : string :=
  if (value <? 0)%Z then "-" +:+ to_decimal (Z.to_N (- value)) else to_decimal (Z.to_N value).

(** [ordinal] is the number of earlier calls in the process. *)
Definition make_boot_text (unix_millis : Z) (ordinal : N) : string :=
  kFallbackIdentity +:+ "-" +:+ signed_decimal unix_millis +:+ "-" +:+ to_decimal ordinal.

Definition parse_or_fallback {tag} (text : string) : StrongId tag :=
  default (MkId kFallbackIdentity) (parse_id text).

Definition make_cuda_rack_reference (now : Timestamp) (ordinal : N) (probe : CudaProbeResult) (rack : RackId)
    (generation : RackGeneration) (publisher : RackPublisherId) : RackReference :=
  let provenance := if pb_success probe then Prov_Measured else Prov_Unknown in
  let stamp := if pb_success probe then stamp_make provenance now 0 else stamp_unknown in
  let accelerators :=
    if pb_success probe
    then [MkAccelerator Vendor_Nvidia (cd_name (pb_device probe)) (Some 1)
            (Some (cd_total_memory_bytes (pb_device probe)))] else [] in
  MkReference rack generation RL_Ready Cur_Current
    (MkComposition accelerators None None None None None "" provenance)
    [MkEndpoint (parse_or_fallback kEndpointId) None None
       (if pb_success probe then Conn_DirectFabric else Conn_Unknown) stamp]
    [MkHint FD_Rack (parse_or_fallback (id_value rack)) stamp]
    stamp (Some publisher) (MkCtr 1)
    (parse_or_fallback (make_boot_text (unix_millis (ev_observed_at stamp)) ordinal))
    no_ctr no_ctr Health_Unknown kOriginLabel.

Definition kMinElementCount : N := 1.
Definition kMaxElementCount : N := 2 ^ 26.

Definition clamp_element_count (requested : N) : N :=
  if requested <? kMinElementCount then kMinElementCount else
  if kMaxElementCount <? requested then kMaxElementCount else requested.

(** The probe of a build without CUDA. *)
Definition run_cuda_probe (element_count : N) : CudaProbeResult :=
  MkProbe false false false no_device "cuda_not_compiled" "this build was compiled without CUDA support"
    (clamp_element_count element_count) dbl_zero dbl_zero dbl_zero dbl_zero 0 0 false 0.

End Probe.

(** ** The rack agent *)

Module Publishing.
Import Probe.

Record Options := MkOptions {
  op_cluster : string;
  op_host : string;
  op_port : N;
  op_rack : string;
  op_publisher : string;
  op_generation : N;
  op_ttl_millis : Z;
  op_heartbeat_millis : Z;
  op_devices : N;
  op_device_memory_bytes : N;
  op_gpu : bool;
  op_publish_once : bool;
  op_supersede_after : N
}.

#[global] Instance eta_Options : Eta Options := λ r,
  MkOptions (op_cluster r) (op_host r) (op_port r) (op_rack r) (op_publisher r) (op_generation r)
    (op_ttl_millis r) (op_heartbeat_millis r) (op_devices r) (op_device_memory_bytes r) (op_gpu r)
    (op_publish_once r) (op_supersede_after r).
#[global] Instance upd_op_cluster : Upd op_cluster := ltac:(derive_upd).
#[global] Instance upd_op_host : Upd op_host := ltac:(derive_upd).
#[global] Instance upd_op_port : Upd op_port := ltac:(derive_upd).
#[global] Instance upd_op_rack : Upd op_rack := ltac:(derive_upd).
#[global] Instance upd_op_publisher : Upd op_publisher := ltac:(derive_upd).
#[global] Instance upd_op_generation : Upd op_generation := ltac:(derive_upd).
#[global] Instance upd_op_ttl_millis : Upd op_ttl_millis := ltac:(derive_upd).
#[global] Instance upd_op_heartbeat_millis : Upd op_heartbeat_millis := ltac:(derive_upd).
#[global] Instance upd_op_devices : Upd op_devices := ltac:(derive_upd).
#[global] Instance upd_op_device_memory_bytes : Upd op_device_memory_bytes := ltac:(derive_upd).
#[global] Instance upd_op_gpu : Upd op_gpu := ltac:(derive_upd).
#[global] Instance upd_op_publish_once : Upd op_publish_once := ltac:(derive_upd).
#[global] Instance upd_op_supersede_after : Upd op_supersede_after := ltac:(derive_upd).

Definition default_options : Options :=
  MkOptions "cluster-fabric-lab" "127.0.0.1" 0 "rack-000" "rack-publisher" 1 30000 1000 8
    (32 * 1024 * 1024 * 1024) false false 0.

Definition usage : string := concat_text (line <$>
  ["cluster_fabric_rack_agent [options]";
   "  --cluster <id>        cluster identity (default cluster-fabric-lab)";
   "  --coordinator <h:p>   coordinator endpoint, for example 127.0.0.1:50051";
   "  --rack <id>           rack identity (default rack-000)";
   "  --publisher <id>      durable publisher authority (default rack-publisher)";
   "  --generation <n>      rack generation to publish (default 1)";
   "  --ttl <ms>            evidence time-to-live (default 30000)";
   "  --heartbeat <ms>      heartbeat interval (default 1000)";
   "  --devices <n>         accelerator count in the synthetic composition (default 8)";
   "  --device-memory <mb>  device memory per accelerator (default 32768)";
   "  --gpu                 measure the local CUDA device and publish MEASURED evidence";
   "  --supersede-after <n> advance the rack generation after n publications";
   "  --publish-once        publish once and exit";
   "  --help                print this text"]%string).

Definition parse_u64 : string → option N := parse_bounded 1000000000000.

Definition parse_endpoint (text : string) : option (string * N) :=
  match split_endpoint text with
  | None => None
  | Some (host, port_text) =>
      match parse_u64 port_text with
      | None => None
      | Some port =>
          if (port =? 0) || (65535 <? port) || is_empty host then None else Some (host, port)
      end
  end.

Definition refused {A} : Parsed A := inl (EmptyString, EmptyString).

(** An option with a number, which [store] puts where it belongs. *)
Definition number (text : string) (store : N → option Options) : option Options := parse_u64 text ≫= store.

(** The options with one value. *)
Definition with_value (arg value : string) (o : Options) : option (option Options) :=
  if bool_decide (arg = "--cluster") then Some (Some (o <| op_cluster := value |>)) else
  if bool_decide (arg = "--rack") then Some (Some (o <| op_rack := value |>)) else
  if bool_decide (arg = "--publisher") then Some (Some (o <| op_publisher := value |>)) else
  if bool_decide (arg = "--generation") then
    Some (number value (λ n, Some (o <| op_generation := n |>))) else
  if bool_decide (arg = "--ttl") then
    Some (number value (λ n, Some (o <| op_ttl_millis := Z.of_N n |>))) else
  if bool_decide (arg = "--heartbeat") then
    Some (number value (λ n, if n =? 0 then None else Some (o <| op_heartbeat_millis := Z.of_N n |>))) else
  if bool_decide (arg = "--devices") then
    Some (number value (λ n, Some (o <| op_devices := n |>))) else
  if bool_decide (arg = "--device-memory") then
    Some (number value (λ n, Some (o <| op_device_memory_bytes := (n * 1024 * 1024) mod 2 ^ 64 |>))) else
  if bool_decide (arg = "--supersede-after") then
    Some (number value (λ n, Some (o <| op_supersede_after := n |>)))
  else None.

Fixpoint parse_arguments (args : list string) (o : Options) : Parsed Options :=
  match args with
  | [] => if op_port o =? 0 then refused else inr o
  | arg :: rest =>
      if bool_decide (arg = "--help") || bool_decide (arg = "-h") then inl (usage, EmptyString) else
      if bool_decide (arg = "--coordinator") then
        match rest with
        | [] => inl (EmptyString, line "invalid coordinator endpoint: ")
        | text :: rest =>
            match parse_endpoint text with
            | None => inl (EmptyString, line ("invalid coordinator endpoint: " +:+ text))
            | Some (host, port) => parse_arguments rest (o <| op_host := host |> <| op_port := port |>)
            end
        end else
      if bool_decide (arg = "--gpu") then parse_arguments rest (o <| op_gpu := true |>) else
      if bool_decide (arg = "--publish-once") then parse_arguments rest (o <| op_publish_once := true |>) else
      match rest with
      | value :: rest' =>
          match with_value arg value o with
          | Some (Some o) => parse_arguments rest' o
          | Some None => refused
          | None => inl (usage, line ("unknown option: " +:+ arg))
          end
      | [] =>
          match with_value arg EmptyString o with
          | Some _ => refused
          | None => inl (usage, line ("unknown option: " +:+ arg))
          end
      end
  end.

Definition parse_options (args : list string) : Parsed Options := parse_arguments args default_options.

(** ** Its configuration *)

Definition synthetic_composition (o : Options) : RackCompositionSummary :=
  MkComposition
    [MkAccelerator Vendor_Other "synthetic-accelerator" (Some (op_devices o mod 2 ^ 32))
       (Some (op_device_memory_bytes o))]
    (Some 2) (Some 128) (Some (1024 * 1024 * 1024 * 1024)) (Some 2) None
    "synthetic-rack-agent-composition" Prov_Synthetic.

(** The readings of the clock, in the order they are taken. *)
Record Moments := MkMoments {
  mo_probe : Timestamp;
  mo_endpoint : Timestamp;
  mo_hint : Timestamp;
  mo_connect : Timestamp;
  mo_publish : Timestamp;
  mo_supersede : Timestamp;
  mo_republish : Timestamp;
  mo_beats : list Timestamp
}.

Definition measured (o : Options) (probe : CudaProbeResult) : bool := op_gpu o && pb_success probe.

Definition configuration (cluster : ClusterId) (rack : RackId) (publisher : RackPublisherId) (o : Options)
    (probe : CudaProbeResult) (moments : Moments) : RackAgentConfig :=
  let m := measured o probe in
  let generation := MkCtr (op_generation o) in
  let provenance := if m then Prov_Measured else Prov_Synthetic in
  MkAgentConfig cluster rack generation publisher None (op_host o) (op_port o) (op_ttl_millis o)
    "cluster-fabric:rack-agent" RL_Ready Health_Healthy Reach_Reachable
    (if m then rr_composition (make_cuda_rack_reference (mo_probe moments) 0 probe rack generation publisher)
     else synthetic_composition o)
    [MkEndpoint (MkId (if m then "gpu0" else "fabric0")) None None
       (if m then Conn_DirectFabric else Conn_Unknown)
       (stamp_make provenance (mo_endpoint moments) (op_ttl_millis o))]
    [MkHint FD_Rack (MkId (op_rack o)) (stamp_make provenance (mo_hint moments) (op_ttl_millis o))]
    [] [] [].

Section main.
(** The text of the last socket error, the name of the build, and how a stream
    prints a [double]. *)
Context (socket_error_text build_identity : string) (show_double : double → string).

Definition probe_text (o : Options) (probe : CudaProbeResult) : string :=
  if negb (op_gpu o) then "" else
  if pb_success probe then
    row "gpu              " (cd_name (pb_device probe) +:+ " (" +:+ cd_uuid (pb_device probe) +:+ ")") +:+
    row "gpu memory       " (to_decimal (cd_total_memory_bytes (pb_device probe)) +:+ " bytes") +:+
    row "probe            " ("h2d " +:+ show_double (pb_h2d_millis probe) +:+ " ms kernel " +:+
      show_double (pb_kernel_millis probe) +:+ " ms d2h " +:+ show_double (pb_d2h_millis probe) +:+
      " ms max_abs_error " +:+ show_double (pb_max_abs_error probe) +:+ " digest " +:+
      to_decimal (pb_output_digest probe))
  else
    row "gpu              " ("unavailable (" +:+ pb_reason probe +:+ ": " +:+ pb_detail probe +:+
      "); publishing UNKNOWN device facts rather than inventing them").

(** The heartbeats: until one is refused, or the program is asked to stop. *)
Fixpoint beat (beats : list Timestamp) (count : N) (err : string) (a : Agent) : N * string * Agent :=
  match beats with
  | [] => (count, err, a)
  | now :: beats =>
      let '(result, a) := heartbeat socket_error_text now a in
      if negb (accepted result) then
        (count, err +:+ line ("heartbeat refused: " +:+ string_of_rejection_reason (mr_reason result) +:+ " " +:+
           er_message (mr_error result)), a)
      else beat beats (count + 1) err a
  end.

(** The connection of a new agent and what follows it. *)
Definition serve (o : Options) (moments : Moments) (dial : Dial) (out : string) (a : Agent) :
    ToolReport * Agent :=
  let '(connected, a) := connect socket_error_text build_identity dial (mo_connect moments) a in
  let st := ag_status a in
  if negb connected then
    (MkToolReport 3 out (line ("connect failed: " +:+ string_of_agent_state (ru_state st) +:+ " " +:+
       string_of_protocol_status (ru_transport st) +:+ " " +:+ ru_detail st)), a) else
  let out := out +:+ row "connected        " ("coordinator epoch " +:+ ctr_str (ru_coordinator_epoch st) +:+
    " cluster epoch " +:+ ctr_str (ru_cluster_epoch st) +:+ " topology epoch " +:+
    ctr_str (ru_topology_epoch st)) in
  let '(published, a) := publish socket_error_text (mo_publish moments) a in
  if negb (accepted published) then
    (MkToolReport 4 out (line ("publish refused: " +:+ string_of_rejection_reason (mr_reason published) +:+ " " +:+
       er_message (mr_error published))), stop a) else
  let publications := 1 in
  let out := out +:+ row "published        " ("generation " +:+ ctr_str (mr_cluster_generation published) +:+
    " membership " +:+ ctr_str (mr_membership_generation published) +:+ " lifecycle " +:+
    string_of_cluster_lifecycle (mr_lifecycle published)) in
  let '(out, a) :=
    if negb (op_supersede_after o =? 0) && (op_supersede_after o <=? publications) then
      let '(superseded, a) := supersede socket_error_text (mo_supersede moments) (mo_republish moments)
        (MkCtr ((op_generation o + 1) mod 2 ^ 64)) a in
      (out +:+ row "superseded       " (string_of_mutation_outcome (mr_outcome superseded) +:+ " " +:+
         string_of_rejection_reason (mr_reason superseded)), a)
    else (out, a) in
  if op_publish_once o then (MkToolReport 0 out "", stop a) else
  let '(heartbeats, err, a) := beat (mo_beats moments) 0 "" a in
  let a := stop a in
  (MkToolReport 0 (out +:+ row "stopped          " ("publications " +:+ to_decimal publications +:+
     " heartbeats " +:+ to_decimal heartbeats +:+ " state " +:+ string_of_agent_state (ru_state (ag_status a))))
     err, a).

(** [main]: [probe] is what the probe would find, [boot] the incarnation that is
    generated, [sends] whether the writes succeed. *)
Definition agent_main (args : list string) (probe : CudaProbeResult) (moments : Moments) (dial : Dial)
    (boot : RackAgentBootId) (sends : list bool) : ToolReport * option Agent :=
  match parse_options args with
  | inl (out, err) => (MkToolReport 2 (out +:+ usage) err, None)
  | inr o =>
      match parse_id (op_cluster o), parse_id (op_rack o), parse_id (op_publisher o) with
      | Some cluster, Some rack, Some publisher =>
          let config := configuration cluster rack publisher o probe moments in
          let '(report, a) := serve o moments dial (probe_text o probe) (new_agent config boot sends) in
          (report, Some a)
      | _, _, _ => (MkToolReport 2 "" (line "invalid cluster, rack or publisher identity"), None)
      end
  end.

End main.
End Publishing.
