(* ===== verification/ProgramProofs.v ===== *)
(** * The programs

    The coordinator program serves a declared cluster, whatever its sessions do
    while it starts, unless it runs quietly; and what the rack agent program
    publishes and supersedes. *)

From S2P Require Import Prelude Identity Counter Taxonomy Evidence Types State Readiness Invariant Explain.
From S2P Require Import Queries EngineBase EngineRack EngineCluster Rollback Durable Commit CommitProofs Reachable.
From S2P Require Import Snapshot Scenario Wire Codec WireStream WireRecords WireMessages Frame Persist Stores.
From S2P Require Import Process ProcessProofs Transport Session Agent Inspect Programs.

Local Open Scope N_scope.

(** ** An accepted mutation leaves the cluster declared *)

Section accepted_mutation.
#[local] Opaque evaluate_readiness check_invariants.

Lemma undeclared_refused ctx req :
  ctr_known (cs_epoch (cx_state ctx)) = false → rq_kind req ≠ MK_DeclareCluster →
  ∃ r, apply_request ctx req = (ctx, r) ∧ mr_outcome r = Out_Rejected.
Proof.
  intros He Hk. unfold apply_request. rewrite decide_True.
  - eexists. split; [done|]. apply validate_common_outcome. unfold validate_common. rewrite He.
    repeat case_match; done.
  - unfold validate_common. rewrite He. repeat case_match; done.
Qed.

Lemma rejected_request now req c ctx r :
  apply_request (initial_context c now) req = (ctx, r) → mr_outcome r = Out_Rejected →
  accepted (snd (apply_and_commit now req c)) = false.
Proof.
  intros E Hr. unfold apply_and_commit. rewrite E, decide_True by done.
  unfold accepted. cbn. by rewrite Hr.
Qed.

Lemma candidate_accepted kind now ctx res c :
  accepted (snd (commit_candidate kind now ctx res c)) = true →
  cs_epoch (co_canonical (fst (commit_candidate kind now ctx res c))) = cs_epoch (cx_state ctx).
Proof.
  unfold commit_candidate. fold (candidate ctx). case_match; [done|]. case_match; [|done].
  destruct (persist_now _) as [c1 [failed|]] eqn:Hp; cbn.
  - unfold accepted. cbn. by rewrite (persist_now_rejects _ _ _ Hp).
  - intros _. by rewrite (proj1 (persist_now_frame _ _ _ Hp)).
Qed.

Lemma accepted_leaves_declared now req c :
  accepted (snd (apply_and_commit now req c)) = true →
  declared (co_canonical (fst (apply_and_commit now req c))).
Proof.
  intros Ha. destruct (ctr_known (cs_epoch (co_canonical c))) eqn:He.
  - by apply (step_advances c); [constructor|].
  - destruct (decide (rq_kind req = MK_DeclareCluster)) as [Hk|Hk].
    + destruct (is_valid_id (id_value (rq_cluster req))) eqn:Hv.
      * assert (E : ∃ ctx, apply_and_commit now req c = commit_candidate (rq_kind req) now ctx accepted_change c ∧
          ctr_known (cs_epoch (cx_state ctx)) = true).
        { unfold apply_and_commit. rewrite apply_request_declare by done. eexists. split; [done|].
          cbn. by case_match. }
        destruct E as (ctx&E&Hk'). rewrite E in *. unfold declared. by rewrite candidate_accepted.
      * destruct (apply_request_declare_invalid (initial_context c now) req Hk Hv) as (r&E&Hr).
        by rewrite (rejected_request _ _ _ _ _ E Hr) in Ha.
    + destruct (undeclared_refused (initial_context c now) req He Hk) as (r&E&Hr).
      by rewrite (rejected_request _ _ _ _ _ E Hr) in Ha.
Qed.
End accepted_mutation.

#[local] Opaque apply_and_commit apply_fence.

(** ** The coordinator program *)

Definition serves (p : Process) : Prop := declared (co_canonical (pr_coordinator p)).

(** Whoever was told of an accepted mutation talks to a declared cluster. *)
Definition answers_declared (p : Process) : Prop :=
  ∀ slot r, slot_result slot p = Some r → accepted r = true → serves p.

(** Nothing has been accepted before the start. *)
Definition unstarted (p : Process) : Prop :=
  pr_running p = false ∧ pr_committing p = false ∧ pr_joinable p = false ∧ pr_accepting p = false ∧
  pr_slots p = ∅.

(** One event of a session or of the commit thread. *)
Lemma others_keep e p p' :
  Coordinating.others_event e = true → perform e p = Some p' → answers_declared p →
  answers_declared p' ∧ (serves p → serves p').
Proof.
  intros He Hp Ha. destruct e as [| |request|boot reason| |now later| | | |]; try done; cbn [perform] in Hp.
  - injection Hp as <-. destruct (submit_spec request p) as [->|(_&_&->)]; [done|].
    split; [|done]. intros slot r. unfold slot_result. cbn.
    destruct (decide (slot = pr_next_slot p)) as [->|Hn].
    + by rewrite lookup_insert_eq.
    + rewrite lookup_insert_ne by done. exact (Ha slot r).
  - injection Hp as <-. by destruct (fence_spec boot reason p) as [->|(_&->)].
  - destruct (take_unchanged _ _ Hp) as (Ec&Es&_). unfold answers_declared, slot_result, serves.
    by rewrite Ec, Es.
  - unfold commit_apply in Hp. destruct (pr_committing p); [|done]. cbn [negb] in Hp.
    destruct (pr_hand p) as [[request slot|boot reason|]|]; [| | |done].
    + destruct (apply_and_commit now request (pr_coordinator p)) as [c result] eqn:E.
      pose proof (accepted_leaves_declared now request (pr_coordinator p)) as Hd.
      pose proof (step_advances _ _ (step_mutation now request (pr_coordinator p))) as Hs.
      rewrite E in Hd, Hs. cbn [fst snd] in *. injection Hp as <-. unfold serves. cbn.
      split; [|by intros [? _]%Hs]. intros slot' r. unfold slot_result, serves. cbn.
      destruct (decide (slot' = slot)) as [->|Hn].
      * rewrite lookup_insert_eq. by intros [= <-].
      * rewrite lookup_insert_ne by done. intros Hr Hacc. by apply Hs, (Ha slot' r).
    + injection Hp as <-. unfold serves. cbn.
      pose proof (step_advances _ _ (step_fence now later boot reason (pr_coordinator p))) as Hs.
      split; [|by intros [? _]%Hs]. intros slot r Hr Hacc. apply Hs. by apply (Ha slot r).
    + by injection Hp as <-.
Qed.

Lemma others_keep_unstarted e p p' :
  Coordinating.others_event e = true → perform e p = Some p' → unstarted p → unstarted p'.
Proof.
  intros He Hp (Hr&Hc&Hj&Hac&Hs).
  destruct e as [| |request|boot reason| |now later| | | |]; try done; cbn [perform] in Hp.
  - injection Hp as <-. by destruct (submit_spec request p) as [->|(Hr'&_)]; [|congruence].
  - injection Hp as <-. by destruct (fence_spec boot reason p) as [->|(_&->)].
  - unfold commit_take in Hp. by rewrite Hc in Hp.
  - unfold commit_apply in Hp. by rewrite Hc in Hp.
Qed.

Lemma submit_refused request p r : snd (submit request p) = inl r → accepted r = false.
Proof.
  unfold submit. destruct (submit_refusal request p) eqn:E; [|done]. intros [= <-].
  unfold submit_refusal in E. repeat case_match; by simplify_eq.
Qed.

Section coordinator_program.
Context (build_identity socket_error_text : string) (cluster : ClusterId) (o : Coordinating.Options).
Import Coordinating.

Let step := main_step build_identity socket_error_text cluster o.

(** What each phase of the main thread relies on. *)
Definition phase_holds (phase : Phase) (p : Process) : Prop :=
  match phase with
  | Ph_Starting => unstarted p
  | Ph_Listening | Ph_Up | Ph_Declaring _ => answers_declared p
  | Ph_Serving | Ph_StopFlagged _ | Ph_StopQueued _ =>
      answers_declared p ∧ (op_quiet o = false → serves p)
  | Ph_StartFailed | Ph_Exit _ => True
  end.

Definition program_holds (g : Program) : Prop := phase_holds (pg_phase g) (pg_process g).

Lemma others_keep_phase e phase p p' :
  others_event e = true → perform e p = Some p' → phase_holds phase p → phase_holds phase p'.
Proof.
  intros He Hp. pose proof (others_keep _ _ _ He Hp) as Hk.
  pose proof (others_keep_unstarted _ _ _ He Hp) as Hu.
  destruct phase; cbn; try done; naive_solver.
Qed.

(** The result of the declaration. *)
Lemma declared_holds result g :
  answers_declared (pg_process g) → (accepted result = true → serves (pg_process g)) →
  program_holds (declared o result g).
Proof.
  intros Ha Hr. unfold declared, program_holds.
  destruct (accepted result) eqn:E, (op_quiet o) eqn:Eq; cbn; rewrite ?Eq; naive_solver.
Qed.

(** A step of the main thread that is an event of the process. *)
Lemma advance_spec from e then_ g g' :
  advance from e then_ g = Some g' →
  ∃ p, pg_phase g = from ∧ perform e (pg_process g) = Some p ∧ g' = then_ (g <| pg_process := p |>).
Proof.
  unfold advance. case_decide; [|done]. destruct (perform e (pg_process g)) as [p|] eqn:E; [|done].
  cbn. intros [= <-]. by exists p.
Qed.

Lemma launch_holds input p p' :
  unstarted p → start_launch input p = Some p' → answers_declared p'.
Proof.
  intros (_&_&Hj&Ha&Hs). unfold start_launch. case_decide; [|done].
  destruct (start_refusal input p); intros [= <-]; intros slot r; unfold slot_result; cbn; by rewrite Hs.
Qed.

Lemma step_holds s g g' : step s g = Some g' → program_holds g → program_holds g'.
Proof.
  unfold step, main_step. destruct s as [input|listens port| |now| |n| | |e]; intros Hs Hg.
  - apply advance_spec in Hs as (p&Hph&Hp&->). unfold program_holds in *. rewrite Hph in Hg.
    destruct (si_sockets input); [|done]. by apply (launch_holds input (pg_process g)).
  - apply advance_spec in Hs as (p&Hph&Hp&->). unfold program_holds in *. rewrite Hph in Hg.
    cbn [perform] in Hp. unfold start_listen in Hp. destruct (decide _); [|done].
    destruct listens; by injection Hp as <-.
  - apply advance_spec in Hs as (p&Hph&Hp&->). done.
  - destruct (decide (pg_phase g = Ph_Up)) as [Hph|]; [|done].
    unfold program_holds in Hg. rewrite Hph in Hg. cbn in Hg.
    destruct (ctr_known _) eqn:Ek; [injection Hs as <-; by split|].
    set (request := declaration cluster o _ now) in Hs. clearbody request.
    pose proof (others_keep (Ev_Submit request) (pg_process g) _ eq_refl eq_refl Hg) as [Ha _].
    pose proof (submit_refused request (pg_process g)) as Hr.
    destruct (submit request (pg_process g)) as [p [result|slot]]; injection Hs as <-; [|done].
    apply declared_holds; [done|]. by rewrite (Hr result eq_refl).
  - destruct (pg_phase g) eqn:Hph; try done. unfold program_holds in Hg. rewrite Hph in Hg. cbn in Hg.
    destruct (slot_result slot (pg_process g)) as [result|] eqn:Er; [|done]. injection Hs as <-.
    apply declared_holds; [done|]. by apply (Hg slot).
  - apply advance_spec in Hs as (p&Hph&Hp&->). unfold program_holds in *. rewrite Hph in Hg.
    cbn [perform] in Hp. unfold stop_flag in Hp. destruct (decide _); [|done]. by injection Hp as <-.
  - destruct (pg_phase g) eqn:Hph; try done. apply advance_spec in Hs as (p&_&Hp&->).
    unfold program_holds in *. rewrite Hph in Hg.
    cbn [perform] in Hp. unfold stop_queue in Hp. destruct (decide _); [|done]. by injection Hp as <-.
  - destruct (pg_phase g) eqn:Hph; try done. by apply advance_spec in Hs as (p&_&Hp&->).
  - destruct (others_event e) eqn:He; [|done].
    destruct (perform e (pg_process g)) as [p|] eqn:Hp; [|done]. injection Hs as <-.
    by apply (others_keep_phase e _ (pg_process g)).
Qed.

Lemma run_holds steps : ∀ g g',
  main_run build_identity socket_error_text cluster o steps g = Some g' →
  program_holds g → program_holds g'.
Proof.
  induction steps as [|s steps IH]; intros g g'; cbn; [by intros [= <-]|].
  destruct (main_step _ _ _ _ s g) as [g1|] eqn:E; [|done]. cbn. intros Hr Hg.
  by apply (IH g1), (step_holds s g).
Qed.

Lemma start_holds save : program_holds (main_start cluster o save).
Proof. by split_and!. Qed.

End coordinator_program.

(** The main thread is past the start: it waits for the signal or stops. *)
Definition serving (phase : Coordinating.Phase) : bool :=
  match phase with
  | Coordinating.Ph_Serving | Coordinating.Ph_StopFlagged _ | Coordinating.Ph_StopQueued _ => true
  | _ => false
  end.

(** C35: the coordinator program serves a declared cluster.  Whatever the
    options, what the store loads and saves, the clock, and however the sessions
    and the commit thread interleave with the main thread, a program that is not
    quiet and waits for its signal or stops has a canonical state whose cluster
    epoch is known: recovery had it, its own declaration was accepted, or that
    of a peer was. *)
Theorem coordinator_serves_declared build_identity socket_error_text cluster o save steps g :
  Coordinating.main_run build_identity socket_error_text cluster o steps
    (Coordinating.main_start cluster o save) = Some g →
  Coordinating.op_quiet o = false → serving (Coordinating.pg_phase g) = true →
  ctr_known (cs_epoch (co_canonical (pr_coordinator (Coordinating.pg_process g)))) = true.
Proof.
  intros Hr%run_holds Hq Hs; [|apply start_holds]. unfold program_holds in Hr.
  destruct (Coordinating.pg_phase g); try done; by apply Hr.
Qed.

(** A start without a stored state, answered by the commit thread. *)
Definition fresh_steps : list Coordinating.Step :=
  [Coordinating.St_Launch (MkStart true (Some (MkLoad PS_MissingFile None "")) t0);
   Coordinating.St_Listen true 5000; Coordinating.St_Declare t0; Coordinating.St_Other Ev_Take;
   Coordinating.St_Other (Ev_Apply t0 t0); Coordinating.St_Answer].

Definition stored_options (quiet : bool) : Coordinating.Options :=
  Coordinating.MkOptions "lab" "127.0.0.1" 0 "/var/lib/state" true 1 true true quiet.

Definition fresh_program (quiet : bool) (save : PersistedState → SaveOutcome) : Coordinating.Program :=
  let start := Coordinating.main_start (MkId "lab") (stored_options quiet) save in
  default start (Coordinating.main_run "" "" (MkId "lab") (stored_options quiet) fresh_steps start).

Lemma coordinator_serves_declared_witness :
  Coordinating.pg_phase (fresh_program false (λ _, SaveOk)) = Coordinating.Ph_Serving ∧
  ctr_known (cs_epoch (co_canonical (pr_coordinator (Coordinating.pg_process
    (fresh_program false (λ _, SaveOk)))))) = true.
Proof.
  split; [by vm_compute|].
  apply (coordinator_serves_declared "" "" (MkId "lab") (stored_options false) (λ _, SaveOk) fresh_steps).
  - by vm_compute.
  - done.
  - by vm_compute.
Defined.

(** A declaration the store refuses ends the program with the documented code,
    but a quiet program goes on and serves a cluster that is not declared. *)
Lemma quiet_program_serves_undeclared :
  let broken := λ _ : PersistedState, SaveFailed "no space left" "io_error" in
  Coordinating.pg_phase (fresh_program false broken) = Coordinating.Ph_Exit 4 ∧
  Coordinating.pg_phase (fresh_program true broken) = Coordinating.Ph_Serving ∧
  ctr_known (cs_epoch (co_canonical (pr_coordinator (Coordinating.pg_process
    (fresh_program true broken))))) = false.
Proof. by vm_compute. Qed.

(** ** The rack agent program *)

(** [--supersede-after n] with [n] above one never supersedes: the program counts
    one publication and compares once. *)
Theorem supersede_after_many_ignored socket_error_text build_identity o moments dial out a :
  1 < Publishing.op_supersede_after o →
  Publishing.serve socket_error_text build_identity o moments dial out a =
  Publishing.serve socket_error_text build_identity
    (Publishing.MkOptions (Publishing.op_cluster o) (Publishing.op_host o) (Publishing.op_port o)
       (Publishing.op_rack o) (Publishing.op_publisher o) (Publishing.op_generation o)
       (Publishing.op_ttl_millis o) (Publishing.op_heartbeat_millis o) (Publishing.op_devices o)
       (Publishing.op_device_memory_bytes o) (Publishing.op_gpu o) (Publishing.op_publish_once o) 0)
    moments dial out a.
Proof.
  intros Hn. unfold Publishing.serve. cbn [Publishing.op_supersede_after].
  by rewrite (proj2 (N.leb_gt (Publishing.op_supersede_after o) 1) Hn), andb_false_r.
Qed.

(** A probe that failed contributes no device, no measured evidence and no health
    to the reference made from it. *)
Lemma failed_probe_invents_nothing now ordinal probe rack generation publisher :
  Probe.pb_success probe = false →
  let r := Probe.make_cuda_rack_reference now ordinal probe rack generation publisher in
  rc_accelerators (rr_composition r) = [] ∧ rc_provenance (rr_composition r) = Prov_Unknown ∧
  rr_evidence r = stamp_unknown ∧ rr_health r = Health_Unknown ∧
  Forall (λ e, ep_evidence e = stamp_unknown) (rr_endpoints r).
Proof. intros H. unfold Probe.make_cuda_rack_reference. rewrite H. cbn. repeat constructor. Qed.

(** The agent does not use that reference when the probe failed: with [--gpu] it
    publishes the same device facts as without, from its options. *)
Lemma failed_probe_publishes_options cluster rack publisher o probe moments :
  Probe.pb_success probe = false →
  let config := Publishing.configuration cluster rack publisher o probe moments in
  ac_composition config = Publishing.synthetic_composition o ∧
  rc_accelerators (ac_composition config) =
    [MkAccelerator Vendor_Other "synthetic-accelerator" (Some (Publishing.op_devices o mod 2 ^ 32))
       (Some (Publishing.op_device_memory_bytes o))].
Proof.
  intros H. unfold Publishing.configuration, Publishing.measured. by rewrite H, andb_false_r.
Qed.
